(** * fwupd: a shallow embedding of selected plugin and front-end code

    The development follows the layout of the sources:

    - [GLib]             errors ([GError]) and the result/state notation
                         shared by all the embedded functions;
    - [FuCommonGuid]     libfwupdplugin/fu-common-guid.c;
    - [Fwupd]            device and install flags as 64-bit masks;
    - [Printf]           the conversions used in error messages;
    - [FuProgress]       the progress object, as the calls made on it;
    - [ForLoop]          the index lists of counted loops;
    - [FuFrescoPd]       plugins/fresco-pd/fu-fresco-pd-device.c;
    - [FuRts54hub]       plugins/rts54hub/fu-rts54hub-rtd21xx-foreground.c;
    - [ProgressContract] the progress reported by the two updates;
    - [FuLogitechHidpp]  plugins/logitech-hidpp/fu-logitech-hidpp-bootloader.c;
    - [FuUtilCommon]     what the two command-line front ends share;
    - [FuTool]           src/fu-tool.c (fwupdtool);
    - [Reinstall]        a re-install, from the front end to the device;
    - [FuUtil]           src/fu-util.c (fwupdmgr).

    In each module the definitions, read off the C functions of the same
    name, come before the theorems about them, one group of functions after
    the other. *)

From Stdlib Require Import ZArith String Ascii Bool Lia Sorted List.
From Stdlib.Strings Require Import Byte.
Import ListNotations.

Local Open Scope Z_scope.

(* ------------------------------------------------------------------------- *)
(** * GLib: errors and fallible, stateful computations                        *)
(* ------------------------------------------------------------------------- *)

Module GLib.

(** The codes of the [FWUPD_ERROR] domain that the embedded sources raise or
    test for. *)
Inductive FwupdError : Type :=
| FWUPD_ERROR_INTERNAL
| FWUPD_ERROR_INVALID_ARGS
| FWUPD_ERROR_INVALID_DATA
| FWUPD_ERROR_INVALID_FILE
| FWUPD_ERROR_NOT_FOUND
| FWUPD_ERROR_NOT_REACHABLE
| FWUPD_ERROR_NOT_SUPPORTED
| FWUPD_ERROR_NOTHING_TO_DO
| FWUPD_ERROR_PERMISSION_DENIED
| FWUPD_ERROR_AUTH_FAILED
| FWUPD_ERROR_TIMED_OUT
| FWUPD_ERROR_READ
| FWUPD_ERROR_WRITE
| FWUPD_ERROR_BATTERY_LEVEL_TOO_LOW
| FWUPD_ERROR_AC_POWER_REQUIRED.

Definition FwupdError_eqb (a b : FwupdError) : bool :=
  match a, b with
  | FWUPD_ERROR_INTERNAL, FWUPD_ERROR_INTERNAL
  | FWUPD_ERROR_INVALID_ARGS, FWUPD_ERROR_INVALID_ARGS
  | FWUPD_ERROR_INVALID_DATA, FWUPD_ERROR_INVALID_DATA
  | FWUPD_ERROR_INVALID_FILE, FWUPD_ERROR_INVALID_FILE
  | FWUPD_ERROR_NOT_FOUND, FWUPD_ERROR_NOT_FOUND
  | FWUPD_ERROR_NOT_REACHABLE, FWUPD_ERROR_NOT_REACHABLE
  | FWUPD_ERROR_NOT_SUPPORTED, FWUPD_ERROR_NOT_SUPPORTED
  | FWUPD_ERROR_NOTHING_TO_DO, FWUPD_ERROR_NOTHING_TO_DO
  | FWUPD_ERROR_PERMISSION_DENIED, FWUPD_ERROR_PERMISSION_DENIED
  | FWUPD_ERROR_AUTH_FAILED, FWUPD_ERROR_AUTH_FAILED
  | FWUPD_ERROR_TIMED_OUT, FWUPD_ERROR_TIMED_OUT
  | FWUPD_ERROR_READ, FWUPD_ERROR_READ
  | FWUPD_ERROR_WRITE, FWUPD_ERROR_WRITE
  | FWUPD_ERROR_BATTERY_LEVEL_TOO_LOW, FWUPD_ERROR_BATTERY_LEVEL_TOO_LOW
  | FWUPD_ERROR_AC_POWER_REQUIRED, FWUPD_ERROR_AC_POWER_REQUIRED => true
  | _, _ => false
  end.

Lemma FwupdError_eqb_eq (a b : FwupdError) :
  FwupdError_eqb a b = true <-> a = b.
Proof. destruct a, b; simpl; split; intro H; try reflexivity; discriminate H. Qed.

(** A [GError] lives in a domain.  Errors of the [FWUPD_ERROR] domain carry a
    [FwupdError]; errors raised by lower layers (GIO, libusb) carry the name of
    their own domain and a numeric code. *)
Inductive GErrorCode : Type :=
| InFwupdDomain (code : FwupdError)
| InOtherDomain (quark : string) (code : Z).

Record GError : Type := mkGError {
  error_code : GErrorCode;
  error_message : string
}.

(** [g_set_error (error, FWUPD_ERROR, code, msg)] *)
Definition fwupd_error (code : FwupdError) (msg : string) : GError :=
  mkGError (InFwupdDomain code) msg.

(** [g_error_matches (error, FWUPD_ERROR, code)] *)
Definition g_error_matches (e : GError) (code : FwupdError) : bool :=
  match error_code e with
  | InFwupdDomain c => FwupdError_eqb c code
  | InOtherDomain _ _ => false
  end.

(** [g_prefix_error (error, prefix)]: the code is kept, the message grows at
    the front. *)
Definition g_prefix_error (prefix : string) (e : GError) : GError :=
  mkGError (error_code e) (String.append prefix (error_message e)).

Lemma g_error_matches_spec (e : GError) (code : FwupdError) :
  g_error_matches e code = true <-> error_code e = InFwupdDomain code.
Proof.
  unfold g_error_matches. destruct (error_code e) as [c | q n].
  - rewrite FwupdError_eqb_eq. split; intro H; [now subst | now inversion H].
  - split; intro H; discriminate H.
Qed.

Lemma g_error_matches_prefix (p : string) (e : GError) (code : FwupdError) :
  g_error_matches (g_prefix_error p e) code = g_error_matches e code.
Proof. reflexivity. Qed.

(** The outcome of a [gboolean f (..., GError **error)] function: either the
    value it produced or the error it set. *)
Inductive Result (A : Type) : Type :=
| Ok (a : A)
| Failed (e : GError).
Arguments Ok {A} a.
Arguments Failed {A} e.

Definition is_ok {A : Type} (r : Result A) : bool :=
  match r with Ok _ => true | Failed _ => false end.

(** A C function working on an object of type [S]: it may change the object
    whether it succeeds or not, so the final state is returned on both
    paths. *)
Definition Run (S A : Type) : Type := S -> Result A * S.

Definition ret {S A : Type} (a : A) : Run S A := fun s => (Ok a, s).
Definition fail {S A : Type} (e : GError) : Run S A := fun s => (Failed e, s).
Definition bind {S A B : Type} (m : Run S A) (k : A -> Run S B) : Run S B :=
  fun s => match m s with
           | (Ok a, s') => k a s'
           | (Failed e, s') => (Failed e, s')
           end.
Definition get {S : Type} : Run S S := fun s => (Ok s, s).
Definition modify {S : Type} (f : S -> S) : Run S unit := fun s => (Ok tt, f s).

Lemma ret_inv {S A : Type} (a b : A) (s s' : S) :
  ret a s = (Ok b, s') -> a = b /\ s = s'.
Proof. unfold ret. intro H. injection H. auto. Qed.

(** A fallible call that does not touch the object. *)
Definition lift_result {S A : Type} (r : Result A) : Run S A := fun s => (r, s).

(** [if (!f (..., error)) { g_prefix_error (error, prefix); return FALSE; }] *)
Definition with_prefix {S A : Type} (prefix : string) (m : Run S A) : Run S A :=
  fun s => match m s with
           | (Ok a, s') => (Ok a, s')
           | (Failed e, s') => (Failed (g_prefix_error prefix e), s')
           end.

End GLib.

Import GLib.

Declare Scope run_scope.
Delimit Scope run_scope with run.
Notation "x <- m ;; k" := (bind m (fun x => k))
  (at level 61, m at next level, right associativity) : run_scope.
Notation "m ;;; k" := (bind m (fun _ => k))
  (at level 61, right associativity) : run_scope.

(* ------------------------------------------------------------------------- *)
(** * libfwupdplugin/fu-common-guid.c                                         *)
(* ------------------------------------------------------------------------- *)

Module FuCommonGuid.

(** [guint] arithmetic wraps modulo 2^32. *)
Definition guint_wrap (z : Z) : Z := z mod 2 ^ 32.

(** [buf[i]] for a [const guint8 *buf]; the caller owns at least 16 bytes, a
    read past the end of the model list yields 0. *)
Definition buf_at (buf : list byte) (i : nat) : Z :=
  Z.of_N (Byte.to_N (nth i buf x00)).

(** [for (guint i = ...; i < ...; i++) sum += buf[i];] with [count] iterations
    left. *)
Fixpoint sum_loop (buf : list byte) (i count : nat) (sum : Z) : Z :=
  match count with
  | O => sum
  | S count' => sum_loop buf (S i) count' (guint_wrap (sum + buf_at buf i))
  end.

Definition fu_common_guid_is_plausible (buf : list byte) : bool :=
  let sum := sum_loop buf 0 16 0 in
  if sum =? 0x00 then false
  else if sum <? 0xff then false
  else true.

(** The mathematical byte sum and the all-zero buffer, to state the
    property. *)
Definition byte_sum (buf : list byte) : Z :=
  fold_right (fun b acc => Z.of_N (Byte.to_N b) + acc) 0 buf.

Definition all_zero (buf : list byte) : Prop :=
  Forall (fun b => b = x00) buf.

Lemma byte_value_bounds (b : byte) : 0 <= Z.of_N (Byte.to_N b) <= 255.
Proof.
  pose proof (Byte.to_N_bounded b) as H. lia.
Qed.

Lemma byte_value_zero (b : byte) : Z.of_N (Byte.to_N b) = 0 -> b = x00.
Proof.
  intro H. assert (Hn : Byte.to_N b = Byte.to_N x00) by (simpl; lia).
  apply (f_equal Byte.of_N) in Hn. rewrite !Byte.of_to_N in Hn. now inversion Hn.
Qed.

Lemma byte_sum_bounds (buf : list byte) :
  0 <= byte_sum buf <= 255 * Z.of_nat (length buf).
Proof.
  induction buf as [| b buf IH]; simpl length; simpl byte_sum.
  - lia.
  - pose proof (byte_value_bounds b). lia.
Qed.

Lemma byte_sum_zero_iff (buf : list byte) : byte_sum buf = 0 <-> all_zero buf.
Proof.
  unfold all_zero. induction buf as [| b buf IH]; simpl.
  - split; [constructor | reflexivity].
  - pose proof (byte_value_bounds b). pose proof (byte_sum_bounds buf).
    split.
    + intro H1. constructor.
      * apply byte_value_zero. lia.
      * apply IH. lia.
    + intro H1. inversion H1; subst. simpl.
      apply IH. assumption.
Qed.

Lemma skipn_cons_nth (buf : list byte) (i : nat) :
  (i < length buf)%nat -> skipn i buf = nth i buf x00 :: skipn (S i) buf.
Proof.
  revert buf. induction i as [| i IH]; intros [| b buf] Hi; simpl in Hi; try lia.
  - reflexivity.
  - change (skipn (S i) (b :: buf)) with (skipn i buf).
    rewrite (IH buf) by lia. reflexivity.
Qed.

(** The loop computes the exact sum as long as it cannot exceed [guint]. *)
Lemma sum_loop_exact (buf : list byte) (count i : nat) (sum : Z) :
  (i + count <= length buf)%nat ->
  0 <= sum ->
  sum + 255 * Z.of_nat count < 2 ^ 32 ->
  sum_loop buf i count sum = sum + byte_sum (firstn count (skipn i buf)).
Proof.
  revert i sum. induction count as [| count IH]; intros i sum Hlen Hsum Hmax.
  - simpl. lia.
  - assert (Hi : (i < length buf)%nat) by lia.
    pose proof (skipn_cons_nth buf i Hi) as Hskip.
    pose proof (byte_value_bounds (nth i buf x00)) as Hb.
    fold (buf_at buf i) in Hb.
    cbn [sum_loop]. rewrite Hskip, firstn_cons.
    change (byte_sum (nth i buf x00 :: firstn count (skipn (S i) buf)))
      with (buf_at buf i + byte_sum (firstn count (skipn (S i) buf))).
    unfold guint_wrap. rewrite Z.mod_small by lia.
    rewrite IH by lia. lia.
Qed.

Lemma sum_loop_16 (buf : list byte) :
  length buf = 16%nat -> sum_loop buf 0 16 0 = byte_sum buf.
Proof.
  intro Hlen. rewrite sum_loop_exact by (rewrite ?Hlen; simpl; lia).
  simpl skipn. rewrite <- Hlen, firstn_all. lia.
Qed.

(** C1. For every 16-byte buffer, [fu_common_guid_is_plausible] returns TRUE
    if and only if the buffer is not all-zero and the sum of its bytes is at
    least 255; equivalently, it returns FALSE exactly when the byte sum is
    below 0xff. *)
Theorem guid_is_plausible_iff (buf : list byte) :
  length buf = 16%nat ->
  (fu_common_guid_is_plausible buf = true <->
     ~ all_zero buf /\ 255 <= byte_sum buf) /\
  (fu_common_guid_is_plausible buf = false <-> byte_sum buf < 0xff).
Proof.
  intro Hlen. unfold fu_common_guid_is_plausible.
  rewrite (sum_loop_16 buf Hlen).
  pose proof (byte_sum_zero_iff buf) as Hz.
  pose proof (byte_sum_bounds buf) as Hb.
  destruct (Z.eqb_spec (byte_sum buf) 0) as [H0 | H0].
  - split; split; intro H; try lia; try discriminate H; reflexivity.
  - destruct (Z.ltb_spec (byte_sum buf) 255) as [Hlt | Hge].
    + split; split; intro H; try lia; try discriminate H; reflexivity.
    + split; split; intro H; try lia; try discriminate H; try reflexivity.
      split; [| lia]. intro Hall. apply H0, Hz, Hall.
Qed.

Definition guid_sample : list byte :=
  [x12; x34; x56; x78; x9a; xbc; xde; xf0;
   x00; x00; x00; x00; x00; x00; x00; x01]%byte.

Lemma guid_is_plausible_iff_witness :
  length guid_sample = 16%nat /\
  fu_common_guid_is_plausible guid_sample = true /\
  ((fu_common_guid_is_plausible guid_sample = true <->
      ~ all_zero guid_sample /\ 255 <= byte_sum guid_sample) /\
   (fu_common_guid_is_plausible guid_sample = false <->
      byte_sum guid_sample < 0xff)).
Proof.
  split; [reflexivity |].
  split; [reflexivity |].
  apply (guid_is_plausible_iff guid_sample). reflexivity.
Defined.

End FuCommonGuid.

(* ------------------------------------------------------------------------- *)
(** * libfwupd: device and install flags                                      *)
(* ------------------------------------------------------------------------- *)

Module Fwupd.

(** Modelled from the spec: the [FWUPD_DEVICE_FLAG_*] constants are declared in
    libfwupd (fwupd-enums.h), which is not among the sources.  Every flag is
    one bit of a 64-bit mask; the flags are those of the data model, numbered
    in the order in which it lists them. *)
Inductive FwupdDeviceFlag : Type :=
| FWUPD_DEVICE_FLAG_UPDATABLE
| FWUPD_DEVICE_FLAG_UPDATABLE_HIDDEN
| FWUPD_DEVICE_FLAG_SUPPORTED
| FWUPD_DEVICE_FLAG_IS_BOOTLOADER
| FWUPD_DEVICE_FLAG_NEEDS_REBOOT
| FWUPD_DEVICE_FLAG_NEEDS_SHUTDOWN
| FWUPD_DEVICE_FLAG_NEEDS_ACTIVATION
| FWUPD_DEVICE_FLAG_WAIT_FOR_REPLUG
| FWUPD_DEVICE_FLAG_SIGNED_PAYLOAD
| FWUPD_DEVICE_FLAG_UNSIGNED_PAYLOAD
| FWUPD_DEVICE_FLAG_CAN_VERIFY
| FWUPD_DEVICE_FLAG_CAN_VERIFY_IMAGE
| FWUPD_DEVICE_FLAG_EMULATED
| FWUPD_DEVICE_FLAG_EMULATION_TAG
| FWUPD_DEVICE_FLAG_LOCKED
| FWUPD_DEVICE_FLAG_HAS_MULTIPLE_BRANCHES
| FWUPD_DEVICE_FLAG_REPORTED.

Definition device_flag_bit (f : FwupdDeviceFlag) : Z :=
  match f with
  | FWUPD_DEVICE_FLAG_UPDATABLE => 0
  | FWUPD_DEVICE_FLAG_UPDATABLE_HIDDEN => 1
  | FWUPD_DEVICE_FLAG_SUPPORTED => 2
  | FWUPD_DEVICE_FLAG_IS_BOOTLOADER => 3
  | FWUPD_DEVICE_FLAG_NEEDS_REBOOT => 4
  | FWUPD_DEVICE_FLAG_NEEDS_SHUTDOWN => 5
  | FWUPD_DEVICE_FLAG_NEEDS_ACTIVATION => 6
  | FWUPD_DEVICE_FLAG_WAIT_FOR_REPLUG => 7
  | FWUPD_DEVICE_FLAG_SIGNED_PAYLOAD => 8
  | FWUPD_DEVICE_FLAG_UNSIGNED_PAYLOAD => 9
  | FWUPD_DEVICE_FLAG_CAN_VERIFY => 10
  | FWUPD_DEVICE_FLAG_CAN_VERIFY_IMAGE => 11
  | FWUPD_DEVICE_FLAG_EMULATED => 12
  | FWUPD_DEVICE_FLAG_EMULATION_TAG => 13
  | FWUPD_DEVICE_FLAG_LOCKED => 14
  | FWUPD_DEVICE_FLAG_HAS_MULTIPLE_BRANCHES => 15
  | FWUPD_DEVICE_FLAG_REPORTED => 16
  end.

(** Modelled from the spec: the [FWUPD_INSTALL_FLAG_*] constants (libfwupd),
    the flags of the install contract in the order of its list. *)
Inductive FwupdInstallFlag : Type :=
| FWUPD_INSTALL_FLAG_ALLOW_OLDER
| FWUPD_INSTALL_FLAG_ALLOW_REINSTALL
| FWUPD_INSTALL_FLAG_ALLOW_BRANCH_SWITCH
| FWUPD_INSTALL_FLAG_IGNORE_REQUIREMENTS
| FWUPD_INSTALL_FLAG_FORCE
| FWUPD_INSTALL_FLAG_NO_HISTORY
| FWUPD_INSTALL_FLAG_ONLY_EMULATED.

Definition install_flag_bit (f : FwupdInstallFlag) : Z :=
  match f with
  | FWUPD_INSTALL_FLAG_ALLOW_OLDER => 0
  | FWUPD_INSTALL_FLAG_ALLOW_REINSTALL => 1
  | FWUPD_INSTALL_FLAG_ALLOW_BRANCH_SWITCH => 2
  | FWUPD_INSTALL_FLAG_IGNORE_REQUIREMENTS => 3
  | FWUPD_INSTALL_FLAG_FORCE => 4
  | FWUPD_INSTALL_FLAG_NO_HISTORY => 5
  | FWUPD_INSTALL_FLAG_ONLY_EMULATED => 6
  end.

(** [1ull << n] *)
Definition bit_mask (n : Z) : Z := Z.shiftl 1 n.

Definition FwupdDeviceFlags_of (f : FwupdDeviceFlag) : Z :=
  bit_mask (device_flag_bit f).
Definition FwupdInstallFlags_of (f : FwupdInstallFlag) : Z :=
  bit_mask (install_flag_bit f).

(** [(flags & flag) > 0] *)
Definition mask_has (flags flag : Z) : bool := 0 <? Z.land flags flag.
(** [flags |= flag] *)
Definition mask_add (flags flag : Z) : Z := Z.lor flags flag.
(** [flags &= ~flag] *)
Definition mask_remove (flags flag : Z) : Z := Z.ldiff flags flag.

Lemma device_flag_bit_range (f : FwupdDeviceFlag) : 0 <= device_flag_bit f < 64.
Proof. destruct f; simpl; lia. Qed.


Lemma device_flag_bit_inj (f g : FwupdDeviceFlag) :
  device_flag_bit f = device_flag_bit g -> f = g.
Proof. destruct f, g; simpl; intro H; try reflexivity; discriminate H. Qed.

Lemma install_flag_bit_inj (f g : FwupdInstallFlag) :
  install_flag_bit f = install_flag_bit g -> f = g.
Proof. destruct f, g; simpl; intro H; try reflexivity; discriminate H. Qed.

(** Testing a one-bit mask is testing that bit. *)
Lemma mask_has_testbit (flags n : Z) :
  0 <= n -> mask_has flags (bit_mask n) = Z.testbit flags n.
Proof.
  intros Hn. unfold mask_has, bit_mask. rewrite Z.shiftl_1_l.
  assert (Hland : Z.land flags (2 ^ n) = if Z.testbit flags n then 2 ^ n else 0).
  { apply Z.bits_inj'. intros m Hm.
    rewrite Z.land_spec, Z.pow2_bits_eqb by assumption.
    destruct (Z.eqb_spec n m) as [-> | Hne].
    - destruct (Z.testbit flags m); simpl.
      + rewrite Z.pow2_bits_eqb, Z.eqb_refl by assumption. reflexivity.
      + rewrite Z.bits_0. reflexivity.
    - rewrite andb_false_r.
      destruct (Z.testbit flags n).
      + rewrite Z.pow2_bits_eqb by assumption.
        symmetry. now apply Z.eqb_neq.
      + rewrite Z.bits_0. reflexivity. }
  rewrite Hland. destruct (Z.testbit flags n).
  - apply Z.ltb_lt. apply Z.pow_pos_nonneg; lia.
  - reflexivity.
Qed.

Lemma mask_add_testbit (flags n m : Z) :
  0 <= n -> Z.testbit (mask_add flags (bit_mask n)) m = (n =? m) || Z.testbit flags m.
Proof.
  intro Hn. unfold mask_add, bit_mask.
  change (Z.lor flags (Z.shiftl 1 n)) with (Z.setbit flags n).
  now rewrite Z.setbit_eqb.
Qed.

Lemma mask_remove_testbit (flags n m : Z) :
  0 <= n -> Z.testbit (mask_remove flags (bit_mask n)) m = Z.testbit flags m && negb (n =? m).
Proof.
  intro Hn. unfold mask_remove, bit_mask.
  change (Z.ldiff flags (Z.shiftl 1 n)) with (Z.clearbit flags n).
  now rewrite Z.clearbit_eqb.
Qed.

Lemma mask_has_add (flags n m : Z) :
  0 <= n -> 0 <= m ->
  mask_has (mask_add flags (bit_mask n)) (bit_mask m) = (n =? m) || mask_has flags (bit_mask m).
Proof.
  intros Hn Hm. rewrite !mask_has_testbit by assumption. apply mask_add_testbit, Hn.
Qed.

Lemma mask_has_remove (flags n m : Z) :
  0 <= n -> 0 <= m ->
  mask_has (mask_remove flags (bit_mask n)) (bit_mask m)
  = mask_has flags (bit_mask m) && negb (n =? m).
Proof.
  intros Hn Hm. rewrite !mask_has_testbit by assumption. apply mask_remove_testbit, Hn.
Qed.

End Fwupd.

Import Fwupd.

(* ------------------------------------------------------------------------- *)
(** * printf conversions used in error messages                               *)
(* ------------------------------------------------------------------------- *)

Module Printf.

Definition digit_char (d : Z) : ascii :=
  nth (Z.to_nat d)
      ["0"; "1"; "2"; "3"; "4"; "5"; "6"; "7"; "8"; "9";
       "a"; "b"; "c"; "d"; "e"; "f"]%char "?"%char.

(** The digits of [n] in [base], most significant first; [fuel] bounds the
    number of digits (20 are enough for any 64-bit value). *)
Fixpoint digits (base : Z) (fuel : nat) (n : Z) (acc : string) : string :=
  match fuel with
  | O => acc
  | S fuel' =>
      let acc' := String (digit_char (n mod base)) acc in
      if n / base =? 0 then acc' else digits base fuel' (n / base) acc'
  end.

Fixpoint zero_pad (missing : nat) (s : string) : string :=
  match missing with
  | O => s
  | S m => String "0"%char (zero_pad m s)
  end.

(** ["%u"], ["%x"], ["%0<w>x"] *)
Definition fmt_u (n : Z) : string := digits 10 20 n EmptyString.
Definition fmt_x (n : Z) : string := digits 16 20 n EmptyString.
Definition fmt_0x (width : nat) (n : Z) : string :=
  let s := fmt_x n in zero_pad (width - String.length s) s.

Example fmt_x_a003 : fmt_x 0xa003 = "a003"%string.
Proof. reflexivity. Qed.
Example fmt_u_28 : fmt_u 28 = "28"%string.
Proof. reflexivity. Qed.
Example fmt_02x_5 : fmt_0x 2 5 = "05"%string.
Proof. reflexivity. Qed.

End Printf.

Import Printf.

(* ------------------------------------------------------------------------- *)
(** * libfwupdplugin: FuProgress, as the plugins drive it                     *)
(* ------------------------------------------------------------------------- *)

Module FuProgress.

Inductive FwupdStatus : Type :=
| FWUPD_STATUS_IDLE
| FWUPD_STATUS_LOADING
| FWUPD_STATUS_DECOMPRESSING
| FWUPD_STATUS_DEVICE_RESTART
| FWUPD_STATUS_DEVICE_WRITE
| FWUPD_STATUS_DEVICE_VERIFY
| FWUPD_STATUS_DEVICE_BUSY
| FWUPD_STATUS_DEVICE_READ.

(** The [fu_progress_*] functions are libfwupdplugin code outside the sources.
    A progress object is therefore the record of the calls a plugin made on
    it, newest first; [fu_progress_get_child (progress)] designates the node
    of the step that is current when the call is made. *)
Inductive FuProgressCall : Type :=
| FU_PROGRESS_SET_ID
| FU_PROGRESS_ADD_FLAG_GUESSED
| FU_PROGRESS_ADD_STEP (status : FwupdStatus) (value : Z) (name : option string)
| FU_PROGRESS_STEP_DONE
| FU_PROGRESS_CHILD_SET_PERCENTAGE_FULL (progress_done progress_total : Z).

Definition FuProgress : Type := list FuProgressCall.

(** A plugin function works on its device and on the progress object. *)
Definition on_device {D A : Type} (m : Run D A) : Run (D * FuProgress) A :=
  fun s => let (r, d') := m (fst s) in (r, (d', snd s)).

Definition fu_progress_call {D : Type} (c : FuProgressCall)
  : Run (D * FuProgress) unit :=
  fun s => (Ok tt, (fst s, c :: snd s)).

(** The calls in the order in which they were made. *)
Definition calls_made (p : FuProgress) : list FuProgressCall := rev p.

(** The [(done, total)] pairs sent to the child node of step [k]: those
    between the k-th and the (k+1)-th [fu_progress_step_done]. *)
Fixpoint child_updates (calls : list FuProgressCall) (k : nat) : list (Z * Z) :=
  match calls with
  | [] => []
  | FU_PROGRESS_STEP_DONE :: rest =>
      match k with
      | O => []
      | S k' => child_updates rest k'
      end
  | FU_PROGRESS_CHILD_SET_PERCENTAGE_FULL d t :: rest =>
      match k with
      | O => (d, t) :: child_updates rest k
      | S _ => child_updates rest k
      end
  | _ :: rest => child_updates rest k
  end.

(** Modelled from the spec: [fu_progress_set_percentage_full] is not part of
    the sources; a node carries a percentage 0..100, here the completed
    fraction [done / total] scaled to 100 and truncated. *)
Definition percentage_full (progress_done progress_total : Z) : Z :=
  if 0 <? progress_total then (100 * progress_done) / progress_total else 0.

Definition percentages (updates : list (Z * Z)) : list Z :=
  map (fun u => percentage_full (fst u) (snd u)) updates.

(** [counting from total n] is (from+1, total), ..., (from+n, total): what a
    loop reports that calls [set_percentage_full (i + 1, total)] for
    i = from, from + 1, ... *)
Fixpoint counting (from total : Z) (n : nat) : list (Z * Z) :=
  match n with
  | O => []
  | S n' => (from + 1, total) :: counting (from + 1) total n'
  end.

Definition nondecreasing (l : list Z) : Prop :=
  forall i j : nat, (i <= j < length l)%nat -> nth i l 0 <= nth j l 0.

Lemma percentage_full_mono (d1 d2 total : Z) :
  d1 <= d2 -> percentage_full d1 total <= percentage_full d2 total.
Proof.
  intro H. unfold percentage_full. destruct (Z.ltb_spec 0 total) as [Ht | Ht].
  - apply Z.div_le_mono; lia.
  - lia.
Qed.

Lemma counting_length (from total : Z) (n : nat) :
  length (counting from total n) = n.
Proof. revert from. induction n as [| n IH]; intro from; simpl; congruence. Qed.

Lemma counting_nth (n : nat) (from total : Z) (i : nat) :
  (i < n)%nat -> nth i (counting from total n) (0, 0) = (from + 1 + Z.of_nat i, total).
Proof.
  revert from i. induction n as [| n IH]; intros from i Hi; [lia |].
  destruct i as [| i]; simpl.
  - f_equal. lia.
  - rewrite IH by lia. f_equal. lia.
Qed.

Lemma firstn_counting (m n : nat) (from total : Z) :
  (m <= n)%nat -> firstn m (counting from total n) = counting from total m.
Proof.
  revert n from. induction m as [| m IH]; intros n from Hmn; [reflexivity |].
  destruct n as [| n]; [lia |]. simpl. rewrite IH by lia. reflexivity.
Qed.

Lemma percentages_nth (l : list (Z * Z)) (i : nat) :
  nth i (percentages l) 0
  = percentage_full (fst (nth i l (0, 0))) (snd (nth i l (0, 0))).
Proof.
  revert i. induction l as [| u l IH]; intros [| i]; simpl; try reflexivity.
  apply IH.
Qed.

(** Whatever prefix of a counting loop was reported, its percentages never
    go down. *)
Lemma counting_nondecreasing (from total : Z) (n : nat) :
  nondecreasing (percentages (counting from total n)).
Proof.
  unfold nondecreasing. intros i j.
  unfold percentages at 1. rewrite length_map, counting_length.
  intros [Hij Hj].
  rewrite !percentages_nth, !counting_nth by lia. simpl.
  apply percentage_full_mono. lia.
Qed.

Lemma nondecreasing_nil : nondecreasing [].
Proof. intros i j [_ H]. simpl in H. lia. Qed.

(** ** The calls a plugin function makes on its progress object *)

(** [emits m l]: a complete run of [m] makes exactly the calls [l], in this
    order; a run cut short by an error makes a prefix of them. *)
Definition emits {D A : Type} (m : Run (D * FuProgress) A) (l : list FuProgressCall)
  : Prop :=
  forall s r s', m s = (r, s') ->
    exists l0 rest, l = l0 ++ rest /\ snd s' = rev l0 ++ snd s /\
                    (is_ok r = true -> rest = []).

Lemma emits_ret {D A : Type} (a : A) : emits (@ret (D * FuProgress) A a) [].
Proof.
  intros s r s' H. inversion H; subst. exists [], []. repeat split; reflexivity.
Qed.

Lemma emits_call {D : Type} (c : FuProgressCall) :
  emits (@fu_progress_call D c) [c].
Proof.
  intros s r s' H. inversion H; subst. exists [c], []. repeat split; reflexivity.
Qed.

Lemma emits_on_device {D A : Type} (m : Run D A) : emits (on_device m) [].
Proof.
  intros s r s'. unfold on_device. destruct (m (fst s)) as [r0 d'].
  intro H. inversion H; subst. exists [], []. repeat split; reflexivity.
Qed.

Lemma emits_lift_result {D A : Type} (x : Result A) :
  emits (@lift_result (D * FuProgress) A x) [].
Proof.
  intros s r s' H. inversion H; subst. exists [], []. repeat split; reflexivity.
Qed.

Lemma emits_bind {D A B : Type} (m : Run (D * FuProgress) A)
    (k : A -> Run (D * FuProgress) B) (l1 l2 : list FuProgressCall) :
  emits m l1 -> (forall a, emits (k a) l2) -> emits (bind m k) (l1 ++ l2).
Proof.
  intros Hm Hk s r s'. unfold bind.
  destruct (m s) as [[a | e] s1] eqn:E; intro H.
  - destruct (Hm _ _ _ E) as (a0 & r0 & -> & Hs1 & Hr0).
    rewrite (Hr0 eq_refl), app_nil_r in *.
    destruct (Hk a _ _ _ H) as (b0 & r1 & -> & Hs' & Hr1).
    exists (a0 ++ b0), r1. repeat split.
    + rewrite app_assoc. reflexivity.
    + rewrite Hs', Hs1, rev_app_distr, app_assoc. reflexivity.
    + exact Hr1.
  - inversion H; subst.
    destruct (Hm _ _ _ E) as (a0 & r0 & -> & Hs1 & _).
    exists a0, (r0 ++ l2). repeat split.
    + rewrite app_assoc. reflexivity.
    + exact Hs1.
    + discriminate.
Qed.

(** As [emits_bind], when the calls of the continuation are only known for
    the values the first part can return. *)
Lemma emits_bind_post {D A B : Type} (Q : A -> Prop) (m : Run (D * FuProgress) A)
    (k : A -> Run (D * FuProgress) B) (l1 l2 : list FuProgressCall) :
  emits m l1 ->
  (forall s a s', m s = (Ok a, s') -> Q a) ->
  (forall a, Q a -> emits (k a) l2) ->
  emits (bind m k) (l1 ++ l2).
Proof.
  intros Hm HQ Hk s r s'. unfold bind.
  destruct (m s) as [[a | e] s1] eqn:E; intro H.
  - destruct (Hm _ _ _ E) as (a0 & r0 & -> & Hs1 & Hr0).
    rewrite (Hr0 eq_refl), app_nil_r in *.
    destruct (Hk a (HQ _ _ _ E) _ _ _ H) as (b0 & r1 & -> & Hs' & Hr1).
    exists (a0 ++ b0), r1. repeat split.
    + rewrite app_assoc. reflexivity.
    + rewrite Hs', Hs1, rev_app_distr, app_assoc. reflexivity.
    + exact Hr1.
  - inversion H; subst.
    destruct (Hm _ _ _ E) as (a0 & r0 & -> & Hs1 & _).
    exists a0, (r0 ++ l2). repeat split.
    + rewrite app_assoc. reflexivity.
    + exact Hs1.
    + discriminate.
Qed.

Lemma emits_eq {D A : Type} (m : Run (D * FuProgress) A) (l l' : list FuProgressCall) :
  emits m l -> l = l' -> emits m l'.
Proof. intros H <-. exact H. Qed.

(** The updates of a node seen after a prefix of the calls are a prefix of
    the updates seen after all of them. *)
Lemma child_updates_prefix (l0 rest : list FuProgressCall) (k : nat) :
  exists m : nat, child_updates l0 k = firstn m (child_updates (l0 ++ rest) k).
Proof.
  revert k. induction l0 as [| c l0 IH]; intro k.
  - exists 0%nat. reflexivity.
  - destruct c as [| | st v nm | | d t]; cbn [app child_updates].
    1, 2, 3: apply IH.
    + destruct k as [| k]; [exists 0%nat; reflexivity | apply IH].
    + destruct k as [| k]; [| apply IH].
      destruct (IH 0%nat) as [m Hm]. exists (S m). cbn [firstn]. rewrite Hm.
      reflexivity.
Qed.

Definition updates_of (total : Z) (idx : list Z) : list FuProgressCall :=
  map (fun i => FU_PROGRESS_CHILD_SET_PERCENTAGE_FULL (i + 1) total) idx.

Lemma child_updates_skip (total : Z) (idx : list Z) (rest : list FuProgressCall)
    (k : nat) :
  child_updates (updates_of total idx ++ rest) (S k) = child_updates rest (S k).
Proof. induction idx as [| i idx IH]; [reflexivity | exact IH]. Qed.

Lemma child_updates_take (total : Z) (idx : list Z) (rest : list FuProgressCall) :
  child_updates (updates_of total idx ++ rest) 0
  = map (fun i => (i + 1, total)) idx ++ child_updates rest 0.
Proof.
  induction idx as [| i idx IH]; [reflexivity |].
  cbn [updates_of map app child_updates]. fold (updates_of total idx).
  rewrite IH. reflexivity.
Qed.

Lemma emits_fail {D A : Type} (e : GError) (l : list FuProgressCall) :
  emits (@fail (D * FuProgress) A e) l.
Proof.
  intros s r s' H. inversion H; subst. exists [], l.
  split; [reflexivity |]. split; [reflexivity | discriminate].
Qed.

Lemma emits_with_prefix {D A : Type} (pfx : string) (m : Run (D * FuProgress) A)
    (l : list FuProgressCall) :
  emits m l -> emits (with_prefix pfx m) l.
Proof.
  intros Hm s r s'. unfold with_prefix. destruct (m s) as [[a | e] s1] eqn:E;
    intro H; inversion H; subst.
  - exact (Hm _ _ _ E).
  - destruct (Hm _ _ _ E) as (l0 & rest & Hl & Hs & _).
    exists l0, rest. repeat split; [exact Hl | exact Hs | discriminate].
Qed.

(** ** An update whose second step is a counting loop *)

(** Calls that neither end a step nor update a child. *)
Definition plain (c : FuProgressCall) : bool :=
  match c with
  | FU_PROGRESS_STEP_DONE | FU_PROGRESS_CHILD_SET_PERCENTAGE_FULL _ _ => false
  | _ => true
  end.

(** Set-up calls [header], a first step without child updates, a second
    step whose loop over [idx] updates its child, and [later] steps without
    child updates. *)
Definition second_step_loop (header : list FuProgressCall) (total : Z)
    (idx : list Z) (later : nat) : list FuProgressCall :=
  header ++ FU_PROGRESS_STEP_DONE :: updates_of total idx
         ++ repeat FU_PROGRESS_STEP_DONE (S later).

Lemma child_updates_plain (header rest : list FuProgressCall) (k : nat) :
  forallb plain header = true ->
  child_updates (header ++ rest) k = child_updates rest k.
Proof.
  induction header as [| c header IH]; [reflexivity |].
  cbn [forallb]. intro H. apply andb_true_iff in H. destruct H as [Hc Hh].
  destruct c; try discriminate Hc; cbn [app child_updates]; apply IH, Hh.
Qed.

Lemma child_updates_steps (n k : nat) :
  child_updates (repeat FU_PROGRESS_STEP_DONE n) k = [].
Proof.
  revert k. induction n as [| n IH]; intro k; [reflexivity |].
  cbn [repeat child_updates]. destruct k; [reflexivity | apply IH].
Qed.

Lemma second_step_loop_child (header : list FuProgressCall) (total : Z)
    (idx : list Z) (later : nat) :
  forallb plain header = true ->
  child_updates (second_step_loop header total idx later) 1
  = map (fun i => (i + 1, total)) idx.
Proof.
  intro Hh. unfold second_step_loop. rewrite child_updates_plain by exact Hh.
  cbn [child_updates]. rewrite child_updates_take. cbn [repeat child_updates].
  apply app_nil_r.
Qed.

Lemma second_step_loop_others (header : list FuProgressCall) (total : Z)
    (idx : list Z) (later k : nat) :
  forallb plain header = true -> k <> 1%nat ->
  child_updates (second_step_loop header total idx later) k = [].
Proof.
  intros Hh Hk. unfold second_step_loop. rewrite child_updates_plain by exact Hh.
  destruct k as [| [| k]]; [reflexivity | contradiction |].
  cbn [child_updates]. rewrite child_updates_skip. apply child_updates_steps.
Qed.

(** However such an update ends, the child of its second step has been sent
    (1, total), (2, total), ..., and no other child anything; so the
    percentages sent to any one node never go down. *)
Lemma second_step_loop_updates {D A : Type} (m : Run (D * FuProgress) A)
    (header : list FuProgressCall) (total : Z) (idx : list Z) (later count : nat) :
  forallb plain header = true ->
  map (fun i => (i + 1, total)) idx = counting 0 total count ->
  emits m (second_step_loop header total idx later) ->
  forall d r d' p', m (d, []) = (r, (d', p')) ->
    (exists n : nat, (n <= count)%nat /\
                     child_updates (calls_made p') 1 = counting 0 total n) /\
    (forall k : nat, k <> 1%nat -> child_updates (calls_made p') k = []).
Proof.
  intros Hh Hidx Hm d r d' p' H.
  destruct (Hm _ _ _ H) as (l0 & rest & Hl & Hp & _).
  cbn [snd] in Hp. rewrite app_nil_r in Hp.
  unfold calls_made. rewrite Hp, rev_involutive. split.
  - destruct (child_updates_prefix l0 rest 1) as [n Hn].
    rewrite Hn, <- Hl, second_step_loop_child, Hidx by exact Hh.
    destruct (Nat.le_gt_cases n count) as [Hle | Hgt].
    + exists n. split; [exact Hle |]. apply firstn_counting. exact Hle.
    + exists count. split; [lia |]. apply firstn_all2. rewrite counting_length. lia.
  - intros k Hk. destruct (child_updates_prefix l0 rest k) as [n Hn].
    rewrite Hn, <- Hl, second_step_loop_others by assumption. apply firstn_nil.
Qed.

Lemma updates_nondecreasing (calls : list FuProgressCall) (total : Z) (n : nat) :
  child_updates calls 1 = counting 0 total n ->
  (forall k : nat, k <> 1%nat -> child_updates calls k = []) ->
  forall k : nat, nondecreasing (percentages (child_updates calls k)).
Proof.
  intros H1 Hk k. destruct (Nat.eq_dec k 1) as [-> | Hne].
  - rewrite H1. apply counting_nondecreasing.
  - rewrite (Hk k Hne). apply nondecreasing_nil.
Qed.

End FuProgress.

Import FuProgress.

(* ------------------------------------------------------------------------- *)
(** * The variables of counted loops                                          *)
(* ------------------------------------------------------------------------- *)

Module ForLoop.

(** The values taken by the variable of
    [for (i = start; i < stop; i += step)], for [0 < step]. *)
Definition range (start stop step : Z) : list Z :=
  map (fun k => start + step * Z.of_nat k)
      (seq 0 (Z.to_nat ((stop - start + step - 1) / step))).

Lemma range_In (start stop step i : Z) :
  0 < step -> In i (range start stop step) -> start <= i < stop.
Proof.
  intros Hstep Hin. unfold range in Hin. apply in_map_iff in Hin.
  destruct Hin as (k & <- & Hk). apply in_seq in Hk.
  assert (Hcount : 0 < (stop - start + step - 1) / step)
    by (destruct (Z.ltb_spec 0 ((stop - start + step - 1) / step)); lia).
  pose proof (Z.mul_div_le (stop - start + step - 1) step Hstep) as Hle.
  assert (Hk' : Z.of_nat k <= (stop - start + step - 1) / step - 1) by lia.
  split; [nia | nia].
Qed.

Lemma range_NoDup (start stop step : Z) : 0 < step -> NoDup (range start stop step).
Proof.
  intro Hstep. unfold range. apply NoDup_map_NoDup_ForallPairs; [| apply seq_NoDup].
  intros x y _ _ Hxy. nia.
Qed.

Lemma range_unit (n : nat) (from : Z) :
  map (fun k => from + 1 * Z.of_nat k) (seq 0 n)
  = map (fun k => from + Z.of_nat k) (seq 0 n).
Proof. apply map_ext. intro k. lia. Qed.

Lemma counting_of_seq (total : Z) (n : nat) (from : Z) (start : nat) :
  map (fun i => (i + 1, total)) (map (fun k => from + Z.of_nat k) (seq start n))
  = counting (from + Z.of_nat start) total n.
Proof.
  revert start. induction n as [| n IH]; intro start; [reflexivity |].
  cbn [seq map counting]. f_equal. rewrite IH. f_equal. lia.
Qed.

Lemma counting_of_range (total : Z) (n : Z) :
  0 <= n ->
  map (fun i => (i + 1, total)) (range 0 n 1) = counting 0 total (Z.to_nat n).
Proof.
  intro Hn. unfold range. rewrite range_unit.
  replace (Z.to_nat ((n - 0 + 1 - 1) / 1)) with (Z.to_nat n)
    by (rewrite Z.div_1_r; f_equal; lia).
  rewrite counting_of_seq. reflexivity.
Qed.

End ForLoop.

Import ForLoop.

(* ------------------------------------------------------------------------- *)
(** * plugins/fresco-pd/fu-fresco-pd-device.c                                 *)
(* ------------------------------------------------------------------------- *)

Module FuFrescoPd.

Local Open Scope run_scope.

(** Conversions to the integer types of the C parameters. *)
Definition guint8 (z : Z) : Z := z mod 2 ^ 8.
Definition guint16 (z : Z) : Z := z mod 2 ^ 16.
Definition guint (z : Z) : Z := z mod 2 ^ 32.

(** ** The device behind the USB bus

    [fu_usb_device_control_transfer] belongs to libfwupdplugin and talks to
    hardware; neither is part of the sources.  The device record carries what
    the embedded functions can observe of them: a register file reached by
    the vendor requests, and, for the n-th control transfer issued, whether
    the bus completes it (and with how many bytes) or fails it (and with
    which error).  Every statement below holds for all such answers.  A
    control transfer is where the rest of the system gets to look at the
    device, so the record also keeps the device flags as they stood when
    each transfer was issued. *)

Inductive UsbReply : Type :=
| UsbTransferred (actual_length : Z)
| UsbFailed (e : GError).

Inductive FuUsbDirection : Type :=
| FU_USB_DIRECTION_DEVICE_TO_HOST
| FU_USB_DIRECTION_HOST_TO_DEVICE.

Record FuFrescoPdDevice : Type := mkFuFrescoPdDevice {
  customer_id : Z;                 (* struct _FuFrescoPdDevice *)
  flags : Z;                       (* FuDevice: FwupdDeviceFlags *)
  mmio : Z -> Z;                   (* registers of the PD controller *)
  usb_replies : nat -> UsbReply;   (* answer of the bus to the n-th transfer *)
  usb_count : nat;                 (* control transfers issued so far *)
  usb_writes : list (Z * Z);       (* (offset, byte) stored by the device,
                                      newest first *)
  usb_flags : list Z               (* the flags when each transfer was issued,
                                      newest first *)
}.

Definition set_flags (d : FuFrescoPdDevice) (fl : Z) : FuFrescoPdDevice :=
  mkFuFrescoPdDevice (customer_id d) fl (mmio d) (usb_replies d) (usb_count d)
                     (usb_writes d) (usb_flags d).

Definition set_customer_id (d : FuFrescoPdDevice) (cid : Z) : FuFrescoPdDevice :=
  mkFuFrescoPdDevice cid (flags d) (mmio d) (usb_replies d) (usb_count d)
                     (usb_writes d) (usb_flags d).

(** [fu_device_add_flag] and [fu_device_has_flag] (libfwupdplugin). *)
Definition fu_device_add_flag (f : FwupdDeviceFlag) (d : FuFrescoPdDevice)
  : FuFrescoPdDevice :=
  set_flags d (mask_add (flags d) (FwupdDeviceFlags_of f)).

Definition fu_device_has_flag (d : FuFrescoPdDevice) (f : FwupdDeviceFlag) : bool :=
  mask_has (flags d) (FwupdDeviceFlags_of f).

(** The registers [offset], [offset + 1], ... as the device returns them. *)
Fixpoint mmio_load (m : Z -> Z) (offset : Z) (n : nat) : list Z :=
  match n with
  | O => []
  | S n' => guint8 (m offset) :: mmio_load m (offset + 1) n'
  end.

Fixpoint mmio_store (m : Z -> Z) (offset : Z) (data : list Z) : Z -> Z :=
  match data with
  | [] => m
  | v :: rest =>
      mmio_store (fun a => if a =? offset then v else m a) (offset + 1) rest
  end.

Fixpoint log_store (offset : Z) (data : list Z) (log : list (Z * Z)) : list (Z * Z) :=
  match data with
  | [] => log
  | v :: rest => log_store (offset + 1) rest ((offset, v) :: log)
  end.

(** Number of bytes that really moved: at most the buffer, never negative. *)
Definition moved (actual_length bufsz : Z) : nat :=
  Z.to_nat (Z.min actual_length bufsz).

Definition fu_usb_device_control_transfer
    (direction : FuUsbDirection) (request value idx : Z)
    (buf : list Z) (bufsz : Z) : Run FuFrescoPdDevice (list Z * Z) :=
  fun d =>
    let count' := S (usb_count d) in
    let seen := flags d :: usb_flags d in
    match usb_replies d (usb_count d) with
    | UsbFailed e =>
        (Failed e,
         mkFuFrescoPdDevice (customer_id d) (flags d) (mmio d) (usb_replies d)
                            count' (usb_writes d) seen)
    | UsbTransferred actual_length =>
        let n := moved actual_length bufsz in
        match direction with
        | FU_USB_DIRECTION_DEVICE_TO_HOST =>
            (Ok (mmio_load (mmio d) idx n ++ skipn n buf, actual_length),
             mkFuFrescoPdDevice (customer_id d) (flags d) (mmio d)
                                (usb_replies d) count' (usb_writes d) seen)
        | FU_USB_DIRECTION_HOST_TO_DEVICE =>
            (Ok (buf, actual_length),
             mkFuFrescoPdDevice (customer_id d) (flags d)
                                (mmio_store (mmio d) idx (firstn n buf))
                                (usb_replies d) count'
                                (log_store idx (firstn n buf) (usb_writes d))
                                seen)
        end
    end.

Section Device.

(** [fwupd_error_convert] (libfwupd) maps errors of foreign domains into the
    [FWUPD_ERROR] domain; its table is not part of the sources, so it is a
    parameter. *)
Variable fwupd_error_convert : GError -> GError.

(** The two [g_return_val_if_fail] guards ([buf != NULL], [bufsz != 0]) are
    preconditions: every caller passes the address of a byte and [bufsz = 1]. *)
Definition fu_fresco_pd_device_transfer_read (offset : Z) (buf : list Z) (bufsz : Z)
  : Run FuFrescoPdDevice (list Z) :=
  let offset := guint16 offset in
  let bufsz := guint16 bufsz in
  fun d =>
    match fu_usb_device_control_transfer FU_USB_DIRECTION_DEVICE_TO_HOST
            0x40 0x0 offset buf bufsz d with
    | (Failed e, d') =>
        (Failed (fwupd_error_convert
                   (g_prefix_error
                      ("failed to read from offset 0x" ++ fmt_x offset ++ ": ") e)),
         d')
    | (Ok (buf', actual_length), d') =>
        if negb (bufsz =? actual_length) then
          (Failed (fwupd_error FWUPD_ERROR_NOT_SUPPORTED
                     ("read 0x" ++ fmt_x (guint actual_length) ++ " bytes of 0x"
                      ++ fmt_x bufsz)),
           d')
        else (Ok buf', d')
    end.

Definition fu_fresco_pd_device_transfer_write (offset : Z) (buf : list Z) (bufsz : Z)
  : Run FuFrescoPdDevice unit :=
  let offset := guint16 offset in
  let bufsz := guint16 bufsz in
  fun d =>
    match fu_usb_device_control_transfer FU_USB_DIRECTION_HOST_TO_DEVICE
            0x41 0x0 offset buf bufsz d with
    | (Failed e, d') =>
        (Failed (g_prefix_error
                   ("failed to write offset 0x" ++ fmt_x offset ++ ": ") e),
         d')
    | (Ok (_, actual_length), d') =>
        if negb (bufsz =? actual_length) then
          (Failed (fwupd_error FWUPD_ERROR_NOT_SUPPORTED
                     ("wrote 0x" ++ fmt_x (guint actual_length) ++ " bytes of 0x"
                      ++ fmt_x bufsz)),
           d')
        else (Ok tt, d')
    end.

(** [buf] is the byte the caller's variable holds before the call; the result
    is the byte it holds after a successful one. *)
Definition fu_fresco_pd_device_read_byte (offset : Z) (buf : Z)
  : Run FuFrescoPdDevice Z :=
  b <- fu_fresco_pd_device_transfer_read offset [buf] 1 ;;
  ret (hd buf b).

Definition fu_fresco_pd_device_write_byte (offset : Z) (buf : Z)
  : Run FuFrescoPdDevice unit :=
  fu_fresco_pd_device_transfer_write offset [guint8 buf] 1.

Definition fu_fresco_pd_device_set_byte (offset : Z) (val : Z)
  : Run FuFrescoPdDevice unit :=
  let val := guint8 val in
  buf <- fu_fresco_pd_device_read_byte offset 0x0 ;;
  if buf =? val then ret tt
  else fu_fresco_pd_device_write_byte offset val.

Definition fu_fresco_pd_device_and_byte (offset : Z) (val : Z)
  : Run FuFrescoPdDevice unit :=
  let val := guint8 val in
  buf <- fu_fresco_pd_device_read_byte offset 0xff ;;
  fu_fresco_pd_device_write_byte offset (Z.land buf val).

(** [buf] is not initialised in the source; it is only used after a
    successful read has overwritten it. *)
Definition fu_fresco_pd_device_or_byte (offset : Z) (val : Z)
  : Run FuFrescoPdDevice unit :=
  let val := guint8 val in
  buf <- fu_fresco_pd_device_read_byte offset 0x0 ;;
  fu_fresco_pd_device_write_byte offset (Z.lor buf val).

Definition fu_fresco_pd_device_panther_reset_device : Run FuFrescoPdDevice unit :=
  fun d =>
    let d := fu_device_add_flag FWUPD_DEVICE_FLAG_WAIT_FOR_REPLUG d in
    (* ignore when the device reset before completing the transaction *)
    match fu_fresco_pd_device_or_byte 0xA003 (Z.shiftl 1 3) d with
    | (Failed error_local, d') =>
        if g_error_matches error_local FWUPD_ERROR_INTERNAL then (Ok tt, d')
        else (Failed (g_prefix_error "failed to reset device: " error_local), d')
    | (Ok _, d') => (Ok tt, d')
    end.

(** ** Firmware image and bounds-checked access *)

(** [buf[i]] for the [const guint8 *buf] of the firmware blob.  Only the
    start symbols are read through [fu_memcpy_safe]; the other reads are not
    checked, and the plugin relies on the blob being larger than the highest
    index it uses (0x4230).  With a shorter blob the C code reads what lies
    behind it in memory: [behind_blob i] stands for the byte found at index
    [i] then, and nothing is assumed about it. *)
Variable behind_blob : Z -> byte.

Definition byte_at (buf : list byte) (i : Z) : Z :=
  Z.of_N (Byte.to_N (nth (Z.to_nat i) buf (behind_blob i))).

(** The blobs whose every read stays inside the blob. *)
Definition covers_reads (buf : list byte) : Prop :=
  0x4231 <= Z.of_nat (length buf).

(** [fu_memcpy_safe] is libfwupdplugin code outside the sources: a copy of
    [n] bytes that fails instead of reading or writing out of bounds.  The
    result is the bytes copied. *)
Definition fu_memcpy_safe (dst_sz dst_offset : Z) (src : list byte)
    (src_sz src_offset n : Z) : Result (list Z) :=
  if src_sz <? src_offset + n then
    Failed (fwupd_error FWUPD_ERROR_READ
              ("attempted to read 0x" ++ fmt_x n ++ " bytes at offset 0x"
               ++ fmt_x src_offset ++ " from buffer of 0x" ++ fmt_x src_sz))
  else if dst_sz <? dst_offset + n then
    Failed (fwupd_error FWUPD_ERROR_WRITE
              ("attempted to write 0x" ++ fmt_x n ++ " bytes at offset 0x"
               ++ fmt_x dst_offset ++ " to buffer of 0x" ++ fmt_x dst_sz))
  else
    Ok (map (fun k => byte_at src (src_offset + Z.of_nat k)) (seq 0 (Z.to_nat n))).

(** ** fu_fresco_pd_device_write_firmware *)

(** The three reads [read_byte (base + j, &config[j])], j = 0, 1, 2. *)
Definition read_config (base : Z) : Run FuFrescoPdDevice (Z * Z * Z) :=
  c0 <- with_prefix ("failed to read config byte " ++ fmt_u 0 ++ ": ")
          (fu_fresco_pd_device_read_byte (base + 0) 0x0) ;;
  c1 <- with_prefix ("failed to read config byte " ++ fmt_u 1 ++ ": ")
          (fu_fresco_pd_device_read_byte (base + 1) 0x0) ;;
  c2 <- with_prefix ("failed to read config byte " ++ fmt_u 2 ++ ": ")
          (fu_fresco_pd_device_read_byte (base + 2) 0x0) ;;
  ret (c0, c1, c2).

(** "fill safe code in the boot code", first loop: look for the start symbols
    from 0x6420 on; the result is [begin_addr]. *)
Fixpoint find_begin_addr (idx : list Z) (begin_addr : Z) (start_symbols : Z * Z)
  : Run FuFrescoPdDevice Z :=
  match idx with
  | [] => ret begin_addr
  | i :: rest =>
      config <- read_config (begin_addr + i) ;;
      let '(c0, c1, c2) := config in
      if (c0 =? fst start_symbols) && (c1 =? snd start_symbols) then
        ret (guint16 (0x6420 + i))
      else if (c0 =? 0) && (c1 =? 0) && (c2 =? 0) then
        ret begin_addr
      else find_begin_addr rest begin_addr start_symbols
  end.

(** Second loop: patch the configuration triples after [begin_addr]. *)
Fixpoint patch_boot_code (idx : list Z) : Run FuFrescoPdDevice unit :=
  match idx with
  | [] => ret tt
  | i :: rest =>
      config <- read_config i ;;
      let '(c0, c1, c2) := config in
      if (c0 =? 0x74) && (c1 =? 0x06) && negb (c2 =? 0x22) then
        fu_fresco_pd_device_write_byte (i + 2) 0x22 ;;;
        patch_boot_code rest
      else if (c0 =? 0x6c) && (c1 =? 0x00) && negb (c2 =? 0x01) then
        fu_fresco_pd_device_write_byte (i + 2) 0x01 ;;;
        patch_boot_code rest
      else if (c0 =? 0x00) && (c1 =? 0x00) && negb (c2 =? 0x00) then
        ret tt
      else patch_boot_code rest
  end.

(** "copy buf offset [0 - 0x3FFFF] to mmio address [0x2000 - 0x5FFF]" *)
Fixpoint fill_firmware_body (idx : list Z) (buf : list byte)
  : Run (FuFrescoPdDevice * FuProgress) unit :=
  match idx with
  | [] => ret tt
  | byte_index :: rest =>
      on_device (fu_fresco_pd_device_set_byte (byte_index + 0x2000)
                   (byte_at buf byte_index)) ;;;
      fu_progress_call
        (FU_PROGRESS_CHILD_SET_PERCENTAGE_FULL (byte_index + 1) 0x4000) ;;;
      fill_firmware_body rest buf
  end.

(** "update customize data" *)
Fixpoint update_customize_data (idx : list Z) (buf : list byte)
  : Run FuFrescoPdDevice unit :=
  match idx with
  | [] => ret tt
  | byte_index :: rest =>
      fu_fresco_pd_device_set_byte (0x6600 + byte_index)
        (byte_at buf (0x4200 + byte_index)) ;;;
      fu_fresco_pd_device_set_byte (0x6610 + byte_index)
        (byte_at buf (0x4210 + byte_index)) ;;;
      fu_fresco_pd_device_set_byte (0x6620 + byte_index)
        (byte_at buf (0x4220 + byte_index)) ;;;
      update_customize_data rest buf
  end.

(** "write boot configuration area" *)
Fixpoint write_boot_configuration (idx : list Z) (begin_addr : Z) (buf : list byte)
  : Run FuFrescoPdDevice unit :=
  match idx with
  | [] => ret tt
  | byte_index :: rest =>
      fu_fresco_pd_device_set_byte (begin_addr + byte_index + 0)
        (byte_at buf (0x4020 + byte_index)) ;;;
      fu_fresco_pd_device_set_byte (begin_addr + byte_index + 1)
        (byte_at buf (0x4021 + byte_index)) ;;;
      fu_fresco_pd_device_set_byte (begin_addr + byte_index + 2)
        (byte_at buf (0x4022 + byte_index)) ;;;
      write_boot_configuration rest begin_addr buf
  end.

(** "disable MCU, and enable mtp write", then the two boot code loops; the
    result is [begin_addr]. *)
Definition enable_mtp_write (start_symbols : Z * Z) : Run FuFrescoPdDevice Z :=
  with_prefix "failed to disable MCU bit 2: "
    (fu_fresco_pd_device_and_byte 0xa001 (Z.lnot (Z.shiftl 1 2))) ;;;
  with_prefix "failed to disable MCU bit 1: "
    (fu_fresco_pd_device_and_byte 0x6c00 (Z.lnot (Z.shiftl 1 1))) ;;;
  with_prefix "failed to disable MCU: "
    (fu_fresco_pd_device_write_byte 0x6c04 0x08) ;;;
  begin_addr <- find_begin_addr (range 0 0x400 3) 0x6420 start_symbols ;;
  patch_boot_code (range (guint (begin_addr + 3)) (guint begin_addr + 0x400) 3) ;;;
  ret begin_addr.

(** [firmware] is what [fu_firmware_get_bytes (firmware, error)] yields: the
    default blob, or the error it sets.  The install flags are not used. *)
Definition fu_fresco_pd_device_write_firmware (firmware : Result (list byte))
  : Run (FuFrescoPdDevice * FuProgress) unit :=
  (* progress *)
  fu_progress_call FU_PROGRESS_SET_ID ;;;
  fu_progress_call FU_PROGRESS_ADD_FLAG_GUESSED ;;;
  fu_progress_call
    (FU_PROGRESS_ADD_STEP FWUPD_STATUS_DEVICE_BUSY 2 (Some "enable-mtp-write"%string)) ;;;
  fu_progress_call
    (FU_PROGRESS_ADD_STEP FWUPD_STATUS_DEVICE_WRITE 50 (Some "copy-mmio"%string)) ;;;
  fu_progress_call
    (FU_PROGRESS_ADD_STEP FWUPD_STATUS_DEVICE_VERIFY 46 (Some "customize"%string)) ;;;
  fu_progress_call
    (FU_PROGRESS_ADD_STEP FWUPD_STATUS_DEVICE_BUSY 2 (Some "boot"%string)) ;;;
  fu_progress_call (FU_PROGRESS_ADD_STEP FWUPD_STATUS_DEVICE_RESTART 2 None) ;;;
  (* get default blob *)
  buf <- lift_result firmware ;;
  let bufsz := Z.of_nat (length buf) in
  (* get start symbols, and be slightly paranoid *)
  start_symbols <- lift_result (fu_memcpy_safe 2 0x0 buf bufsz 0x4000 2) ;;
  begin_addr <- on_device
    (enable_mtp_write (nth 0 start_symbols 0, nth 1 start_symbols 0)) ;;
  fu_progress_call FU_PROGRESS_STEP_DONE ;;;
  (* fill firmware body *)
  fill_firmware_body (range 0 0x4000 1) buf ;;;
  fu_progress_call FU_PROGRESS_STEP_DONE ;;;
  (* update customize data *)
  on_device (update_customize_data (range 0 6 1) buf ;;;
             fu_fresco_pd_device_set_byte 0x6630 (byte_at buf 0x4230)) ;;;
  fu_progress_call FU_PROGRESS_STEP_DONE ;;;
  (* write boot configuration area *)
  on_device (write_boot_configuration (range 0 0x1e0 3) begin_addr buf) ;;;
  fu_progress_call FU_PROGRESS_STEP_DONE ;;;
  (* reset the device *)
  on_device fu_fresco_pd_device_panther_reset_device ;;;
  fu_progress_call FU_PROGRESS_STEP_DONE ;;;
  (* success *)
  ret tt.

(** ** What a control transfer leaves alone *)

Lemma control_transfer_frame (direction : FuUsbDirection) (request value idx : Z)
    (buf : list Z) (bufsz : Z) (d : FuFrescoPdDevice) r d' :
  fu_usb_device_control_transfer direction request value idx buf bufsz d = (r, d') ->
  flags d' = flags d /\ customer_id d' = customer_id d /\
  usb_replies d' = usb_replies d /\ usb_count d' = S (usb_count d).
Proof.
  unfold fu_usb_device_control_transfer.
  destruct (usb_replies d (usb_count d)) as [n | e]; [destruct direction |];
    intro H; inversion H; subst; simpl; repeat split; reflexivity.
Qed.

Lemma transfer_read_frame (offset : Z) (buf : list Z) (bufsz : Z)
    (d : FuFrescoPdDevice) r d' :
  fu_fresco_pd_device_transfer_read offset buf bufsz d = (r, d') ->
  flags d' = flags d /\ mmio d' = mmio d /\ usb_writes d' = usb_writes d /\
  usb_replies d' = usb_replies d.
Proof.
  unfold fu_fresco_pd_device_transfer_read, fu_usb_device_control_transfer.
  destruct (usb_replies d (usb_count d)) as [n | e]; simpl.
  - destruct (negb (guint16 bufsz =? n)); intro H; inversion H; subst; simpl;
      repeat split; reflexivity.
  - intro H; inversion H; subst; simpl; repeat split; reflexivity.
Qed.

Lemma transfer_write_frame (offset : Z) (buf : list Z) (bufsz : Z)
    (d : FuFrescoPdDevice) r d' :
  fu_fresco_pd_device_transfer_write offset buf bufsz d = (r, d') ->
  flags d' = flags d /\ usb_replies d' = usb_replies d.
Proof.
  unfold fu_fresco_pd_device_transfer_write, fu_usb_device_control_transfer.
  destruct (usb_replies d (usb_count d)) as [n | e]; simpl.
  - destruct (negb (guint16 bufsz =? n)); intro H; inversion H; subst; simpl;
      repeat split; reflexivity.
  - intro H; inversion H; subst; simpl; repeat split; reflexivity.
Qed.

Lemma read_byte_frame (offset buf : Z) (d : FuFrescoPdDevice) r d' :
  fu_fresco_pd_device_read_byte offset buf d = (r, d') ->
  flags d' = flags d /\ mmio d' = mmio d /\ usb_writes d' = usb_writes d /\
  usb_replies d' = usb_replies d.
Proof.
  unfold fu_fresco_pd_device_read_byte, bind, ret.
  destruct (fu_fresco_pd_device_transfer_read offset [buf] 1 d) as [[b | e] d1] eqn:E;
    intro H; inversion H; subst; eapply transfer_read_frame; eassumption.
Qed.

Lemma or_byte_flags (offset val : Z) (d : FuFrescoPdDevice) r d' :
  fu_fresco_pd_device_or_byte offset val d = (r, d') -> flags d' = flags d.
Proof.
  clear behind_blob.
  unfold fu_fresco_pd_device_or_byte, fu_fresco_pd_device_write_byte, bind.
  destruct (fu_fresco_pd_device_read_byte offset 0 d) as [[b | e] d1] eqn:E.
  - intro H. apply transfer_write_frame in H. apply read_byte_frame in E.
    destruct H as [H _], E as [E _]. congruence.
  - intro H. inversion H; subst. apply read_byte_frame in E. tauto.
Qed.

Lemma land_lor_absorb (a m : Z) : Z.land (Z.lor a m) m = m.
Proof.
  apply Z.bits_inj'. intros n _. rewrite Z.land_spec, Z.lor_spec.
  destruct (Z.testbit a n), (Z.testbit m n); reflexivity.
Qed.

Lemma add_flag_has_flag (f : FwupdDeviceFlag) (d : FuFrescoPdDevice) :
  fu_device_has_flag (fu_device_add_flag f d) f = true.
Proof.
  unfold fu_device_has_flag, fu_device_add_flag, mask_has, mask_add. simpl.
  rewrite land_lor_absorb. unfold FwupdDeviceFlags_of, bit_mask.
  rewrite Z.shiftl_1_l. apply Z.ltb_lt. apply Z.pow_pos_nonneg; [lia |].
  apply device_flag_bit_range.
Qed.

(** The flags that the bus has seen: each control transfer adds the flags of
    the device as they are when it is issued. *)
Lemma control_transfer_seen (direction : FuUsbDirection) (request value idx : Z)
    (buf : list Z) (bufsz : Z) (d : FuFrescoPdDevice) r d' :
  fu_usb_device_control_transfer direction request value idx buf bufsz d = (r, d') ->
  usb_flags d' = flags d :: usb_flags d.
Proof.
  unfold fu_usb_device_control_transfer. cbv zeta.
  destruct (usb_replies d (usb_count d)) as [n | e]; [destruct direction |];
    intro H; injection H as _ <-; reflexivity.
Qed.

Lemma transfer_read_seen (offset : Z) (buf : list Z) (bufsz : Z)
    (d : FuFrescoPdDevice) r d' :
  fu_fresco_pd_device_transfer_read offset buf bufsz d = (r, d') ->
  usb_flags d' = flags d :: usb_flags d /\ usb_count d' = S (usb_count d).
Proof.
  unfold fu_fresco_pd_device_transfer_read. cbv zeta.
  destruct (fu_usb_device_control_transfer _ _ _ _ _ _ d) as [[[b n] | e] d1] eqn:E;
    pose proof (control_transfer_seen _ _ _ _ _ _ _ _ _ E) as Hseen;
    apply control_transfer_frame in E; destruct E as (_ & _ & _ & Hcount).
  - destruct (negb (guint16 bufsz =? n)); intro H; injection H as _ <-; auto.
  - intro H. injection H as _ <-. auto.
Qed.

Lemma transfer_write_seen (offset : Z) (buf : list Z) (bufsz : Z)
    (d : FuFrescoPdDevice) r d' :
  fu_fresco_pd_device_transfer_write offset buf bufsz d = (r, d') ->
  usb_flags d' = flags d :: usb_flags d /\ usb_count d' = S (usb_count d).
Proof.
  unfold fu_fresco_pd_device_transfer_write. cbv zeta.
  destruct (fu_usb_device_control_transfer _ _ _ _ _ _ d) as [[[b n] | e] d1] eqn:E;
    pose proof (control_transfer_seen _ _ _ _ _ _ _ _ _ E) as Hseen;
    apply control_transfer_frame in E; destruct E as (_ & _ & _ & Hcount).
  - destruct (negb (guint16 bufsz =? n)); intro H; injection H as _ <-; auto.
  - intro H. injection H as _ <-. auto.
Qed.

(** An or-write is a read and, if the read went through, a write: every
    transfer of it has seen the flags the device had when it began. *)
Lemma or_byte_seen (offset val : Z) (d : FuFrescoPdDevice) r d' :
  fu_fresco_pd_device_or_byte offset val d = (r, d') ->
  (usb_flags d' = flags d :: usb_flags d /\ usb_count d' = S (usb_count d) /\
   usb_writes d' = usb_writes d /\ is_ok r = false) \/
  (usb_flags d' = flags d :: flags d :: usb_flags d /\
   usb_count d' = S (S (usb_count d))).
Proof.
  unfold fu_fresco_pd_device_or_byte, fu_fresco_pd_device_write_byte,
    fu_fresco_pd_device_read_byte. cbv zeta. unfold bind at 1. unfold bind at 1.
  destruct (fu_fresco_pd_device_transfer_read offset [0] 1 d) as [[b | e] d1] eqn:E;
    pose proof (transfer_read_seen _ _ _ _ _ _ E) as [Hseen Hcount];
    apply transfer_read_frame in E; destruct E as (Hflags & _ & Hwrites & _).
  - unfold ret. intro H. apply transfer_write_seen in H. destruct H as [Hseen' Hcount'].
    right. rewrite Hseen', Hcount', Hflags, Hseen, Hcount. auto.
  - intro H. injection H as <- <-. left. auto.
Qed.

(** C2. Every control transfer that [fu_fresco_pd_device_panther_reset_device]
    issues, the read and the write of the register or-write, finds the
    wait-for-replug flag set on the device, and the flag is set when the
    reset returns, however it ends.  When the or-write fails with an error of
    kind Internal the reset returns TRUE without an error; an error of any
    other kind is propagated, prefixed with "failed to reset device: "; a
    successful or-write is a success. *)
Theorem panther_reset_device_policy (d : FuFrescoPdDevice) r d' :
  fu_fresco_pd_device_panther_reset_device d = (r, d') ->
  (exists seen,
     usb_flags d' = seen ++ usb_flags d /\
     length seen = (usb_count d' - usb_count d)%nat /\
     (1 <= length seen <= 2)%nat /\
     Forall (fun fl =>
               mask_has fl (FwupdDeviceFlags_of FWUPD_DEVICE_FLAG_WAIT_FOR_REPLUG)
               = true) seen /\
     (usb_writes d' <> usb_writes d -> length seen = 2%nat)) /\
  fu_device_has_flag d' FWUPD_DEVICE_FLAG_WAIT_FOR_REPLUG = true /\
  exists r0,
    fu_fresco_pd_device_or_byte 0xA003 (Z.shiftl 1 3)
      (fu_device_add_flag FWUPD_DEVICE_FLAG_WAIT_FOR_REPLUG d) = (r0, d') /\
    (is_ok r0 = true -> r = Ok tt) /\
    (forall e, r0 = Failed e -> g_error_matches e FWUPD_ERROR_INTERNAL = true ->
     r = Ok tt) /\
    (forall e, r0 = Failed e -> g_error_matches e FWUPD_ERROR_INTERNAL = false ->
     r = Failed (g_prefix_error "failed to reset device: " e)).
Proof.
  clear behind_blob.
  unfold fu_fresco_pd_device_panther_reset_device.
  set (flagged := fu_device_add_flag FWUPD_DEVICE_FLAG_WAIT_FOR_REPLUG d).
  assert (Hflag : fu_device_has_flag flagged FWUPD_DEVICE_FLAG_WAIT_FOR_REPLUG = true)
    by apply add_flag_has_flag.
  destruct (fu_fresco_pd_device_or_byte 0xA003 (Z.shiftl 1 3) flagged)
    as [r0 d0] eqn:Hor.
  intro H.
  assert (Hd : d0 = d').
  { destruct r0 as [u | e]; [| destruct (g_error_matches e FWUPD_ERROR_INTERNAL)];
      injection H as _ <-; reflexivity. }
  subst d0. split; [| split].
  - unfold fu_device_has_flag in Hflag.
    destruct (or_byte_seen _ _ _ _ _ Hor) as [(Hseen & Hcount & Hwrites & _) | (Hseen & Hcount)].
    + exists [flags flagged]. rewrite Hseen, Hcount.
      change (usb_flags flagged) with (usb_flags d).
      change (usb_count flagged) with (usb_count d).
      split; [reflexivity |]. split; [cbn [length]; lia |].
      split; [cbn [length]; lia |]. split; [repeat constructor; exact Hflag |].
      intro Hne. contradiction Hne.
    + exists [flags flagged; flags flagged]. rewrite Hseen, Hcount.
      change (usb_flags flagged) with (usb_flags d).
      change (usb_count flagged) with (usb_count d).
      split; [reflexivity |]. split; [cbn [length]; lia |].
      split; [cbn [length]; lia |]. split; [repeat constructor; exact Hflag |].
      reflexivity.
  - unfold fu_device_has_flag in *. rewrite (or_byte_flags _ _ _ _ _ Hor). exact Hflag.
  - exists r0. split; [reflexivity |]. repeat split.
    + intro Hok. destruct r0 as [u | e]; [| discriminate Hok].
      injection H as <-. reflexivity.
    + intros e -> He. rewrite He in H. injection H as <-. reflexivity.
    + intros e -> He. rewrite He in H. injection H as <-. reflexivity.
Qed.

(** ** Reads, writes and what they change on the device *)

Lemma bind_ok_inv {S A B : Type} (m : Run S A) (k : A -> Run S B) s b s' :
  bind m k s = (Ok b, s') ->
  exists a s1, m s = (Ok a, s1) /\ k a s1 = (Ok b, s').
Proof.
  unfold bind. destruct (m s) as [[a | e] s1]; intro H.
  - exists a, s1. split; [reflexivity | exact H].
  - discriminate H.
Qed.

Lemma with_prefix_ok_inv {S A : Type} (pfx : string) (m : Run S A) s a s' :
  with_prefix pfx m s = (Ok a, s') -> m s = (Ok a, s').
Proof.
  unfold with_prefix. destruct (m s) as [[a0 | e] s1]; intro H; inversion H; reflexivity.
Qed.

Lemma guint16_small (z : Z) : 0 <= z < 2 ^ 16 -> guint16 z = z.
Proof. intro H. unfold guint16. apply Z.mod_small. exact H. Qed.

Lemma guint8_small (z : Z) : 0 <= z < 2 ^ 8 -> guint8 z = z.
Proof. intro H. unfold guint8. apply Z.mod_small. exact H. Qed.

Lemma guint8_idem (z : Z) : guint8 (guint8 z) = guint8 z.
Proof. unfold guint8. apply Z.mod_mod. lia. Qed.

Lemma guint8_range (z : Z) : 0 <= guint8 z < 2 ^ 8.
Proof. unfold guint8. apply Z.mod_pos_bound. lia. Qed.

Lemma byte_at_range (buf : list byte) (i : Z) : 0 <= byte_at buf i < 2 ^ 8.
Proof.
  unfold byte_at.
  pose proof (Byte.to_N_bounded (nth (Z.to_nat i) buf (behind_blob i))). lia.
Qed.

Lemma transfer_read_ok (offset buf : Z) (d : FuFrescoPdDevice) b d' :
  fu_fresco_pd_device_transfer_read offset [buf] 1 d = (Ok b, d') ->
  b = [guint8 (mmio d (guint16 offset))] /\
  mmio d' = mmio d /\ usb_writes d' = usb_writes d /\
  usb_count d' = S (usb_count d).
Proof.
  unfold fu_fresco_pd_device_transfer_read, fu_usb_device_control_transfer.
  change (guint16 1) with 1. cbv zeta.
  destruct (usb_replies d (usb_count d)) as [n | e]; [| discriminate].
  destruct (Z.eqb_spec 1 n) as [<- | Hn]; cbn [negb]; [| discriminate].
  intro H. inversion H; subst. cbn. repeat split; reflexivity.
Qed.

Lemma read_byte_ok (offset buf : Z) (d : FuFrescoPdDevice) b d' :
  fu_fresco_pd_device_read_byte offset buf d = (Ok b, d') ->
  b = guint8 (mmio d (guint16 offset)) /\
  mmio d' = mmio d /\ usb_writes d' = usb_writes d /\
  usb_count d' = S (usb_count d).
Proof.
  unfold fu_fresco_pd_device_read_byte. intro H.
  apply bind_ok_inv in H. destruct H as (l & d1 & Hread & Hret).
  apply transfer_read_ok in Hread. destruct Hread as (-> & Hrest).
  inversion Hret; subst. split; [reflexivity | exact Hrest].
Qed.

Lemma write_byte_ok (offset v : Z) (d : FuFrescoPdDevice) d' :
  fu_fresco_pd_device_write_byte offset v d = (Ok tt, d') ->
  mmio d' = (fun a => if a =? guint16 offset then guint8 v else mmio d a) /\
  usb_writes d' = (guint16 offset, guint8 v) :: usb_writes d.
Proof.
  unfold fu_fresco_pd_device_write_byte,
    fu_fresco_pd_device_transfer_write, fu_usb_device_control_transfer.
  change (guint16 1) with 1. cbv zeta.
  destruct (usb_replies d (usb_count d)) as [n | e]; [| discriminate].
  destruct (Z.eqb_spec 1 n) as [<- | Hn]; cbn [negb]; [| discriminate].
  intro H. inversion H; subst. cbn. split; reflexivity.
Qed.

(** [set_byte] writes exactly when the byte read back differs. *)
Lemma set_byte_ok (offset val : Z) (d : FuFrescoPdDevice) d' :
  fu_fresco_pd_device_set_byte offset val d = (Ok tt, d') ->
  (guint8 (mmio d (guint16 offset)) = guint8 val /\
   mmio d' = mmio d /\ usb_writes d' = usb_writes d /\
   usb_count d' = S (usb_count d))
  \/
  (guint8 (mmio d (guint16 offset)) <> guint8 val /\
   mmio d' = (fun a => if a =? guint16 offset then guint8 val else mmio d a) /\
   usb_writes d' = (guint16 offset, guint8 val) :: usb_writes d).
Proof.
  unfold fu_fresco_pd_device_set_byte. intro H.
  apply bind_ok_inv in H. destruct H as (b & d1 & Hread & Hk).
  apply read_byte_ok in Hread. destruct Hread as (-> & Hm & Hw & Hc).
  destruct (Z.eqb_spec (guint8 (mmio d (guint16 offset))) (guint8 val)) as [Heq | Hne].
  - left. inversion Hk; subst. auto.
  - right. apply write_byte_ok in Hk. destruct Hk as [Hm' Hw'].
    rewrite guint8_idem in Hm', Hw'.
    rewrite Hm in Hm'. rewrite Hw in Hw'. auto.
Qed.

(** [effect_within P m]: whatever [m] does and however it ends, it stores
    only to registers satisfying [P]. *)
Definition effect_within (P : Z -> Prop) {A : Type} (m : Run FuFrescoPdDevice A)
  : Prop :=
  forall d r d', m d = (r, d') ->
    (forall a, ~ P a -> mmio d' a = mmio d a) /\
    (exists new, usb_writes d' = new ++ usb_writes d /\
                 Forall (fun w => P (fst w)) new).

Lemma effect_ret (P : Z -> Prop) {A : Type} (a : A) : effect_within P (ret a).
Proof.
  intros d r d' H. inversion H; subst. split; [reflexivity |].
  exists []. split; [reflexivity | constructor].
Qed.

Lemma effect_bind (P : Z -> Prop) {A B : Type} (m : Run FuFrescoPdDevice A)
    (k : A -> Run FuFrescoPdDevice B) :
  effect_within P m -> (forall a, effect_within P (k a)) ->
  effect_within P (bind m k).
Proof.
  intros Hm Hk d r d'. unfold bind.
  destruct (m d) as [[a | e] d1] eqn:E; intro H.
  - destruct (Hm _ _ _ E) as (Hm1 & n1 & Hw1 & Hf1).
    destruct (Hk a _ _ _ H) as (Hm2 & n2 & Hw2 & Hf2).
    split.
    + intros x Hx. rewrite Hm2, Hm1 by assumption. reflexivity.
    + exists (n2 ++ n1). split.
      * rewrite Hw2, Hw1, app_assoc. reflexivity.
      * apply Forall_app. split; assumption.
  - inversion H; subst. exact (Hm _ _ _ E).
Qed.

Lemma effect_with_prefix (P : Z -> Prop) {A : Type} (pfx : string)
    (m : Run FuFrescoPdDevice A) :
  effect_within P m -> effect_within P (with_prefix pfx m).
Proof.
  intros Hm d r d'. unfold with_prefix.
  destruct (m d) as [[a | e] d1] eqn:E; intro H; inversion H; subst;
    exact (Hm _ _ _ E).
Qed.

Lemma effect_read_byte (P : Z -> Prop) (offset buf : Z) :
  effect_within P (fu_fresco_pd_device_read_byte offset buf).
Proof.
  intros d r d' H. apply read_byte_frame in H. destruct H as (_ & Hm & Hw & _).
  split; [intros; now rewrite Hm |].
  exists []. split; [exact Hw | constructor].
Qed.

Lemma effect_write_byte (P : Z -> Prop) (offset v : Z) :
  P (guint16 offset) -> effect_within P (fu_fresco_pd_device_write_byte offset v).
Proof.
  clear behind_blob.
  intros HP d r d'.
  unfold fu_fresco_pd_device_write_byte,
    fu_fresco_pd_device_transfer_write, fu_usb_device_control_transfer.
  change (guint16 1) with 1. cbv zeta.
  destruct (usb_replies d (usb_count d)) as [n | e].
  - unfold moved.
    assert (Hcases : Z.to_nat (Z.min n 1) = 0%nat \/ Z.to_nat (Z.min n 1) = 1%nat) by lia.
    destruct Hcases as [-> | ->]; cbn [firstn mmio_store log_store];
      destruct (negb (1 =? n)); intro H; inversion H; subst; cbn.
    1, 2: split; [reflexivity | exists []; split; [reflexivity | constructor]].
    1, 2: split;
      [ intros a Ha; destruct (Z.eqb_spec a (guint16 offset)); [subst; tauto | reflexivity]
      | exists [(guint16 offset, guint8 v)]; split;
        [reflexivity | constructor; [exact HP | constructor]] ].
  - intro H; inversion H; subst; cbn.
    split; [reflexivity | exists []; split; [reflexivity | constructor]].
Qed.

Lemma effect_set_byte (P : Z -> Prop) (offset val : Z) :
  P (guint16 offset) -> effect_within P (fu_fresco_pd_device_set_byte offset val).
Proof.
  clear behind_blob.
  intro HP. unfold fu_fresco_pd_device_set_byte.
  apply effect_bind; [apply effect_read_byte |].
  intro b. destruct (b =? guint8 val).
  - apply effect_ret.
  - apply effect_write_byte. exact HP.
Qed.

Lemma effect_and_byte (P : Z -> Prop) (offset val : Z) :
  P (guint16 offset) -> effect_within P (fu_fresco_pd_device_and_byte offset val).
Proof.
  clear behind_blob.
  intro HP. unfold fu_fresco_pd_device_and_byte.
  apply effect_bind; [apply effect_read_byte |].
  intro b. apply effect_write_byte. exact HP.
Qed.

Lemma effect_or_byte (P : Z -> Prop) (offset val : Z) :
  P (guint16 offset) -> effect_within P (fu_fresco_pd_device_or_byte offset val).
Proof.
  clear behind_blob.
  intro HP. unfold fu_fresco_pd_device_or_byte.
  apply effect_bind; [apply effect_read_byte |].
  intro b. apply effect_write_byte. exact HP.
Qed.

Lemma effect_weaken (P Q : Z -> Prop) {A : Type} (m : Run FuFrescoPdDevice A) :
  (forall a, P a -> Q a) -> effect_within P m -> effect_within Q m.
Proof.
  intros HPQ Hm d r d' H. destruct (Hm _ _ _ H) as (Hmm & new & Hw & Hf).
  split.
  - intros a Ha. apply Hmm. intro HP. apply Ha, HPQ, HP.
  - exists new. split; [exact Hw |].
    eapply Forall_impl; [| exact Hf]. intros w Hw'. apply HPQ, Hw'.
Qed.

(** As [effect_bind], when the continuation is only known to behave for the
    values the first part can return. *)
Lemma effect_bind_post (P : Z -> Prop) {A B : Type} (Q : A -> Prop)
    (m : Run FuFrescoPdDevice A) (k : A -> Run FuFrescoPdDevice B) :
  effect_within P m ->
  (forall d a d', m d = (Ok a, d') -> Q a) ->
  (forall a, Q a -> effect_within P (k a)) ->
  effect_within P (bind m k).
Proof.
  intros Hm HQ Hk d r d'. unfold bind.
  destruct (m d) as [[a | e] d1] eqn:E; intro H.
  - destruct (Hm _ _ _ E) as (Hm1 & n1 & Hw1 & Hf1).
    destruct (Hk a (HQ _ _ _ E) _ _ _ H) as (Hm2 & n2 & Hw2 & Hf2).
    split.
    + intros x Hx. rewrite Hm2, Hm1 by assumption. reflexivity.
    + exists (n2 ++ n1). split.
      * rewrite Hw2, Hw1, app_assoc. reflexivity.
      * apply Forall_app. split; assumption.
  - inversion H; subst. exact (Hm _ _ _ E).
Qed.

(** ** Where each phase of the update stores *)

Definition above_body (a : Z) : Prop := 0x6000 <= a.

Lemma effect_read_config (P : Z -> Prop) (base : Z) :
  effect_within P (read_config base).
Proof.
  unfold read_config.
  repeat (apply effect_bind;
          [apply effect_with_prefix, effect_read_byte | intro]).
  apply effect_ret.
Qed.

Lemma effect_find_begin_addr (P : Z -> Prop) (idx : list Z) (begin_addr : Z)
    (start_symbols : Z * Z) :
  effect_within P (find_begin_addr idx begin_addr start_symbols).
Proof.
  induction idx as [| i idx IH]; cbn [find_begin_addr]; [apply effect_ret |].
  apply effect_bind; [apply effect_read_config |].
  intros [[c0 c1] c2].
  destruct ((c0 =? fst start_symbols) && (c1 =? snd start_symbols));
    [apply effect_ret |].
  destruct ((c0 =? 0) && (c1 =? 0) && (c2 =? 0)); [apply effect_ret | exact IH].
Qed.

Lemma find_begin_addr_bounds (idx : list Z) (start_symbols : Z * Z)
    (d : FuFrescoPdDevice) b d' :
  Forall (fun i => 0 <= i < 0x400) idx ->
  find_begin_addr idx 0x6420 start_symbols d = (Ok b, d') ->
  0x6420 <= b < 0x6820.
Proof.
  intro Hidx. revert d. induction Hidx as [| i idx Hi Hidx IH]; intros d H.
  - apply ret_inv in H. destruct H as [Hb _]. lia.
  - cbv beta in Hi. cbn [find_begin_addr] in H. apply bind_ok_inv in H.
    destruct H as ([[c0 c1] c2] & d1 & _ & H).
    destruct ((c0 =? fst start_symbols) && (c1 =? snd start_symbols)).
    + apply ret_inv in H. destruct H as [Hb _].
      rewrite guint16_small in Hb by lia. lia.
    + destruct ((c0 =? 0) && (c1 =? 0) && (c2 =? 0)).
      * apply ret_inv in H. destruct H as [Hb _]. lia.
      * eapply IH. exact H.
Qed.

Lemma effect_patch_boot_code (P : Z -> Prop) (idx : list Z) :
  Forall (fun i => P (guint16 (i + 2))) idx ->
  effect_within P (patch_boot_code idx).
Proof.
  clear behind_blob.
  induction 1 as [| i idx Hi Hidx IH]; cbn [patch_boot_code]; [apply effect_ret |].
  apply effect_bind; [apply effect_read_config |].
  intros [[c0 c1] c2].
  destruct ((c0 =? 0x74) && (c1 =? 0x06) && negb (c2 =? 0x22)).
  { apply effect_bind; [apply effect_write_byte; exact Hi | intro; exact IH]. }
  destruct ((c0 =? 0x6c) && (c1 =? 0x00) && negb (c2 =? 0x01)).
  { apply effect_bind; [apply effect_write_byte; exact Hi | intro; exact IH]. }
  destruct ((c0 =? 0x00) && (c1 =? 0x00) && negb (c2 =? 0x00));
    [apply effect_ret | exact IH].
Qed.

Lemma effect_enable_mtp_write (start_symbols : Z * Z) :
  effect_within above_body (enable_mtp_write start_symbols).
Proof.
  clear behind_blob.
  unfold enable_mtp_write.
  apply effect_bind;
    [apply effect_with_prefix, effect_and_byte; unfold above_body; cbv; discriminate |].
  intros _. apply effect_bind;
    [apply effect_with_prefix, effect_and_byte; unfold above_body; cbv; discriminate |].
  intros _. apply effect_bind;
    [apply effect_with_prefix, effect_write_byte; unfold above_body; cbv; discriminate |].
  intros _.
  apply (effect_bind_post above_body (fun b => 0x6420 <= b < 0x6820)).
  - apply effect_find_begin_addr.
  - intros d b d' H. eapply find_begin_addr_bounds; [| exact H].
    apply Forall_forall. intros i Hi. apply range_In in Hi; lia.
  - intros b Hb. apply effect_bind; [| intro; apply effect_ret].
    apply effect_patch_boot_code. apply Forall_forall. intros i Hi.
    unfold guint in Hi. rewrite !Z.mod_small in Hi by lia.
    apply range_In in Hi; [| lia].
    unfold above_body. rewrite guint16_small by lia. lia.
Qed.

Lemma effect_update_customize_data (idx : list Z) (buf : list byte) :
  Forall (fun i => 0 <= i < 6) idx ->
  effect_within above_body (update_customize_data idx buf).
Proof.
  induction 1 as [| i idx Hi Hidx IH]; cbn [update_customize_data];
    [apply effect_ret |].
  repeat (apply effect_bind;
          [apply effect_set_byte; unfold above_body;
           rewrite guint16_small by lia; lia | intros _]).
  exact IH.
Qed.

Lemma effect_write_boot_configuration (idx : list Z) (begin_addr : Z)
    (buf : list byte) :
  0x6420 <= begin_addr < 0x6820 ->
  Forall (fun i => 0 <= i < 0x1e0) idx ->
  effect_within above_body (write_boot_configuration idx begin_addr buf).
Proof.
  intro Hb. induction 1 as [| i idx Hi Hidx IH]; cbn [write_boot_configuration];
    [apply effect_ret |].
  repeat (apply effect_bind;
          [apply effect_set_byte; unfold above_body;
           rewrite guint16_small by lia; lia | intros _]).
  exact IH.
Qed.

Lemma effect_panther_reset_device :
  effect_within above_body fu_fresco_pd_device_panther_reset_device.
Proof.
  clear behind_blob.
  intros d r d'. unfold fu_fresco_pd_device_panther_reset_device.
  destruct (fu_fresco_pd_device_or_byte 0xA003 (Z.shiftl 1 3)
              (fu_device_add_flag FWUPD_DEVICE_FLAG_WAIT_FOR_REPLUG d))
    as [r0 d0] eqn:E.
  assert (Hor : effect_within above_body
                  (fu_fresco_pd_device_or_byte 0xA003 (Z.shiftl 1 3)))
    by (apply effect_or_byte; unfold above_body; cbv; discriminate).
  specialize (Hor _ _ _ E). cbn [fu_device_add_flag set_flags mmio usb_writes] in Hor.
  destruct r0 as [u | e]; [| destruct (g_error_matches e FWUPD_ERROR_INTERNAL)];
    intro H; inversion H; subst; exact Hor.
Qed.

(** ** The firmware body *)

Lemma on_device_ok_inv {A : Type} (m : Run FuFrescoPdDevice A)
    (d : FuFrescoPdDevice) (p : FuProgress) a s' :
  on_device m (d, p) = (Ok a, s') ->
  exists d', m d = (Ok a, d') /\ s' = (d', p).
Proof.
  unfold on_device. cbn [fst snd]. destruct (m d) as [r d1]. intro H.
  injection H as -> <-. exists d1. split; reflexivity.
Qed.

Lemma progress_call_inv (c : FuProgressCall) (d : FuFrescoPdDevice)
    (p : FuProgress) r s' :
  fu_progress_call c (d, p) = (r, s') -> r = Ok tt /\ s' = (d, c :: p).
Proof. unfold fu_progress_call. cbn [fst snd]. intro H. injection H as <- <-. auto. Qed.

(** A body byte is stale when the device does not hold the payload byte. *)
Definition stale (d : FuFrescoPdDevice) (buf : list byte) (i : Z) : bool :=
  negb (guint8 (mmio d (0x2000 + i)) =? byte_at buf i).

(** The stores a body fill has to make, first to last. *)
Definition body_writes (d : FuFrescoPdDevice) (buf : list byte) (idx : list Z)
  : list (Z * Z) :=
  map (fun i => (0x2000 + i, byte_at buf i)) (filter (stale d buf) idx).

Lemma body_writes_ext (d1 d2 : FuFrescoPdDevice) (buf : list byte) (idx : list Z) :
  (forall i, In i idx -> mmio d1 (0x2000 + i) = mmio d2 (0x2000 + i)) ->
  body_writes d1 buf idx = body_writes d2 buf idx.
Proof.
  intro H. unfold body_writes. f_equal. apply filter_ext_in.
  intros i Hi. unfold stale. rewrite (H i Hi). reflexivity.
Qed.

Lemma body_writes_cons (d : FuFrescoPdDevice) (buf : list byte) (i : Z)
    (idx : list Z) :
  body_writes d buf (i :: idx)
  = if stale d buf i then (0x2000 + i, byte_at buf i) :: body_writes d buf idx
    else body_writes d buf idx.
Proof. unfold body_writes. cbn [filter]. destruct (stale d buf i); reflexivity. Qed.

Lemma fill_firmware_body_ok (buf : list byte) (idx : list Z) :
  NoDup idx -> Forall (fun i => 0 <= i < 0x4000) idx ->
  forall d p d' p',
    fill_firmware_body idx buf (d, p) = (Ok tt, (d', p')) ->
    (forall a, ~ In (a - 0x2000) idx -> mmio d' a = mmio d a) /\
    (forall i, In i idx -> guint8 (mmio d' (0x2000 + i)) = byte_at buf i) /\
    usb_writes d' = rev (body_writes d buf idx) ++ usb_writes d.
Proof.
  intros Hnd Hidx. induction Hidx as [| i idx Hi Hidx IH]; intros d p d' p' H.
  - apply ret_inv in H. destruct H as [_ H]. injection H as <- <-.
    split; [reflexivity |]. split; [intros j [] | reflexivity].
  - cbv beta in Hi. apply NoDup_cons_iff in Hnd. destruct Hnd as [Hni Hnd].
    specialize (IH Hnd).
    cbn [fill_firmware_body] in H.
    apply bind_ok_inv in H. destruct H as ([] & s1 & Hset & H).
    apply on_device_ok_inv in Hset. destruct Hset as (d1 & Hset & ->).
    apply bind_ok_inv in H. destruct H as ([] & s2 & Hcall & H).
    apply progress_call_inv in Hcall. destruct Hcall as [_ ->].
    specialize (IH _ _ _ _ H). destruct IH as (IHm & IHv & IHw).
    apply set_byte_ok in Hset.
    rewrite (guint16_small (i + 0x2000)) in Hset by lia.
    rewrite (guint8_small (byte_at buf i)) in Hset by apply byte_at_range.
    replace (i + 0x2000) with (0x2000 + i) in Hset by lia.
    assert (Hd1 : forall a, a <> 0x2000 + i -> mmio d1 a = mmio d a).
    { intros a Ha. destruct Hset as [(_ & Hm & _) | (_ & Hm & _)]; rewrite Hm.
      - reflexivity.
      - cbv beta. destruct (Z.eqb_spec a (0x2000 + i)); [contradiction | reflexivity]. }
    assert (Hd1i : guint8 (mmio d1 (0x2000 + i)) = byte_at buf i).
    { destruct Hset as [(Hv & Hm & _) | (_ & Hm & _)]; rewrite Hm.
      - exact Hv.
      - cbv beta. rewrite Z.eqb_refl. apply guint8_small, byte_at_range. }
    assert (Hrest : body_writes d1 buf idx = body_writes d buf idx).
    { apply body_writes_ext. intros j Hj. apply Hd1.
      intro Heq. apply Hni. replace i with j by lia. exact Hj. }
    repeat split.
    + intros a Ha. rewrite IHm by (intro Hin; apply Ha; right; exact Hin).
      apply Hd1. intro Heq. apply Ha. left. lia.
    + intros j [<- | Hj]; [| apply IHv, Hj].
      rewrite IHm; [exact Hd1i |].
      replace (0x2000 + i - 0x2000) with i by lia. exact Hni.
    + rewrite IHw, Hrest, body_writes_cons. unfold stale at 1.
      destruct Hset as [(Hv & _ & Hw & _) | (Hv & _ & Hw)]; rewrite Hw.
      * rewrite Hv, Z.eqb_refl. cbn [negb]. reflexivity.
      * apply Z.eqb_neq in Hv. rewrite Hv. cbn [negb rev].
        rewrite <- app_assoc. reflexivity.
Qed.

(** ** The whole update *)

Definition in_body (w : Z * Z) : bool :=
  (0x2000 <=? fst w) && (fst w <? 0x6000).

Lemma filter_in_body_above (new : list (Z * Z)) :
  Forall (fun w => above_body (fst w)) new -> filter in_body new = [].
Proof.
  induction 1 as [| w new Hw Hnew IH]; [reflexivity |].
  cbn [filter]. unfold in_body at 1. unfold above_body in Hw.
  destruct (Z.ltb_spec (fst w) 0x6000); [lia |].
  rewrite andb_false_r. exact IH.
Qed.

Lemma filter_in_body_writes (d : FuFrescoPdDevice) (buf : list byte) (idx : list Z) :
  Forall (fun i => 0 <= i < 0x4000) idx ->
  filter in_body (rev (body_writes d buf idx)) = rev (body_writes d buf idx).
Proof.
  intro Hidx. apply forallb_filter_id. apply forallb_forall. intros w Hw.
  apply in_rev in Hw. unfold body_writes in Hw. apply in_map_iff in Hw.
  destruct Hw as (i & <- & Hi). apply filter_In in Hi. destruct Hi as [Hi _].
  rewrite Forall_forall in Hidx. specialize (Hidx i Hi). cbv beta in Hidx.
  unfold in_body. cbn [fst]. apply andb_true_iff.
  split; [apply Z.leb_le | apply Z.ltb_lt]; lia.
Qed.

(** A phase that stores only above the body leaves the body and its share
    of the store log as they were. *)
Lemma above_body_frame {A : Type} (m : Run FuFrescoPdDevice A) d r d' :
  effect_within above_body m -> m d = (r, d') ->
  (forall a, a < 0x6000 -> mmio d' a = mmio d a) /\
  filter in_body (usb_writes d') = filter in_body (usb_writes d).
Proof.
  intros Hm H. destruct (Hm _ _ _ H) as (Hmm & new & Hw & Hf). split.
  - intros a Ha. apply Hmm. unfold above_body. lia.
  - rewrite Hw, filter_app, (filter_in_body_above new Hf). reflexivity.
Qed.

Lemma enable_mtp_write_bounds (start_symbols : Z * Z) d b d' :
  enable_mtp_write start_symbols d = (Ok b, d') -> 0x6420 <= b < 0x6820.
Proof.
  unfold enable_mtp_write. intro H.
  do 3 (apply bind_ok_inv in H; destruct H as (? & ? & _ & H)).
  apply bind_ok_inv in H. destruct H as (b0 & d1 & Hfind & H).
  apply bind_ok_inv in H. destruct H as (? & ? & _ & H).
  apply ret_inv in H. destruct H as [<- _].
  eapply find_begin_addr_bounds; [| exact Hfind].
  apply Forall_forall. intros i Hi. apply range_In in Hi; lia.
Qed.

(** After a successful [write_firmware] the body registers 0x2000..0x5FFF
    hold the payload, and the stores made to them are those of the stale
    bytes, in order: a byte the device already held is not stored again. *)
Lemma write_firmware_body (buf : list byte) d p d' p' :
  fu_fresco_pd_device_write_firmware (Ok buf) (d, p) = (Ok tt, (d', p')) ->
  (forall i, 0 <= i < 0x4000 -> guint8 (mmio d' (0x2000 + i)) = byte_at buf i) /\
  filter in_body (usb_writes d')
  = rev (body_writes d buf (range 0 0x4000 1)) ++ filter in_body (usb_writes d).
Proof.
  unfold fu_fresco_pd_device_write_firmware.
  set (R := range 0 0x4000 1).
  assert (HR : Forall (fun i => 0 <= i < 0x4000) R).
  { apply Forall_forall. intros i Hi. apply range_In in Hi; lia. }
  assert (HRin : forall i, 0 <= i < 0x4000 -> In i R).
  { intros i Hi. unfold R, range. apply in_map_iff. exists (Z.to_nat i).
    split; [lia |]. apply in_seq. rewrite Z.div_1_r. lia. }
  assert (HRnd : NoDup R) by (apply range_NoDup; lia).
  clearbody R. intro H.
  do 7 (apply bind_ok_inv in H; destruct H as ([] & ? & Hcall & H);
        apply progress_call_inv in Hcall; destruct Hcall as [_ ->]).
  apply bind_ok_inv in H. destruct H as (buf0 & ? & Hfw & H).
  injection Hfw as <- <-.
  apply bind_ok_inv in H. destruct H as (start_symbols & ? & Hsym & H).
  unfold lift_result in Hsym. injection Hsym as _ <-.
  apply bind_ok_inv in H. destruct H as (begin_addr & ? & Hmtp & H).
  apply on_device_ok_inv in Hmtp. destruct Hmtp as (d1 & Hmtp & ->).
  apply bind_ok_inv in H. destruct H as ([] & ? & Hcall & H).
  apply progress_call_inv in Hcall. destruct Hcall as [_ ->].
  apply bind_ok_inv in H. destruct H as ([] & [d2 p2] & Hfill & H).
  apply bind_ok_inv in H. destruct H as ([] & ? & Hcall & H).
  apply progress_call_inv in Hcall. destruct Hcall as [_ ->].
  apply bind_ok_inv in H. destruct H as ([] & ? & Hcust & H).
  apply on_device_ok_inv in Hcust. destruct Hcust as (d3 & Hcust & ->).
  apply bind_ok_inv in H. destruct H as ([] & ? & Hcall & H).
  apply progress_call_inv in Hcall. destruct Hcall as [_ ->].
  apply bind_ok_inv in H. destruct H as ([] & ? & Hboot & H).
  apply on_device_ok_inv in Hboot. destruct Hboot as (d4 & Hboot & ->).
  apply bind_ok_inv in H. destruct H as ([] & ? & Hcall & H).
  apply progress_call_inv in Hcall. destruct Hcall as [_ ->].
  apply bind_ok_inv in H. destruct H as ([] & ? & Hreset & H).
  apply on_device_ok_inv in Hreset. destruct Hreset as (d5 & Hreset & ->).
  apply bind_ok_inv in H. destruct H as ([] & ? & Hcall & H).
  apply progress_call_inv in Hcall. destruct Hcall as [_ ->].
  apply ret_inv in H. destruct H as [_ H]. injection H as <- <-.
  pose proof (enable_mtp_write_bounds _ _ _ _ Hmtp) as Hbegin.
  (* before the body *)
  destruct (above_body_frame _ _ _ _ (effect_enable_mtp_write _) Hmtp) as [M1 W1].
  (* the body *)
  destruct (fill_firmware_body_ok buf R HRnd HR _ _ _ _ Hfill) as (_ & V2 & W2).
  (* after the body *)
  assert (Ecust : effect_within above_body
            (bind (update_customize_data (range 0 6 1) buf)
                  (fun _ => fu_fresco_pd_device_set_byte 0x6630 (byte_at buf 0x4230)))).
  { apply effect_bind.
    - apply effect_update_customize_data. apply Forall_forall.
      intros i Hi. apply range_In in Hi; lia.
    - intros _. apply effect_set_byte. unfold above_body. cbv. discriminate. }
  destruct (above_body_frame _ _ _ _ Ecust Hcust) as [M3 W3].
  assert (Eboot : effect_within above_body
            (write_boot_configuration (range 0 0x1e0 3) begin_addr buf)).
  { apply effect_write_boot_configuration; [exact Hbegin |].
    apply Forall_forall. intros i Hi. apply range_In in Hi; lia. }
  destruct (above_body_frame _ _ _ _ Eboot Hboot) as [M4 W4].
  destruct (above_body_frame _ _ _ _ effect_panther_reset_device Hreset) as [M5 W5].
  split.
  - intros i Hi. rewrite M5, M4, M3 by lia. apply V2, HRin, Hi.
  - rewrite W5, W4, W3, W2, filter_app, (filter_in_body_writes _ _ _ HR), W1.
    f_equal. f_equal. apply body_writes_ext. intros i Hi.
    rewrite Forall_forall in HR. specialize (HR i Hi). cbv beta in HR.
    apply M1. lia.
Qed.



(** ** The update on a device that answers every transfer *)

Definition healthy (d : FuFrescoPdDevice) : Prop :=
  forall n, usb_replies d n = UsbTransferred 1.

Definition succeeds {A : Type} (m : Run FuFrescoPdDevice A) : Prop :=
  forall d, healthy d -> exists a d', m d = (Ok a, d') /\ healthy d'.

Definition succeeds_with_progress {A : Type}
    (m : Run (FuFrescoPdDevice * FuProgress) A) : Prop :=
  forall d p, healthy d -> exists a d' p', m (d, p) = (Ok a, (d', p')) /\ healthy d'.

Lemma succeeds_ret {A : Type} (a : A) : succeeds (ret a).
Proof. intros d Hd. exists a, d. split; [reflexivity | exact Hd]. Qed.

Lemma succeeds_bind {A B : Type} (m : Run FuFrescoPdDevice A)
    (k : A -> Run FuFrescoPdDevice B) :
  succeeds m -> (forall a, succeeds (k a)) -> succeeds (bind m k).
Proof.
  intros Hm Hk d Hd. destruct (Hm d Hd) as (a & d1 & E1 & Hd1).
  destruct (Hk a d1 Hd1) as (b & d2 & E2 & Hd2).
  exists b, d2. unfold bind. rewrite E1. split; assumption.
Qed.

Lemma succeeds_with_prefix {A : Type} (pfx : string) (m : Run FuFrescoPdDevice A) :
  succeeds m -> succeeds (with_prefix pfx m).
Proof.
  intros Hm d Hd. destruct (Hm d Hd) as (a & d1 & E1 & Hd1).
  exists a, d1. unfold with_prefix. rewrite E1. split; [reflexivity | exact Hd1].
Qed.

Lemma succeeds_read_byte (offset buf : Z) :
  succeeds (fu_fresco_pd_device_read_byte offset buf).
Proof.
  intros d Hd.
  unfold fu_fresco_pd_device_read_byte, bind,
    fu_fresco_pd_device_transfer_read, fu_usb_device_control_transfer.
  change (guint16 1) with 1. cbv zeta. rewrite (Hd (usb_count d)).
  cbn [Z.eqb Pos.eqb negb]. eexists _, _. split; [reflexivity | exact Hd].
Qed.

Lemma succeeds_write_byte (offset v : Z) :
  succeeds (fu_fresco_pd_device_write_byte offset v).
Proof.
  intros d Hd.
  unfold fu_fresco_pd_device_write_byte,
    fu_fresco_pd_device_transfer_write, fu_usb_device_control_transfer.
  change (guint16 1) with 1. cbv zeta. rewrite (Hd (usb_count d)).
  cbn [Z.eqb Pos.eqb negb]. eexists _, _. split; [reflexivity | exact Hd].
Qed.

Lemma succeeds_set_byte (offset val : Z) :
  succeeds (fu_fresco_pd_device_set_byte offset val).
Proof.
  unfold fu_fresco_pd_device_set_byte.
  apply succeeds_bind; [apply succeeds_read_byte |].
  intro b. destruct (b =? guint8 val); [apply succeeds_ret | apply succeeds_write_byte].
Qed.

Lemma succeeds_and_byte (offset val : Z) :
  succeeds (fu_fresco_pd_device_and_byte offset val).
Proof.
  unfold fu_fresco_pd_device_and_byte.
  apply succeeds_bind; [apply succeeds_read_byte | intro; apply succeeds_write_byte].
Qed.

Lemma succeeds_or_byte (offset val : Z) :
  succeeds (fu_fresco_pd_device_or_byte offset val).
Proof.
  unfold fu_fresco_pd_device_or_byte.
  apply succeeds_bind; [apply succeeds_read_byte | intro; apply succeeds_write_byte].
Qed.

Lemma succeeds_read_config (base : Z) : succeeds (read_config base).
Proof.
  unfold read_config.
  repeat (apply succeeds_bind;
          [apply succeeds_with_prefix, succeeds_read_byte | intro]).
  apply succeeds_ret.
Qed.

Lemma succeeds_find_begin_addr (idx : list Z) (begin_addr : Z)
    (start_symbols : Z * Z) :
  succeeds (find_begin_addr idx begin_addr start_symbols).
Proof.
  induction idx as [| i idx IH]; cbn [find_begin_addr]; [apply succeeds_ret |].
  apply succeeds_bind; [apply succeeds_read_config |].
  intros [[c0 c1] c2].
  destruct ((c0 =? fst start_symbols) && (c1 =? snd start_symbols));
    [apply succeeds_ret |].
  destruct ((c0 =? 0) && (c1 =? 0) && (c2 =? 0)); [apply succeeds_ret | exact IH].
Qed.

Lemma succeeds_patch_boot_code (idx : list Z) : succeeds (patch_boot_code idx).
Proof.
  induction idx as [| i idx IH]; cbn [patch_boot_code]; [apply succeeds_ret |].
  apply succeeds_bind; [apply succeeds_read_config |].
  intros [[c0 c1] c2].
  destruct ((c0 =? 0x74) && (c1 =? 0x06) && negb (c2 =? 0x22)).
  { apply succeeds_bind; [apply succeeds_write_byte | intro; exact IH]. }
  destruct ((c0 =? 0x6c) && (c1 =? 0x00) && negb (c2 =? 0x01)).
  { apply succeeds_bind; [apply succeeds_write_byte | intro; exact IH]. }
  destruct ((c0 =? 0x00) && (c1 =? 0x00) && negb (c2 =? 0x00));
    [apply succeeds_ret | exact IH].
Qed.

Lemma succeeds_enable_mtp_write (start_symbols : Z * Z) :
  succeeds (enable_mtp_write start_symbols).
Proof.
  unfold enable_mtp_write.
  do 2 (apply succeeds_bind; [apply succeeds_with_prefix, succeeds_and_byte | intro]).
  apply succeeds_bind; [apply succeeds_with_prefix, succeeds_write_byte | intro].
  apply succeeds_bind; [apply succeeds_find_begin_addr | intro].
  apply succeeds_bind; [apply succeeds_patch_boot_code | intro; apply succeeds_ret].
Qed.

Lemma succeeds_update_customize_data (idx : list Z) (buf : list byte) :
  succeeds (update_customize_data idx buf).
Proof.
  induction idx as [| i idx IH]; cbn [update_customize_data]; [apply succeeds_ret |].
  do 3 (apply succeeds_bind; [apply succeeds_set_byte | intro]). exact IH.
Qed.

Lemma succeeds_write_boot_configuration (idx : list Z) (begin_addr : Z)
    (buf : list byte) :
  succeeds (write_boot_configuration idx begin_addr buf).
Proof.
  induction idx as [| i idx IH]; cbn [write_boot_configuration]; [apply succeeds_ret |].
  do 3 (apply succeeds_bind; [apply succeeds_set_byte | intro]). exact IH.
Qed.

Lemma succeeds_panther_reset_device :
  succeeds fu_fresco_pd_device_panther_reset_device.
Proof.
  intros d Hd. unfold fu_fresco_pd_device_panther_reset_device.
  assert (Hd0 : healthy (fu_device_add_flag FWUPD_DEVICE_FLAG_WAIT_FOR_REPLUG d))
    by exact Hd.
  destruct (succeeds_or_byte 0xA003 (Z.shiftl 1 3) _ Hd0) as ([] & d1 & E & Hd1).
  rewrite E. exists tt, d1. split; [reflexivity | exact Hd1].
Qed.

Lemma succeeds_on_device {A : Type} (m : Run FuFrescoPdDevice A) :
  succeeds m -> succeeds_with_progress (on_device m).
Proof.
  intros Hm d p Hd. destruct (Hm d Hd) as (a & d1 & E & Hd1).
  exists a, d1, p. unfold on_device. cbn [fst snd]. rewrite E.
  split; [reflexivity | exact Hd1].
Qed.

Lemma succeeds_progress_call (c : FuProgressCall) :
  succeeds_with_progress (fu_progress_call c).
Proof.
  intros d p Hd. exists tt, d, (c :: p). split; [reflexivity | exact Hd].
Qed.

Lemma succeeds_progress_bind {A B : Type}
    (m : Run (FuFrescoPdDevice * FuProgress) A)
    (k : A -> Run (FuFrescoPdDevice * FuProgress) B) :
  succeeds_with_progress m -> (forall a, succeeds_with_progress (k a)) ->
  succeeds_with_progress (bind m k).
Proof.
  intros Hm Hk d p Hd. destruct (Hm d p Hd) as (a & d1 & p1 & E1 & Hd1).
  destruct (Hk a d1 p1 Hd1) as (b & d2 & p2 & E2 & Hd2).
  exists b, d2, p2. unfold bind. rewrite E1. split; assumption.
Qed.

Lemma succeeds_fill_firmware_body (idx : list Z) (buf : list byte) :
  succeeds_with_progress (fill_firmware_body idx buf).
Proof.
  induction idx as [| i idx IH]; cbn [fill_firmware_body].
  - intros d p Hd. exists tt, d, p. split; [reflexivity | exact Hd].
  - apply succeeds_progress_bind;
      [apply succeeds_on_device, succeeds_set_byte | intro].
    apply succeeds_progress_bind; [apply succeeds_progress_call | intro].
    exact IH.
Qed.

Lemma succeeds_progress_bind_post {A B : Type} (Q : A -> Prop)
    (m : Run (FuFrescoPdDevice * FuProgress) A)
    (k : A -> Run (FuFrescoPdDevice * FuProgress) B) :
  (forall d p, healthy d ->
     exists a d' p', m (d, p) = (Ok a, (d', p')) /\ healthy d' /\ Q a) ->
  (forall a, Q a -> succeeds_with_progress (k a)) ->
  succeeds_with_progress (bind m k).
Proof.
  intros Hm Hk d p Hd. destruct (Hm d p Hd) as (a & d1 & p1 & E1 & Hd1 & Ha).
  destruct (Hk a Ha d1 p1 Hd1) as (b & d2 & p2 & E2 & Hd2).
  exists b, d2, p2. unfold bind. rewrite E1. split; assumption.
Qed.

Lemma memcpy_safe_start_symbols (buf : list byte) :
  0x4002 <= Z.of_nat (length buf) ->
  exists start_symbols,
    fu_memcpy_safe 2 0x0 buf (Z.of_nat (length buf)) 0x4000 2 = Ok start_symbols.
Proof.
  intro Hlen. unfold fu_memcpy_safe.
  destruct (Z.ltb_spec (Z.of_nat (length buf)) (0x4000 + 2)); [lia |].
  destruct (Z.ltb_spec 2 (0x0 + 2)); [lia |].
  eexists. reflexivity.
Qed.

(** With a blob that covers every read and a device that answers, the
    update runs to the end. *)
Lemma write_firmware_succeeds (buf : list byte) d p :
  healthy d -> covers_reads buf ->
  exists d' p',
    fu_fresco_pd_device_write_firmware (Ok buf) (d, p) = (Ok tt, (d', p')).
Proof.
  intros Hd Hcovers.
  assert (Hlen : 0x4002 <= Z.of_nat (length buf))
    by (unfold covers_reads in Hcovers; lia).
  assert (H : succeeds_with_progress (fu_fresco_pd_device_write_firmware (Ok buf))).
  { unfold fu_fresco_pd_device_write_firmware.
    do 7 (apply succeeds_progress_bind; [apply succeeds_progress_call | intro]).
    apply (succeeds_progress_bind_post (fun b => b = buf)).
    { intros d0 p0 Hd0. exists buf, d0, p0. repeat split. exact Hd0. }
    intros buf0 ->.
    destruct (memcpy_safe_start_symbols buf Hlen) as [start_symbols ->].
    apply succeeds_progress_bind.
    { intros d0 p0 Hd0. exists start_symbols, d0, p0. split; [reflexivity | exact Hd0]. }
    intro ss.
    apply succeeds_progress_bind;
      [apply succeeds_on_device, succeeds_enable_mtp_write | intro begin_addr].
    apply succeeds_progress_bind; [apply succeeds_progress_call | intro].
    apply succeeds_progress_bind; [apply succeeds_fill_firmware_body | intro].
    apply succeeds_progress_bind; [apply succeeds_progress_call | intro].
    apply succeeds_progress_bind.
    { apply succeeds_on_device. apply succeeds_bind;
        [apply succeeds_update_customize_data | intro; apply succeeds_set_byte]. }
    intro.
    apply succeeds_progress_bind; [apply succeeds_progress_call | intro].
    apply succeeds_progress_bind;
      [apply succeeds_on_device, succeeds_write_boot_configuration | intro].
    apply succeeds_progress_bind; [apply succeeds_progress_call | intro].
    apply succeeds_progress_bind;
      [apply succeeds_on_device, succeeds_panther_reset_device | intro].
    apply succeeds_progress_bind; [apply succeeds_progress_call | intro].
    intros d0 p0 Hd0. exists tt, d0, p0. split; [reflexivity | exact Hd0]. }
  destruct (H d p Hd) as ([] & d' & p' & E & _). exists d', p'. exact E.
Qed.

(** ** The progress calls of the update *)

Lemma fill_firmware_body_emits (idx : list Z) (buf : list byte) :
  emits (fill_firmware_body idx buf) (updates_of 0x4000 idx).
Proof.
  induction idx as [| i idx IH]; cbn [fill_firmware_body updates_of map].
  - apply emits_ret.
  - apply (emits_bind _ _ [] (_ :: _)); [apply emits_on_device | intros _].
    apply (emits_bind _ _ [_] _); [apply emits_call | intros _]. exact IH.
Qed.

Definition write_firmware_header : list FuProgressCall :=
  [ FU_PROGRESS_SET_ID;
    FU_PROGRESS_ADD_FLAG_GUESSED;
    FU_PROGRESS_ADD_STEP FWUPD_STATUS_DEVICE_BUSY 2 (Some "enable-mtp-write"%string);
    FU_PROGRESS_ADD_STEP FWUPD_STATUS_DEVICE_WRITE 50 (Some "copy-mmio"%string);
    FU_PROGRESS_ADD_STEP FWUPD_STATUS_DEVICE_VERIFY 46 (Some "customize"%string);
    FU_PROGRESS_ADD_STEP FWUPD_STATUS_DEVICE_BUSY 2 (Some "boot"%string);
    FU_PROGRESS_ADD_STEP FWUPD_STATUS_DEVICE_RESTART 2 None ].

(** The calls of a complete update: the set-up, the end of "enable-mtp-write",
    the updates of the body loop, and the ends of the four later steps. *)
Definition write_firmware_calls : list FuProgressCall :=
  second_step_loop write_firmware_header 0x4000 (range 0 0x4000 1) 3.

Lemma write_firmware_emits (firmware : Result (list byte)) :
  emits (fu_fresco_pd_device_write_firmware firmware) write_firmware_calls.
Proof.
  unfold fu_fresco_pd_device_write_firmware, write_firmware_calls.
  generalize (range 0 0x4000 1). intro R.
  unfold second_step_loop, write_firmware_header.
  eapply emits_eq.
  - do 7 (eapply emits_bind; [apply emits_call | intros _]).
    eapply emits_bind; [apply emits_lift_result | intros buf].
    eapply emits_bind; [apply emits_lift_result | intros start_symbols].
    eapply emits_bind; [apply emits_on_device | intros begin_addr].
    eapply emits_bind; [apply emits_call | intros _].
    eapply emits_bind; [apply fill_firmware_body_emits | intros _].
    eapply emits_bind; [apply emits_call | intros _].
    eapply emits_bind; [apply emits_on_device | intros _].
    eapply emits_bind; [apply emits_call | intros _].
    eapply emits_bind; [apply emits_on_device | intros _].
    eapply emits_bind; [apply emits_call | intros _].
    eapply emits_bind; [apply emits_on_device | intros _].
    eapply emits_bind; [apply emits_call | intros _].
    apply emits_ret.
  - cbn [app repeat]. reflexivity.
Qed.

(** The updates each node of the update receives: the node of the second
    step ("copy-mmio") is sent (1, 0x4000), (2, 0x4000), ... for as long as
    the body fill runs; no other node is sent anything. *)
Lemma write_firmware_child_updates (firmware : Result (list byte)) d r d' p' :
  fu_fresco_pd_device_write_firmware firmware (d, []) = (r, (d', p')) ->
  (exists n : nat, (n <= Z.to_nat 0x4000)%nat /\
                   child_updates (calls_made p') 1 = counting 0 0x4000 n) /\
  (forall k : nat, k <> 1%nat -> child_updates (calls_made p') k = []).
Proof.
  apply (second_step_loop_updates _ write_firmware_header 0x4000
           (range 0 0x4000 1) 3).
  - reflexivity.
  - apply counting_of_range. lia.
  - apply write_firmware_emits.
Qed.

(** ** The flags of the device during an update *)

(** A step that leaves the device flags alone, however it ends. *)
Definition flags_kept {A : Type} (m : Run FuFrescoPdDevice A) : Prop :=
  forall d r d', m d = (r, d') -> flags d' = flags d.

Lemma flags_kept_ret {A : Type} (a : A) : flags_kept (ret a).
Proof. intros d r d' H. injection H as _ <-. reflexivity. Qed.

Lemma flags_kept_bind {A B : Type} (m : Run FuFrescoPdDevice A)
    (k : A -> Run FuFrescoPdDevice B) :
  flags_kept m -> (forall a, flags_kept (k a)) -> flags_kept (bind m k).
Proof.
  intros Hm Hk d r d'. unfold bind.
  destruct (m d) as [[a | e] d1] eqn:E; intro H.
  - rewrite (Hk a _ _ _ H). exact (Hm _ _ _ E).
  - injection H as _ <-. exact (Hm _ _ _ E).
Qed.

Lemma flags_kept_with_prefix {A : Type} (pfx : string) (m : Run FuFrescoPdDevice A) :
  flags_kept m -> flags_kept (with_prefix pfx m).
Proof.
  intros Hm d r d'. unfold with_prefix.
  destruct (m d) as [[a | e] d1] eqn:E; intro H; injection H as _ <-;
    exact (Hm _ _ _ E).
Qed.

Lemma flags_kept_read_byte (offset buf : Z) :
  flags_kept (fu_fresco_pd_device_read_byte offset buf).
Proof.
  clear behind_blob. intros d r d' H. apply read_byte_frame in H. tauto. Qed.

Lemma flags_kept_write_byte (offset buf : Z) :
  flags_kept (fu_fresco_pd_device_write_byte offset buf).
Proof.
  clear behind_blob.
  intros d r d' H. unfold fu_fresco_pd_device_write_byte in H.
  apply transfer_write_frame in H. tauto.
Qed.

Lemma flags_kept_set_byte (offset val : Z) :
  flags_kept (fu_fresco_pd_device_set_byte offset val).
Proof.
  clear behind_blob.
  unfold fu_fresco_pd_device_set_byte. cbv zeta.
  apply flags_kept_bind; [apply flags_kept_read_byte | intro b].
  destruct (b =? guint8 val); [apply flags_kept_ret | apply flags_kept_write_byte].
Qed.

Lemma flags_kept_and_byte (offset val : Z) :
  flags_kept (fu_fresco_pd_device_and_byte offset val).
Proof.
  clear behind_blob.
  unfold fu_fresco_pd_device_and_byte. cbv zeta.
  apply flags_kept_bind; [apply flags_kept_read_byte | intro b].
  apply flags_kept_write_byte.
Qed.

Lemma flags_kept_read_config (base : Z) : flags_kept (read_config base).
Proof.
  clear behind_blob.
  unfold read_config.
  repeat (apply flags_kept_bind;
          [apply flags_kept_with_prefix, flags_kept_read_byte | intro]).
  apply flags_kept_ret.
Qed.

Lemma flags_kept_find_begin_addr (idx : list Z) (begin_addr : Z)
    (start_symbols : Z * Z) :
  flags_kept (find_begin_addr idx begin_addr start_symbols).
Proof.
  clear behind_blob.
  induction idx as [| i idx IH]; cbn [find_begin_addr]; [apply flags_kept_ret |].
  apply flags_kept_bind; [apply flags_kept_read_config | intros [[c0 c1] c2]].
  destruct ((c0 =? fst start_symbols) && (c1 =? snd start_symbols));
    [apply flags_kept_ret |].
  destruct ((c0 =? 0) && (c1 =? 0) && (c2 =? 0)); [apply flags_kept_ret | exact IH].
Qed.

Lemma flags_kept_patch_boot_code (idx : list Z) : flags_kept (patch_boot_code idx).
Proof.
  clear behind_blob.
  induction idx as [| i idx IH]; cbn [patch_boot_code]; [apply flags_kept_ret |].
  apply flags_kept_bind; [apply flags_kept_read_config | intros [[c0 c1] c2]].
  destruct ((c0 =? 0x74) && (c1 =? 0x06) && negb (c2 =? 0x22)).
  { apply flags_kept_bind; [apply flags_kept_write_byte | intros _; exact IH]. }
  destruct ((c0 =? 0x6c) && (c1 =? 0x00) && negb (c2 =? 0x01)).
  { apply flags_kept_bind; [apply flags_kept_write_byte | intros _; exact IH]. }
  destruct ((c0 =? 0x00) && (c1 =? 0x00) && negb (c2 =? 0x00));
    [apply flags_kept_ret | exact IH].
Qed.

Lemma flags_kept_enable_mtp_write (start_symbols : Z * Z) :
  flags_kept (enable_mtp_write start_symbols).
Proof.
  clear behind_blob.
  unfold enable_mtp_write.
  apply flags_kept_bind;
    [apply flags_kept_with_prefix, flags_kept_and_byte | intros _].
  apply flags_kept_bind;
    [apply flags_kept_with_prefix, flags_kept_and_byte | intros _].
  apply flags_kept_bind;
    [apply flags_kept_with_prefix, flags_kept_write_byte | intros _].
  apply flags_kept_bind; [apply flags_kept_find_begin_addr | intro b].
  apply flags_kept_bind; [apply flags_kept_patch_boot_code | intros _].
  apply flags_kept_ret.
Qed.

Lemma flags_kept_update_customize_data (idx : list Z) (buf : list byte) :
  flags_kept (update_customize_data idx buf).
Proof.
  induction idx as [| i idx IH]; cbn [update_customize_data];
    [apply flags_kept_ret |].
  do 3 (apply flags_kept_bind; [apply flags_kept_set_byte | intros _]).
  exact IH.
Qed.

Lemma flags_kept_write_boot_configuration (idx : list Z) (begin_addr : Z)
    (buf : list byte) :
  flags_kept (write_boot_configuration idx begin_addr buf).
Proof.
  induction idx as [| i idx IH]; cbn [write_boot_configuration];
    [apply flags_kept_ret |].
  do 3 (apply flags_kept_bind; [apply flags_kept_set_byte | intros _]).
  exact IH.
Qed.

Lemma panther_reset_device_flags (d : FuFrescoPdDevice) r d' :
  fu_fresco_pd_device_panther_reset_device d = (r, d') ->
  flags d'
  = mask_add (flags d) (FwupdDeviceFlags_of FWUPD_DEVICE_FLAG_WAIT_FOR_REPLUG).
Proof.
  clear behind_blob.
  unfold fu_fresco_pd_device_panther_reset_device.
  destruct (fu_fresco_pd_device_or_byte 0xA003 (Z.shiftl 1 3)
              (fu_device_add_flag FWUPD_DEVICE_FLAG_WAIT_FOR_REPLUG d))
    as [r0 d0] eqn:E.
  apply or_byte_flags in E.
  destruct r0 as [u | e]; [| destruct (g_error_matches e FWUPD_ERROR_INTERNAL)];
    intro H; injection H as _ <-; exact E.
Qed.

(** [tracks f m]: when [m] succeeds the flags have become [f] of what they
    were; however it ends, the only flag it can have added is
    wait-for-replug. *)
Definition tracks {A : Type} (f : Z -> Z)
    (m : Run (FuFrescoPdDevice * FuProgress) A) : Prop :=
  forall d p r d' p',
    m (d, p) = (r, (d', p')) ->
    (is_ok r = true -> flags d' = f (flags d)) /\
    (flags d' = flags d \/
     flags d'
     = mask_add (flags d) (FwupdDeviceFlags_of FWUPD_DEVICE_FLAG_WAIT_FOR_REPLUG)).

Lemma mask_add_idem (fl m : Z) : mask_add (mask_add fl m) m = mask_add fl m.
Proof.
  unfold mask_add. rewrite <- Z.lor_assoc, Z.lor_diag. reflexivity.
Qed.

Lemma tracks_bind {A B : Type} (f g : Z -> Z)
    (m : Run (FuFrescoPdDevice * FuProgress) A)
    (k : A -> Run (FuFrescoPdDevice * FuProgress) B) :
  tracks f m -> (forall a, tracks g (k a)) -> tracks (fun fl => g (f fl)) (bind m k).
Proof.
  intros Hm Hk d p r d' p'. unfold bind.
  destruct (m (d, p)) as [[a | e] [d1 p1]] eqn:E; intro H.
  - destruct (Hm _ _ _ _ _ E) as [Hf1 Ho1].
    destruct (Hk a _ _ _ _ _ H) as [Hf2 Ho2]. split.
    + intro Hok. rewrite (Hf2 Hok), (Hf1 eq_refl). reflexivity.
    + destruct Ho1 as [E1 | E1]; destruct Ho2 as [E2 | E2]; rewrite E2, E1; auto.
      right. apply mask_add_idem.
  - injection H as <- <- <-. destruct (Hm _ _ _ _ _ E) as [_ Ho1].
    split; [discriminate | exact Ho1].
Qed.

Lemma tracks_on_device {A : Type} (m : Run FuFrescoPdDevice A) :
  flags_kept m -> tracks (fun fl => fl) (on_device m).
Proof.
  intros Hm d p r d' p'. unfold on_device. cbn [fst snd].
  destruct (m d) as [r0 d0] eqn:E. intro H. injection H as <- <- <-.
  rewrite (Hm _ _ _ E). auto.
Qed.

Lemma tracks_call (c : FuProgressCall) :
  tracks (fun fl => fl) (@fu_progress_call FuFrescoPdDevice c).
Proof.
  intros d p r d' p' H. apply progress_call_inv in H.
  destruct H as [_ H]. injection H as <- _. auto.
Qed.

Lemma tracks_lift_result {A : Type} (x : Result A) :
  tracks (fun fl => fl) (@lift_result (FuFrescoPdDevice * FuProgress) A x).
Proof.
  intros d p r d' p' H. unfold lift_result in H. injection H as _ <- _. auto.
Qed.

Lemma tracks_ret {A : Type} (a : A) :
  tracks (fun fl => fl) (@ret (FuFrescoPdDevice * FuProgress) A a).
Proof.
  intros d p r d' p' H. unfold ret in H. injection H as _ <- _. auto.
Qed.

Lemma tracks_fill_firmware_body (idx : list Z) (buf : list byte) :
  tracks (fun fl => fl) (fill_firmware_body idx buf).
Proof.
  induction idx as [| i idx IH]; cbn [fill_firmware_body]; [apply tracks_ret |].
  apply (tracks_bind (fun fl => fl) (fun fl => fl));
    [apply tracks_on_device, flags_kept_set_byte | intros _].
  apply (tracks_bind (fun fl => fl) (fun fl => fl)); [apply tracks_call | intros _].
  exact IH.
Qed.

Lemma tracks_panther_reset_device :
  tracks (fun fl => mask_add fl
                      (FwupdDeviceFlags_of FWUPD_DEVICE_FLAG_WAIT_FOR_REPLUG))
         (on_device fu_fresco_pd_device_panther_reset_device).
Proof.
  clear behind_blob.
  intros d p r d' p'. unfold on_device. cbn [fst snd].
  destruct (fu_fresco_pd_device_panther_reset_device d) as [r0 d0] eqn:E.
  intro H. injection H as <- <- <-.
  rewrite (panther_reset_device_flags _ _ _ E). auto.
Qed.

Lemma write_firmware_tracks (firmware : Result (list byte)) :
  tracks (fun fl => mask_add fl
                      (FwupdDeviceFlags_of FWUPD_DEVICE_FLAG_WAIT_FOR_REPLUG))
         (fu_fresco_pd_device_write_firmware firmware).
Proof.
  unfold fu_fresco_pd_device_write_firmware.
  generalize (range 0 0x4000 1) (range 0 6 1) (range 0 0x1e0 3).
  intros body customize boot.
  do 7 (apply (tracks_bind (fun fl => fl)); [apply tracks_call | intros _]).
  apply (tracks_bind (fun fl => fl)); [apply tracks_lift_result | intro buf].
  apply (tracks_bind (fun fl => fl)); [apply tracks_lift_result | intro symbols].
  apply (tracks_bind (fun fl => fl));
    [apply tracks_on_device, flags_kept_enable_mtp_write | intro begin_addr].
  apply (tracks_bind (fun fl => fl)); [apply tracks_call | intros _].
  apply (tracks_bind (fun fl => fl)); [apply tracks_fill_firmware_body | intros _].
  apply (tracks_bind (fun fl => fl)); [apply tracks_call | intros _].
  apply (tracks_bind (fun fl => fl)).
  { apply tracks_on_device.
    apply flags_kept_bind;
      [apply flags_kept_update_customize_data | intros _; apply flags_kept_set_byte]. }
  intros _.
  apply (tracks_bind (fun fl => fl)); [apply tracks_call | intros _].
  apply (tracks_bind (fun fl => fl));
    [apply tracks_on_device, flags_kept_write_boot_configuration | intros _].
  apply (tracks_bind (fun fl => fl)); [apply tracks_call | intros _].
  apply (tracks_bind
           (fun fl => mask_add fl
              (FwupdDeviceFlags_of FWUPD_DEVICE_FLAG_WAIT_FOR_REPLUG))
           (fun fl => fl));
    [apply tracks_panther_reset_device | intros _].
  apply (tracks_bind (fun fl => fl) (fun fl => fl)); [apply tracks_call | intros _].
  apply tracks_ret.
Qed.

Lemma transfer_count_write (offset v : Z) (d : FuFrescoPdDevice) r d' :
  fu_fresco_pd_device_write_byte offset v d = (r, d') ->
  usb_count d' = S (usb_count d).
Proof.
  unfold fu_fresco_pd_device_write_byte, fu_fresco_pd_device_transfer_write.
  cbv zeta.
  destruct (fu_usb_device_control_transfer FU_USB_DIRECTION_HOST_TO_DEVICE
              0x41 0x0 (guint16 offset) [guint8 v] (guint16 1) d)
    as [r0 d0] eqn:E.
  apply control_transfer_frame in E. destruct E as (_ & _ & _ & Hc).
  destruct r0 as [[b n] | e]; [destruct (negb (guint16 1 =? n)) |];
    intro H; injection H as _ <-; exact Hc.
Qed.

(** ** How an update ends *)

Lemma bind_progress_call {A : Type} (c : FuProgressCall)
    (k : unit -> Run (FuFrescoPdDevice * FuProgress) A) d p :
  bind (fu_progress_call c) k (d, p) = k tt (d, c :: p).
Proof. reflexivity. Qed.

Lemma bind_lift_result {S A B : Type} (x : Result A) (k : A -> Run S B) (s : S) :
  bind (lift_result x) k s
  = match x with
    | Ok a => k a s
    | Failed e => (Failed e, s)
    end.
Proof. destruct x; reflexivity. Qed.

(** Without a blob, or with one too short to hold the start symbols at
    0x4000, the update fails after the progress set-up: not one transfer has
    been issued, the device is as it was and no step is done. *)
Theorem write_firmware_short_blob (firmware : Result (list byte)) d p :
  match firmware with
  | Ok buf => Z.of_nat (length buf) < 0x4002
  | Failed _ => True
  end ->
  exists e,
    fu_fresco_pd_device_write_firmware firmware (d, p)
    = (Failed e, (d, rev write_firmware_header ++ p)).
Proof.
  intro Hshort. unfold fu_fresco_pd_device_write_firmware.
  do 7 (rewrite bind_progress_call; cbv beta).
  rewrite bind_lift_result. destruct firmware as [buf | e].
  - cbv beta zeta. rewrite bind_lift_result. unfold fu_memcpy_safe.
    destruct (Z.ltb_spec (Z.of_nat (length buf)) (0x4000 + 2)) as [_ | Hlong];
      [| lia].
    eexists. reflexivity.
  - exists e. reflexivity.
Qed.

(** Whenever the update succeeds the device carries wait-for-replug and its
    other flags are what they were; when it fails the flags are unchanged or
    wait-for-replug has been added, nothing else. *)
Theorem write_firmware_flags (firmware : Result (list byte)) d p r d' p' :
  fu_fresco_pd_device_write_firmware firmware (d, p) = (r, (d', p')) ->
  (is_ok r = true ->
   flags d'
   = mask_add (flags d) (FwupdDeviceFlags_of FWUPD_DEVICE_FLAG_WAIT_FOR_REPLUG) /\
   fu_device_has_flag d' FWUPD_DEVICE_FLAG_WAIT_FOR_REPLUG = true) /\
  (flags d' = flags d \/
   flags d'
   = mask_add (flags d) (FwupdDeviceFlags_of FWUPD_DEVICE_FLAG_WAIT_FOR_REPLUG)).
Proof.
  intro H. destruct (write_firmware_tracks firmware _ _ _ _ _ H) as [Hok Hany].
  split; [| exact Hany].
  intro Hr. specialize (Hok Hr). split; [exact Hok |].
  unfold fu_device_has_flag. rewrite Hok.
  exact (add_flag_has_flag FWUPD_DEVICE_FLAG_WAIT_FOR_REPLUG d).
Qed.

(** On a device that completes every transfer, the update of a blob that
    covers every read of the update (0x4231 bytes or more) runs to the end:
    the body registers then hold the first 0x4000 bytes of the blob and the
    device waits for the replug. *)
Theorem write_firmware_on_healthy_device (buf : list byte) d p :
  healthy d -> covers_reads buf ->
  exists d' p',
    fu_fresco_pd_device_write_firmware (Ok buf) (d, p) = (Ok tt, (d', p')) /\
    (forall i, 0 <= i < 0x4000 -> guint8 (mmio d' (0x2000 + i)) = byte_at buf i) /\
    fu_device_has_flag d' FWUPD_DEVICE_FLAG_WAIT_FOR_REPLUG = true.
Proof.
  intros Hd Hlen.
  destruct (write_firmware_succeeds buf d p Hd Hlen) as (d' & p' & Hrun).
  exists d', p'. split; [exact Hrun |]. split.
  - exact (proj1 (write_firmware_body _ _ _ _ _ Hrun)).
  - destruct (write_firmware_tracks (Ok buf) _ _ _ _ _ Hrun) as [Hok _].
    unfold fu_device_has_flag. rewrite (Hok eq_refl).
    exact (add_flag_has_flag FWUPD_DEVICE_FLAG_WAIT_FOR_REPLUG d).
Qed.

(** ** Read-modify-write *)

Lemma guint8_land_ones (z : Z) : guint8 z = Z.land z (Z.ones 8).
Proof. unfold guint8. symmetry. apply Z.land_ones. lia. Qed.

Lemma guint8_land (a b : Z) : guint8 (Z.land (guint8 a) (guint8 b)) = Z.land (guint8 a) (guint8 b).
Proof.
  rewrite !guint8_land_ones. apply Z.bits_inj'. intros n _.
  rewrite !Z.land_spec. destruct (Z.testbit a n), (Z.testbit b n),
    (Z.testbit (Z.ones 8) n); reflexivity.
Qed.

Lemma guint8_lor (a b : Z) : guint8 (Z.lor (guint8 a) (guint8 b)) = Z.lor (guint8 a) (guint8 b).
Proof.
  rewrite !guint8_land_ones. apply Z.bits_inj'. intros n _.
  rewrite !Z.land_spec, !Z.lor_spec, !Z.land_spec.
  destruct (Z.testbit a n), (Z.testbit b n), (Z.testbit (Z.ones 8) n); reflexivity.
Qed.

(** A successful [and_byte] or [or_byte] is one read followed by one write
    to the same register, of the byte read combined with the value; unlike
    [set_byte] it writes even when this leaves the register as it is. *)
Theorem read_modify_write (offset val : Z) (d d' : FuFrescoPdDevice) :
  (fu_fresco_pd_device_and_byte offset val d = (Ok tt, d') ->
   usb_writes d'
   = (guint16 offset, Z.land (guint8 (mmio d (guint16 offset))) (guint8 val))
     :: usb_writes d /\
   usb_count d' = S (S (usb_count d))) /\
  (fu_fresco_pd_device_or_byte offset val d = (Ok tt, d') ->
   usb_writes d'
   = (guint16 offset, Z.lor (guint8 (mmio d (guint16 offset))) (guint8 val))
     :: usb_writes d /\
   usb_count d' = S (S (usb_count d))).
Proof.
  split; intro H.
  - unfold fu_fresco_pd_device_and_byte in H. cbv zeta in H.
    apply bind_ok_inv in H. destruct H as (b & d1 & Hread & Hwrite).
    apply read_byte_ok in Hread. destruct Hread as (-> & Hm & Hw & Hc).
    pose proof (transfer_count_write _ _ _ _ _ Hwrite) as Hc'.
    apply write_byte_ok in Hwrite. destruct Hwrite as [_ Hw'].
    rewrite Hw', Hw, guint8_land. split; [reflexivity | congruence].
  - unfold fu_fresco_pd_device_or_byte in H. cbv zeta in H.
    apply bind_ok_inv in H. destruct H as (b & d1 & Hread & Hwrite).
    apply read_byte_ok in Hread. destruct Hread as (-> & Hm & Hw & Hc).
    pose proof (transfer_count_write _ _ _ _ _ Hwrite) as Hc'.
    apply write_byte_ok in Hwrite. destruct Hwrite as [_ Hw'].
    rewrite Hw', Hw, guint8_lor. split; [reflexivity | congruence].
Qed.

(** ** setup and prepare_firmware *)

(** [FuUsbDevice->setup], [fu_fresco_pd_version_from_buf] (fu-fresco-pd-common.c)
    and [fu_device_build_instance_id] are defined outside the sources: the
    first and the last are given by their outcome, the second is a
    parameter. *)
Variable usb_device_setup : Result unit.
Variable fu_fresco_pd_version_from_buf : list Z -> string.
Variable fu_device_build_instance_id : Result unit.

(** [ver[i] = v] *)
Definition set_ver (ver : list Z) (i : nat) (v : Z) : list Z :=
  firstn i ver ++ v :: skipn (S i) ver.

(** "read existing device version": the loop over [i], with [ver] as it is
    before the pass. *)
Fixpoint read_version (idx : list Z) (ver : list Z) : Run FuFrescoPdDevice (list Z) :=
  match idx with
  | [] => ret ver
  | i :: rest =>
      b <- with_prefix ("failed to read device version [" ++ fmt_u i ++ "]: ")
             (fu_fresco_pd_device_transfer_read (0x3000 + i)
                [nth (Z.to_nat i) ver 0] 1) ;;
      read_version rest (set_ver ver (Z.to_nat i) (hd 0 b))
  end.

(** The result is what the function hands to [FuDevice]: the version string
    and the value of the instance key CID. *)
Definition fu_fresco_pd_device_setup : Run FuFrescoPdDevice (string * Z) :=
  (* FuUsbDevice->setup *)
  lift_result usb_device_setup ;;;
  (* read existing device version *)
  ver <- read_version (range 0 4 1) [0x0; 0x0; 0x0; 0x0] ;;
  let version := fu_fresco_pd_version_from_buf ver in
  (* get customer ID *)
  modify (fun self => set_customer_id self (nth 1 ver 0)) ;;;
  (* add extra instance ID *)
  self <- get ;;
  lift_result fu_device_build_instance_id ;;;
  ret (version, customer_id self).

(** A parsed [FuFrescoPdFirmware] (fu-fresco-pd-firmware.c, outside the
    sources): its customer ID and its bytes. *)
Record FuFrescoPdFirmware : Type := mkFuFrescoPdFirmware {
  fu_fresco_pd_firmware_get_customer_id : Z;
  fu_firmware_get_bytes : list byte
}.

(** [parsed] is what [fu_firmware_parse_stream] made of the stream. *)
Definition fu_fresco_pd_device_prepare_firmware (parsed : Result FuFrescoPdFirmware)
    (self : FuFrescoPdDevice) : Result FuFrescoPdFirmware :=
  (* check firmware is suitable *)
  match parsed with
  | Failed e => Failed e
  | Ok firmware =>
      let firmware_customer_id :=
        guint8 (fu_fresco_pd_firmware_get_customer_id firmware) in
      if negb (firmware_customer_id =? customer_id self) then
        Failed (fwupd_error FWUPD_ERROR_INVALID_FILE
                  ("device is incompatible with firmware x."
                   ++ fmt_u firmware_customer_id ++ ".x.x"))
      else Ok firmware
  end.

Lemma transfer_read_customer_id (offset : Z) (buf : list Z) (bufsz : Z)
    (d : FuFrescoPdDevice) r d' :
  fu_fresco_pd_device_transfer_read offset buf bufsz d = (r, d') ->
  customer_id d' = customer_id d.
Proof.
  unfold fu_fresco_pd_device_transfer_read. cbv zeta.
  destruct (fu_usb_device_control_transfer FU_USB_DIRECTION_DEVICE_TO_HOST
              0x40 0x0 (guint16 offset) buf (guint16 bufsz) d) as [r0 d0] eqn:E.
  apply control_transfer_frame in E. destruct E as (_ & Hc & _).
  destruct r0 as [[b n] | e]; [destruct (negb (guint16 bufsz =? n)) |];
    intro H; injection H as _ <-; exact Hc.
Qed.

(** Reading the version changes neither the registers nor the fields of the
    device. *)
Lemma read_version_frame (idx : list Z) :
  forall ver d r d',
    read_version idx ver d = (r, d') ->
    mmio d' = mmio d /\ usb_writes d' = usb_writes d /\ flags d' = flags d /\
    customer_id d' = customer_id d.
Proof.
  clear behind_blob.
  induction idx as [| i idx IH]; intros ver d r d' H.
  - injection H as _ <-. auto.
  - cbn [read_version] in H. unfold bind in H.
    destruct (with_prefix _ _ d) as [[b | e] d1] eqn:E.
    + assert (Hd1 : mmio d1 = mmio d /\ usb_writes d1 = usb_writes d /\
                    flags d1 = flags d /\ customer_id d1 = customer_id d).
      { apply with_prefix_ok_inv in E.
        pose proof (transfer_read_customer_id _ _ _ _ _ _ E).
        apply transfer_read_frame in E. tauto. }
      destruct (IH _ _ _ _ H) as (H1 & H2 & H3 & H4).
      destruct Hd1 as (K1 & K2 & K3 & K4). repeat split; congruence.
    + injection H as _ <-. unfold with_prefix in E.
      destruct (fu_fresco_pd_device_transfer_read (0x3000 + i)
                  [nth (Z.to_nat i) ver 0] 1 d) as [[b | e0] d0] eqn:E0;
        [discriminate E |].
      injection E as _ <-.
      pose proof (transfer_read_customer_id _ _ _ _ _ _ E0).
      apply transfer_read_frame in E0. tauto.
Qed.

Lemma read_version_ok (ver : list Z) d d' :
  read_version [0; 1; 2; 3] [0; 0; 0; 0] d = (Ok ver, d') ->
  ver = map (fun i => guint8 (mmio d (0x3000 + i))) [0; 1; 2; 3] /\
  usb_count d' = (4 + usb_count d)%nat.
Proof.
  cbn [read_version]. intro H.
  apply bind_ok_inv in H. destruct H as (b0 & d0 & H0 & H).
  apply with_prefix_ok_inv, transfer_read_ok in H0.
  destruct H0 as (-> & M0 & _ & C0).
  apply bind_ok_inv in H. destruct H as (b1 & d1 & H1 & H).
  apply with_prefix_ok_inv, transfer_read_ok in H1.
  destruct H1 as (-> & M1 & _ & C1).
  apply bind_ok_inv in H. destruct H as (b2 & d2 & H2 & H).
  apply with_prefix_ok_inv, transfer_read_ok in H2.
  destruct H2 as (-> & M2 & _ & C2).
  apply bind_ok_inv in H. destruct H as (b3 & d3 & H3 & H).
  apply with_prefix_ok_inv, transfer_read_ok in H3.
  destruct H3 as (-> & M3 & _ & C3).
  apply ret_inv in H. destruct H as [<- <-].
  rewrite M2, M1, M0. split; [reflexivity | lia].
Qed.

(** A successful [setup] makes four reads and no write.  It takes the
    customer ID from register 0x3001 and builds the version from registers
    0x3000 to 0x3003; from then on [prepare_firmware] accepts a parsed
    firmware exactly when its customer ID is the byte of that register. *)
Theorem setup_reads_customer_id (d d' : FuFrescoPdDevice) (version : string)
    (cid : Z) :
  fu_fresco_pd_device_setup d = (Ok (version, cid), d') ->
  mmio d' = mmio d /\ usb_writes d' = usb_writes d /\ flags d' = flags d /\
  usb_count d' = (4 + usb_count d)%nat /\
  customer_id d' = guint8 (mmio d 0x3001) /\
  cid = guint8 (mmio d 0x3001) /\
  version
  = fu_fresco_pd_version_from_buf
      (map (fun i => guint8 (mmio d (0x3000 + i))) [0; 1; 2; 3]) /\
  forall firmware,
    fu_fresco_pd_device_prepare_firmware (Ok firmware) d' = Ok firmware <->
    guint8 (fu_fresco_pd_firmware_get_customer_id firmware)
    = guint8 (mmio d 0x3001).
Proof.
  clear behind_blob.
  unfold fu_fresco_pd_device_setup. change (range 0 4 1) with [0; 1; 2; 3].
  intro H.
  apply bind_ok_inv in H. destruct H as ([] & d0 & Hparent & H).
  unfold lift_result in Hparent. injection Hparent as _ <-.
  apply bind_ok_inv in H. destruct H as (ver & d1 & Hver & H).
  pose proof (read_version_frame _ _ _ _ _ Hver) as (M1 & W1 & F1 & _).
  apply read_version_ok in Hver. destruct Hver as [-> C1].
  cbv zeta in H.
  apply bind_ok_inv in H. destruct H as ([] & d2 & Hset & H).
  unfold modify in Hset. injection Hset as <-.
  apply bind_ok_inv in H. destruct H as (self & d3 & Hget & H).
  unfold get in Hget. injection Hget as <- <-.
  apply bind_ok_inv in H. destruct H as ([] & d4 & Hbuild & H).
  unfold lift_result in Hbuild. injection Hbuild as _ <-.
  apply ret_inv in H. destruct H as [H <-]. injection H as <- <-.
  cbn [set_customer_id mmio usb_writes flags usb_count customer_id map nth].
  change (0x3000 + 1) with 0x3001.
  repeat split; try assumption.
  - unfold fu_fresco_pd_device_prepare_firmware. cbv zeta.
    cbn [customer_id set_customer_id].
    destruct (Z.eqb_spec
                (guint8 (fu_fresco_pd_firmware_get_customer_id firmware))
                (guint8 (mmio d 0x3001))) as [Heq | Hne]; cbn [negb];
      [intros _; exact Heq | discriminate].
  - unfold fu_fresco_pd_device_prepare_firmware. cbv zeta.
    cbn [customer_id set_customer_id].
    intro Heq. rewrite Heq, Z.eqb_refl. reflexivity.
Qed.

(** [setup] writes to no register and touches no flag, however it ends. *)
Lemma setup_frame (d : FuFrescoPdDevice) r d' :
  fu_fresco_pd_device_setup d = (r, d') ->
  mmio d' = mmio d /\ usb_writes d' = usb_writes d /\ flags d' = flags d.
Proof.
  clear behind_blob.
  unfold fu_fresco_pd_device_setup. generalize (range 0 4 1). intros idx H.
  unfold bind at 1 in H. unfold lift_result at 1 in H.
  destruct usb_device_setup as [[] | e]; [| injection H as _ <-; auto].
  unfold bind at 1 in H.
  destruct (read_version idx [0; 0; 0; 0] d) as [[ver | e] d1] eqn:Hver.
  - apply read_version_frame in Hver. destruct Hver as (M1 & W1 & F1 & _).
    cbv zeta in H. unfold bind, modify, get, lift_result, ret in H.
    destruct fu_device_build_instance_id as [[] | e];
      injection H as _ <-; cbn [set_customer_id mmio usb_writes flags]; auto.
  - apply read_version_frame in Hver. destruct Hver as (M1 & W1 & F1 & _).
    injection H as _ <-. auto.
Qed.

End Device.

(** A device whose bus fails every transfer with the given error, and the
    conversion that keeps [FWUPD_ERROR] errors. *)
Definition failing_device (e : GError) : FuFrescoPdDevice :=
  mkFuFrescoPdDevice 0 0 (fun _ => 0) (fun _ => UsbFailed e) 0 [] [].

Definition convert_keep (e : GError) : GError :=
  match error_code e with
  | InFwupdDomain _ => e
  | InOtherDomain _ _ =>
      mkGError (InFwupdDomain FWUPD_ERROR_INTERNAL) (error_message e)
  end.

(** Memory that holds zeros behind the blob. *)
Definition zeros_behind (i : Z) : byte := x00.

Definition reset_sample : FuFrescoPdDevice :=
  failing_device (fwupd_error FWUPD_ERROR_INTERNAL "device disconnected").

Definition reset_sample_outcome : Result unit * FuFrescoPdDevice :=
  fu_fresco_pd_device_or_byte convert_keep 0xA003 (Z.shiftl 1 3)
    (fu_device_add_flag FWUPD_DEVICE_FLAG_WAIT_FOR_REPLUG reset_sample).

Lemma panther_reset_device_policy_witness :
  fu_fresco_pd_device_panther_reset_device convert_keep reset_sample
  = (Ok tt, snd reset_sample_outcome) /\
  usb_flags (snd reset_sample_outcome)
  = [FwupdDeviceFlags_of FWUPD_DEVICE_FLAG_WAIT_FOR_REPLUG] /\
  fu_device_has_flag (snd reset_sample_outcome) FWUPD_DEVICE_FLAG_WAIT_FOR_REPLUG
  = true.
Proof.
  assert (Hrun : fu_fresco_pd_device_panther_reset_device convert_keep reset_sample
                 = (Ok tt, snd reset_sample_outcome)) by reflexivity.
  split; [exact Hrun |]. split; [reflexivity |].
  exact (proj1 (proj2 (panther_reset_device_policy convert_keep reset_sample
                         (Ok tt) (snd reset_sample_outcome) Hrun))).
Defined.

(** ** A device that already holds the firmware it is given *)


Definition reinstall_firmware : list byte := repeat x55 (Z.to_nat 0x4400).

Definition reinstall_device : FuFrescoPdDevice :=
  mkFuFrescoPdDevice 0x55 (FwupdDeviceFlags_of FWUPD_DEVICE_FLAG_UPDATABLE)
                     (fun _ => 0x55) (fun _ => UsbTransferred 1) 0 [] [].


(** ** Samples for the statements above *)

Lemma write_firmware_short_blob_witness :
  exists e,
    fu_fresco_pd_device_write_firmware convert_keep zeros_behind (Ok []) (reinstall_device, [])
    = (Failed e, (reinstall_device, rev write_firmware_header ++ [])).
Proof.
  exact (write_firmware_short_blob convert_keep zeros_behind (Ok []) reinstall_device []
           eq_refl).
Defined.

Lemma reinstall_firmware_covers_reads : covers_reads reinstall_firmware.
Proof. unfold covers_reads, reinstall_firmware. rewrite repeat_length. lia. Qed.

Lemma reinstall_device_healthy : healthy reinstall_device.
Proof. intro n. reflexivity. Qed.

Lemma write_firmware_on_healthy_device_witness :
  exists d' p',
    fu_fresco_pd_device_write_firmware convert_keep zeros_behind (Ok reinstall_firmware)
      (reinstall_device, []) = (Ok tt, (d', p')) /\
    (forall i, 0 <= i < 0x4000 ->
       guint8 (mmio d' (0x2000 + i)) = byte_at zeros_behind reinstall_firmware i) /\
    fu_device_has_flag d' FWUPD_DEVICE_FLAG_WAIT_FOR_REPLUG = true.
Proof.
  exact (write_firmware_on_healthy_device convert_keep zeros_behind reinstall_firmware
           reinstall_device [] reinstall_device_healthy reinstall_firmware_covers_reads).
Defined.

Lemma write_firmware_flags_witness :
  exists d' p',
    fu_fresco_pd_device_write_firmware convert_keep zeros_behind (Ok reinstall_firmware)
      (reinstall_device, []) = (Ok tt, (d', p')) /\
    flags d'
    = mask_add (flags reinstall_device)
        (FwupdDeviceFlags_of FWUPD_DEVICE_FLAG_WAIT_FOR_REPLUG).
Proof.
  destruct (write_firmware_succeeds convert_keep zeros_behind reinstall_firmware
              reinstall_device [] reinstall_device_healthy
              reinstall_firmware_covers_reads) as (d' & p' & Hrun).
  exists d', p'. split; [exact Hrun |].
  destruct (write_firmware_flags convert_keep zeros_behind _ _ _ _ _ _ Hrun) as [Hok _].
  exact (proj1 (Hok eq_refl)).
Defined.

(** The version as four decimal numbers. *)
Definition sample_version_from_buf (ver : list Z) : string :=
  fmt_u (nth 0 ver 0) ++ "." ++ fmt_u (nth 1 ver 0) ++ "."
  ++ fmt_u (nth 2 ver 0) ++ "." ++ fmt_u (nth 3 ver 0).

Definition sample_setup : Result (string * Z) * FuFrescoPdDevice :=
  fu_fresco_pd_device_setup convert_keep (Ok tt) sample_version_from_buf (Ok tt)
    reinstall_device.

Example sample_setup_result : fst sample_setup = Ok ("85.85.85.85"%string, 0x55).
Proof. vm_compute. reflexivity. Qed.

Lemma setup_reads_customer_id_witness :
  customer_id (snd sample_setup) = 0x55 /\
  usb_writes (snd sample_setup) = [] /\
  fu_fresco_pd_device_prepare_firmware (Ok (mkFuFrescoPdFirmware 0x55 []))
    (snd sample_setup)
  = Ok (mkFuFrescoPdFirmware 0x55 []).
Proof.
  assert (Hrun : sample_setup = (Ok ("85.85.85.85"%string, 0x55), snd sample_setup))
    by (vm_compute; reflexivity).
  destruct (setup_reads_customer_id convert_keep (Ok tt) sample_version_from_buf
              (Ok tt) reinstall_device (snd sample_setup) _ _ Hrun)
    as (_ & Hw & _ & _ & Hcid & _ & _ & Hfw).
  split; [exact Hcid |]. split; [exact Hw |].
  apply Hfw. reflexivity.
Defined.

End FuFrescoPd.

(* ------------------------------------------------------------------------- *)
(** * plugins/rts54hub/fu-rts54hub-rtd21xx-foreground.c                       *)
(* ------------------------------------------------------------------------- *)

Module FuRts54hub.

Local Open Scope run_scope.

Definition guint8 (z : Z) : Z := z mod 2 ^ 8.
Definition guint (z : Z) : Z := z mod 2 ^ 32.

Definition ISP_DATA_BLOCKSIZE : Z := 256.
Definition ISP_PACKET_SIZE : Z := 257.

(** [IspCmd] *)
Definition ISP_CMD_ENTER_FW_UPDATE : Z := 0x01.
Definition ISP_CMD_GET_PROJECT_ID_ADDR : Z := 0x02.
Definition ISP_CMD_SYNC_IDENTIFY_CODE : Z := 0x03.
Definition ISP_CMD_GET_FW_INFO : Z := 0x04.
Definition ISP_CMD_FW_UPDATE_START : Z := 0x05.
Definition ISP_CMD_FW_UPDATE_ISP_DONE : Z := 0x06.
Definition ISP_CMD_FW_UPDATE_RESET : Z := 0x07.
Definition ISP_CMD_FW_UPDATE_EXIT : Z := 0x08.

(** The constants of fu-rts54hub-rtd21xx-device.h, which is not part of the
    sources; the functions below take them as a parameter. *)
Record Rtd21xxHeader : Type := mkRtd21xxHeader {
  UC_ISP_TARGET_ADDR : Z;
  UC_FOREGROUND_OPCODE : Z;
  UC_FOREGROUND_STATUS : Z;
  UC_FOREGROUND_ISP_DATA_OPCODE : Z;
  I2C_DELAY_AFTER_SEND : Z;
  ISP_STATUS_IDLE_SUCCESS : Z
}.

(** ** The device behind the hub

    The I2C helpers of the parent class, the device locker and the sleeps are
    libfwupdplugin and plugin code outside the sources, and they talk to
    hardware.  The device record keeps the calls made, newest first, and
    holds the answer to the n-th call that can fail.  Every statement below
    holds for all such answers. *)

Inductive DeviceCall : Type :=
| CALL_LOCKER_OPEN_PARENT
| CALL_LOCKER_OPEN_SELF
| CALL_LOCKER_CLOSE
| CALL_I2C_WRITE (target_addr sub_addr : Z) (data : list Z)
| CALL_I2C_READ (target_addr sub_addr : Z) (datasz : Z)
| CALL_READ_STATUS
| CALL_READ_STATUS_RAW
| CALL_SLEEP (delay_ms : Z)
| CALL_CHUNK_ARRAY_NEW
| CALL_CHUNK_ARRAY_INDEX (i : Z).

Inductive Reply : Type :=
| ReplyOk (data : list Z)
| ReplyFailed (e : GError).

Record FuRts54hubRtd21xxForeground : Type := mkForeground {
  retry_delay : Z;               (* FuDevice: delay between two retries, ms *)
  replies : nat -> Reply;        (* answer to the n-th fallible call *)
  reply_count : nat;             (* fallible calls made so far *)
  calls : list DeviceCall        (* every call made, newest first *)
}.

(** A call that can fail: it is recorded and consumes one answer. *)
Definition fallible (c : DeviceCall) : Run FuRts54hubRtd21xxForeground (list Z) :=
  fun d =>
    let d' := mkForeground (retry_delay d) (replies d) (S (reply_count d))
                           (c :: calls d) in
    match replies d (reply_count d) with
    | ReplyOk data => (Ok data, d')
    | ReplyFailed e => (Failed e, d')
    end.

(** A call that cannot fail: it is only recorded. *)
Definition infallible (c : DeviceCall) : Run FuRts54hubRtd21xxForeground unit :=
  fun d =>
    (Ok tt, mkForeground (retry_delay d) (replies d) (reply_count d) (c :: calls d)).

Definition fu_rts54hub_rtd21xx_device_i2c_write (target_addr sub_addr : Z)
    (data : list Z) (datasz : Z) : Run FuRts54hubRtd21xxForeground unit :=
  fallible (CALL_I2C_WRITE target_addr sub_addr (firstn (Z.to_nat datasz) data)) ;;;
  ret tt.

(** The result is the buffer after the read: what the device sent, the rest
    unchanged. *)
Definition fu_rts54hub_rtd21xx_device_i2c_read (target_addr sub_addr : Z)
    (data : list Z) (datasz : Z) : Run FuRts54hubRtd21xxForeground (list Z) :=
  got <- fallible (CALL_I2C_READ target_addr sub_addr datasz) ;;
  let n := Z.to_nat datasz in
  ret (map guint8 (firstn n got) ++ skipn (length (firstn n got)) data).

(** [fu_rts54hub_rtd21xx_device_read_status (self, NULL, error)] *)
Definition fu_rts54hub_rtd21xx_device_read_status
  : Run FuRts54hubRtd21xxForeground unit :=
  fallible CALL_READ_STATUS ;;; ret tt.

(** [fu_rts54hub_rtd21xx_device_read_status_raw (self, &status, error)];
    the result is [status] after the call. *)
Definition fu_rts54hub_rtd21xx_device_read_status_raw (status : Z)
  : Run FuRts54hubRtd21xxForeground Z :=
  got <- fallible CALL_READ_STATUS_RAW ;;
  ret (guint8 (hd status got)).

Definition fu_device_sleep (delay_ms : Z) : Run FuRts54hubRtd21xxForeground unit :=
  infallible (CALL_SLEEP delay_ms).

(** [g_autoptr(FuDeviceLocker) locker = fu_device_locker_new (...)]: the
    device is opened, [body] runs, and the device is closed when the locker
    goes out of scope, on every path. *)
Definition with_locker {A : Type} (open : DeviceCall)
    (body : Run FuRts54hubRtd21xxForeground A) : Run FuRts54hubRtd21xxForeground A :=
  fallible open ;;;
  (fun d => let (r, d') := body d in
            (r, snd (infallible CALL_LOCKER_CLOSE d'))).

(** Modelled from the spec: [fu_device_retry] (libfwupdplugin/fu-device.c) is
    not part of the sources.  It is the bounded retry of a polling loop: the
    callback is run until it succeeds, at most [count] times, with the
    device's inter-poll sleep between two attempts; after [count] failures
    the retry fails with the error of the last attempt. *)
Fixpoint retry_loop (func : Run FuRts54hubRtd21xxForeground unit) (remaining : nat)
  : Run FuRts54hubRtd21xxForeground unit :=
  match remaining with
  | O => ret tt
  | S remaining' =>
      fun d =>
        match func d with
        | (Ok _, d') => (Ok tt, d')
        | (Failed e, d') =>
            match remaining' with
            | O => (Failed e, d')
            | S _ => (fu_device_sleep (retry_delay d') ;;;
                      retry_loop func remaining') d'
            end
        end
  end.

Definition fu_device_retry (func : Run FuRts54hubRtd21xxForeground unit) (count : nat)
  : Run FuRts54hubRtd21xxForeground unit :=
  retry_loop func count.

Section Foreground.

Variable h : Rtd21xxHeader.

Definition fu_rts54hub_rtd21xx_foreground_detach_raw
  : Run FuRts54hubRtd21xxForeground unit :=
  let buf := 0x03 in
  with_prefix "failed to detach: "
    (fu_rts54hub_rtd21xx_device_i2c_write 0x6A 0x31 [buf] 1) ;;;
  (* wait for device ready *)
  fu_device_sleep 300.

Definition fu_rts54hub_rtd21xx_foreground_detach_cb
  : Run FuRts54hubRtd21xxForeground unit :=
  fu_rts54hub_rtd21xx_foreground_detach_raw ;;;
  status <- fu_rts54hub_rtd21xx_device_read_status_raw 0xfe ;;
  if negb (status =? ISP_STATUS_IDLE_SUCCESS h) then
    fail (fwupd_error FWUPD_ERROR_INTERNAL
            ("detach status was 0x" ++ fmt_0x 2 status))
  else ret tt.

Definition fu_rts54hub_rtd21xx_foreground_detach
  : Run FuRts54hubRtd21xxForeground unit :=
  (* open device *)
  with_locker CALL_LOCKER_OPEN_PARENT
    (fu_device_retry fu_rts54hub_rtd21xx_foreground_detach_cb 100).

(** ** Counting the attempts of a detach *)

(** Every run of the callback starts by sending the detach command, so the
    attempts made are the detach commands in the record of calls. *)
Definition is_detach_command (c : DeviceCall) : bool :=
  match c with
  | CALL_I2C_WRITE 0x6A 0x31 [0x03] => true
  | _ => false
  end.

Definition attempts (d : FuRts54hubRtd21xxForeground) : nat :=
  length (filter is_detach_command (calls d)).

Lemma fallible_calls (c : DeviceCall) d r d' :
  fallible c d = (r, d') -> calls d' = c :: calls d.
Proof.
  unfold fallible. destruct (replies d (reply_count d)); intro H;
    injection H as _ <-; reflexivity.
Qed.

Lemma fallible_reply (c : DeviceCall) d :
  fst (fallible c d)
  = match replies d (reply_count d) with
    | ReplyOk data => Ok data
    | ReplyFailed e => Failed e
    end.
Proof. unfold fallible. destruct (replies d (reply_count d)); reflexivity. Qed.

Lemma detach_cb_attempts d r d' :
  fu_rts54hub_rtd21xx_foreground_detach_cb d = (r, d') ->
  attempts d' = S (attempts d).
Proof.
  unfold fu_rts54hub_rtd21xx_foreground_detach_cb,
    fu_rts54hub_rtd21xx_foreground_detach_raw,
    fu_rts54hub_rtd21xx_device_i2c_write,
    fu_rts54hub_rtd21xx_device_read_status_raw,
    fu_device_sleep, infallible, with_prefix, bind, ret, fail, attempts.
  destruct (fallible (CALL_I2C_WRITE 0x6A 0x31 (firstn (Z.to_nat 1) [0x03])) d)
    as [[l1 | e1] d1] eqn:E1; pose proof (fallible_calls _ _ _ _ E1) as C1.
  - destruct (fallible CALL_READ_STATUS_RAW
                (mkForeground (retry_delay d1) (replies d1) (reply_count d1)
                              (CALL_SLEEP 300 :: calls d1)))
      as [[l2 | e2] d2] eqn:E2; pose proof (fallible_calls _ _ _ _ E2) as C2.
    + destruct (negb (guint8 (hd 0xfe l2) =? ISP_STATUS_IDLE_SUCCESS h));
        intro H; injection H as _ <-; rewrite C2; cbn [calls]; rewrite C1;
        reflexivity.
    + intro H; injection H as _ <-. rewrite C2. cbn [calls]. rewrite C1.
      reflexivity.
  - intro H; injection H as _ <-. rewrite C1. reflexivity.
Qed.

(** The retry makes at most [count] attempts; when it fails it has made all
    of them, and when it succeeds (for a positive [count]) at least one. *)
Lemma retry_loop_attempts (count : nat) d r d' :
  retry_loop fu_rts54hub_rtd21xx_foreground_detach_cb count d = (r, d') ->
  (attempts d' <= attempts d + count)%nat /\
  (is_ok r = false -> attempts d' = (attempts d + count)%nat) /\
  (is_ok r = true -> (1 <= count)%nat -> (attempts d + 1 <= attempts d')%nat).
Proof.
  revert d. induction count as [| count IH]; intro d.
  - intro H. injection H as <- <-.
    repeat split; [lia | discriminate | lia].
  - cbn [retry_loop].
    destruct (fu_rts54hub_rtd21xx_foreground_detach_cb d) as [[u | e] d1] eqn:E;
      pose proof (detach_cb_attempts _ _ _ E) as A1.
    + intro H. injection H as <- <-. repeat split; [lia | discriminate | lia].
    + destruct count as [| count].
      * intro H. injection H as <- <-. repeat split; lia.
      * unfold bind, fu_device_sleep, infallible. intro H.
        apply IH in H. unfold attempts in *. cbn [calls filter is_detach_command] in H.
        destruct H as (H1 & H2 & H3). repeat split.
        -- lia.
        -- intro Hr. rewrite (H2 Hr). lia.
        -- intros Hr _. specialize (H3 Hr ltac:(lia)). lia.
Qed.

(** The first successful attempt ends the retry. *)
Lemma retry_loop_first_success (count : nat) d d' :
  fu_rts54hub_rtd21xx_foreground_detach_cb d = (Ok tt, d') ->
  retry_loop fu_rts54hub_rtd21xx_foreground_detach_cb (S count) d = (Ok tt, d').
Proof. intro H. cbn [retry_loop]. rewrite H. reflexivity. Qed.

(** The callback fails with an Internal error when the status read back is
    not idle-success. *)
Lemma detach_cb_bad_status d l1 l2 :
  replies d (reply_count d) = ReplyOk l1 ->
  replies d (S (reply_count d)) = ReplyOk l2 ->
  guint8 (hd 0xfe l2) <> ISP_STATUS_IDLE_SUCCESS h ->
  exists d',
    fu_rts54hub_rtd21xx_foreground_detach_cb d
    = (Failed (fwupd_error FWUPD_ERROR_INTERNAL
                 ("detach status was 0x" ++ fmt_0x 2 (guint8 (hd 0xfe l2)))), d').
Proof.
  intros R1 R2 Hst.
  unfold fu_rts54hub_rtd21xx_foreground_detach_cb,
    fu_rts54hub_rtd21xx_foreground_detach_raw,
    fu_rts54hub_rtd21xx_device_i2c_write,
    fu_rts54hub_rtd21xx_device_read_status_raw,
    fu_device_sleep, infallible, with_prefix, bind, ret, fail, fallible.
  rewrite R1. cbn [replies reply_count]. rewrite R2.
  apply Z.eqb_neq in Hst. rewrite Hst. cbn [negb]. eexists. reflexivity.
Qed.

Lemma with_locker_attempts (open : DeviceCall)
    (body : Run FuRts54hubRtd21xxForeground unit) d r d' :
  is_detach_command open = false ->
  with_locker open body d = (r, d') ->
  (forall e, replies d (reply_count d) = ReplyFailed e ->
     r = Failed e /\ attempts d' = attempts d) /\
  (forall l, replies d (reply_count d) = ReplyOk l ->
     exists d0 d1, attempts d0 = attempts d /\ body d0 = (r, d1) /\
                   attempts d' = attempts d1).
Proof.
  intros Hopen. unfold with_locker, bind, fallible, infallible, attempts.
  destruct (replies d (reply_count d)) as [l | e].
  - destruct (body _) as [r1 d1] eqn:E. intro H. injection H as <- <-.
    split; [discriminate |]. intros l0 _. eexists _, d1.
    split; [| split; [exact E |]].
    + cbn [calls filter]. rewrite Hopen. reflexivity.
    + reflexivity.
  - intro H. injection H as <- <-. split; [| discriminate].
    intros e0 He. injection He as <-. split; [reflexivity |].
    cbn [calls filter]. rewrite Hopen. reflexivity.
Qed.

(** C7 (as amended). The foreground detach first opens the parent device and
    fails at once, without an attempt, when that fails.  Otherwise it is a
    bounded polling loop: the detach callback (detach command, status read,
    Internal error when the status is not idle-success) is attempted at most
    100 times and the first success ends the loop, so that detach fails only
    after all 100 attempts have failed. *)
Theorem detach_bounded_retry d r d' :
  fu_rts54hub_rtd21xx_foreground_detach d = (r, d') ->
  (attempts d' <= attempts d + 100)%nat /\
  (forall e, replies d (reply_count d) = ReplyFailed e ->
     r = Failed e /\ attempts d' = attempts d) /\
  (forall l, replies d (reply_count d) = ReplyOk l ->
     (is_ok r = false -> attempts d' = (attempts d + 100)%nat) /\
     (is_ok r = true -> (attempts d + 1 <= attempts d')%nat)) /\
  (forall d0 d1 count,
     fu_rts54hub_rtd21xx_foreground_detach_cb d0 = (Ok tt, d1) ->
     fu_device_retry fu_rts54hub_rtd21xx_foreground_detach_cb (S count) d0
     = (Ok tt, d1)) /\
  (forall d0 l1 l2,
     replies d0 (reply_count d0) = ReplyOk l1 ->
     replies d0 (S (reply_count d0)) = ReplyOk l2 ->
     guint8 (hd 0xfe l2) <> ISP_STATUS_IDLE_SUCCESS h ->
     exists d1 e,
       fu_rts54hub_rtd21xx_foreground_detach_cb d0 = (Failed e, d1) /\
       g_error_matches e FWUPD_ERROR_INTERNAL = true).
Proof.
  intro H. unfold fu_rts54hub_rtd21xx_foreground_detach, fu_device_retry in H.
  destruct (with_locker_attempts CALL_LOCKER_OPEN_PARENT _ _ _ _ eq_refl H)
    as [Hfail Hopen].
  assert (Hcases : (forall e, replies d (reply_count d) = ReplyFailed e ->
                      attempts d' = attempts d) /\
                   (forall l, replies d (reply_count d) = ReplyOk l ->
                      (attempts d' <= attempts d + 100)%nat /\
                      (is_ok r = false -> attempts d' = (attempts d + 100)%nat) /\
                      (is_ok r = true -> (attempts d + 1 <= attempts d')%nat))).
  { split.
    - intros e He. apply (Hfail e He).
    - intros l Hl. destruct (Hopen l Hl) as (d0 & d1 & A0 & Hbody & A1).
      apply retry_loop_attempts in Hbody. destruct Hbody as (B1 & B2 & B3).
      rewrite A1, <- A0. repeat split; [exact B1 | exact B2 |].
      intro Hr. apply B3; [exact Hr | lia]. }
  destruct Hcases as [Cfail Cok].
  split; [| split; [exact Hfail | split; [| split]]].
  - destruct (replies d (reply_count d)) as [l | e] eqn:E.
    + apply (Cok l eq_refl).
    + rewrite (Cfail e eq_refl). lia.
  - intros l Hl. destruct (Cok l Hl) as (_ & C2 & C3). split; assumption.
  - intros d0 d1 count Hcb. apply retry_loop_first_success. exact Hcb.
  - intros d0 l1 l2 R1 R2 Hst.
    destruct (detach_cb_bad_status d0 l1 l2 R1 R2 Hst) as [d1 Hcb].
    eexists d1, _. split; [exact Hcb | reflexivity].
Qed.

(** ** fu_rts54hub_rtd21xx_foreground_write_firmware *)

(** [buf[i] = v] for an index inside the buffer. *)
Definition set_at (buf : list Z) (i : nat) (v : Z) : list Z :=
  firstn i buf ++ v :: skipn (S i) buf.

(** [fu_memread_uint32 (buf, G_BIG_ENDIAN)] and
    [fu_memwrite_uint16 (buf + offset, v, G_BIG_ENDIAN)] (libfwupdplugin). *)
Definition fu_memread_uint32_be (buf : list Z) : Z :=
  Z.lor (Z.shiftl (nth 0 buf 0) 24)
    (Z.lor (Z.shiftl (nth 1 buf 0) 16)
       (Z.lor (Z.shiftl (nth 2 buf 0) 8) (nth 3 buf 0))).

Definition fu_memwrite_uint16_be (buf : list Z) (offset : nat) (v : Z) : list Z :=
  set_at (set_at buf offset (guint8 (Z.shiftr v 8))) (S offset) (guint8 v).

Definition u8 (b : byte) : Z := Z.of_N (Byte.to_N b).

(** [fu_input_stream_read_safe] (libfwupdplugin, outside the sources): copy
    [count] bytes found at [seek_set] in the stream to [buf + offset], or
    fail when either side is too short.  The result is the buffer after the
    copy. *)
Definition fu_input_stream_read_safe (stream : list byte) (buf : list Z)
    (bufsz offset seek_set count : Z) : Result (list Z) :=
  if Z.of_nat (length stream) <? seek_set + count then
    Failed (fwupd_error FWUPD_ERROR_READ
              ("attempted to read 0x" ++ fmt_x count ++ " bytes at offset 0x"
               ++ fmt_x seek_set ++ " from stream"))
  else if bufsz <? offset + count then
    Failed (fwupd_error FWUPD_ERROR_WRITE
              ("attempted to write 0x" ++ fmt_x count ++ " bytes at offset 0x"
               ++ fmt_x offset ++ " to buffer of 0x" ++ fmt_x bufsz))
  else
    Ok (firstn (Z.to_nat offset) buf
        ++ map u8 (firstn (Z.to_nat count) (skipn (Z.to_nat seek_set) stream))
        ++ skipn (Z.to_nat (offset + count)) buf).

(** [FuChunkArray] over a stream, packets of [packet_sz] bytes
    (libfwupdplugin, outside the sources). *)
Definition fu_chunk_array_length (stream : list byte) (packet_sz : Z) : Z :=
  (Z.of_nat (length stream) + packet_sz - 1) / packet_sz.

Definition fu_chunk_get_address (i packet_sz : Z) : Z := i * packet_sz.

Definition fu_chunk_get_data (stream : list byte) (i packet_sz : Z) : list Z :=
  map u8 (firstn (Z.to_nat packet_sz) (skipn (Z.to_nat (i * packet_sz)) stream)).

(** The locker of a function that also reports progress. *)
Definition with_locker_progress {A : Type} (open : DeviceCall)
    (body : Run (FuRts54hubRtd21xxForeground * FuProgress) A)
  : Run (FuRts54hubRtd21xxForeground * FuProgress) A :=
  on_device (fallible open) ;;;
  (fun s => let (r, s') := body s in
            (r, (snd (infallible CALL_LOCKER_CLOSE (fst s')), snd s'))).

(** "send data": the loop over the chunks. *)
Fixpoint send_data (idx : list Z) (stream : list byte)
  : Run (FuRts54hubRtd21xxForeground * FuProgress) unit :=
  match idx with
  | [] => ret tt
  | i :: rest =>
      (* prepare chunk *)
      on_device (fallible (CALL_CHUNK_ARRAY_INDEX i)) ;;;
      on_device fu_rts54hub_rtd21xx_device_read_status ;;;
      let data := fu_chunk_get_data stream i ISP_DATA_BLOCKSIZE in
      on_device
        (with_prefix
           ("failed to write @0x"
            ++ fmt_0x 4 (guint (fu_chunk_get_address i ISP_DATA_BLOCKSIZE)) ++ ": ")
           (fu_rts54hub_rtd21xx_device_i2c_write
              (UC_ISP_TARGET_ADDR h) (UC_FOREGROUND_ISP_DATA_OPCODE h)
              data (Z.of_nat (length data)))) ;;;
      (* update progress *)
      fu_progress_call
        (FU_PROGRESS_CHILD_SET_PERCENTAGE_FULL
           (i + 1) (fu_chunk_array_length stream ISP_DATA_BLOCKSIZE)) ;;;
      send_data rest stream
  end.

(** What follows the progress set-up and the locker, for the stream that
    [fu_firmware_get_stream] returned. *)
Definition write_firmware_stream (stream : list byte)
  : Run (FuRts54hubRtd21xxForeground * FuProgress) unit :=
  let read_buf := repeat 0 10 in
  let write_buf := repeat 0 (Z.to_nat ISP_PACKET_SIZE) in
  (* enable ISP high priority *)
  let write_buf := set_at write_buf 0 ISP_CMD_ENTER_FW_UPDATE in
  let write_buf := set_at write_buf 1 0x01 in
  on_device
    (with_prefix "failed to enable ISP: "
       (fu_rts54hub_rtd21xx_device_i2c_write
          (UC_ISP_TARGET_ADDR h) (UC_FOREGROUND_OPCODE h) write_buf 2)) ;;;
  on_device fu_rts54hub_rtd21xx_device_read_status ;;;
  (* get project ID address *)
  let write_buf := set_at write_buf 0 ISP_CMD_GET_PROJECT_ID_ADDR in
  on_device
    (with_prefix "failed to get project ID address: "
       (fu_rts54hub_rtd21xx_device_i2c_write
          (UC_ISP_TARGET_ADDR h) (UC_FOREGROUND_OPCODE h) write_buf 1)) ;;;
  (* read back 6 bytes data *)
  on_device (fu_device_sleep (I2C_DELAY_AFTER_SEND h * 40)) ;;;
  read_buf <- on_device
    (with_prefix "failed to read project ID: "
       (fu_rts54hub_rtd21xx_device_i2c_read
          (UC_ISP_TARGET_ADDR h) (UC_FOREGROUND_STATUS h) read_buf 6)) ;;
  if negb (nth 0 read_buf 0 =? ISP_STATUS_IDLE_SUCCESS h) then
    fail (fwupd_error FWUPD_ERROR_INVALID_DATA
            ("failed project ID with error 0x" ++ fmt_0x 2 (nth 0 read_buf 0)
             ++ ": "))
  else
  (* verify project ID *)
  let project_addr := fu_memread_uint32_be (skipn 1 read_buf) in
  let project_id_count := nth 5 read_buf 0 in
  let write_buf := set_at write_buf 0 ISP_CMD_SYNC_IDENTIFY_CODE in
  write_buf <- with_prefix
    ("failed to write project ID from 0x" ++ fmt_0x 4 project_addr ++ ": ")
    (lift_result
       (fu_input_stream_read_safe stream write_buf ISP_PACKET_SIZE
          0x1 project_addr project_id_count)) ;;
  on_device
    (with_prefix "failed to send fw update start cmd: "
       (fu_rts54hub_rtd21xx_device_i2c_write
          (UC_ISP_TARGET_ADDR h) (UC_FOREGROUND_OPCODE h) write_buf
          (project_id_count + 1))) ;;;
  on_device fu_rts54hub_rtd21xx_device_read_status ;;;
  (* foreground FW update start command *)
  let write_buf := set_at write_buf 0 ISP_CMD_FW_UPDATE_START in
  let write_buf := fu_memwrite_uint16_be write_buf 1 ISP_DATA_BLOCKSIZE in
  on_device
    (with_prefix "failed to send fw update start cmd: "
       (fu_rts54hub_rtd21xx_device_i2c_write
          (UC_ISP_TARGET_ADDR h) (UC_FOREGROUND_OPCODE h) write_buf 3)) ;;;
  fu_progress_call FU_PROGRESS_STEP_DONE ;;;
  (* send data *)
  on_device (fallible CALL_CHUNK_ARRAY_NEW) ;;;
  send_data (range 0 (fu_chunk_array_length stream ISP_DATA_BLOCKSIZE) 1) stream ;;;
  fu_progress_call FU_PROGRESS_STEP_DONE ;;;
  (* update finish command *)
  on_device fu_rts54hub_rtd21xx_device_read_status ;;;
  let write_buf := set_at write_buf 0 ISP_CMD_FW_UPDATE_ISP_DONE in
  on_device
    (with_prefix "failed update finish cmd: "
       (fu_rts54hub_rtd21xx_device_i2c_write
          (UC_ISP_TARGET_ADDR h) (UC_FOREGROUND_OPCODE h) write_buf 1)) ;;;
  fu_progress_call FU_PROGRESS_STEP_DONE ;;;
  (* success *)
  ret tt.

(** [firmware] is what [fu_firmware_get_stream (firmware, error)] yields.
    The install flags are not used. *)
Definition fu_rts54hub_rtd21xx_foreground_write_firmware
    (firmware : Result (list byte))
  : Run (FuRts54hubRtd21xxForeground * FuProgress) unit :=
  (* progress *)
  fu_progress_call FU_PROGRESS_SET_ID ;;;
  fu_progress_call FU_PROGRESS_ADD_FLAG_GUESSED ;;;
  fu_progress_call
    (FU_PROGRESS_ADD_STEP FWUPD_STATUS_DEVICE_BUSY 5 (Some "setup"%string)) ;;;
  fu_progress_call (FU_PROGRESS_ADD_STEP FWUPD_STATUS_DEVICE_WRITE 90 None) ;;;
  fu_progress_call
    (FU_PROGRESS_ADD_STEP FWUPD_STATUS_DEVICE_BUSY 5 (Some "finish"%string)) ;;;
  (* open device *)
  with_locker_progress CALL_LOCKER_OPEN_SELF
    ((* simple image *)
     stream <- lift_result firmware ;;
     write_firmware_stream stream).

(** ** The progress calls of the update *)

Lemma send_data_emits (idx : list Z) (stream : list byte) :
  emits (send_data idx stream)
        (updates_of (fu_chunk_array_length stream ISP_DATA_BLOCKSIZE) idx).
Proof.
  induction idx as [| i idx IH]; cbn [send_data updates_of map].
  - apply emits_ret.
  - apply (emits_bind _ _ [] (_ :: _)); [apply emits_on_device | intros _].
    apply (emits_bind _ _ [] (_ :: _)); [apply emits_on_device | intros _].
    apply (emits_bind _ _ [] (_ :: _)); [apply emits_on_device | intros _].
    apply (emits_bind _ _ [_] _); [apply emits_call | intros _]. exact IH.
Qed.

Lemma with_locker_progress_emits {A : Type} (open : DeviceCall)
    (body : Run (FuRts54hubRtd21xxForeground * FuProgress) A)
    (l : list FuProgressCall) :
  emits body l -> emits (with_locker_progress open body) l.
Proof.
  intro Hbody. unfold with_locker_progress.
  apply (emits_bind _ _ [] l); [apply emits_on_device | intros _].
  intros s r s'. destruct (body s) as [r1 s1] eqn:E. intro H.
  injection H as <- <-. exact (Hbody _ _ _ E).
Qed.

Definition rtd21xx_write_firmware_header : list FuProgressCall :=
  [ FU_PROGRESS_SET_ID;
    FU_PROGRESS_ADD_FLAG_GUESSED;
    FU_PROGRESS_ADD_STEP FWUPD_STATUS_DEVICE_BUSY 5 (Some "setup"%string);
    FU_PROGRESS_ADD_STEP FWUPD_STATUS_DEVICE_WRITE 90 None;
    FU_PROGRESS_ADD_STEP FWUPD_STATUS_DEVICE_BUSY 5 (Some "finish"%string) ].

Lemma write_firmware_stream_emits (stream : list byte) :
  emits (write_firmware_stream stream)
        (FU_PROGRESS_STEP_DONE
         :: updates_of (fu_chunk_array_length stream ISP_DATA_BLOCKSIZE)
              (range 0 (fu_chunk_array_length stream ISP_DATA_BLOCKSIZE) 1)
         ++ repeat FU_PROGRESS_STEP_DONE 2).
Proof.
  unfold write_firmware_stream.
  generalize (range 0 (fu_chunk_array_length stream ISP_DATA_BLOCKSIZE) 1).
  intro R. eapply emits_eq.
  - do 4 (eapply emits_bind; [apply emits_on_device | intros _]).
    eapply emits_bind; [apply emits_on_device | intros read_buf].
    destruct (negb (nth 0 read_buf 0 =? ISP_STATUS_IDLE_SUCCESS h));
      [apply emits_fail |].
    eapply emits_bind;
      [apply emits_with_prefix, emits_lift_result | intros write_buf].
    do 3 (eapply emits_bind; [apply emits_on_device | intros _]).
    eapply emits_bind; [apply emits_call | intros _].
    eapply emits_bind; [apply emits_on_device | intros _].
    eapply emits_bind; [apply send_data_emits | intros _].
    eapply emits_bind; [apply emits_call | intros _].
    do 2 (eapply emits_bind; [apply emits_on_device | intros _]).
    eapply emits_bind; [apply emits_call | intros _].
    apply emits_ret.
  - cbn [app repeat]. reflexivity.
Qed.

(** The calls of a complete update of [total] chunks. *)
Lemma rtd21xx_write_firmware_emits (firmware : Result (list byte)) :
  exists total : Z,
    0 <= total /\
    (forall stream, firmware = Ok stream ->
       total = fu_chunk_array_length stream ISP_DATA_BLOCKSIZE) /\
    emits (fu_rts54hub_rtd21xx_foreground_write_firmware firmware)
          (second_step_loop rtd21xx_write_firmware_header total
             (range 0 total 1) 1).
Proof.
  destruct firmware as [stream | e].
  - exists (fu_chunk_array_length stream ISP_DATA_BLOCKSIZE). split.
    { unfold fu_chunk_array_length, ISP_DATA_BLOCKSIZE.
      apply Z.div_pos; lia. }
    split; [intros s0 Hs; injection Hs as <-; reflexivity |].
    unfold fu_rts54hub_rtd21xx_foreground_write_firmware, second_step_loop,
      rtd21xx_write_firmware_header.
    eapply emits_eq.
    + do 5 (eapply emits_bind; [apply emits_call | intros _]).
      apply with_locker_progress_emits.
      apply (emits_bind_post (fun a => a = stream) _ _ []).
      * apply emits_lift_result.
      * intros s a s' H. injection H as <- _. reflexivity.
      * intros a ->. apply write_firmware_stream_emits.
    + cbn [app repeat]. reflexivity.
  - exists 0. split; [lia |]. split; [discriminate |].
    unfold fu_rts54hub_rtd21xx_foreground_write_firmware, second_step_loop,
      rtd21xx_write_firmware_header.
    eapply emits_eq.
    + do 5 (eapply emits_bind; [apply emits_call | intros _]).
      apply with_locker_progress_emits.
      apply (emits_bind_post (fun _ => False) _ _ []).
      * apply emits_lift_result.
      * intros s a s' H. discriminate H.
      * intros a [].
    + cbn [app repeat]. reflexivity.
Qed.

(** The updates each node of the update receives: the node of the second
    step is sent (1, total), (2, total), ... as the chunks are written, where
    [total] is the number of chunks; no other node is sent anything. *)
Lemma rtd21xx_write_firmware_child_updates (firmware : Result (list byte))
    d r d' p' :
  fu_rts54hub_rtd21xx_foreground_write_firmware firmware (d, []) = (r, (d', p')) ->
  exists total : Z,
    (forall stream, firmware = Ok stream ->
       total = fu_chunk_array_length stream ISP_DATA_BLOCKSIZE) /\
    (exists n : nat, (n <= Z.to_nat total)%nat /\
                     child_updates (calls_made p') 1 = counting 0 total n) /\
    (forall k : nat, k <> 1%nat -> child_updates (calls_made p') k = []).
Proof.
  intro H.
  destruct (rtd21xx_write_firmware_emits firmware) as (total & Ht & Hstream & Hem).
  exists total. split; [exact Hstream |].
  refine (second_step_loop_updates _ rtd21xx_write_firmware_header total
            (range 0 total 1) 1 (Z.to_nat total) _ _ Hem d r d' p' H).
  - reflexivity.
  - apply counting_of_range. exact Ht.
Qed.

(** ** attach and exit *)

(** [fu_device_sleep_full (device, delay_ms, progress)]: the progress object
    only follows the sleep. *)
Definition fu_device_sleep_full (delay_ms : Z) : Run FuRts54hubRtd21xxForeground unit :=
  infallible (CALL_SLEEP delay_ms).

Definition fu_rts54hub_rtd21xx_foreground_attach
  : Run FuRts54hubRtd21xxForeground unit :=
  let buf := [ISP_CMD_FW_UPDATE_RESET] in
  (* open device *)
  with_locker CALL_LOCKER_OPEN_PARENT
    ((* exit fw mode *)
     fu_rts54hub_rtd21xx_device_read_status ;;;
     with_prefix "failed to ISP_CMD_FW_UPDATE_RESET: "
       (fu_rts54hub_rtd21xx_device_i2c_write
          (UC_ISP_TARGET_ADDR h) (UC_FOREGROUND_OPCODE h) buf 1) ;;;
     (* the device needs some time to restart with the new firmware before
        it can be queried again *)
     fu_device_sleep_full 60000).

Definition fu_rts54hub_rtd21xx_foreground_exit
  : Run FuRts54hubRtd21xxForeground unit :=
  let buf := [ISP_CMD_FW_UPDATE_EXIT] in
  (* open device *)
  with_locker CALL_LOCKER_OPEN_PARENT
    (with_prefix "failed to ISP_CMD_FW_UPDATE_EXIT: "
       (fu_rts54hub_rtd21xx_device_i2c_write
          (UC_ISP_TARGET_ADDR h) (UC_FOREGROUND_OPCODE h) buf 1)).

(** The reset command of [attach]. *)
Definition reset_command : DeviceCall :=
  CALL_I2C_WRITE (UC_ISP_TARGET_ADDR h) (UC_FOREGROUND_OPCODE h)
                 [ISP_CMD_FW_UPDATE_RESET].

(** The calls of [attach], newest first, for each way it can end. *)
Lemma attach_calls d r d' :
  fu_rts54hub_rtd21xx_foreground_attach d = (r, d') ->
  match replies d (reply_count d),
        replies d (S (reply_count d)),
        replies d (S (S (reply_count d))) with
  | ReplyFailed e, _, _ =>
      r = Failed e /\ calls d' = CALL_LOCKER_OPEN_PARENT :: calls d
  | ReplyOk _, ReplyFailed e, _ =>
      r = Failed e /\
      calls d' = CALL_LOCKER_CLOSE :: CALL_READ_STATUS
                 :: CALL_LOCKER_OPEN_PARENT :: calls d
  | ReplyOk _, ReplyOk _, ReplyFailed e =>
      r = Failed (g_prefix_error "failed to ISP_CMD_FW_UPDATE_RESET: " e) /\
      calls d' = CALL_LOCKER_CLOSE :: reset_command :: CALL_READ_STATUS
                 :: CALL_LOCKER_OPEN_PARENT :: calls d
  | ReplyOk _, ReplyOk _, ReplyOk _ =>
      r = Ok tt /\
      calls d' = CALL_LOCKER_CLOSE :: CALL_SLEEP 60000 :: reset_command
                 :: CALL_READ_STATUS :: CALL_LOCKER_OPEN_PARENT :: calls d
  end.
Proof.
  unfold fu_rts54hub_rtd21xx_foreground_attach, with_locker,
    fu_rts54hub_rtd21xx_device_read_status, fu_rts54hub_rtd21xx_device_i2c_write,
    fu_device_sleep_full, with_prefix, bind, fallible, infallible, ret,
    reset_command.
  cbn [replies reply_count calls retry_delay fst snd].
  destruct (replies d (reply_count d)) as [l0 | e0];
    cbn [replies reply_count calls retry_delay fst snd].
  - destruct (replies d (S (reply_count d))) as [l1 | e1];
      cbn [replies reply_count calls retry_delay fst snd].
    + destruct (replies d (S (S (reply_count d)))) as [l2 | e2];
        cbn [replies reply_count calls retry_delay fst snd];
        intro H; injection H as <- <-; split; reflexivity.
    + intro H. injection H as <- <-.
      destruct (replies d (S (S (reply_count d)))); split; reflexivity.
  - intro H. injection H as <- <-.
    destruct (replies d (S (reply_count d))), (replies d (S (S (reply_count d))));
      split; reflexivity.
Qed.

(** [attach] sends the reset command only after the status could be read,
    and lets the device restart for 60 s only after the command went through,
    which is also the only way for it to succeed; once the parent is open it
    is closed again, however [attach] ends. *)
Theorem attach_resets_after_status d r d' :
  fu_rts54hub_rtd21xx_foreground_attach d = (r, d') ->
  exists new,
    calls d' = new ++ calls d /\
    (In reset_command new ->
     exists l0 l1, replies d (reply_count d) = ReplyOk l0 /\
                   replies d (S (reply_count d)) = ReplyOk l1) /\
    (In (CALL_SLEEP 60000) new <-> r = Ok tt) /\
    (r = Ok tt <->
     exists l0 l1 l2, replies d (reply_count d) = ReplyOk l0 /\
                      replies d (S (reply_count d)) = ReplyOk l1 /\
                      replies d (S (S (reply_count d))) = ReplyOk l2) /\
    (forall l0, replies d (reply_count d) = ReplyOk l0 ->
     hd CALL_LOCKER_OPEN_PARENT new = CALL_LOCKER_CLOSE).
Proof.
  intro H. apply attach_calls in H.
  assert (Hne : reset_command <> CALL_SLEEP 60000 /\
                reset_command <> CALL_LOCKER_CLOSE /\
                reset_command <> CALL_READ_STATUS /\
                reset_command <> CALL_LOCKER_OPEN_PARENT)
    by (unfold reset_command; repeat split; discriminate).
  destruct Hne as (N1 & N2 & N3 & N4).
  destruct (replies d (reply_count d)) as [l0 | e0].
  - destruct (replies d (S (reply_count d))) as [l1 | e1].
    + destruct (replies d (S (S (reply_count d)))) as [l2 | e2];
        destruct H as [-> ->].
      * exists [CALL_LOCKER_CLOSE; CALL_SLEEP 60000; reset_command;
                CALL_READ_STATUS; CALL_LOCKER_OPEN_PARENT].
        split; [reflexivity |]. split; [intros _; eauto |].
        split; [split; [intros _; reflexivity | intros _; right; left; reflexivity] |].
        split; [split; [intros _; exists l0, l1, l2; auto | intros _; reflexivity] |].
        intros l _. reflexivity.
      * exists [CALL_LOCKER_CLOSE; reset_command;
                CALL_READ_STATUS; CALL_LOCKER_OPEN_PARENT].
        split; [reflexivity |]. split; [intros _; eauto |].
        split.
        { split; [| discriminate].
          cbn. intros [F | [F | [F | [F | []]]]];
            first [discriminate F | symmetry in F; contradiction]. }
        split; [| intros l _; reflexivity].
        split; [discriminate |].
        intros (a & b & c & _ & _ & F). discriminate F.
    + destruct H as [-> ->].
      exists [CALL_LOCKER_CLOSE; CALL_READ_STATUS; CALL_LOCKER_OPEN_PARENT].
      split; [reflexivity |]. split.
      { cbn. intros [F | [F | [F | []]]]; symmetry in F; contradiction. }
      split.
      { split; [| discriminate].
        cbn. intros [F | [F | [F | []]]]; discriminate F. }
      split; [| intros l _; reflexivity].
      split; [discriminate |].
      intros (a & b & c & _ & F & _). discriminate F.
  - assert (H' : r = Failed e0 /\ calls d' = CALL_LOCKER_OPEN_PARENT :: calls d)
      by (destruct (replies d (S (reply_count d))),
                   (replies d (S (S (reply_count d)))); exact H).
    destruct H' as [-> ->].
    exists [CALL_LOCKER_OPEN_PARENT].
    split; [reflexivity |]. split.
    { cbn. intros [F | []]. symmetry in F. contradiction. }
    split.
    { split; [| discriminate]. cbn. intros [F | []]. discriminate F. }
    split; [| intros l F; discriminate F].
    split; [discriminate |].
    intros (a & b & c & F & _). discriminate F.
Qed.

(** ** The firmware data sent by an update *)

(** The payload of a call, if it is a write to the ISP data register. *)
Definition is_data (c : DeviceCall) : list (list Z) :=
  match c with
  | CALL_I2C_WRITE _ sub_addr data =>
      if sub_addr =? UC_FOREGROUND_ISP_DATA_OPCODE h then [data] else []
  | _ => []
  end.

(** The firmware data sent so far, newest first. *)
Definition data_sent (d : FuRts54hubRtd21xxForeground) : list (list Z) :=
  flat_map is_data (calls d).

(** A step that sends no firmware data. *)
Definition quiet {A : Type} (m : Run FuRts54hubRtd21xxForeground A) : Prop :=
  forall d r d', m d = (r, d') -> data_sent d' = data_sent d.

(** [sends m l]: the firmware data sent by [m] is a front part of [l], and
    all of [l] when [m] succeeds. *)
Definition sends {A : Type} (m : Run (FuRts54hubRtd21xxForeground * FuProgress) A)
    (l : list (list Z)) : Prop :=
  forall s r s', m s = (r, s') ->
    exists l0 rest, l = l0 ++ rest /\
                    data_sent (fst s') = rev l0 ++ data_sent (fst s) /\
                    (is_ok r = true -> rest = []).

Lemma quiet_ret {A : Type} (a : A) : quiet (ret a).
Proof. intros d r d' H. injection H as _ <-. reflexivity. Qed.

Lemma quiet_bind {A B : Type} (m : Run FuRts54hubRtd21xxForeground A)
    (k : A -> Run FuRts54hubRtd21xxForeground B) :
  quiet m -> (forall a, quiet (k a)) -> quiet (bind m k).
Proof.
  intros Hm Hk d r d'. unfold bind.
  destruct (m d) as [[a | e] d1] eqn:E; intro H.
  - rewrite (Hk a _ _ _ H). exact (Hm _ _ _ E).
  - injection H as _ <-. exact (Hm _ _ _ E).
Qed.

Lemma quiet_with_prefix {A : Type} (pfx : string)
    (m : Run FuRts54hubRtd21xxForeground A) :
  quiet m -> quiet (with_prefix pfx m).
Proof.
  intros Hm d r d'. unfold with_prefix.
  destruct (m d) as [[a | e] d1] eqn:E; intro H; injection H as _ <-;
    exact (Hm _ _ _ E).
Qed.

Lemma fallible_data_sent (c : DeviceCall) d r d' :
  fallible c d = (r, d') -> data_sent d' = is_data c ++ data_sent d.
Proof.
  intro H. apply fallible_calls in H. unfold data_sent. rewrite H. reflexivity.
Qed.

Lemma quiet_fallible (c : DeviceCall) : is_data c = [] -> quiet (fallible c).
Proof.
  intros Hc d r d' H. apply fallible_data_sent in H. rewrite H, Hc. reflexivity.
Qed.

Lemma quiet_infallible (c : DeviceCall) : is_data c = [] -> quiet (infallible c).
Proof.
  intros Hc d r d' H. unfold infallible in H. injection H as _ <-.
  unfold data_sent. cbn [calls flat_map]. rewrite Hc. reflexivity.
Qed.

Lemma quiet_i2c_write (target_addr sub_addr : Z) (data : list Z) (datasz : Z) :
  sub_addr <> UC_FOREGROUND_ISP_DATA_OPCODE h ->
  quiet (fu_rts54hub_rtd21xx_device_i2c_write target_addr sub_addr data datasz).
Proof.
  intro Hsub. unfold fu_rts54hub_rtd21xx_device_i2c_write.
  apply quiet_bind; [| intros _; apply quiet_ret].
  apply quiet_fallible. cbn [is_data].
  destruct (Z.eqb_spec sub_addr (UC_FOREGROUND_ISP_DATA_OPCODE h));
    [contradiction | reflexivity].
Qed.

Lemma quiet_i2c_read (target_addr sub_addr : Z) (data : list Z) (datasz : Z) :
  quiet (fu_rts54hub_rtd21xx_device_i2c_read target_addr sub_addr data datasz).
Proof.
  unfold fu_rts54hub_rtd21xx_device_i2c_read.
  apply quiet_bind; [apply quiet_fallible; reflexivity | intro]. apply quiet_ret.
Qed.

Lemma quiet_read_status : quiet fu_rts54hub_rtd21xx_device_read_status.
Proof.
  unfold fu_rts54hub_rtd21xx_device_read_status.
  apply quiet_bind; [apply quiet_fallible; reflexivity | intro]. apply quiet_ret.
Qed.

Lemma sends_ret {A : Type} (a : A) :
  sends (@ret (FuRts54hubRtd21xxForeground * FuProgress) A a) [].
Proof.
  intros s r s' H. injection H as _ <-. exists [], []. repeat split.
Qed.

Lemma sends_fail {A : Type} (e : GError) (l : list (list Z)) :
  sends (@fail (FuRts54hubRtd21xxForeground * FuProgress) A e) l.
Proof.
  intros s r s' H. injection H as <- <-. exists [], l.
  split; [reflexivity |]. split; [reflexivity | discriminate].
Qed.

Lemma sends_lift_result {A : Type} (x : Result A) :
  sends (@lift_result (FuRts54hubRtd21xxForeground * FuProgress) A x) [].
Proof.
  intros s r s' H. unfold lift_result in H. injection H as _ <-.
  exists [], []. repeat split.
Qed.

Lemma sends_call (c : FuProgressCall) :
  sends (@fu_progress_call FuRts54hubRtd21xxForeground c) [].
Proof.
  intros s r s' H. unfold fu_progress_call in H. injection H as _ <-.
  exists [], []. repeat split.
Qed.

Lemma sends_on_device {A : Type} (m : Run FuRts54hubRtd21xxForeground A) :
  quiet m -> sends (on_device m) [].
Proof.
  intros Hm s r s'. unfold on_device.
  destruct (m (fst s)) as [r0 d0] eqn:E. intro H. injection H as _ <-.
  exists [], []. cbn [fst rev app]. rewrite (Hm _ _ _ E). repeat split.
Qed.

Lemma sends_with_prefix {A : Type} (pfx : string)
    (m : Run (FuRts54hubRtd21xxForeground * FuProgress) A) (l : list (list Z)) :
  sends m l -> sends (with_prefix pfx m) l.
Proof.
  intros Hm s r s'. unfold with_prefix.
  destruct (m s) as [[a | e] s1] eqn:E; intro H; injection H as <- <-;
    destruct (Hm _ _ _ E) as (l0 & rest & H1 & H2 & H3);
    exists l0, rest; repeat split; try assumption; discriminate.
Qed.

Lemma sends_bind {A B : Type}
    (m : Run (FuRts54hubRtd21xxForeground * FuProgress) A)
    (k : A -> Run (FuRts54hubRtd21xxForeground * FuProgress) B)
    (l1 l2 : list (list Z)) :
  sends m l1 -> (forall a, sends (k a) l2) -> sends (bind m k) (l1 ++ l2).
Proof.
  intros Hm Hk s r s'. unfold bind.
  destruct (m s) as [[a | e] s1] eqn:E; intro H.
  - destruct (Hm _ _ _ E) as (a0 & r1 & H1 & H2 & H3).
    destruct (Hk a _ _ _ H) as (b0 & r2 & K1 & K2 & K3).
    rewrite (H3 eq_refl), app_nil_r in H1. subst l1 l2.
    exists (a0 ++ b0), r2. split; [apply app_assoc |]. split; [| exact K3].
    rewrite K2, H2, rev_app_distr, app_assoc. reflexivity.
  - injection H as <- <-.
    destruct (Hm _ _ _ E) as (a0 & r1 & H1 & H2 & _). subst l1.
    exists a0, (r1 ++ l2). split; [symmetry; apply app_assoc |].
    split; [exact H2 | discriminate].
Qed.

Lemma sends_eq {A : Type} (m : Run (FuRts54hubRtd21xxForeground * FuProgress) A)
    (l l' : list (list Z)) :
  sends m l -> l = l' -> sends m l'.
Proof. intros H <-. exact H. Qed.

(** A write to the ISP data register sends its payload, if it goes
    through. *)
Lemma sends_data_write (pfx : string) (target_addr : Z) (data : list Z) :
  sends (on_device
           (with_prefix pfx
              (fu_rts54hub_rtd21xx_device_i2c_write target_addr
                 (UC_FOREGROUND_ISP_DATA_OPCODE h) data (Z.of_nat (length data)))))
        [data].
Proof.
  intros s r s'. unfold on_device, with_prefix,
    fu_rts54hub_rtd21xx_device_i2c_write, bind, ret.
  destruct (fallible _ (fst s)) as [[a | e] d1] eqn:E;
    intro H; injection H as <- <-; apply fallible_data_sent in E;
    cbn [is_data] in E; rewrite Z.eqb_refl, Nat2Z.id, firstn_all in E;
    cbn [fst]; exists [data], []; repeat split; exact E.
Qed.

Lemma sends_send_data (idx : list Z) (stream : list byte) :
  sends (send_data idx stream)
        (map (fun i => fu_chunk_get_data stream i ISP_DATA_BLOCKSIZE) idx).
Proof.
  induction idx as [| i idx IH]; cbn [send_data map]; [apply sends_ret |].
  apply (sends_bind _ _ [] (_ :: _));
    [apply sends_on_device, quiet_fallible; reflexivity | intros _].
  apply (sends_bind _ _ [] (_ :: _));
    [apply sends_on_device, quiet_read_status | intros _].
  cbv zeta.
  apply (sends_bind _ _ [_] _); [apply sends_data_write | intros _].
  apply (sends_bind _ _ [] _); [apply sends_call | intros _].
  exact IH.
Qed.

Lemma sends_with_locker_progress {A : Type} (open : DeviceCall)
    (body : Run (FuRts54hubRtd21xxForeground * FuProgress) A) (l : list (list Z)) :
  is_data open = [] -> sends body l -> sends (with_locker_progress open body) l.
Proof.
  intros Hopen Hbody. unfold with_locker_progress.
  apply (sends_bind _ _ [] l);
    [apply sends_on_device, quiet_fallible; exact Hopen | intros _].
  intros s r s'. destruct (body s) as [r0 s0] eqn:E. intro H.
  injection H as <- <-.
  destruct (Hbody _ _ _ E) as (l0 & rest & H1 & H2 & H3).
  exists l0, rest. split; [exact H1 |]. split; [| exact H3].
  cbn [fst snd infallible]. exact H2.
Qed.

(** The ISP data register is not the command register. *)
Hypothesis data_opcode_distinct :
  UC_FOREGROUND_OPCODE h <> UC_FOREGROUND_ISP_DATA_OPCODE h.

Lemma sends_write_firmware_stream (stream : list byte) :
  sends (write_firmware_stream stream)
        (map (fun i => fu_chunk_get_data stream i ISP_DATA_BLOCKSIZE)
             (range 0 (fu_chunk_array_length stream ISP_DATA_BLOCKSIZE) 1)).
Proof.
  unfold write_firmware_stream.
  generalize (range 0 (fu_chunk_array_length stream ISP_DATA_BLOCKSIZE) 1).
  intro idx. cbv zeta.
  apply (sends_bind _ _ [] _).
  { apply sends_on_device, quiet_with_prefix, quiet_i2c_write.
    exact data_opcode_distinct. }
  intros _.
  apply (sends_bind _ _ [] _); [apply sends_on_device, quiet_read_status | intros _].
  apply (sends_bind _ _ [] _).
  { apply sends_on_device, quiet_with_prefix, quiet_i2c_write.
    exact data_opcode_distinct. }
  intros _.
  apply (sends_bind _ _ [] _);
    [apply sends_on_device, quiet_infallible; reflexivity | intros _].
  apply (sends_bind _ _ [] _);
    [apply sends_on_device, quiet_with_prefix, quiet_i2c_read | intro read_buf].
  destruct (negb (nth 0 read_buf 0 =? ISP_STATUS_IDLE_SUCCESS h));
    [apply sends_fail |].
  apply (sends_bind _ _ [] _);
    [apply sends_with_prefix, sends_lift_result | intro write_buf].
  apply (sends_bind _ _ [] _).
  { apply sends_on_device, quiet_with_prefix, quiet_i2c_write.
    exact data_opcode_distinct. }
  intros _.
  apply (sends_bind _ _ [] _); [apply sends_on_device, quiet_read_status | intros _].
  apply (sends_bind _ _ [] _).
  { apply sends_on_device, quiet_with_prefix, quiet_i2c_write.
    exact data_opcode_distinct. }
  intros _.
  apply (sends_bind _ _ [] _); [apply sends_call | intros _].
  apply (sends_bind _ _ [] _);
    [apply sends_on_device, quiet_fallible; reflexivity | intros _].
  apply (sends_eq _
           (map (fun i => fu_chunk_get_data stream i ISP_DATA_BLOCKSIZE) idx ++ [])).
  - apply (sends_bind _ _
             (map (fun i => fu_chunk_get_data stream i ISP_DATA_BLOCKSIZE) idx) []);
      [apply sends_send_data | intros _].
    apply (sends_bind _ _ [] []); [apply sends_call | intros _].
    apply (sends_bind _ _ [] []);
      [apply sends_on_device, quiet_read_status | intros _].
    apply (sends_bind _ _ [] []).
    { apply sends_on_device, quiet_with_prefix, quiet_i2c_write.
      exact data_opcode_distinct. }
    intros _.
    apply (sends_bind _ _ [] []); [apply sends_call | intros _].
    apply sends_ret.
  - apply app_nil_r.
Qed.

(** The chunks of an image, in order. *)
Definition firmware_chunks (stream : list byte) : list (list Z) :=
  map (fun i => fu_chunk_get_data stream i ISP_DATA_BLOCKSIZE)
      (range 0 (fu_chunk_array_length stream ISP_DATA_BLOCKSIZE) 1).

Lemma firstn_app_skipn {A : Type} (a b : nat) (l : list A) :
  firstn a l ++ firstn b (skipn a l) = firstn (a + b) l.
Proof.
  revert l. induction a as [| a IH]; intro l; [reflexivity |].
  destruct l as [| x l]; [destruct b; reflexivity |].
  cbn [firstn skipn app Nat.add]. f_equal. apply IH.
Qed.

Lemma blocks_concat {A : Type} (blocksize : nat) (l : list A) (count : nat) :
  concat (map (fun k => firstn blocksize (skipn (k * blocksize) l)) (seq 0 count))
  = firstn (count * blocksize) l.
Proof.
  induction count as [| count IH]; [reflexivity |].
  rewrite seq_S, map_app, concat_app, IH. cbn [map concat Nat.add].
  rewrite app_nil_r, firstn_app_skipn. f_equal. lia.
Qed.

(** Put end to end, the chunks are the image. *)
Lemma firmware_chunks_concat (stream : list byte) :
  concat (firmware_chunks stream) = map u8 stream.
Proof.
  unfold firmware_chunks, fu_chunk_get_data, fu_chunk_array_length, range.
  rewrite map_map.
  set (count := Z.to_nat
                  (((Z.of_nat (length stream) + ISP_DATA_BLOCKSIZE - 1)
                    / ISP_DATA_BLOCKSIZE - 0 + 1 - 1) / 1)).
  rewrite (map_ext
             (fun k : nat =>
                map u8 (firstn (Z.to_nat ISP_DATA_BLOCKSIZE)
                          (skipn (Z.to_nat ((0 + 1 * Z.of_nat k) * ISP_DATA_BLOCKSIZE))
                             stream)))
             (fun k : nat =>
                map u8 (firstn (Z.to_nat ISP_DATA_BLOCKSIZE)
                          (skipn (k * Z.to_nat ISP_DATA_BLOCKSIZE) stream)))).
  2: { intro k. do 3 f_equal. unfold ISP_DATA_BLOCKSIZE. lia. }
  rewrite <- (map_map (fun k => firstn (Z.to_nat ISP_DATA_BLOCKSIZE)
                                  (skipn (k * Z.to_nat ISP_DATA_BLOCKSIZE) stream))
                      (map u8)).
  rewrite <- concat_map, blocks_concat. f_equal. apply firstn_all2.
  unfold count, ISP_DATA_BLOCKSIZE. rewrite Z.div_1_r.
  pose proof (Z.mul_succ_div_gt (Z.of_nat (length stream) + 256 - 1) 256
                ltac:(lia)) as Hq.
  pose proof (Z.div_pos (Z.of_nat (length stream) + 256 - 1) 256
                ltac:(lia) ltac:(lia)) as Hpos.
  nia.
Qed.

(** The firmware data that an update sends are chunks of the image, from
    the first on and in order, none twice; a successful update has sent them
    all, that is the whole image. *)
Theorem write_firmware_sends_image (stream : list byte) d p r d' p' :
  fu_rts54hub_rtd21xx_foreground_write_firmware (Ok stream) (d, p)
  = (r, (d', p')) ->
  (exists sent rest,
     firmware_chunks stream = sent ++ rest /\
     rev (data_sent d') = rev (data_sent d) ++ sent /\
     (is_ok r = true -> rest = [])) /\
  (is_ok r = true ->
   exists before, concat (rev (data_sent d')) = before ++ map u8 stream).
Proof.
  intro H.
  assert (Hsends : sends (fu_rts54hub_rtd21xx_foreground_write_firmware (Ok stream))
                         (firmware_chunks stream)).
  { unfold fu_rts54hub_rtd21xx_foreground_write_firmware.
    do 5 (apply (sends_bind _ _ [] _); [apply sends_call | intros _]).
    apply sends_with_locker_progress; [reflexivity |].
    intros s0 r0 s0' Hrun. unfold bind, lift_result in Hrun.
    exact (sends_write_firmware_stream stream s0 r0 s0' Hrun). }
  destruct (Hsends _ _ _ H) as (sent & rest & Hsplit & Hsent & Hok).
  cbn [fst] in Hsent.
  assert (Hrev : rev (data_sent d') = rev (data_sent d) ++ sent)
    by (rewrite Hsent, rev_app_distr, rev_involutive; reflexivity).
  split.
  - exists sent, rest. repeat split; assumption.
  - intro Hr. exists (concat (rev (data_sent d))).
    rewrite Hrev, concat_app. f_equal.
    rewrite <- firmware_chunks_concat, Hsplit, (Hok Hr), app_nil_r. reflexivity.
Qed.

Lemma bind_progress_call_hub {A : Type} (c : FuProgressCall)
    (k : unit -> Run (FuRts54hubRtd21xxForeground * FuProgress) A) d p :
  bind (fu_progress_call c) k (d, p) = k tt (d, c :: p).
Proof. reflexivity. Qed.

(** ** A device that does not report idle-success for its project ID *)

Lemma fallible_ok (c : DeviceCall) d data :
  replies d (reply_count d) = ReplyOk data ->
  fallible c d
  = (Ok data,
     mkForeground (retry_delay d) (replies d) (S (reply_count d)) (c :: calls d)).
Proof. intro H. unfold fallible. rewrite H. reflexivity. Qed.

Lemma on_device_bind_ok {A B : Type} (m : Run FuRts54hubRtd21xxForeground A)
    (k : A -> Run (FuRts54hubRtd21xxForeground * FuProgress) B) d p a d1 :
  m d = (Ok a, d1) -> bind (on_device m) k (d, p) = k a (d1, p).
Proof.
  intro H. unfold bind, on_device. cbn [fst snd]. rewrite H. reflexivity.
Qed.

Lemma i2c_write_ok (pfx : string) (target_addr sub_addr : Z) (buf : list Z)
    (datasz : Z) d data :
  replies d (reply_count d) = ReplyOk data ->
  with_prefix pfx
    (fu_rts54hub_rtd21xx_device_i2c_write target_addr sub_addr buf datasz) d
  = (Ok tt,
     mkForeground (retry_delay d) (replies d) (S (reply_count d))
       (CALL_I2C_WRITE target_addr sub_addr (firstn (Z.to_nat datasz) buf)
        :: calls d)).
Proof.
  intro H. unfold with_prefix, fu_rts54hub_rtd21xx_device_i2c_write, bind.
  rewrite (fallible_ok _ _ _ H). reflexivity.
Qed.

Lemma read_status_ok d data :
  replies d (reply_count d) = ReplyOk data ->
  fu_rts54hub_rtd21xx_device_read_status d
  = (Ok tt,
     mkForeground (retry_delay d) (replies d) (S (reply_count d))
       (CALL_READ_STATUS :: calls d)).
Proof.
  intro H. unfold fu_rts54hub_rtd21xx_device_read_status, bind.
  rewrite (fallible_ok _ _ _ H). reflexivity.
Qed.

(** When the device answers the query for the address of the project ID
    ([ISP_CMD_GET_PROJECT_ID_ADDR]) with a status other than idle-success, the
    update stops with an InvalidData error. By then it has entered update
    mode and sent that one query; it has sent neither the project ID
    ([ISP_CMD_SYNC_IDENTIFY_CODE]) nor the start command nor any firmware
    data. No step of the progress is done, and the locker that the update
    took on the device itself ([fu_device_locker_new (self)]) is released. *)
Theorem write_firmware_rejects_project_id_status (stream : list byte) d p
    (l0 l1 l2 l3 tail : list Z) (status : Z) :
  replies d (reply_count d) = ReplyOk l0 ->
  replies d (1 + reply_count d) = ReplyOk l1 ->
  replies d (2 + reply_count d) = ReplyOk l2 ->
  replies d (3 + reply_count d) = ReplyOk l3 ->
  replies d (4 + reply_count d) = ReplyOk (status :: tail) ->
  guint8 status <> ISP_STATUS_IDLE_SUCCESS h ->
  exists d',
    fu_rts54hub_rtd21xx_foreground_write_firmware (Ok stream) (d, p)
    = (Failed (fwupd_error FWUPD_ERROR_INVALID_DATA
                 ("failed project ID with error 0x" ++ fmt_0x 2 (guint8 status)
                  ++ ": ")),
       (d', rev rtd21xx_write_firmware_header ++ p)) /\
    calls d'
    = [CALL_LOCKER_CLOSE;
       CALL_I2C_READ (UC_ISP_TARGET_ADDR h) (UC_FOREGROUND_STATUS h) 6;
       CALL_SLEEP (I2C_DELAY_AFTER_SEND h * 40);
       CALL_I2C_WRITE (UC_ISP_TARGET_ADDR h) (UC_FOREGROUND_OPCODE h)
                      [ISP_CMD_GET_PROJECT_ID_ADDR];
       CALL_READ_STATUS;
       CALL_I2C_WRITE (UC_ISP_TARGET_ADDR h) (UC_FOREGROUND_OPCODE h)
                      [ISP_CMD_ENTER_FW_UPDATE; 0x01];
       CALL_LOCKER_OPEN_SELF] ++ calls d.
Proof.
  intros R0 R1 R2 R3 R4 Hstatus.
  eexists. split.
  - unfold fu_rts54hub_rtd21xx_foreground_write_firmware.
    do 5 (rewrite bind_progress_call_hub; cbv beta).
    unfold with_locker_progress.
    rewrite (on_device_bind_ok _ _ _ _ _ _ (fallible_ok _ _ _ R0)). cbv beta.
    unfold bind at 1. unfold lift_result at 1. unfold write_firmware_stream.
    cbv zeta.
    erewrite on_device_bind_ok by (eapply i2c_write_ok; exact R1). cbv beta.
    erewrite on_device_bind_ok by (eapply read_status_ok; exact R2). cbv beta.
    erewrite on_device_bind_ok by (eapply i2c_write_ok; exact R3). cbv beta.
    erewrite on_device_bind_ok by reflexivity. cbv beta.
    erewrite on_device_bind_ok.
    2: { unfold with_prefix, fu_rts54hub_rtd21xx_device_i2c_read, bind.
         erewrite fallible_ok by exact R4. reflexivity. }
    cbv beta.
    change (nth 0 (map guint8 (firstn (Z.to_nat 6) (status :: tail))
                   ++ skipn (length (firstn (Z.to_nat 6) (status :: tail)))
                        (repeat 0 10)) 0)
      with (guint8 status).
    destruct (Z.eqb_spec (guint8 status) (ISP_STATUS_IDLE_SUCCESS h));
      [contradiction |].
    cbn [negb]. unfold fail. cbn [fst snd infallible]. reflexivity.
  - reflexivity.
Qed.

End Foreground.

(** ** Sample devices *)

(** Values for the header constants, only used to run the functions on
    sample devices. *)
Definition sample_header : Rtd21xxHeader :=
  mkRtd21xxHeader 0x3A 0x33 0x31 0x34 5 0x11.

(** A device that answers every call, with a status that is never
    idle-success. *)
Definition busy_device : FuRts54hubRtd21xxForeground :=
  mkForeground 10 (fun _ => ReplyOk [0x00]) 0 [].

(** A device whose parent cannot be opened. *)
Definition unreachable_device : FuRts54hubRtd21xxForeground :=
  mkForeground 10
    (fun _ => ReplyFailed (fwupd_error FWUPD_ERROR_NOT_FOUND "parent not found"))
    0 [].

Example busy_device_detach :
  is_ok (fst (fu_rts54hub_rtd21xx_foreground_detach sample_header busy_device))
  = false /\
  attempts (snd (fu_rts54hub_rtd21xx_foreground_detach sample_header busy_device))
  = 100%nat.
Proof. vm_compute. split; reflexivity. Qed.

Lemma detach_bounded_retry_witness :
  let run := fu_rts54hub_rtd21xx_foreground_detach sample_header busy_device in
  replies busy_device (reply_count busy_device) = ReplyOk [0x00] /\
  is_ok (fst run) = false /\
  attempts (snd run) = (attempts busy_device + 100)%nat.
Proof.
  intro run.
  pose proof (detach_bounded_retry sample_header busy_device (fst run) (snd run))
    as H.
  assert (Hrun : fu_rts54hub_rtd21xx_foreground_detach sample_header busy_device
                 = (fst run, snd run))
    by (unfold run; destruct (fu_rts54hub_rtd21xx_foreground_detach _ _);
        reflexivity).
  destruct (H Hrun) as (_ & _ & Hopen & _).
  assert (Hfailed : is_ok (fst run) = false) by (vm_compute; reflexivity).
  split; [reflexivity |]. split; [exact Hfailed |].
  destruct (Hopen [0x00] eq_refl) as [Hall _]. exact (Hall Hfailed).
Defined.

(** The claim that a detach fails only after all 100 attempts have failed. *)
Definition detach_fails_only_after_all_attempts (h : Rtd21xxHeader)
    (d : FuRts54hubRtd21xxForeground) : Prop :=
  forall e d',
    fu_rts54hub_rtd21xx_foreground_detach h d = (Failed e, d') ->
    attempts d' = (attempts d + 100)%nat.

(** When the parent cannot be opened, detach fails without one attempt. *)
Lemma detach_fails_without_attempt :
  ~ detach_fails_only_after_all_attempts sample_header unreachable_device.
Proof.
  intro Hclaim.
  specialize (Hclaim (fwupd_error FWUPD_ERROR_NOT_FOUND "parent not found")
                     (snd (fu_rts54hub_rtd21xx_foreground_detach sample_header
                             unreachable_device))
                     eq_refl).
  vm_compute in Hclaim. discriminate Hclaim.
Qed.

(** ** Samples for the statements on attach and on the update *)

(** A hub that answers every call and reports idle-success for its project
    ID, with project ID address 0 and count 0. *)
Definition answering_device : FuRts54hubRtd21xxForeground :=
  mkForeground 10
    (fun n => if (n =? 4)%nat then ReplyOk [0x11; 0; 0; 0; 0; 0] else ReplyOk [])
    0 [].

(** An image of 600 bytes: two full chunks and one of 88 bytes. *)
Definition sample_image : list byte := repeat xff 600.

Lemma sample_header_distinct :
  UC_FOREGROUND_OPCODE sample_header <> UC_FOREGROUND_ISP_DATA_OPCODE sample_header.
Proof. discriminate. Qed.

Lemma attach_resets_after_status_witness :
  fst (fu_rts54hub_rtd21xx_foreground_attach sample_header busy_device) = Ok tt /\
  In (CALL_SLEEP 60000)
     (calls (snd (fu_rts54hub_rtd21xx_foreground_attach sample_header busy_device))).
Proof.
  destruct (fu_rts54hub_rtd21xx_foreground_attach sample_header busy_device)
    as [r d'] eqn:E.
  destruct (attach_resets_after_status sample_header busy_device r d' E)
    as (new & Hcalls & _ & Hsleep & Hok & _).
  assert (Hr : r = Ok tt).
  { apply Hok. exists [0x00], [0x00], [0x00]. repeat split. }
  cbn [fst snd]. split; [exact Hr |].
  rewrite Hcalls. apply in_or_app. left. apply Hsleep. exact Hr.
Defined.

Definition sample_update :=
  fu_rts54hub_rtd21xx_foreground_write_firmware sample_header (Ok sample_image)
    (answering_device, []).

Example sample_update_chunks :
  is_ok (fst sample_update) = true /\
  map (@length Z) (rev (data_sent sample_header (fst (snd sample_update))))
  = [256; 256; 88]%nat.
Proof. vm_compute. split; reflexivity. Qed.

Lemma write_firmware_sends_image_witness :
  exists before,
    concat (rev (data_sent sample_header (fst (snd sample_update))))
    = before ++ map u8 sample_image.
Proof.
  assert (Hok : is_ok (fst sample_update) = true) by (vm_compute; reflexivity).
  revert Hok. unfold sample_update.
  destruct (fu_rts54hub_rtd21xx_foreground_write_firmware sample_header
              (Ok sample_image) (answering_device, [])) as [r [d' p']] eqn:E.
  cbn [fst snd]. intro Hok.
  exact (proj2 (write_firmware_sends_image sample_header sample_header_distinct
                  sample_image _ _ _ _ _ E) Hok).
Defined.

Lemma write_firmware_rejects_project_id_status_witness :
  exists d',
    fu_rts54hub_rtd21xx_foreground_write_firmware sample_header (Ok sample_image)
      (busy_device, [])
    = (Failed (fwupd_error FWUPD_ERROR_INVALID_DATA
                 "failed project ID with error 0x00: "),
       (d', rev rtd21xx_write_firmware_header ++ [])) /\
    calls d'
    = [CALL_LOCKER_CLOSE;
       CALL_I2C_READ 0x3A 0x31 6;
       CALL_SLEEP 200;
       CALL_I2C_WRITE 0x3A 0x33 [ISP_CMD_GET_PROJECT_ID_ADDR];
       CALL_READ_STATUS;
       CALL_I2C_WRITE 0x3A 0x33 [ISP_CMD_ENTER_FW_UPDATE; 0x01];
       CALL_LOCKER_OPEN_SELF] ++ calls busy_device.
Proof.
  exact (write_firmware_rejects_project_id_status sample_header sample_image
           busy_device [] [0x00] [0x00] [0x00] [0x00] [] 0x00
           eq_refl eq_refl eq_refl eq_refl eq_refl ltac:(discriminate)).
Defined.

End FuRts54hub.

(* ------------------------------------------------------------------------- *)
(** * Progress reported by the two write_firmware implementations             *)
(* ------------------------------------------------------------------------- *)

Module ProgressContract.

(** C3. Within one write_firmware operation the percentages sent to any one
    progress node never go down.  In the Fresco PD update only the node of the
    body-fill step is updated, with (byte_index + 1) / 0x4000 for byte_index
    = 0, 1, ...; in the RTS54 hub update only the node of the chunk loop is
    updated, with (i + 1) / chunk-count for i = 0, 1, ...; whether the
    operation completes or stops at an error. *)
Theorem write_firmware_progress_monotone
    (fwupd_error_convert : GError -> GError) (behind_blob : Z -> byte)
    (fresco_firmware : Result (list byte))
    (fresco : FuFrescoPd.FuFrescoPdDevice) fresco_result fresco' fresco_progress
    (h : FuRts54hub.Rtd21xxHeader)
    (hub_firmware : Result (list byte))
    (hub : FuRts54hub.FuRts54hubRtd21xxForeground) hub_result hub' hub_progress :
  FuFrescoPd.fu_fresco_pd_device_write_firmware fwupd_error_convert behind_blob
    fresco_firmware (fresco, []) = (fresco_result, (fresco', fresco_progress)) ->
  FuRts54hub.fu_rts54hub_rtd21xx_foreground_write_firmware h
    hub_firmware (hub, []) = (hub_result, (hub', hub_progress)) ->
  ((exists n : nat,
      (n <= Z.to_nat 0x4000)%nat /\
      child_updates (calls_made fresco_progress) 1 = counting 0 0x4000 n) /\
   (forall k : nat, k <> 1%nat -> child_updates (calls_made fresco_progress) k = []) /\
   (forall k : nat,
      nondecreasing (percentages (child_updates (calls_made fresco_progress) k))))
  /\
  (exists total : Z,
     (forall stream, hub_firmware = Ok stream ->
        total = FuRts54hub.fu_chunk_array_length stream
                  FuRts54hub.ISP_DATA_BLOCKSIZE) /\
     (exists n : nat,
        (n <= Z.to_nat total)%nat /\
        child_updates (calls_made hub_progress) 1 = counting 0 total n) /\
     (forall k : nat, k <> 1%nat -> child_updates (calls_made hub_progress) k = []) /\
     (forall k : nat,
        nondecreasing (percentages (child_updates (calls_made hub_progress) k)))).
Proof.
  intros Hfresco Hhub. split.
  - destruct (FuFrescoPd.write_firmware_child_updates _ _ _ _ _ _ _ Hfresco)
      as [(n & Hn & H1) Hk].
    split; [exists n; split; assumption |]. split; [exact Hk |].
    exact (updates_nondecreasing _ _ _ H1 Hk).
  - destruct (FuRts54hub.rtd21xx_write_firmware_child_updates _ _ _ _ _ _ Hhub)
      as (total & Hstream & (n & Hn & H1) & Hk).
    exists total. split; [exact Hstream |].
    split; [exists n; split; assumption |]. split; [exact Hk |].
    exact (updates_nondecreasing _ _ _ H1 Hk).
Qed.

(** A Fresco PD device whose boot code search ends at once and whose bus
    stalls after fourteen transfers, given an all-zero image: three body
    bytes are reported before the update fails. *)
Definition stalling_fresco : FuFrescoPd.FuFrescoPdDevice :=
  FuFrescoPd.mkFuFrescoPdDevice 0 0
    (fun a => if a =? 0x6425 then 1 else 0)
    (fun n => if (n <? 14)%nat then FuFrescoPd.UsbTransferred 1
              else FuFrescoPd.UsbFailed
                     (fwupd_error FWUPD_ERROR_INTERNAL "bus stalled"))
    0 [] [].

Definition zero_image : Result (list byte) := Ok (repeat x00 (Z.to_nat 0x4400)).

(** A hub that answers every call, reports idle-success with project ID
    address 0 and count 0, and is given an image of 600 bytes: three chunks. *)
Definition obliging_hub : FuRts54hub.FuRts54hubRtd21xxForeground :=
  FuRts54hub.mkForeground 10
    (fun n => if (n =? 4)%nat then FuRts54hub.ReplyOk [0x11; 0; 0; 0; 0; 0]
              else FuRts54hub.ReplyOk [])
    0 [].

Definition small_image : Result (list byte) := Ok (repeat xff 600).

Definition stalling_fresco_run :=
  FuFrescoPd.fu_fresco_pd_device_write_firmware FuFrescoPd.convert_keep
    FuFrescoPd.zeros_behind
    zero_image (stalling_fresco, []).

Definition obliging_hub_run :=
  FuRts54hub.fu_rts54hub_rtd21xx_foreground_write_firmware
    FuRts54hub.sample_header small_image (obliging_hub, []).

Example stalling_fresco_updates :
  is_ok (fst stalling_fresco_run) = false /\
  child_updates (calls_made (snd (snd stalling_fresco_run))) 1
  = [(1, 0x4000); (2, 0x4000); (3, 0x4000)].
Proof. vm_compute. split; reflexivity. Qed.

Example obliging_hub_updates :
  is_ok (fst obliging_hub_run) = true /\
  child_updates (calls_made (snd (snd obliging_hub_run))) 1
  = [(1, 3); (2, 3); (3, 3)] /\
  percentages (child_updates (calls_made (snd (snd obliging_hub_run))) 1)
  = [33; 66; 100].
Proof. vm_compute. repeat split; reflexivity. Qed.

Lemma write_firmware_progress_monotone_witness :
  (forall k : nat,
     nondecreasing
       (percentages (child_updates (calls_made (snd (snd stalling_fresco_run))) k)))
  /\
  (forall k : nat,
     nondecreasing
       (percentages (child_updates (calls_made (snd (snd obliging_hub_run))) k))).
Proof.
  unfold stalling_fresco_run, obliging_hub_run.
  destruct (FuFrescoPd.fu_fresco_pd_device_write_firmware FuFrescoPd.convert_keep
              FuFrescoPd.zeros_behind zero_image (stalling_fresco, [])) as [r1 [d1 p1]] eqn:E1.
  destruct (FuRts54hub.fu_rts54hub_rtd21xx_foreground_write_firmware
              FuRts54hub.sample_header small_image (obliging_hub, []))
    as [r2 [d2 p2]] eqn:E2.
  cbn [snd].
  destruct (write_firmware_progress_monotone _ _ _ _ _ _ _ _ _ _ _ _ _ E1 E2)
    as [(_ & _ & Hfresco) (total & _ & _ & _ & Hhub)].
  split; assumption.
Defined.

(** ** Steps added and steps done *)

Definition is_add_step (c : FuProgressCall) : bool :=
  match c with
  | FU_PROGRESS_ADD_STEP _ _ _ => true
  | _ => false
  end.

Definition is_step_done (c : FuProgressCall) : bool :=
  match c with
  | FU_PROGRESS_STEP_DONE => true
  | _ => false
  end.

(** The steps declared with [fu_progress_add_step] and the calls of
    [fu_progress_step_done] among the calls made. *)
Definition steps_added (calls : list FuProgressCall) : nat :=
  length (filter is_add_step calls).
Definition steps_done (calls : list FuProgressCall) : nat :=
  length (filter is_step_done calls).

Lemma steps_done_app (l1 l2 : list FuProgressCall) :
  steps_done (l1 ++ l2) = (steps_done l1 + steps_done l2)%nat.
Proof. unfold steps_done. rewrite filter_app, length_app. reflexivity. Qed.

Lemma steps_added_app (l1 l2 : list FuProgressCall) :
  steps_added (l1 ++ l2) = (steps_added l1 + steps_added l2)%nat.
Proof. unfold steps_added. rewrite filter_app, length_app. reflexivity. Qed.

Lemma steps_updates_of (total : Z) (idx : list Z) :
  steps_done (updates_of total idx) = 0%nat /\
  steps_added (updates_of total idx) = 0%nat.
Proof. induction idx as [| i idx IH]; [split; reflexivity | exact IH]. Qed.

Lemma steps_repeat_done (n : nat) :
  steps_done (repeat FU_PROGRESS_STEP_DONE n) = n /\
  steps_added (repeat FU_PROGRESS_STEP_DONE n) = 0%nat.
Proof.
  induction n as [| n [IH1 IH2]]; [split; reflexivity |].
  split; [unfold steps_done in *; cbn; f_equal; exact IH1 | exact IH2].
Qed.

Lemma steps_second_step_loop (header : list FuProgressCall) (total : Z)
    (idx : list Z) (later : nat) :
  steps_done (second_step_loop header total idx later)
  = (steps_done header + S (S later))%nat /\
  steps_added (second_step_loop header total idx later) = steps_added header.
Proof.
  unfold second_step_loop.
  change (FU_PROGRESS_STEP_DONE :: updates_of total idx
          ++ repeat FU_PROGRESS_STEP_DONE (S later))
    with ([FU_PROGRESS_STEP_DONE] ++ updates_of total idx
          ++ repeat FU_PROGRESS_STEP_DONE (S later)).
  rewrite !steps_done_app, !steps_added_app.
  destruct (steps_updates_of total idx) as [-> ->].
  destruct (steps_repeat_done (S later)) as [-> ->].
  split; [change (steps_done [FU_PROGRESS_STEP_DONE]) with 1%nat; lia |].
  change (steps_added [FU_PROGRESS_STEP_DONE]) with 0%nat. lia.
Qed.

(** What [emits] says about the steps of an operation that started with no
    call made. *)
Lemma emits_steps {D A : Type} (m : Run (D * FuProgress) A)
    (full : list FuProgressCall) (d : D) r d' p' :
  emits m full -> m (d, []) = (r, (d', p')) ->
  (steps_done (calls_made p') <= steps_done full)%nat /\
  (is_ok r = true -> calls_made p' = full).
Proof.
  intros Hm Hrun. destruct (Hm _ _ _ Hrun) as (l0 & rest & Hfull & Hp & Hok).
  cbn [snd] in Hp. rewrite app_nil_r in Hp.
  assert (Hcalls : calls_made p' = l0)
    by (unfold calls_made; rewrite Hp; apply rev_involutive).
  rewrite Hcalls. split.
  - rewrite Hfull, steps_done_app. lia.
  - intro Hr. rewrite (Hok Hr), app_nil_r in Hfull. symmetry. exact Hfull.
Qed.

(** The Fresco PD update declares five steps.  It never marks more than five
    steps done, and when it succeeds it has marked exactly five. *)
Theorem fresco_steps_done (fwupd_error_convert : GError -> GError)
    (behind_blob : Z -> byte) (firmware : Result (list byte)) (d : FuFrescoPd.FuFrescoPdDevice) r d' p' :
  FuFrescoPd.fu_fresco_pd_device_write_firmware fwupd_error_convert behind_blob
    firmware (d, []) = (r, (d', p')) ->
  (steps_done (calls_made p') <= 5)%nat /\
  (is_ok r = true ->
   steps_added (calls_made p') = 5%nat /\ steps_done (calls_made p') = 5%nat).
Proof.
  intro Hrun.
  destruct (emits_steps _ _ _ _ _ _ (FuFrescoPd.write_firmware_emits _ _ firmware) Hrun)
    as [Hle Hok].
  unfold FuFrescoPd.write_firmware_calls in Hle, Hok.
  destruct (steps_second_step_loop FuFrescoPd.write_firmware_header 0x4000
              (range 0 0x4000 1) 3) as [Hdone Hadded].
  split.
  - rewrite Hdone in Hle. exact Hle.
  - intro Hr. rewrite (Hok Hr), Hdone, Hadded. split; reflexivity.
Qed.

(** The RTS54 hub update declares three steps.  It never marks more than
    three steps done, and when it succeeds it has marked exactly three. *)
Theorem hub_steps_done (h : FuRts54hub.Rtd21xxHeader)
    (firmware : Result (list byte))
    (d : FuRts54hub.FuRts54hubRtd21xxForeground) r d' p' :
  FuRts54hub.fu_rts54hub_rtd21xx_foreground_write_firmware h firmware (d, [])
  = (r, (d', p')) ->
  (steps_done (calls_made p') <= 3)%nat /\
  (is_ok r = true ->
   steps_added (calls_made p') = 3%nat /\ steps_done (calls_made p') = 3%nat).
Proof.
  intro Hrun.
  destruct (FuRts54hub.rtd21xx_write_firmware_emits h firmware)
    as (total & _ & _ & Hemits).
  destruct (emits_steps _ _ _ _ _ _ Hemits Hrun) as [Hle Hok].
  destruct (steps_second_step_loop FuRts54hub.rtd21xx_write_firmware_header total
              (range 0 total 1) 1) as [Hdone Hadded].
  split.
  - rewrite Hdone in Hle. exact Hle.
  - intro Hr. rewrite (Hok Hr), Hdone, Hadded. split; reflexivity.
Qed.

Lemma fresco_steps_done_witness :
  (steps_done (calls_made (snd (snd stalling_fresco_run))) <= 5)%nat.
Proof.
  unfold stalling_fresco_run.
  destruct (FuFrescoPd.fu_fresco_pd_device_write_firmware FuFrescoPd.convert_keep
              FuFrescoPd.zeros_behind zero_image (stalling_fresco, [])) as [r1 [d1 p1]] eqn:E1.
  exact (proj1 (fresco_steps_done _ _ _ _ _ _ _ E1)).
Defined.

Lemma hub_steps_done_witness :
  steps_done (calls_made (snd (snd obliging_hub_run))) = 3%nat.
Proof.
  assert (Hok : is_ok (fst obliging_hub_run) = true) by (vm_compute; reflexivity).
  revert Hok. unfold obliging_hub_run.
  destruct (FuRts54hub.fu_rts54hub_rtd21xx_foreground_write_firmware
              FuRts54hub.sample_header small_image (obliging_hub, []))
    as [r2 [d2 p2]] eqn:E2.
  cbn [fst snd]. intro Hok.
  exact (proj2 (proj2 (hub_steps_done _ _ _ _ _ _ E2) Hok)).
Defined.

End ProgressContract.

(* ------------------------------------------------------------------------- *)
(** * plugins/logitech-hidpp/fu-logitech-hidpp-bootloader.c                   *)
(* ------------------------------------------------------------------------- *)

Module FuLogitechHidpp.

Definition guint8 (z : Z) : Z := z mod 2 ^ 8.
Definition guint16 (z : Z) : Z := z mod 2 ^ 16.

(** The commands of fu-logitech-hidpp-struct.h (not part of the sources)
    that the embedded functions use; [CMD_ZERO] is the value of a request
    fresh from [g_new0]. *)
Inductive FuLogitechHidppBootloaderCmd : Type :=
| FU_LOGITECH_HIDPP_BOOTLOADER_CMD_ZERO
| FU_LOGITECH_HIDPP_BOOTLOADER_CMD_WRITE_RAM_BUFFER
| FU_LOGITECH_HIDPP_BOOTLOADER_CMD_WRITE_SIGNATURE
| FU_LOGITECH_HIDPP_BOOTLOADER_CMD_REBOOT
| FU_LOGITECH_HIDPP_BOOTLOADER_CMD_GET_MEMINFO
| FU_LOGITECH_HIDPP_BOOTLOADER_CMD_GET_BL_VERSION.

Record FuLogitechHidppBootloaderRequest : Type := mkRequest {
  cmd : FuLogitechHidppBootloaderCmd;
  addr : Z;          (* guint16 *)
  len : Z;           (* guint8 *)
  data : list Z      (* guint8 data[28] *)
}.

(** The device: the private structure of the bootloader and the [FuDevice]
    fields that the embedded functions read or write. *)
Record FuLogitechHidppBootloader : Type := mkBootloader {
  flash_addr_lo : Z;
  flash_addr_hi : Z;
  flash_blocksize : Z;
  flags : Z;                             (* FwupdDeviceFlags *)
  is_signed : bool;                      (* private flag "is-signed" *)
  version_bootloader : option string;
  protocols : list string;
  name : string;
  remove_delay : Z
}.

Definition set_flags (d : FuLogitechHidppBootloader) (fl : Z)
  : FuLogitechHidppBootloader :=
  mkBootloader (flash_addr_lo d) (flash_addr_hi d) (flash_blocksize d) fl
               (is_signed d) (version_bootloader d) (protocols d) (name d)
               (remove_delay d).

Definition fu_logitech_hidpp_bootloader_request_new
  : FuLogitechHidppBootloaderRequest :=
  mkRequest FU_LOGITECH_HIDPP_BOOTLOADER_CMD_ZERO 0 0 (repeat 0 28).

Definition fu_logitech_hidpp_bootloader_get_addr_lo (self : FuLogitechHidppBootloader)
  : Z := flash_addr_lo self.
Definition fu_logitech_hidpp_bootloader_get_addr_hi (self : FuLogitechHidppBootloader)
  : Z := flash_addr_hi self.
Definition fu_logitech_hidpp_bootloader_get_blocksize (self : FuLogitechHidppBootloader)
  : Z := flash_blocksize self.

(** ** replace *)

Definition fu_device_has_flag (d : FuLogitechHidppBootloader) (f : FwupdDeviceFlag)
  : bool :=
  mask_has (flags d) (FwupdDeviceFlags_of f).

(** Modelled from the spec: [fu_device_incorporate_flag] (libfwupdplugin) is
    not part of the sources.  It copies one flag across a replug: after the
    call the device carries the flag exactly when the donor does. *)
Definition fu_device_incorporate_flag (self donor : FuLogitechHidppBootloader)
    (flag : FwupdDeviceFlag) : FuLogitechHidppBootloader :=
  if fu_device_has_flag donor flag then
    set_flags self (mask_add (flags self) (FwupdDeviceFlags_of flag))
  else
    set_flags self (mask_remove (flags self) (FwupdDeviceFlags_of flag)).

(** The result is [device] after the call; [donor] is only read. *)
Definition fu_logitech_hidpp_bootloader_replace
    (device donor : FuLogitechHidppBootloader) : FuLogitechHidppBootloader :=
  let device :=
    fu_device_incorporate_flag device donor FWUPD_DEVICE_FLAG_SIGNED_PAYLOAD in
  fu_device_incorporate_flag device donor FWUPD_DEVICE_FLAG_UNSIGNED_PAYLOAD.

(** ** parse_requests *)

(** [tmp + k] for a C string: the text from the k-th character on; past the
    terminator the model string is empty. *)
Definition str_from (tmp : string) (k : nat) : string :=
  substring k (String.length tmp - k) tmp.

(** The C string held by a buffer: the characters before the first NUL. *)
Fixpoint c_string (s : string) : string :=
  match s with
  | EmptyString => EmptyString
  | String c rest => if Ascii.eqb c zero then EmptyString else String c (c_string rest)
  end.

(** [g_strsplit_set (string, delimiters, -1)] (GLib): the tokens between
    delimiter characters, empty tokens included; the empty string has no
    token. *)
Fixpoint strsplit_tokens (delimiters : list ascii) (s : string) (token : string)
  : list string :=
  match s with
  | EmptyString => [token]
  | String c rest =>
      if existsb (Ascii.eqb c) delimiters then
        token :: strsplit_tokens delimiters rest EmptyString
      else strsplit_tokens delimiters rest (token ++ String c EmptyString)
  end.

Definition g_strsplit_set (s : string) (delimiters : list ascii) : list string :=
  match s with
  | EmptyString => []
  | _ => strsplit_tokens delimiters s EmptyString
  end.

(** What one pass through the body of the loop over the lines does. *)
Inductive LineResult : Type :=
| LineContinue
| LineBreak
| LineAdd (payload : FuLogitechHidppBootloaderRequest) (last_addr : Z)
| LineError (e : GError).

Section Parser.

(** [fu_logitech_hidpp_buffer_read_uint8] is declared in
    fu-logitech-hidpp-common.h and [fu_firmware_strparse_uint16_safe] belongs
    to libfwupdplugin; neither is defined in the sources, so both are
    parameters.  The second takes the string, its size and the offset. *)
Variable fu_logitech_hidpp_buffer_read_uint8 : string -> Z.
Variable fu_firmware_strparse_uint16_safe : string -> Z -> Z -> Result Z.

(** "read the data, but skip the checksum byte": the bytes
    [data[j], data[j + 1], ...] for [count] more values of [j]. *)
Fixpoint read_data (tmp : string) (payload_len : Z) (j : nat) (count : nat)
  : Result (list Z) :=
  match count with
  | O => Ok []
  | S count' =>
      let ptr := str_from tmp (0x09 + j * 2) in
      match ptr with
      | EmptyString =>
          Failed (fwupd_error FWUPD_ERROR_INVALID_DATA
                    ("firmware data invalid: expected " ++ fmt_u payload_len
                     ++ " bytes"))
      | String _ _ =>
          match read_data tmp payload_len (S j) count' with
          | Ok rest => Ok (guint8 (fu_logitech_hidpp_buffer_read_uint8 ptr) :: rest)
          | Failed e => Failed e
          end
      end
  end.

(** The part of the loop body after the [switch]. *)
Definition finish_line (self : FuLogitechHidppBootloader) (tmp : string)
    (payload : FuLogitechHidppBootloaderRequest) (last_addr : Z) : LineResult :=
  match read_data tmp (len payload) 0 (Z.to_nat (len payload)) with
  | Failed e => LineError e
  | Ok bytes =>
      let payload :=
        mkRequest (cmd payload) (addr payload) (len payload)
                  (bytes ++ skipn (length bytes) (data payload)) in
      match cmd payload with
      | FU_LOGITECH_HIDPP_BOOTLOADER_CMD_WRITE_SIGNATURE =>
          (* no need to bound check signature addresses *)
          LineAdd payload last_addr
      | _ =>
          (* skip the bootloader *)
          if fu_logitech_hidpp_bootloader_get_addr_hi self <? addr payload then
            LineContinue
          (* skip the header *)
          else if addr payload <? fu_logitech_hidpp_bootloader_get_addr_lo self then
            LineContinue
          (* make sure firmware addresses only go up *)
          else if addr payload <? last_addr then LineContinue
          else LineAdd payload (addr payload)
      end
  end.

Definition parse_line (self : FuLogitechHidppBootloader) (tmp : string)
    (last_addr : Z) : LineResult :=
  let linesz := Z.of_nat (String.length tmp) in
  (* skip empty lines *)
  if linesz <? 5 then LineContinue
  else
    let payload := fu_logitech_hidpp_bootloader_request_new in
    let payload_len := guint8 (fu_logitech_hidpp_buffer_read_uint8 (str_from tmp 0x01)) in
    if 28 <? payload_len then
      LineError (fwupd_error FWUPD_ERROR_INVALID_DATA
                   ("firmware data invalid: too large " ++ fmt_u payload_len
                    ++ " bytes"))
    else
      match fu_firmware_strparse_uint16_safe tmp linesz 0x03 with
      | Failed e => LineError e
      | Ok parsed =>
          let parsed_addr := guint16 parsed in
          let payload :=
            mkRequest FU_LOGITECH_HIDPP_BOOTLOADER_CMD_WRITE_RAM_BUFFER parsed_addr
                      payload_len (data payload) in
          let rec_type :=
            guint8 (fu_logitech_hidpp_buffer_read_uint8 (str_from tmp 0x07)) in
          if rec_type =? 0x00 then (* data *)
            finish_line self tmp payload last_addr
          else if rec_type =? 0x01 then (* EOF *)
            LineBreak
          else if rec_type =? 0x03 then (* start segment address *)
            LineContinue
          else if rec_type =? 0x04 then (* extended linear address *)
            match fu_firmware_strparse_uint16_safe tmp linesz 0x09 with
            | Failed e => LineError e
            | Ok offset =>
                if negb (guint16 offset =? 0x0000) then
                  LineError
                    (fwupd_error FWUPD_ERROR_INVALID_DATA
                       "extended linear addresses with offset different from 0 are not supported")
                else LineContinue
            end
          else if rec_type =? 0x05 then (* start linear address *)
            LineContinue
          else if rec_type =? 0xFD then (* custom - vendor *)
            (* record type of 0xFD indicates signature data *)
            finish_line self tmp
              (mkRequest FU_LOGITECH_HIDPP_BOOTLOADER_CMD_WRITE_SIGNATURE
                         (addr payload) (len payload) (data payload))
              last_addr
          else
            LineError (fwupd_error FWUPD_ERROR_INVALID_DATA
                         ("intel hex file record type " ++ fmt_0x 2 rec_type
                          ++ " not supported"))
      end.

(** [for (guint i = 0; lines[i] != NULL; i++) ...] with the requests added
    so far. *)
Fixpoint parse_lines (self : FuLogitechHidppBootloader) (lines : list string)
    (last_addr : Z) (reqs : list FuLogitechHidppBootloaderRequest)
  : Result (list FuLogitechHidppBootloaderRequest) :=
  match lines with
  | [] => Ok reqs
  | tmp :: rest =>
      match parse_line self tmp last_addr with
      | LineContinue => parse_lines self rest last_addr reqs
      | LineBreak => Ok reqs
      | LineAdd payload last_addr' =>
          parse_lines self rest last_addr' (reqs ++ [payload])
      | LineError e => Failed e
      end
  end.

Definition fu_logitech_hidpp_bootloader_parse_requests
    (self : FuLogitechHidppBootloader) (fw : string)
  : Result (list FuLogitechHidppBootloaderRequest) :=
  let tmp := c_string fw in
  let lines := g_strsplit_set tmp [ "010"%char; "013"%char ] in
  match parse_lines self lines 0 [] with
  | Failed e => Failed e
  | Ok reqs =>
      if Z.of_nat (length reqs) =? 0 then
        Failed (fwupd_error FWUPD_ERROR_INVALID_DATA
                  "firmware data invalid: no payloads found")
      else Ok reqs
  end.

(** ** What a parsed line can add *)

Definition is_write_ram_buffer (r : FuLogitechHidppBootloaderRequest) : bool :=
  match cmd r with
  | FU_LOGITECH_HIDPP_BOOTLOADER_CMD_WRITE_RAM_BUFFER => true
  | _ => false
  end.

(** The addresses of the write-ram-buffer requests, in the order of the list. *)
Definition ram_addresses (reqs : list FuLogitechHidppBootloaderRequest) : list Z :=
  map addr (filter is_write_ram_buffer reqs).

Lemma hidpp_guint8_range (z : Z) : 0 <= guint8 z < 2 ^ 8.
Proof. unfold guint8. apply Z.mod_pos_bound. lia. Qed.

Lemma read_data_length (tmp : string) (payload_len : Z) (count j : nat) bytes :
  read_data tmp payload_len j count = Ok bytes -> length bytes = count.
Proof.
  revert j bytes. induction count as [| count IH]; intros j bytes H.
  - injection H as <-. reflexivity.
  - cbn [read_data] in H. destruct (str_from tmp (9 + j * 2)); [discriminate |].
    destruct (read_data tmp payload_len (S j) count) as [rest | e] eqn:E;
      [| discriminate].
    injection H as <-. cbn [length]. f_equal. eapply IH. exact E.
Qed.

(** A request that [finish_line] adds keeps the command, address and length
    it was given, carries 28 data bytes, and, unless it is a signature
    request, lies in the flash window at or above [last_addr]. *)
Lemma finish_line_add (self : FuLogitechHidppBootloader) (tmp : string)
    (payload : FuLogitechHidppBootloaderRequest) (last_addr : Z) out last_addr' :
  0 <= len payload <= 28 -> length (data payload) = 28%nat ->
  finish_line self tmp payload last_addr = LineAdd out last_addr' ->
  cmd out = cmd payload /\ addr out = addr payload /\ len out = len payload /\
  length (data out) = 28%nat /\
  (cmd payload = FU_LOGITECH_HIDPP_BOOTLOADER_CMD_WRITE_SIGNATURE ->
   last_addr' = last_addr) /\
  (cmd payload <> FU_LOGITECH_HIDPP_BOOTLOADER_CMD_WRITE_SIGNATURE ->
   flash_addr_lo self <= addr out <= flash_addr_hi self /\
   last_addr <= addr out /\ last_addr' = addr out).
Proof.
  intros Hlen Hdata. unfold finish_line.
  destruct (read_data tmp (len payload) 0 (Z.to_nat (len payload)))
    as [bytes | e] eqn:E; [| discriminate].
  apply read_data_length in E.
  assert (Hout : length (bytes ++ skipn (length bytes) (data payload)) = 28%nat).
  { rewrite length_app, length_skipn, Hdata, E. lia. }
  cbn [cmd addr len].
  unfold fu_logitech_hidpp_bootloader_get_addr_hi,
    fu_logitech_hidpp_bootloader_get_addr_lo.
  assert (Hsig : forall c, c = cmd payload ->
            c = FU_LOGITECH_HIDPP_BOOTLOADER_CMD_WRITE_SIGNATURE \/
            c <> FU_LOGITECH_HIDPP_BOOTLOADER_CMD_WRITE_SIGNATURE)
    by (intros c _; destruct c; (left; reflexivity) || (right; discriminate)).
  destruct (Hsig _ eq_refl) as [Hc | Hc].
  - rewrite Hc. intro Hadd. injection Hadd as <- <-. cbn [cmd addr len data].
    repeat split; try assumption; try reflexivity; contradiction.
  - assert (Hwindow :
        (if flash_addr_hi self <? addr payload then LineContinue
         else if addr payload <? flash_addr_lo self then LineContinue
         else if addr payload <? last_addr then LineContinue
         else LineAdd (mkRequest (cmd payload) (addr payload) (len payload)
                         (bytes ++ skipn (length bytes) (data payload)))
                      (addr payload))
        = LineAdd out last_addr' ->
        out = mkRequest (cmd payload) (addr payload) (len payload)
                (bytes ++ skipn (length bytes) (data payload)) /\
        last_addr' = addr payload /\
        flash_addr_lo self <= addr payload <= flash_addr_hi self /\
        last_addr <= addr payload).
    { destruct (Z.ltb_spec (flash_addr_hi self) (addr payload)); [discriminate |].
      destruct (Z.ltb_spec (addr payload) (flash_addr_lo self)); [discriminate |].
      destruct (Z.ltb_spec (addr payload) last_addr); [discriminate |].
      intro Hadd. injection Hadd as <- <-. repeat split; lia. }
    intro Hadd.
    assert (Hres : out = mkRequest (cmd payload) (addr payload) (len payload)
                (bytes ++ skipn (length bytes) (data payload)) /\
        last_addr' = addr payload /\
        flash_addr_lo self <= addr payload <= flash_addr_hi self /\
        last_addr <= addr payload).
    { apply Hwindow. destruct (cmd payload); try exact Hadd. contradiction Hc.
      reflexivity. }
    destruct Hres as (-> & -> & Hw & Hge). cbn [cmd addr len data].
    repeat split; try assumption; try reflexivity; try lia; contradiction.
Qed.

(** Every request a line adds is a write-ram-buffer or a signature request of
    at most 28 bytes. *)
Lemma parse_line_add (self : FuLogitechHidppBootloader) (tmp : string)
    (last_addr : Z) out last_addr' :
  parse_line self tmp last_addr = LineAdd out last_addr' ->
  0 <= len out <= 28 /\ length (data out) = 28%nat /\
  ((cmd out = FU_LOGITECH_HIDPP_BOOTLOADER_CMD_WRITE_SIGNATURE /\
    last_addr' = last_addr)
   \/
   (cmd out = FU_LOGITECH_HIDPP_BOOTLOADER_CMD_WRITE_RAM_BUFFER /\
    flash_addr_lo self <= addr out <= flash_addr_hi self /\
    last_addr <= addr out /\ last_addr' = addr out)).
Proof.
  unfold parse_line.
  destruct (Z.of_nat (String.length tmp) <? 5); [discriminate |].
  set (payload_len := guint8 (fu_logitech_hidpp_buffer_read_uint8 (str_from tmp 1))).
  pose proof (hidpp_guint8_range (fu_logitech_hidpp_buffer_read_uint8 (str_from tmp 1)))
    as Hrange. fold payload_len in Hrange.
  destruct (Z.ltb_spec 28 payload_len) as [Hbig | Hsmall]; [discriminate |].
  destruct (fu_firmware_strparse_uint16_safe tmp (Z.of_nat (String.length tmp)) 3)
    as [parsed | e]; [| discriminate].
  cbv zeta.
  set (rec_type := guint8 (fu_logitech_hidpp_buffer_read_uint8 (str_from tmp 7))).
  destruct (rec_type =? 0).
  { intro H. apply finish_line_add in H; cbn [len data cmd addr] in *;
      [| lia | apply repeat_length].
    destruct H as (Hc & Ha & Hl & Hd & _ & Hram).
    rewrite Hl. split; [lia |]. split; [exact Hd |]. right.
    split; [exact Hc |]. apply Hram. discriminate. }
  destruct (rec_type =? 1); [discriminate |].
  destruct (rec_type =? 3); [discriminate |].
  destruct (rec_type =? 4).
  { destruct (fu_firmware_strparse_uint16_safe tmp _ 9) as [offset | e];
      [| discriminate].
    destruct (negb (guint16 offset =? 0)); discriminate. }
  destruct (rec_type =? 5); [discriminate |].
  destruct (rec_type =? 253); [| discriminate].
  intro H. apply finish_line_add in H; cbn [len data cmd addr] in *;
    [| lia | apply repeat_length].
  destruct H as (Hc & Ha & Hl & Hd & Hsig & _).
  rewrite Hl. split; [lia |]. split; [exact Hd |]. left.
  split; [exact Hc | apply Hsig; reflexivity].
Qed.

(** ** The invariant of the loop over the lines *)

Record requests_ok (self : FuLogitechHidppBootloader)
    (reqs : list FuLogitechHidppBootloaderRequest) (last_addr : Z) : Prop := {
  ok_lengths :
    Forall (fun r => 0 <= len r <= 28 /\ length (data r) = 28%nat) reqs;
  ok_commands :
    Forall (fun r => cmd r = FU_LOGITECH_HIDPP_BOOTLOADER_CMD_WRITE_RAM_BUFFER \/
                     cmd r = FU_LOGITECH_HIDPP_BOOTLOADER_CMD_WRITE_SIGNATURE) reqs;
  ok_window :
    Forall (fun a => flash_addr_lo self <= a <= flash_addr_hi self)
           (ram_addresses reqs);
  ok_sorted : StronglySorted Z.le (ram_addresses reqs);
  ok_last : Forall (fun a => a <= last_addr) (ram_addresses reqs)
}.

Lemma StronglySorted_snoc (l : list Z) (a : Z) :
  StronglySorted Z.le l -> Forall (fun x => x <= a) l ->
  StronglySorted Z.le (l ++ [a]).
Proof.
  induction 1 as [| x l Hl IH Hx]; intro Hall; cbn [app].
  - constructor; constructor.
  - inversion Hall; subst. constructor.
    + apply IH. assumption.
    + apply Forall_app. split; [exact Hx |]. constructor; [assumption | constructor].
Qed.

Lemma ram_addresses_snoc (reqs : list FuLogitechHidppBootloaderRequest)
    (r : FuLogitechHidppBootloaderRequest) :
  ram_addresses (reqs ++ [r])
  = ram_addresses reqs ++ (if is_write_ram_buffer r then [addr r] else []).
Proof.
  unfold ram_addresses. rewrite filter_app, map_app. cbn [filter].
  destruct (is_write_ram_buffer r); reflexivity.
Qed.

Lemma requests_ok_add (self : FuLogitechHidppBootloader) (tmp : string)
    (reqs : list FuLogitechHidppBootloaderRequest) (last_addr : Z) out last_addr' :
  requests_ok self reqs last_addr ->
  parse_line self tmp last_addr = LineAdd out last_addr' ->
  requests_ok self (reqs ++ [out]) last_addr'.
Proof.
  intros [Hlen Hcmd Hwin Hsorted Hlast] Hline.
  apply parse_line_add in Hline.
  destruct Hline as (Hl & Hd & [[Hc ->] | (Hc & Hw & Hge & ->)]).
  - assert (Hram : is_write_ram_buffer out = false)
      by (unfold is_write_ram_buffer; rewrite Hc; reflexivity).
    constructor; rewrite ?ram_addresses_snoc, ?Hram, ?app_nil_r; try assumption.
    + apply Forall_app. split; [assumption | constructor; [auto | constructor]].
    + apply Forall_app. split; [assumption | constructor; [auto | constructor]].
  - assert (Hram : is_write_ram_buffer out = true)
      by (unfold is_write_ram_buffer; rewrite Hc; reflexivity).
    assert (Hbelow : Forall (fun a => a <= addr out) (ram_addresses reqs))
      by (eapply Forall_impl; [| exact Hlast]; cbv beta; intros; lia).
    constructor; rewrite ?ram_addresses_snoc, ?Hram.
    + apply Forall_app. split; [assumption | constructor; [auto | constructor]].
    + apply Forall_app. split; [assumption | constructor; [auto | constructor]].
    + apply Forall_app. split; [assumption | constructor; [exact Hw | constructor]].
    + apply StronglySorted_snoc; assumption.
    + apply Forall_app. split; [exact Hbelow | constructor; [lia | constructor]].
Qed.

Lemma parse_lines_ok (self : FuLogitechHidppBootloader) (lines : list string) :
  forall last_addr reqs out,
    requests_ok self reqs last_addr ->
    parse_lines self lines last_addr reqs = Ok out ->
    exists last_addr', requests_ok self out last_addr'.
Proof.
  induction lines as [| tmp lines IH]; intros last_addr reqs out Hok H.
  - injection H as <-. exists last_addr. exact Hok.
  - cbn [parse_lines] in H.
    destruct (parse_line self tmp last_addr) as [| | payload la | e] eqn:E.
    + eapply IH; eassumption.
    + injection H as <-. exists last_addr. exact Hok.
    + eapply IH; [| exact H]. eapply requests_ok_add; eassumption.
    + discriminate H.
Qed.

Lemma requests_ok_nil (self : FuLogitechHidppBootloader) :
  requests_ok self [] 0.
Proof. constructor; constructor. Qed.

(** C10. Whatever [fu_logitech_hidpp_bootloader_parse_requests] returns is not
    empty; every request it returns has a data length of at most 28 bytes
    (and is a write-ram-buffer or a signature request); the addresses of the
    write-ram-buffer requests are in non-decreasing order and lie in the flash
    window [flash_addr_lo, flash_addr_hi].  When no request is found the
    result is an InvalidData error. *)
Theorem parse_requests_invariants (self : FuLogitechHidppBootloader) (fw : string)
    reqs :
  fu_logitech_hidpp_bootloader_parse_requests self fw = Ok reqs ->
  reqs <> [] /\
  Forall (fun r => 0 <= len r <= 28) reqs /\
  Forall (fun r => cmd r = FU_LOGITECH_HIDPP_BOOTLOADER_CMD_WRITE_RAM_BUFFER \/
                   cmd r = FU_LOGITECH_HIDPP_BOOTLOADER_CMD_WRITE_SIGNATURE) reqs /\
  StronglySorted Z.le (ram_addresses reqs) /\
  Forall (fun a => flash_addr_lo self <= a <= flash_addr_hi self)
         (ram_addresses reqs) /\
  (forall fw',
     parse_lines self (g_strsplit_set (c_string fw') ["010"%char; "013"%char]) 0 []
     = Ok [] ->
     exists e, fu_logitech_hidpp_bootloader_parse_requests self fw' = Failed e /\
               g_error_matches e FWUPD_ERROR_INVALID_DATA = true).
Proof.
  unfold fu_logitech_hidpp_bootloader_parse_requests. cbv zeta.
  destruct (parse_lines self (g_strsplit_set (c_string fw) _) 0 [])
    as [out | e] eqn:E; [| discriminate].
  destruct (Z.eqb_spec (Z.of_nat (length out)) 0) as [Hz | Hnz]; [discriminate |].
  intro H. injection H as <-.
  destruct (parse_lines_ok _ _ _ _ _ (requests_ok_nil self) E)
    as (la & [Hlen Hcmd Hwin Hsorted Hlast]).
  split; [intros ->; apply Hnz; reflexivity |].
  split; [eapply Forall_impl; [| exact Hlen]; cbv beta; tauto |].
  split; [exact Hcmd |]. split; [exact Hsorted |]. split; [exact Hwin |].
  intros fw' E'. rewrite E'. cbn [length Z.of_nat Z.eqb]. eexists.
  split; reflexivity.
Qed.

(** ** The data of the requests *)

(** A request as the bootloader takes it: 28 data bytes, zero from [len]
    on. *)
Definition well_padded (r : FuLogitechHidppBootloaderRequest) : Prop :=
  length (data r) = 28%nat /\
  Forall (fun b => 0 <= b < 2 ^ 8) (data r) /\
  forall j, (Z.to_nat (len r) <= j)%nat -> nth j (data r) 0 = 0.

Lemma read_data_bytes (tmp : string) (payload_len : Z) (count j : nat) bytes :
  read_data tmp payload_len j count = Ok bytes ->
  Forall (fun b => 0 <= b < 2 ^ 8) bytes.
Proof.
  revert j bytes. induction count as [| count IH]; intros j bytes H.
  - injection H as <-. constructor.
  - cbn [read_data] in H. destruct (str_from tmp (9 + j * 2)); [discriminate |].
    destruct (read_data tmp payload_len (S j) count) as [rest | e] eqn:E;
      [| discriminate].
    injection H as <-. constructor; [apply hidpp_guint8_range | eapply IH; exact E].
Qed.

Lemma nth_repeat_zero (n j : nat) : nth j (repeat 0 n) 0 = 0.
Proof.
  revert j. induction n as [| n IH]; intro j; destruct j; try reflexivity.
  cbn [repeat nth]. apply IH.
Qed.

Lemma finish_line_padded (self : FuLogitechHidppBootloader) (tmp : string)
    (payload : FuLogitechHidppBootloaderRequest) (last_addr : Z) out last_addr' :
  0 <= len payload <= 28 -> data payload = repeat 0 28 ->
  finish_line self tmp payload last_addr = LineAdd out last_addr' ->
  well_padded out.
Proof.
  intros Hlen Hdata. unfold finish_line.
  destruct (read_data tmp (len payload) 0 (Z.to_nat (len payload)))
    as [bytes | e] eqn:E; [| discriminate].
  pose proof (read_data_bytes _ _ _ _ _ E) as Hbytes.
  apply read_data_length in E.
  assert (Hpad : well_padded
                   (mkRequest (cmd payload) (addr payload) (len payload)
                      (bytes ++ skipn (length bytes) (data payload)))).
  { unfold well_padded. cbn [data len]. rewrite Hdata. split; [| split].
    - rewrite length_app, length_skipn, repeat_length, E. lia.
    - apply Forall_app. split; [exact Hbytes |].
      apply Forall_forall. intros b Hb.
      apply (In_nth _ _ 0) in Hb. destruct Hb as (k & _ & <-).
      rewrite nth_skipn, nth_repeat_zero. lia.
    - intros j Hj. rewrite app_nth2 by lia.
      rewrite nth_skipn, nth_repeat_zero. reflexivity. }
  cbn [cmd addr len].
  destruct (cmd payload);
    try (destruct (fu_logitech_hidpp_bootloader_get_addr_hi self <? addr payload);
         [discriminate |];
         destruct (addr payload <? fu_logitech_hidpp_bootloader_get_addr_lo self);
         [discriminate |];
         destruct (addr payload <? last_addr); [discriminate |]);
    intro H; injection H as <- _; exact Hpad.
Qed.

Lemma parse_line_padded (self : FuLogitechHidppBootloader) (tmp : string)
    (last_addr : Z) out last_addr' :
  parse_line self tmp last_addr = LineAdd out last_addr' -> well_padded out.
Proof.
  unfold parse_line.
  destruct (Z.of_nat (String.length tmp) <? 5); [discriminate |].
  set (payload_len := guint8 (fu_logitech_hidpp_buffer_read_uint8 (str_from tmp 1))).
  pose proof (hidpp_guint8_range (fu_logitech_hidpp_buffer_read_uint8 (str_from tmp 1)))
    as Hrange. fold payload_len in Hrange.
  destruct (Z.ltb_spec 28 payload_len) as [Hbig | Hsmall]; [discriminate |].
  destruct (fu_firmware_strparse_uint16_safe tmp _ 3) as [parsed | e];
    [| discriminate].
  cbv zeta.
  destruct (_ =? 0x00).
  { apply finish_line_padded; [cbn [len]; lia | reflexivity]. }
  destruct (_ =? 0x01); [discriminate |].
  destruct (_ =? 0x03); [discriminate |].
  destruct (_ =? 0x04).
  { destruct (fu_firmware_strparse_uint16_safe tmp _ 9) as [offset | e];
      [| discriminate].
    destruct (negb (guint16 offset =? 0)); discriminate. }
  destruct (_ =? 0x05); [discriminate |].
  destruct (_ =? 0xFD); [| discriminate].
  apply finish_line_padded; [cbn [len]; lia | reflexivity].
Qed.

Lemma parse_lines_padded (self : FuLogitechHidppBootloader) (lines : list string) :
  forall last_addr reqs out,
    Forall well_padded reqs ->
    parse_lines self lines last_addr reqs = Ok out ->
    Forall well_padded out.
Proof.
  induction lines as [| tmp lines IH]; intros last_addr reqs out Hok H.
  - injection H as <-. exact Hok.
  - cbn [parse_lines] in H.
    destruct (parse_line self tmp last_addr) as [| | payload la | e] eqn:E.
    + eapply IH; eassumption.
    + injection H as <-. exact Hok.
    + eapply IH; [| exact H]. apply Forall_app. split; [exact Hok |].
      constructor; [| constructor]. eapply parse_line_padded. exact E.
    + discriminate H.
Qed.

(** The data of [r] are those of the record [tmp]: [len r] is the length
    byte of the record, and the first [len r] data bytes are the bytes read
    at [tmp + 0x09 + j * 2]. *)
Definition read_from (tmp : string) (r : FuLogitechHidppBootloaderRequest) : Prop :=
  len r = guint8 (fu_logitech_hidpp_buffer_read_uint8 (str_from tmp 0x01)) /\
  forall j, (j < Z.to_nat (len r))%nat ->
    nth j (data r) 0
    = guint8 (fu_logitech_hidpp_buffer_read_uint8 (str_from tmp (0x09 + j * 2))).

Lemma read_data_nth (tmp : string) (payload_len : Z) (count : nat) :
  forall j bytes,
    read_data tmp payload_len j count = Ok bytes ->
    forall k, (k < count)%nat ->
      nth k bytes 0
      = guint8 (fu_logitech_hidpp_buffer_read_uint8
                  (str_from tmp (0x09 + (j + k) * 2))).
Proof.
  induction count as [| count IH]; intros j bytes H k Hk; [lia |].
  cbn [read_data] in H. destruct (str_from tmp (9 + j * 2)) eqn:Hptr;
    [discriminate |].
  destruct (read_data tmp payload_len (S j) count) as [rest | e] eqn:E;
    [| discriminate].
  injection H as <-. destruct k as [| k].
  - cbn [nth]. rewrite Nat.add_0_r, Hptr. reflexivity.
  - cbn [nth]. rewrite (IH _ _ E k) by lia.
    rewrite Nat.add_succ_r. reflexivity.
Qed.

Lemma finish_line_read (self : FuLogitechHidppBootloader) (tmp : string)
    (payload : FuLogitechHidppBootloaderRequest) (last_addr : Z) out last_addr' :
  finish_line self tmp payload last_addr = LineAdd out last_addr' ->
  len out = len payload /\
  forall j, (j < Z.to_nat (len out))%nat ->
    nth j (data out) 0
    = guint8 (fu_logitech_hidpp_buffer_read_uint8 (str_from tmp (0x09 + j * 2))).
Proof.
  unfold finish_line.
  destruct (read_data tmp (len payload) 0 (Z.to_nat (len payload)))
    as [bytes | e] eqn:E; [| discriminate].
  pose proof (read_data_nth _ _ _ _ _ E) as Hnth.
  apply read_data_length in E.
  assert (Hread : forall j, (j < Z.to_nat (len payload))%nat ->
            nth j (bytes ++ skipn (length bytes) (data payload)) 0
            = guint8 (fu_logitech_hidpp_buffer_read_uint8
                        (str_from tmp (0x09 + j * 2)))).
  { intros j Hj. rewrite app_nth1 by lia. apply (Hnth j Hj). }
  cbn [cmd addr len].
  destruct (cmd payload);
    try (destruct (fu_logitech_hidpp_bootloader_get_addr_hi self <? addr payload);
         [discriminate |];
         destruct (addr payload <? fu_logitech_hidpp_bootloader_get_addr_lo self);
         [discriminate |];
         destruct (addr payload <? last_addr); [discriminate |]);
    intro H; injection H as <- _; cbn [len data];
    (split; [reflexivity | exact Hread]).
Qed.

Lemma parse_line_read (self : FuLogitechHidppBootloader) (tmp : string)
    (last_addr : Z) out last_addr' :
  parse_line self tmp last_addr = LineAdd out last_addr' -> read_from tmp out.
Proof.
  unfold parse_line, read_from.
  destruct (Z.of_nat (String.length tmp) <? 5); [discriminate |].
  destruct (28 <? _); [discriminate |].
  destruct (fu_firmware_strparse_uint16_safe tmp _ 3) as [parsed | e];
    [| discriminate].
  cbv zeta.
  destruct (_ =? 0x00).
  { intro H. apply finish_line_read in H. cbn [len] in H.
    destruct H as [Hlen Hread]. split; assumption. }
  destruct (_ =? 0x01); [discriminate |].
  destruct (_ =? 0x03); [discriminate |].
  destruct (_ =? 0x04).
  { destruct (fu_firmware_strparse_uint16_safe tmp _ 9) as [offset | e];
      [| discriminate].
    destruct (negb (guint16 offset =? 0)); discriminate. }
  destruct (_ =? 0x05); [discriminate |].
  destruct (_ =? 0xFD); [| discriminate].
  intro H. apply finish_line_read in H. cbn [len] in H.
  destruct H as [Hlen Hread]. split; assumption.
Qed.

Lemma parse_lines_read (self : FuLogitechHidppBootloader) (all lines : list string) :
  forall last_addr reqs out,
    incl lines all ->
    Forall (fun r => exists tmp, In tmp all /\ read_from tmp r) reqs ->
    parse_lines self lines last_addr reqs = Ok out ->
    Forall (fun r => exists tmp, In tmp all /\ read_from tmp r) out.
Proof.
  induction lines as [| tmp lines IH]; intros last_addr reqs out Hincl Hok H.
  - injection H as <-. exact Hok.
  - assert (Hrest : incl lines all)
      by (intros x Hx; apply Hincl; right; exact Hx).
    cbn [parse_lines] in H.
    destruct (parse_line self tmp last_addr) as [| | payload la | e] eqn:E.
    + eapply IH; eassumption.
    + injection H as <-. exact Hok.
    + eapply IH; [exact Hrest | | exact H]. apply Forall_app. split; [exact Hok |].
      constructor; [| constructor]. exists tmp.
      split; [apply Hincl; left; reflexivity | eapply parse_line_read; exact E].
    + discriminate H.
Qed.

(** Every request that [fu_logitech_hidpp_bootloader_parse_requests] returns
    carries exactly 28 data bytes: the [len] bytes read from its record,
    a line of the firmware whose length byte is [len], followed by zeros. *)
Theorem parse_requests_data_padded (self : FuLogitechHidppBootloader) (fw : string)
    reqs :
  fu_logitech_hidpp_bootloader_parse_requests self fw = Ok reqs ->
  Forall (fun r =>
            well_padded r /\
            exists tmp,
              In tmp (g_strsplit_set (c_string fw) ["010"%char; "013"%char]) /\
              read_from tmp r) reqs.
Proof.
  unfold fu_logitech_hidpp_bootloader_parse_requests. cbv zeta.
  destruct (parse_lines self (g_strsplit_set (c_string fw) _) 0 [])
    as [out | e] eqn:E; [| discriminate].
  destruct (Z.of_nat (length out) =? 0); [discriminate |].
  intro H. injection H as <-.
  apply Forall_and.
  - eapply parse_lines_padded; [| exact E]. constructor.
  - eapply parse_lines_read; [apply incl_refl | | exact E]. constructor.
Qed.

(** ** The end-of-file record *)

(** An end-of-file record: a line of five characters or more that passes the
    checks made before the record type is looked at (a length byte of at most
    28 and an address that parses) and whose record type, read at [tmp + 7],
    is 0x01. *)
Definition eof_record (tmp : string) : Prop :=
  5 <= Z.of_nat (String.length tmp) /\
  guint8 (fu_logitech_hidpp_buffer_read_uint8 (str_from tmp 0x01)) <= 28 /\
  is_ok (fu_firmware_strparse_uint16_safe tmp (Z.of_nat (String.length tmp)) 0x03)
  = true /\
  guint8 (fu_logitech_hidpp_buffer_read_uint8 (str_from tmp 0x07)) = 0x01.

Lemma parse_line_eof (self : FuLogitechHidppBootloader) (tmp : string)
    (last_addr : Z) :
  eof_record tmp -> parse_line self tmp last_addr = LineBreak.
Proof.
  intros (Hsz & Hlen & Haddr & Htype). unfold parse_line.
  destruct (Z.ltb_spec (Z.of_nat (String.length tmp)) 5) as [Hshort | _]; [lia |].
  destruct (Z.ltb_spec 28
              (guint8 (fu_logitech_hidpp_buffer_read_uint8 (str_from tmp 1))))
    as [Hbig | _]; [lia |].
  destruct (fu_firmware_strparse_uint16_safe tmp _ 3) as [parsed | e];
    [| discriminate Haddr].
  cbv zeta. rewrite Htype. reflexivity.
Qed.

(** The loop over the lines stops at an end-of-file record: the record ends
    the loop with the requests collected so far, and the lines after it are
    not looked at, so that they change neither the requests nor whether the
    loop fails. *)
Theorem parse_lines_stop_at_eof (self : FuLogitechHidppBootloader)
    (before : list string) (eof : string) (after after' : list string) :
  eof_record eof ->
  forall last_addr reqs,
    parse_line self eof last_addr = LineBreak /\
    parse_lines self (eof :: after) last_addr reqs = Ok reqs /\
    parse_lines self (before ++ eof :: after) last_addr reqs
    = parse_lines self (before ++ eof :: after') last_addr reqs.
Proof.
  intro Heof.
  assert (Hstop : forall last_addr, parse_line self eof last_addr = LineBreak)
    by (intro last_addr; apply parse_line_eof; exact Heof).
  intros last_addr reqs. split; [apply Hstop |].
  split; [cbn [parse_lines]; rewrite Hstop; reflexivity |].
  revert last_addr reqs.
  induction before as [| tmp before IH]; intros last_addr reqs.
  - cbn [app parse_lines]. rewrite Hstop. reflexivity.
  - cbn [app parse_lines].
    destruct (parse_line self tmp last_addr); try reflexivity; apply IH.
Qed.

End Parser.

Lemma incorporate_flag_testbit (self donor : FuLogitechHidppBootloader)
    (f : FwupdDeviceFlag) (n : Z) :
  0 <= n ->
  Z.testbit (flags (fu_device_incorporate_flag self donor f)) n
  = if n =? device_flag_bit f then fu_device_has_flag donor f
    else Z.testbit (flags self) n.
Proof.
  intro Hn. pose proof (device_flag_bit_range f) as Hf.
  unfold fu_device_incorporate_flag, FwupdDeviceFlags_of.
  destruct (fu_device_has_flag donor f); cbn [flags set_flags].
  - rewrite mask_add_testbit by lia.
    destruct (Z.eqb_spec (device_flag_bit f) n);
      destruct (Z.eqb_spec n (device_flag_bit f)); try lia; reflexivity.
  - rewrite mask_remove_testbit by lia.
    destruct (Z.eqb_spec (device_flag_bit f) n);
      destruct (Z.eqb_spec n (device_flag_bit f)); try lia; cbn [negb];
      first [apply andb_false_r | apply andb_true_r].
Qed.

Lemma incorporate_flag_fields (self donor : FuLogitechHidppBootloader)
    (f : FwupdDeviceFlag) :
  let d := fu_device_incorporate_flag self donor f in
  flash_addr_lo d = flash_addr_lo self /\
  flash_addr_hi d = flash_addr_hi self /\
  flash_blocksize d = flash_blocksize self /\
  is_signed d = is_signed self /\
  version_bootloader d = version_bootloader self /\
  protocols d = protocols self /\
  name d = name self /\
  remove_delay d = remove_delay self.
Proof.
  unfold fu_device_incorporate_flag. destruct (fu_device_has_flag donor f);
    cbn; repeat split; reflexivity.
Qed.

(** C9. [fu_logitech_hidpp_bootloader_replace] copies exactly the
    signed-payload and unsigned-payload flags from the donor: afterwards the
    device carries each of the two exactly when the donor does, every other
    flag (every other bit of the mask) is as before, and so is every other
    field of the device. *)
Theorem replace_copies_payload_flags (device donor : FuLogitechHidppBootloader) :
  let replaced := fu_logitech_hidpp_bootloader_replace device donor in
  (fu_device_has_flag replaced FWUPD_DEVICE_FLAG_SIGNED_PAYLOAD
   = fu_device_has_flag donor FWUPD_DEVICE_FLAG_SIGNED_PAYLOAD /\
   fu_device_has_flag replaced FWUPD_DEVICE_FLAG_UNSIGNED_PAYLOAD
   = fu_device_has_flag donor FWUPD_DEVICE_FLAG_UNSIGNED_PAYLOAD) /\
  (forall f, f <> FWUPD_DEVICE_FLAG_SIGNED_PAYLOAD ->
             f <> FWUPD_DEVICE_FLAG_UNSIGNED_PAYLOAD ->
             fu_device_has_flag replaced f = fu_device_has_flag device f) /\
  (forall n, 0 <= n ->
             n <> device_flag_bit FWUPD_DEVICE_FLAG_SIGNED_PAYLOAD ->
             n <> device_flag_bit FWUPD_DEVICE_FLAG_UNSIGNED_PAYLOAD ->
             Z.testbit (flags replaced) n = Z.testbit (flags device) n) /\
  (flash_addr_lo replaced = flash_addr_lo device /\
   flash_addr_hi replaced = flash_addr_hi device /\
   flash_blocksize replaced = flash_blocksize device /\
   is_signed replaced = is_signed device /\
   version_bootloader replaced = version_bootloader device /\
   protocols replaced = protocols device /\
   name replaced = name device /\
   remove_delay replaced = remove_delay device).
Proof.
  intro replaced.
  assert (Hbits : forall n, 0 <= n ->
            Z.testbit (flags replaced) n
            = if n =? device_flag_bit FWUPD_DEVICE_FLAG_UNSIGNED_PAYLOAD
              then fu_device_has_flag donor FWUPD_DEVICE_FLAG_UNSIGNED_PAYLOAD
              else if n =? device_flag_bit FWUPD_DEVICE_FLAG_SIGNED_PAYLOAD
                   then fu_device_has_flag donor FWUPD_DEVICE_FLAG_SIGNED_PAYLOAD
                   else Z.testbit (flags device) n).
  { intros n Hn. unfold replaced, fu_logitech_hidpp_bootloader_replace.
    rewrite !incorporate_flag_testbit by exact Hn. reflexivity. }
  assert (Hhas : forall f, fu_device_has_flag replaced f
                           = Z.testbit (flags replaced) (device_flag_bit f)).
  { intro f. unfold fu_device_has_flag, FwupdDeviceFlags_of.
    apply mask_has_testbit. apply device_flag_bit_range. }
  split; [split |]; [| | split; [| split]].
  - rewrite Hhas, Hbits by (cbn; lia). reflexivity.
  - rewrite Hhas, Hbits by (cbn; lia). reflexivity.
  - intros f Hs Hu. rewrite Hhas, Hbits by apply device_flag_bit_range.
    destruct (Z.eqb_spec (device_flag_bit f)
                (device_flag_bit FWUPD_DEVICE_FLAG_UNSIGNED_PAYLOAD)) as [E | _];
      [apply device_flag_bit_inj in E; contradiction |].
    destruct (Z.eqb_spec (device_flag_bit f)
                (device_flag_bit FWUPD_DEVICE_FLAG_SIGNED_PAYLOAD)) as [E | _];
      [apply device_flag_bit_inj in E; contradiction |].
    unfold fu_device_has_flag, FwupdDeviceFlags_of. symmetry.
    apply mask_has_testbit. apply device_flag_bit_range.
  - intros n Hn Hs Hu. rewrite Hbits by exact Hn.
    destruct (Z.eqb_spec n (device_flag_bit FWUPD_DEVICE_FLAG_UNSIGNED_PAYLOAD));
      [contradiction |].
    destruct (Z.eqb_spec n (device_flag_bit FWUPD_DEVICE_FLAG_SIGNED_PAYLOAD));
      [contradiction | reflexivity].
  - unfold replaced, fu_logitech_hidpp_bootloader_replace.
    pose proof (incorporate_flag_fields device donor
                  FWUPD_DEVICE_FLAG_SIGNED_PAYLOAD) as H1.
    pose proof (incorporate_flag_fields
                  (fu_device_incorporate_flag device donor
                     FWUPD_DEVICE_FLAG_SIGNED_PAYLOAD)
                  donor FWUPD_DEVICE_FLAG_UNSIGNED_PAYLOAD) as H2.
    cbv zeta in H1, H2.
    destruct H1 as (A1 & A2 & A3 & A4 & A5 & A6 & A7 & A8).
    destruct H2 as (B1 & B2 & B3 & B4 & B5 & B6 & B7 & B8).
    repeat split; congruence.
Qed.

(** ** Sample runs *)

Definition replug_device : FuLogitechHidppBootloader :=
  mkBootloader 0x0400 0x6BFF 0x0080
    (mask_add (FwupdDeviceFlags_of FWUPD_DEVICE_FLAG_UPDATABLE)
              (FwupdDeviceFlags_of FWUPD_DEVICE_FLAG_IS_BOOTLOADER))
    false (Some "BOT01.02_B0014"%string) ["com.logitech.unifying"%string]
    "Unifying Receiver" 30000.

Definition replug_donor : FuLogitechHidppBootloader :=
  mkBootloader 0 0 0
    (mask_add (FwupdDeviceFlags_of FWUPD_DEVICE_FLAG_UPDATABLE)
              (FwupdDeviceFlags_of FWUPD_DEVICE_FLAG_SIGNED_PAYLOAD))
    false None [] "Unifying Receiver" 0.

Lemma replace_copies_payload_flags_witness :
  fu_device_has_flag
    (fu_logitech_hidpp_bootloader_replace replug_device replug_donor)
    FWUPD_DEVICE_FLAG_SIGNED_PAYLOAD = true /\
  fu_device_has_flag
    (fu_logitech_hidpp_bootloader_replace replug_device replug_donor)
    FWUPD_DEVICE_FLAG_IS_BOOTLOADER
  = fu_device_has_flag replug_device FWUPD_DEVICE_FLAG_IS_BOOTLOADER.
Proof.
  destruct (replace_copies_payload_flags replug_device replug_donor)
    as ((Hsigned & _) & Hothers & _).
  split.
  - rewrite Hsigned. reflexivity.
  - apply Hothers; discriminate.
Defined.

(** Stand-ins for the two parameters of the parser: two hexadecimal digits
    read as an octet, four read as a 16-bit value. *)
Definition hex_digit_value (c : ascii) : option Z :=
  let n := Z.of_nat (nat_of_ascii c) in
  if (48 <=? n) && (n <=? 57) then Some (n - 48)
  else if (65 <=? n) && (n <=? 70) then Some (n - 55)
  else if (97 <=? n) && (n <=? 102) then Some (n - 87)
  else None.

Fixpoint hex_value (s : string) (digits : nat) (acc : Z) : Z :=
  match digits, s with
  | S digits', String c rest =>
      match hex_digit_value c with
      | Some v => hex_value rest digits' (16 * acc + v)
      | None => acc
      end
  | _, _ => acc
  end.

Definition sample_read_uint8 (str : string) : Z := hex_value str 2 0.

Definition sample_strparse_uint16_safe (str : string) (strsz offset : Z)
  : Result Z :=
  if strsz <? offset + 4 then
    Failed (fwupd_error FWUPD_ERROR_INVALID_DATA "string too short")
  else Ok (hex_value (str_from str (Z.to_nat offset)) 4 0).

Definition newline : string := String "010"%char EmptyString.

(** Five records and an end-of-file record: the second goes down, the third
    lies above the flash window, the fifth is signature data. *)
Definition sample_firmware : string :=
  (":02040000AABB95" ++ newline ++
   ":020300001122C8" ++ newline ++
   ":027000003344A7" ++ newline ++
   ":020500000102F6" ++ newline ++
   ":010000FD7F83" ++ newline ++
   ":00000001FF" ++ newline)%string.

Definition sample_bootloader : FuLogitechHidppBootloader :=
  mkBootloader 0x0200 0x6FFF 0x0080 0 false None [] "Unifying Receiver" 30000.

Definition sample_requests : list FuLogitechHidppBootloaderRequest :=
  [ mkRequest FU_LOGITECH_HIDPP_BOOTLOADER_CMD_WRITE_RAM_BUFFER 0x0400 2
              (0xAA :: 0xBB :: repeat 0 26);
    mkRequest FU_LOGITECH_HIDPP_BOOTLOADER_CMD_WRITE_RAM_BUFFER 0x0500 2
              (0x01 :: 0x02 :: repeat 0 26);
    mkRequest FU_LOGITECH_HIDPP_BOOTLOADER_CMD_WRITE_SIGNATURE 0x0000 1
              (0x7F :: repeat 0 27) ].

Example sample_firmware_requests :
  fu_logitech_hidpp_bootloader_parse_requests
    sample_read_uint8 sample_strparse_uint16_safe sample_bootloader sample_firmware
  = Ok sample_requests.
Proof. vm_compute. reflexivity. Qed.

(** A record below the last address is skipped without an error. *)
Example decreasing_record_skipped :
  parse_line sample_read_uint8 sample_strparse_uint16_safe sample_bootloader
    ":020300001122C8" 0x0400 = LineContinue.
Proof. vm_compute. reflexivity. Qed.

(** Without any record the result is an error, not an empty list. *)
Example empty_firmware_rejected :
  fu_logitech_hidpp_bootloader_parse_requests
    sample_read_uint8 sample_strparse_uint16_safe sample_bootloader
    ":00000001FF"
  = Failed (fwupd_error FWUPD_ERROR_INVALID_DATA
              "firmware data invalid: no payloads found").
Proof. vm_compute. reflexivity. Qed.

Lemma parse_requests_invariants_witness :
  sample_requests <> [] /\
  Forall (fun r => 0 <= len r <= 28) sample_requests /\
  StronglySorted Z.le (ram_addresses sample_requests) /\
  Forall (fun a => flash_addr_lo sample_bootloader <= a
                   <= flash_addr_hi sample_bootloader)
         (ram_addresses sample_requests).
Proof.
  assert (Hrun : fu_logitech_hidpp_bootloader_parse_requests
                   sample_read_uint8 sample_strparse_uint16_safe
                   sample_bootloader sample_firmware = Ok sample_requests)
    by (vm_compute; reflexivity).
  destruct (parse_requests_invariants sample_read_uint8
              sample_strparse_uint16_safe sample_bootloader sample_firmware
              sample_requests Hrun)
    as (Hne & Hlen & _ & Hsorted & Hwindow & _).
  repeat split; assumption.
Defined.

Lemma parse_requests_data_padded_witness :
  fu_logitech_hidpp_bootloader_parse_requests
    sample_read_uint8 sample_strparse_uint16_safe sample_bootloader sample_firmware
  = Ok sample_requests /\
  Forall (fun r =>
            well_padded r /\
            exists tmp,
              In tmp (g_strsplit_set (c_string sample_firmware)
                        ["010"%char; "013"%char]) /\
              read_from sample_read_uint8 tmp r) sample_requests.
Proof.
  assert (Hrun : fu_logitech_hidpp_bootloader_parse_requests
                   sample_read_uint8 sample_strparse_uint16_safe
                   sample_bootloader sample_firmware = Ok sample_requests)
    by (vm_compute; reflexivity).
  split; [exact Hrun |].
  exact (parse_requests_data_padded sample_read_uint8 sample_strparse_uint16_safe
           sample_bootloader sample_firmware sample_requests Hrun).
Defined.

Lemma sample_eof_record :
  eof_record sample_read_uint8 sample_strparse_uint16_safe ":00000001FF".
Proof.
  unfold eof_record. split; [vm_compute; discriminate |].
  split; [vm_compute; discriminate |]. split; vm_compute; reflexivity.
Qed.

(** A line that is no record at all, after the end-of-file record, is not
    read. *)
Lemma parse_lines_stop_at_eof_witness :
  eof_record sample_read_uint8 sample_strparse_uint16_safe ":00000001FF" /\
  parse_lines sample_read_uint8 sample_strparse_uint16_safe sample_bootloader
    [":02040000AABB95"; ":00000001FF"; "not a record"]%string 0 []
  = parse_lines sample_read_uint8 sample_strparse_uint16_safe sample_bootloader
      [":02040000AABB95"; ":00000001FF"]%string 0 [].
Proof.
  split; [exact sample_eof_record |].
  exact (proj2 (proj2 (parse_lines_stop_at_eof
           sample_read_uint8 sample_strparse_uint16_safe
           sample_bootloader [":02040000AABB95"%string] ":00000001FF"
           ["not a record"%string] [] sample_eof_record 0 []))).
Defined.

(** ** request *)

(** [fu_hid_device_set_report] and [fu_usb_device_interrupt_transfer]
    belong to libfwupdplugin and talk to the receiver.  The bus record keeps
    the reports sent, newest first, and holds the answer to the n-th transfer:
    the bytes the receiver returns, or the error of the transfer. *)
Inductive HidReply : Type :=
| HidDone (response : list Z)
| HidFailed (e : GError).

Record HidBus : Type := mkHidBus {
  hid_replies : nat -> HidReply;
  hid_count : nat;
  hid_reports : list (list Z)
}.

(** [fu_hid_device_set_report (self, 0x0, buf, bufsz, ...)] *)
Definition fu_hid_device_set_report (buf : list Z) (bufsz : Z) : Run HidBus unit :=
  fun bus =>
    let bus' := mkHidBus (hid_replies bus) (S (hid_count bus))
                         (firstn (Z.to_nat bufsz) buf :: hid_reports bus) in
    match hid_replies bus (hid_count bus) with
    | HidDone _ => (Ok tt, bus')
    | HidFailed e => (Failed e, bus')
    end.

(** [fu_usb_device_interrupt_transfer (self, ep, buf, bufsz, &actual_length,
    ...)]; the result is the buffer after the transfer and the number of
    bytes received. *)
Definition fu_usb_device_interrupt_transfer (buf : list Z) (bufsz : Z)
  : Run HidBus (list Z * Z) :=
  fun bus =>
    let bus' := mkHidBus (hid_replies bus) (S (hid_count bus)) (hid_reports bus) in
    match hid_replies bus (hid_count bus) with
    | HidDone response =>
        let got := map guint8 (firstn (Z.to_nat bufsz) response) in
        (Ok (got ++ skipn (length got) buf, Z.of_nat (length got)), bus')
    | HidFailed e => (Failed e, bus')
    end.

(** [buf[i] = v] *)
Definition set_at (buf : list Z) (i : nat) (v : Z) : list Z :=
  firstn i buf ++ v :: skipn (S i) buf.

(** [fu_memcpy_safe] (libfwupdplugin, outside the sources): a copy of [n]
    bytes that fails instead of reading or writing out of bounds.  The result
    is the destination after the copy. *)
Definition fu_memcpy_safe (dst : list Z) (dst_sz dst_offset : Z) (src : list Z)
    (src_sz src_offset n : Z) : Result (list Z) :=
  if src_sz <? src_offset + n then
    Failed (fwupd_error FWUPD_ERROR_READ "attempted to read past the source")
  else if dst_sz <? dst_offset + n then
    Failed (fwupd_error FWUPD_ERROR_WRITE "attempted to write past the destination")
  else
    Ok (firstn (Z.to_nat dst_offset) dst
        ++ firstn (Z.to_nat n) (skipn (Z.to_nat src_offset) src)
        ++ skipn (Z.to_nat (dst_offset + n)) dst).

(** [FuLogitechHidppBootloaderRequest] as [request] handles it: [cmd] is the
    byte that travels, and the byte that comes back need not be a command of
    the enumeration. *)
Record Packet : Type := mkPacket {
  packet_cmd : Z;          (* guint8 *)
  packet_addr : Z;         (* guint16 *)
  packet_len : Z;          (* guint8 *)
  packet_data : list Z     (* guint8 data[28] *)
}.

Section Request.

(** The values of the commands (fu-logitech-hidpp-struct.h, outside the
    sources). *)
Variable cmd_value : FuLogitechHidppBootloaderCmd -> Z.

(** The request as [request] sees it. *)
Definition packet_of (req : FuLogitechHidppBootloaderRequest) : Packet :=
  mkPacket (cmd_value (cmd req)) (addr req) (len req) (data req).

(** [memset (req->data, 0x00, 28); if (req->len > 0) memcpy (req->data,
    buf_response + 0x04, req->len);] *)
Definition response_data (buf_response : list Z) (len : Z) : list Z :=
  let data := repeat 0 28 in
  if 0 <? len then
    firstn (Z.to_nat len) (skipn 4 buf_response) ++ skipn (Z.to_nat len) data
  else data.

(** The request is changed in place: the state is the request and the
    bus. *)
Definition fu_logitech_hidpp_bootloader_request : Run (Packet * HidBus) unit :=
  fun s =>
    let req := fst s in
    let bus := snd s in
    let buf_request := repeat 0 32 in
    let buf_response := repeat 0 32 in
    (* build packet *)
    let buf_request := set_at buf_request 0x00 (guint8 (packet_cmd req)) in
    let buf_request := set_at buf_request 0x01 (guint8 (Z.shiftr (packet_addr req) 8)) in
    let buf_request := set_at buf_request 0x02 (guint8 (Z.land (packet_addr req) 0xff)) in
    let buf_request := set_at buf_request 0x03 (guint8 (packet_len req)) in
    match fu_memcpy_safe buf_request 32 0x04 (packet_data req) 28 0x0 28 with
    | Failed e => (Failed e, (req, bus))
    | Ok buf_request =>
        (* send request *)
        match fu_hid_device_set_report buf_request 32 bus with
        | (Failed e, bus) =>
            (Failed (g_prefix_error "failed to send data: " e), (req, bus))
        | (Ok _, bus) =>
            (* no response required when rebooting *)
            if packet_cmd req =? cmd_value FU_LOGITECH_HIDPP_BOOTLOADER_CMD_REBOOT
            then
              (Ok tt, (req, snd (fu_usb_device_interrupt_transfer buf_response 32 bus)))
            else
              (* get response *)
              match fu_usb_device_interrupt_transfer buf_response 32 bus with
              | (Failed e, bus) =>
                  (Failed (g_prefix_error "failed to get data: " e), (req, bus))
              | (Ok (buf_response, _), bus) =>
                  (* parse response *)
                  if negb (Z.land (nth 0x00 buf_response 0) 0xf0 =? packet_cmd req)
                  then
                    (Failed (fwupd_error FWUPD_ERROR_INVALID_DATA
                               ("invalid command response of "
                                ++ fmt_0x 2 (nth 0x00 buf_response 0)
                                ++ ", expected " ++ fmt_0x 2 (packet_cmd req))),
                     (req, bus))
                  else
                    let req :=
                      mkPacket (nth 0x00 buf_response 0)
                               (guint16 (Z.shiftl (nth 0x01 buf_response 0) 8
                                         + nth 0x02 buf_response 0))
                               (nth 0x03 buf_response 0)
                               (packet_data req) in
                    if 28 <? packet_len req then
                      (Failed (fwupd_error FWUPD_ERROR_INVALID_DATA
                                 ("invalid data size of "
                                  ++ fmt_0x 2 (packet_len req))),
                       (req, bus))
                    else
                      (Ok tt,
                       (mkPacket (packet_cmd req) (packet_addr req) (packet_len req)
                                 (response_data buf_response (packet_len req)),
                        bus))
              end
        end
    end.

(** The report that [request] sends for [req]. *)
Definition report_of (req : Packet) : list Z :=
  [guint8 (packet_cmd req);
   guint8 (Z.shiftr (packet_addr req) 8);
   guint8 (Z.land (packet_addr req) 0xff);
   guint8 (packet_len req)] ++ firstn 28 (packet_data req).

(** A request as the struct holds it: bytes in the byte fields, a 16-bit
    address and 28 data bytes. *)
Definition packet_ok (req : Packet) : Prop :=
  0 <= packet_cmd req < 2 ^ 8 /\
  0 <= packet_addr req < 2 ^ 16 /\
  0 <= packet_len req < 2 ^ 8 /\
  length (packet_data req) = 28%nat /\
  Forall (fun b => 0 <= b < 2 ^ 8) (packet_data req).

(** ** attach *)

Definition fu_device_add_flag (f : FwupdDeviceFlag) (d : FuLogitechHidppBootloader)
  : FuLogitechHidppBootloader :=
  set_flags d (mask_add (flags d) (FwupdDeviceFlags_of f)).

Definition fu_logitech_hidpp_bootloader_attach
  : Run (FuLogitechHidppBootloader * HidBus) unit :=
  fun s =>
    let device := fst s in
    let bus := snd s in
    let req := fu_logitech_hidpp_bootloader_request_new in
    let req :=
      mkRequest FU_LOGITECH_HIDPP_BOOTLOADER_CMD_REBOOT (addr req) (len req) (data req) in
    match fu_logitech_hidpp_bootloader_request (packet_of req, bus) with
    | (Failed e, (_, bus)) =>
        (Failed (g_prefix_error "failed to attach back to runtime: " e), (device, bus))
    | (Ok _, (_, bus)) =>
        (Ok tt, (fu_device_add_flag FWUPD_DEVICE_FLAG_WAIT_FOR_REPLUG device, bus))
    end.

(** *** Facts *)

(** The buffer after an interrupt transfer that brought [response]. *)
Definition received (response : list Z) : list Z :=
  map guint8 (firstn 32 response)
  ++ skipn (length (map guint8 (firstn 32 response))) (repeat 0 32).

Lemma skipn_repeat {A} (x : A) (k n : nat) :
  skipn k (repeat x n) = repeat x (n - k).
Proof.
  revert k. induction n as [| n IH]; intros [| k]; simpl; auto.
Qed.

Lemma nth_repeat_any {A} (x : A) (n k : nat) : nth k (repeat x n) x = x.
Proof.
  revert k. induction n as [| n IH]; intros [| k]; simpl; auto.
Qed.

Lemma received_length (response : list Z) : length (received response) = 32%nat.
Proof.
  unfold received. rewrite skipn_repeat, length_app, repeat_length, length_map.
  pose proof (firstn_le_length 32 response) as H.
  rewrite length_firstn in *. lia.
Qed.

Lemma received_nth (response : list Z) (k : nat) :
  (k < 32)%nat -> nth k (received response) 0 = guint8 (nth k response 0).
Proof.
  intro Hk. unfold received. rewrite skipn_repeat, length_map.
  destruct (Nat.lt_ge_cases k (length (firstn 32 response))) as [Hlt | Hge].
  - rewrite app_nth1 by (rewrite length_map; exact Hlt).
    change 0 with (guint8 0) at 1. rewrite map_nth.
    rewrite nth_firstn.
    destruct (k <? 32)%nat eqn:E; [reflexivity | apply Nat.ltb_ge in E; lia].
  - rewrite app_nth2 by (rewrite length_map; exact Hge).
    rewrite nth_repeat_any.
    rewrite length_firstn in Hge.
    rewrite (nth_overflow response) by lia. reflexivity.
Qed.

Lemma received_byte (response : list Z) (k : nat) :
  0 <= nth k (received response) 0 < 2 ^ 8.
Proof.
  destruct (Nat.lt_ge_cases k 32) as [Hlt | Hge].
  - rewrite received_nth by exact Hlt. unfold guint8. apply Z.mod_pos_bound. lia.
  - rewrite nth_overflow by (rewrite received_length; exact Hge). lia.
Qed.

Lemma report_of_length (req : Packet) :
  length (packet_data req) = 28%nat -> length (report_of req) = 32%nat.
Proof.
  intro H. unfold report_of. rewrite length_app, length_firstn, H. reflexivity.
Qed.

(** The request with the transfers written out. *)
Lemma request_unfold (req : Packet) (bus : HidBus) :
  let sent := mkHidBus (hid_replies bus) (S (hid_count bus))
                       (report_of req :: hid_reports bus) in
  let answered := mkHidBus (hid_replies bus) (S (S (hid_count bus)))
                           (report_of req :: hid_reports bus) in
  fu_logitech_hidpp_bootloader_request (req, bus) =
  match hid_replies bus (hid_count bus) with
  | HidFailed e => (Failed (g_prefix_error "failed to send data: " e), (req, sent))
  | HidDone _ =>
      if packet_cmd req =? cmd_value FU_LOGITECH_HIDPP_BOOTLOADER_CMD_REBOOT
      then (Ok tt, (req, answered))
      else
        match hid_replies bus (S (hid_count bus)) with
        | HidFailed e =>
            (Failed (g_prefix_error "failed to get data: " e), (req, answered))
        | HidDone response =>
            let buf_response := received response in
            if negb (Z.land (nth 0 buf_response 0) 0xf0 =? packet_cmd req) then
              (Failed (fwupd_error FWUPD_ERROR_INVALID_DATA
                         ("invalid command response of "
                          ++ fmt_0x 2 (nth 0 buf_response 0)
                          ++ ", expected " ++ fmt_0x 2 (packet_cmd req))),
               (req, answered))
            else if 28 <? nth 3 buf_response 0 then
              (Failed (fwupd_error FWUPD_ERROR_INVALID_DATA
                         ("invalid data size of "
                          ++ fmt_0x 2 (nth 3 buf_response 0))),
               (mkPacket (nth 0 buf_response 0)
                         (guint16 (Z.shiftl (nth 1 buf_response 0) 8
                                   + nth 2 buf_response 0))
                         (nth 3 buf_response 0) (packet_data req),
                answered))
            else
              (Ok tt,
               (mkPacket (nth 0 buf_response 0)
                         (guint16 (Z.shiftl (nth 1 buf_response 0) 8
                                   + nth 2 buf_response 0))
                         (nth 3 buf_response 0)
                         (response_data buf_response (nth 3 buf_response 0)),
                answered))
        end
  end.
Proof.
  intros sent answered.
  assert (Hreport :
    firstn (Z.to_nat 32)
      ([guint8 (packet_cmd req); guint8 (Z.shiftr (packet_addr req) 8);
        guint8 (Z.land (packet_addr req) 0xff); guint8 (packet_len req)]
       ++ firstn 28 (packet_data req) ++ []) = report_of req).
  { rewrite app_nil_r. unfold report_of. apply firstn_all2.
    change (Z.to_nat 32) with 32%nat.
    rewrite length_app, length_firstn. cbn [length]. lia. }
  unfold fu_logitech_hidpp_bootloader_request, fu_memcpy_safe,
    fu_hid_device_set_report, fu_usb_device_interrupt_transfer.
  cbn [fst snd Z.ltb Z.add Z.compare Pos.compare Pos.compare_cont Pos.add
       Pos.succ Pos.add_carry].
  change (firstn (Z.to_nat 4)
            (set_at (set_at (set_at (set_at (repeat 0 32) 0 (guint8 (packet_cmd req)))
               1 (guint8 (Z.shiftr (packet_addr req) 8)))
               2 (guint8 (Z.land (packet_addr req) 255)))
               3 (guint8 (packet_len req)))
          ++ firstn (Z.to_nat 28) (skipn (Z.to_nat 0) (packet_data req))
          ++ skipn (Z.to_nat 32)
               (set_at (set_at (set_at (set_at (repeat 0 32) 0 (guint8 (packet_cmd req)))
                  1 (guint8 (Z.shiftr (packet_addr req) 8)))
                  2 (guint8 (Z.land (packet_addr req) 255)))
                  3 (guint8 (packet_len req))))
    with ([guint8 (packet_cmd req); guint8 (Z.shiftr (packet_addr req) 8);
           guint8 (Z.land (packet_addr req) 0xff); guint8 (packet_len req)]
          ++ firstn 28 (packet_data req) ++ []).
  rewrite Hreport.
  destruct (hid_replies bus (hid_count bus)) as [first | e]; [| reflexivity].
  destruct (packet_cmd req =? cmd_value FU_LOGITECH_HIDPP_BOOTLOADER_CMD_REBOOT).
  - cbn [hid_replies hid_count hid_reports].
    destruct (hid_replies bus (S (hid_count bus))); reflexivity.
  - cbn [hid_replies hid_count hid_reports].
    destruct (hid_replies bus (S (hid_count bus))) as [response | e]; [| reflexivity].
    change (map guint8 (firstn (Z.to_nat 32) response)
            ++ skipn (length (map guint8 (firstn (Z.to_nat 32) response)))
                 (repeat 0 32))
      with (received response).
    cbv zeta. cbn [packet_cmd packet_addr packet_len packet_data].
    destruct (negb (Z.land (nth 0 (received response) 0) 240 =? packet_cmd req));
      [reflexivity |].
    destruct (28 <? nth 3 (received response) 0); reflexivity.
Qed.

Lemma response_data_length (response : list Z) (n : Z) :
  0 <= n <= 28 -> length (response_data (received response) n) = 28%nat.
Proof.
  intro Hn. unfold response_data.
  destruct (0 <? n) eqn:E; [| apply repeat_length].
  rewrite length_app, length_firstn, length_skipn, length_skipn, repeat_length,
    received_length.
  lia.
Qed.

Lemma response_data_nth (response : list Z) (n : Z) (i : nat) :
  0 <= n <= 28 -> (i < 28)%nat ->
  nth i (response_data (received response) n) 0 =
  if Z.of_nat i <? n then guint8 (nth (4 + i) response 0) else 0.
Proof.
  intros Hn Hi. unfold response_data.
  destruct (0 <? n) eqn:E.
  - destruct (Z.of_nat i <? n) eqn:Ei.
    + apply Z.ltb_lt in Ei.
      rewrite app_nth1
        by (rewrite length_firstn, length_skipn, received_length; lia).
      rewrite nth_firstn.
      destruct (i <? Z.to_nat n)%nat eqn:E2; [| apply Nat.ltb_ge in E2; lia].
      rewrite nth_skipn. apply received_nth. lia.
    + apply Z.ltb_ge in Ei.
      rewrite app_nth2
        by (rewrite length_firstn, length_skipn, received_length; lia).
      rewrite skipn_repeat. apply nth_repeat_any.
  - apply Z.ltb_ge in E.
    destruct (Z.of_nat i <? n) eqn:Ei; [apply Z.ltb_lt in Ei; lia |].
    apply nth_repeat_any.
Qed.

Lemma response_addr (b1 b2 : Z) :
  0 <= b1 < 2 ^ 8 -> 0 <= b2 < 2 ^ 8 ->
  guint16 (Z.shiftl b1 8 + b2) = b1 * 256 + b2.
Proof.
  intros H1 H2. unfold guint16. rewrite Z.shiftl_mul_pow2 by lia.
  change (2 ^ 8) with 256 in *. change (2 ^ 16) with 65536.
  apply Z.mod_small. lia.
Qed.

Lemma request_response_ok (req req' : Packet) (bus bus' : HidBus) :
  packet_cmd req <> cmd_value FU_LOGITECH_HIDPP_BOOTLOADER_CMD_REBOOT ->
  fu_logitech_hidpp_bootloader_request (req, bus) = (Ok tt, (req', bus')) ->
  exists response,
    hid_replies bus (S (hid_count bus)) = HidDone response /\
    hid_reports bus' = report_of req :: hid_reports bus /\
    hid_count bus' = S (S (hid_count bus)) /\
    packet_cmd req' = guint8 (nth 0 response 0) /\
    Z.land (packet_cmd req') 0xf0 = packet_cmd req /\
    packet_addr req' = guint8 (nth 1 response 0) * 256 + guint8 (nth 2 response 0) /\
    packet_len req' = guint8 (nth 3 response 0) /\
    packet_len req' <= 28 /\
    length (packet_data req') = 28%nat /\
    forall i, (i < 28)%nat ->
      nth i (packet_data req') 0 =
      if Z.of_nat i <? packet_len req' then guint8 (nth (4 + i) response 0) else 0.
Proof.
  intros Hcmd Hrun. rewrite request_unfold in Hrun. cbv zeta in Hrun.
  destruct (hid_replies bus (hid_count bus)) as [first | e]; [| discriminate Hrun].
  apply Z.eqb_neq in Hcmd. rewrite Hcmd in Hrun.
  destruct (hid_replies bus (S (hid_count bus))) as [response | e];
    [| discriminate Hrun].
  destruct (negb (Z.land (nth 0 (received response) 0) 240 =? packet_cmd req))
    eqn:Ehigh; [discriminate Hrun |].
  destruct (28 <? nth 3 (received response) 0) eqn:Elen; [discriminate Hrun |].
  apply Z.ltb_ge in Elen. apply negb_false_iff, Z.eqb_eq in Ehigh.
  pose proof (received_byte response 1) as Hb1.
  pose proof (received_byte response 2) as Hb2.
  pose proof (received_byte response 3) as Hb3.
  rewrite (response_addr _ _ Hb1 Hb2) in Hrun.
  injection Hrun as <- <-. exists response.
  cbn [packet_cmd packet_addr packet_len packet_data hid_reports hid_count].
  rewrite !received_nth in * by lia.
  repeat split; try reflexivity; try assumption.
  - apply response_data_length.
    split; [apply Hb3 | exact Elen].
  - intros i Hi. rewrite <- (received_nth response 3) by lia.
    rewrite response_data_nth; [reflexivity | | exact Hi].
    rewrite received_nth by lia. split; [apply Hb3 | exact Elen].
Qed.

(** A request that is not the reboot command and succeeds: one report went
    out, which is the request as it stood; the request now holds the second
    answer of the receiver: its first byte, whose high nibble is the command
    that was sent, the big-endian address, a length of at most 28, and 28
    data bytes, which are the bytes of the answer up to the length and zero
    from there on. *)
Theorem request_reads_response (req req' : Packet) (bus bus' : HidBus) :
  packet_cmd req <> cmd_value FU_LOGITECH_HIDPP_BOOTLOADER_CMD_REBOOT ->
  fu_logitech_hidpp_bootloader_request (req, bus) = (Ok tt, (req', bus')) ->
  exists response,
    hid_replies bus (S (hid_count bus)) = HidDone response /\
    hid_reports bus' = report_of req :: hid_reports bus /\
    hid_count bus' = S (S (hid_count bus)) /\
    packet_cmd req' = guint8 (nth 0 response 0) /\
    Z.land (packet_cmd req') 0xf0 = packet_cmd req /\
    packet_addr req' = guint8 (nth 1 response 0) * 256 + guint8 (nth 2 response 0) /\
    packet_len req' = guint8 (nth 3 response 0) /\
    packet_len req' <= 28 /\
    length (packet_data req') = 28%nat /\
    forall i, (i < 28)%nat ->
      nth i (packet_data req') 0 =
      if Z.of_nat i <? packet_len req' then guint8 (nth (4 + i) response 0) else 0.
Proof.
  intros Hcmd Hrun. exact (request_response_ok req req' bus bus' Hcmd Hrun).
Qed.

(** Whatever a request comes to, it sends exactly one report, the request
    as it stood, and makes at most two transfers.  A request that fails has
    kept its data bytes; it is unchanged altogether unless the answer
    announced more than 28 bytes, in which case the error is "invalid data"
    and the request is left with that length. *)
Theorem request_sends_one_report (req req' : Packet) (bus bus' : HidBus)
    (r : Result unit) :
  fu_logitech_hidpp_bootloader_request (req, bus) = (r, (req', bus')) ->
  hid_reports bus' = report_of req :: hid_reports bus /\
  (hid_count bus' = S (hid_count bus) \/ hid_count bus' = S (S (hid_count bus))) /\
  hid_replies bus' = hid_replies bus /\
  forall e, r = Failed e ->
    packet_data req' = packet_data req /\
    (req' = req \/
     (error_code e = InFwupdDomain FWUPD_ERROR_INVALID_DATA /\
      28 < packet_len req' < 2 ^ 8)).
Proof.
  intro Hrun. rewrite request_unfold in Hrun. cbv zeta in Hrun.
  destruct (hid_replies bus (hid_count bus)) as [first | e0].
  2:{ injection Hrun as <- <- <-. cbn. repeat split; auto. }
  destruct (packet_cmd req =? cmd_value FU_LOGITECH_HIDPP_BOOTLOADER_CMD_REBOOT).
  { injection Hrun as <- <- <-. cbn. repeat split; auto; discriminate. }
  destruct (hid_replies bus (S (hid_count bus))) as [response | e0].
  2:{ injection Hrun as <- <- <-. cbn. repeat split; auto. }
  destruct (negb (Z.land (nth 0 (received response) 0) 240 =? packet_cmd req)).
  { injection Hrun as <- <- <-. cbn. repeat split; auto. }
  destruct (28 <? nth 3 (received response) 0) eqn:Elen.
  - apply Z.ltb_lt in Elen. pose proof (received_byte response 3) as Hb3.
    injection Hrun as <- <- <-. cbn [hid_reports hid_count hid_replies packet_data].
    split; [reflexivity |]. split; [right; reflexivity |]. split; [reflexivity |].
    intros e He. injection He as <-. split; [reflexivity |].
    right. cbn [packet_len error_code fwupd_error]. split; [reflexivity | lia].
  - injection Hrun as <- <- <-. cbn. repeat split; auto; discriminate.
Qed.

(** Attaching sends the reboot command with a zero address, a zero length
    and no data, and succeeds exactly when that report could be sent: the
    answer of the receiver, or the lack of one, is not looked at.  The device
    is marked as waiting for replug on success and is unchanged on failure,
    where the error is that of the transfer behind both prefixes. *)
Theorem attach_sends_reboot (device : FuLogitechHidppBootloader) (bus : HidBus) :
  let out := fu_logitech_hidpp_bootloader_attach (device, bus) in
  hid_reports (snd (snd out))
  = (guint8 (cmd_value FU_LOGITECH_HIDPP_BOOTLOADER_CMD_REBOOT) :: repeat 0 31)
    :: hid_reports bus /\
  match hid_replies bus (hid_count bus) with
  | HidDone _ =>
      fst out = Ok tt /\
      flags (fst (snd out))
      = mask_add (flags device) (FwupdDeviceFlags_of FWUPD_DEVICE_FLAG_WAIT_FOR_REPLUG) /\
      fu_device_has_flag (fst (snd out)) FWUPD_DEVICE_FLAG_WAIT_FOR_REPLUG = true /\
      hid_count (snd (snd out)) = S (S (hid_count bus))
  | HidFailed e =>
      fst out
      = Failed (g_prefix_error "failed to attach back to runtime: "
                  (g_prefix_error "failed to send data: " e)) /\
      fst (snd out) = device /\
      hid_count (snd (snd out)) = S (hid_count bus)
  end.
Proof.
  intro out. subst out. unfold fu_logitech_hidpp_bootloader_attach.
  cbn [fst snd]. rewrite request_unfold. cbv zeta.
  cbn [packet_of cmd addr len data fu_logitech_hidpp_bootloader_request_new packet_cmd].
  rewrite Z.eqb_refl.
  destruct (hid_replies bus (hid_count bus)) as [first | e].
  - cbn [fst snd hid_reports hid_count]. split; [reflexivity |].
    repeat split.
    unfold fu_device_has_flag, fu_device_add_flag. cbn [flags set_flags].
    unfold FwupdDeviceFlags_of. rewrite mask_has_add, Z.eqb_refl; auto;
      apply device_flag_bit_range.
  - cbn [fst snd hid_reports hid_count]. split; [reflexivity |].
    repeat split.
Qed.

(** ** setup *)

(** The setup of the parent class, the hex reader declared in
    fu-logitech-hidpp-common.h and [fu_logitech_hidpp_format_version], which
    may return [NULL], are defined outside the sources. *)
Variable parent_setup : Result unit.
Variable fu_logitech_hidpp_buffer_read_uint8 : string -> Z.
Variable fu_logitech_hidpp_format_version : string -> Z -> Z -> Z -> option string.

(** What a [gboolean f (..., GError **error)] returns when it may return
    [FALSE] and leave [error] unset. *)
Inductive Returned : Type :=
| ReturnedTrue
| ReturnedFalse (error : option GError).

Definition set_flash (lo hi blocksize : Z) (d : FuLogitechHidppBootloader)
  : FuLogitechHidppBootloader :=
  mkBootloader lo hi blocksize (flags d) (is_signed d) (version_bootloader d)
               (protocols d) (name d) (remove_delay d).

(** [fu_device_set_version_bootloader], [fu_device_add_private_flag] for
    the is-signed flag, and [fu_device_add_protocol], which adds a protocol
    the device does not already list (libfwupdplugin). *)
Definition fu_device_set_version_bootloader (version : string)
    (d : FuLogitechHidppBootloader) : FuLogitechHidppBootloader :=
  mkBootloader (flash_addr_lo d) (flash_addr_hi d) (flash_blocksize d) (flags d)
               (is_signed d) (Some version) (protocols d) (name d)
               (remove_delay d).

Definition add_is_signed (d : FuLogitechHidppBootloader)
  : FuLogitechHidppBootloader :=
  mkBootloader (flash_addr_lo d) (flash_addr_hi d) (flash_blocksize d) (flags d)
               true (version_bootloader d) (protocols d) (name d)
               (remove_delay d).

Definition fu_device_add_protocol (protocol : string)
    (d : FuLogitechHidppBootloader) : FuLogitechHidppBootloader :=
  mkBootloader (flash_addr_lo d) (flash_addr_hi d) (flash_blocksize d) (flags d)
               (is_signed d) (version_bootloader d)
               (if existsb (String.eqb protocol) (protocols d) then protocols d
                else protocols d ++ [protocol])
               (name d) (remove_delay d).

(** [fu_memread_uint16 (buf + offset, G_BIG_ENDIAN)] (libfwupdplugin) *)
Definition fu_memread_uint16_be (buf : list Z) (offset : nat) : Z :=
  Z.shiftl (nth offset buf 0) 8 + nth (S offset) buf 0.

(** The C string at [req->data + k]: the characters from the k-th data byte
    to the first zero byte, or to the end of the data. *)
Definition text_at (req : Packet) (k : nat) : string :=
  c_string
    (string_of_list_ascii
       (map (fun b => ascii_of_N (Z.to_N b)) (skipn k (packet_data req)))).

Definition fu_logitech_hidpp_bootloader_set_bl_version
    (s : FuLogitechHidppBootloader * HidBus)
  : Returned * (FuLogitechHidppBootloader * HidBus) :=
  let self := fst s in
  let bus := snd s in
  let req := fu_logitech_hidpp_bootloader_request_new in
  (* call into hardware *)
  let req :=
    mkRequest FU_LOGITECH_HIDPP_BOOTLOADER_CMD_GET_BL_VERSION
              (addr req) (len req) (data req) in
  match fu_logitech_hidpp_bootloader_request (packet_of req, bus) with
  | (Failed e, (_, bus)) =>
      (ReturnedFalse (Some (g_prefix_error "failed to get firmware version: " e)),
       (self, bus))
  | (Ok _, (req, bus)) =>
      (* BOTxx.yy_Bzzzz
       * 012345678901234 *)
      let build :=
        guint16 (Z.shiftl
                   (guint8 (fu_logitech_hidpp_buffer_read_uint8 (text_at req 10)))
                   8) in
      let build :=
        guint16 (build
                 + guint8 (fu_logitech_hidpp_buffer_read_uint8 (text_at req 12))) in
      let major := guint8 (fu_logitech_hidpp_buffer_read_uint8 (text_at req 3)) in
      let minor := guint8 (fu_logitech_hidpp_buffer_read_uint8 (text_at req 6)) in
      match fu_logitech_hidpp_format_version "BOT" major minor build with
      | None => (ReturnedFalse None, (self, bus))
      | Some version =>
          let self := fu_device_set_version_bootloader version self in
          if ((major =? 0x01) && (0x04 <=? minor))
             || ((major =? 0x03) && (0x02 <=? minor))
          then
            (ReturnedTrue,
             (fu_device_add_protocol "com.logitech.unifyingsigned"
                (add_is_signed self), bus))
          else
            (ReturnedTrue,
             (fu_device_add_protocol "com.logitech.unifying" self, bus))
      end
  end.

Definition fu_logitech_hidpp_bootloader_setup
    (s : FuLogitechHidppBootloader * HidBus)
  : Returned * (FuLogitechHidppBootloader * HidBus) :=
  let self := fst s in
  let bus := snd s in
  let req := fu_logitech_hidpp_bootloader_request_new in
  (* FuUsbDevice->setup *)
  match parent_setup with
  | Failed e => (ReturnedFalse (Some e), (self, bus))
  | Ok _ =>
      (* get memory map *)
      let req :=
        mkRequest FU_LOGITECH_HIDPP_BOOTLOADER_CMD_GET_MEMINFO
                  (addr req) (len req) (data req) in
      match fu_logitech_hidpp_bootloader_request (packet_of req, bus) with
      | (Failed e, (_, bus)) =>
          (ReturnedFalse (Some (g_prefix_error "failed to get meminfo: " e)),
           (self, bus))
      | (Ok _, (req, bus)) =>
          if negb (packet_len req =? 0x06) then
            (ReturnedFalse
               (Some (fwupd_error FWUPD_ERROR_NOT_SUPPORTED
                        ("failed to get meminfo: invalid size "
                         ++ fmt_0x 2 (packet_len req)))),
             (self, bus))
          else
            (* parse values *)
            let self :=
              set_flash (fu_memread_uint16_be (packet_data req) 0)
                        (fu_memread_uint16_be (packet_data req) 2)
                        (fu_memread_uint16_be (packet_data req) 4) self in
            (* get bootloader version *)
            fu_logitech_hidpp_bootloader_set_bl_version (self, bus)
      end
  end.

(** *** Facts *)

Lemma request_ok_bus (req req' : Packet) (bus bus' : HidBus) :
  fu_logitech_hidpp_bootloader_request (req, bus) = (Ok tt, (req', bus')) ->
  bus' = mkHidBus (hid_replies bus) (S (S (hid_count bus)))
                  (report_of req :: hid_reports bus).
Proof.
  intro Hrun. rewrite request_unfold in Hrun. cbv zeta in Hrun.
  destruct (hid_replies bus (hid_count bus)) as [first | e]; [| discriminate Hrun].
  destruct (packet_cmd req =? cmd_value FU_LOGITECH_HIDPP_BOOTLOADER_CMD_REBOOT).
  { injection Hrun as _ <-. reflexivity. }
  destruct (hid_replies bus (S (hid_count bus))) as [response | e];
    [| discriminate Hrun].
  destruct (negb (Z.land (nth 0 (received response) 0) 240 =? packet_cmd req));
    [discriminate Hrun |].
  destruct (28 <? nth 3 (received response) 0); [discriminate Hrun |].
  injection Hrun as _ <-. reflexivity.
Qed.

Lemma add_protocol_In (protocol : string) (d : FuLogitechHidppBootloader) :
  In protocol (protocols (fu_device_add_protocol protocol d)).
Proof.
  unfold fu_device_add_protocol. cbn [protocols].
  destruct (existsb (String.eqb protocol) (protocols d)) eqn:E.
  - apply existsb_exists in E. destruct E as (x & Hin & Hx).
    apply String.eqb_eq in Hx. subst x. exact Hin.
  - apply in_or_app. right. left. reflexivity.
Qed.

Lemma set_bl_version_ok (self self' : FuLogitechHidppBootloader)
    (bus bus' : HidBus) :
  fu_logitech_hidpp_bootloader_set_bl_version (self, bus)
  = (ReturnedTrue, (self', bus')) ->
  flash_addr_lo self' = flash_addr_lo self /\
  flash_addr_hi self' = flash_addr_hi self /\
  flash_blocksize self' = flash_blocksize self /\
  flags self' = flags self /\
  (exists version, version_bootloader self' = Some version) /\
  (is_signed self' = true /\ In "com.logitech.unifyingsigned"%string (protocols self')
   \/ is_signed self' = is_signed self /\
      In "com.logitech.unifying"%string (protocols self')) /\
  bus' = mkHidBus (hid_replies bus) (S (S (hid_count bus)))
           (report_of
              (packet_of
                 (mkRequest FU_LOGITECH_HIDPP_BOOTLOADER_CMD_GET_BL_VERSION 0 0
                            (repeat 0 28)))
            :: hid_reports bus).
Proof.
  unfold fu_logitech_hidpp_bootloader_set_bl_version. cbn [fst snd].
  cbn [fu_logitech_hidpp_bootloader_request_new addr len data].
  destruct (fu_logitech_hidpp_bootloader_request _) as [[[] | e] [req' bus1]]
    eqn:Hrun; [| discriminate].
  apply request_ok_bus in Hrun. cbv zeta.
  destruct (fu_logitech_hidpp_format_version _ _ _ _) as [version |];
    [| discriminate].
  destruct (_ || _).
  - intro H. injection H as <- <-.
    repeat split; try reflexivity; try exact Hrun.
    + exists version. reflexivity.
    + left. split; [reflexivity | apply add_protocol_In].
  - intro H. injection H as <- <-.
    repeat split; try reflexivity; try exact Hrun.
    + exists version. reflexivity.
    + right. split; [reflexivity | apply add_protocol_In].
Qed.

(** The request for the memory map, as [setup] sends it. *)
Definition meminfo_request : Packet :=
  packet_of (mkRequest FU_LOGITECH_HIDPP_BOOTLOADER_CMD_GET_MEMINFO 0 0
                       (repeat 0 28)).

Definition bl_version_request : Packet :=
  packet_of (mkRequest FU_LOGITECH_HIDPP_BOOTLOADER_CMD_GET_BL_VERSION 0 0
                       (repeat 0 28)).

(** A [setup] that succeeds has sent two requests, for the memory map and
    then for the bootloader version, and made four transfers.  The answer to
    the first carried six bytes, which the device now holds as its flash
    window and block size, each a big-endian 16-bit number.  The device has a
    bootloader version and one of the two protocols, the signed one together
    with the is-signed flag; its device flags are untouched. *)
Theorem setup_reads_memory_map (self self' : FuLogitechHidppBootloader)
    (bus bus' : HidBus) :
  cmd_value FU_LOGITECH_HIDPP_BOOTLOADER_CMD_GET_MEMINFO
  <> cmd_value FU_LOGITECH_HIDPP_BOOTLOADER_CMD_REBOOT ->
  fu_logitech_hidpp_bootloader_setup (self, bus) = (ReturnedTrue, (self', bus')) ->
  exists meminfo,
    hid_replies bus (S (hid_count bus)) = HidDone meminfo /\
    guint8 (nth 3 meminfo 0) = 6 /\
    flash_addr_lo self'
    = guint8 (nth 4 meminfo 0) * 256 + guint8 (nth 5 meminfo 0) /\
    flash_addr_hi self'
    = guint8 (nth 6 meminfo 0) * 256 + guint8 (nth 7 meminfo 0) /\
    flash_blocksize self'
    = guint8 (nth 8 meminfo 0) * 256 + guint8 (nth 9 meminfo 0) /\
    (exists version, version_bootloader self' = Some version) /\
    (is_signed self' = true /\
     In "com.logitech.unifyingsigned"%string (protocols self')
     \/ is_signed self' = is_signed self /\
        In "com.logitech.unifying"%string (protocols self')) /\
    flags self' = flags self /\
    hid_count bus' = S (S (S (S (hid_count bus)))) /\
    hid_reports bus'
    = report_of bl_version_request :: report_of meminfo_request :: hid_reports bus.
Proof.
  intros Hcmd. unfold fu_logitech_hidpp_bootloader_setup. cbn [fst snd].
  cbn [fu_logitech_hidpp_bootloader_request_new addr len data].
  destruct parent_setup as [[] | e]; [| discriminate].
  fold meminfo_request.
  destruct (fu_logitech_hidpp_bootloader_request (meminfo_request, bus))
    as [[[] | e] [req' bus1]] eqn:Hrun; [| discriminate].
  pose proof (request_ok_bus _ _ _ _ Hrun) as Hbus.
  apply request_response_ok in Hrun; [| exact Hcmd].
  destruct Hrun as (meminfo & Hreply & _ & _ & _ & _ & _ & Hlen & _ & _ & Hdata).
  destruct (Z.eqb_spec (packet_len req') 6) as [Hsix | Hsix]; cbn [negb];
    [| discriminate].
  intro H. apply set_bl_version_ok in H.
  destruct H as (Hlo & Hhi & Hbs & Hfl & Hver & Hsigned & ->).
  cbn [flash_addr_lo flash_addr_hi flash_blocksize flags is_signed set_flash] in *.
  assert (Hbyte : forall i, (i < 6)%nat ->
            nth i (packet_data req') 0 = guint8 (nth (4 + i) meminfo 0)).
  { intros i Hi. rewrite Hdata by lia. rewrite Hsix.
    destruct (Z.ltb_spec (Z.of_nat i) 6); [reflexivity | lia]. }
  assert (Hword : forall i, (S i < 6)%nat ->
            fu_memread_uint16_be (packet_data req') i
            = guint8 (nth (4 + i) meminfo 0) * 256
              + guint8 (nth (4 + S i) meminfo 0)).
  { intros i Hi. unfold fu_memread_uint16_be.
    rewrite !Hbyte by lia. rewrite Z.shiftl_mul_pow2 by lia. reflexivity. }
  exists meminfo. subst bus1.
  cbn [hid_replies hid_count hid_reports].
  rewrite Hlo, Hhi, Hbs, !Hword by lia.
  repeat split; try reflexivity; try assumption.
  congruence.
Qed.

(** When the answer to the memory-map request announces a length other than
    six, [setup] fails and has neither changed the device nor asked for the
    bootloader version: with "not supported" and the length in the message
    when the length is at most 28, with "invalid data" when it is more. *)
Theorem setup_rejects_meminfo_size (self : FuLogitechHidppBootloader)
    (bus : HidBus) (first meminfo : list Z) :
  parent_setup = Ok tt ->
  cmd_value FU_LOGITECH_HIDPP_BOOTLOADER_CMD_GET_MEMINFO
  <> cmd_value FU_LOGITECH_HIDPP_BOOTLOADER_CMD_REBOOT ->
  hid_replies bus (hid_count bus) = HidDone first ->
  hid_replies bus (S (hid_count bus)) = HidDone meminfo ->
  Z.land (guint8 (nth 0 meminfo 0)) 0xf0
  = cmd_value FU_LOGITECH_HIDPP_BOOTLOADER_CMD_GET_MEMINFO ->
  guint8 (nth 3 meminfo 0) <> 6 ->
  exists e,
    fu_logitech_hidpp_bootloader_setup (self, bus)
    = (ReturnedFalse (Some e),
       (self, mkHidBus (hid_replies bus) (S (S (hid_count bus)))
                       (report_of meminfo_request :: hid_reports bus))) /\
    (guint8 (nth 3 meminfo 0) <= 28 ->
     e = fwupd_error FWUPD_ERROR_NOT_SUPPORTED
           ("failed to get meminfo: invalid size "
            ++ fmt_0x 2 (guint8 (nth 3 meminfo 0)))) /\
    (28 < guint8 (nth 3 meminfo 0) ->
     e = fwupd_error FWUPD_ERROR_INVALID_DATA
           ("failed to get meminfo: invalid data size of "
            ++ fmt_0x 2 (guint8 (nth 3 meminfo 0)))).
Proof.
  intros Hparent Hcmd Hfirst Hsecond Hhigh Hlen.
  unfold fu_logitech_hidpp_bootloader_setup. cbn [fst snd].
  cbn [fu_logitech_hidpp_bootloader_request_new addr len data].
  rewrite Hparent. fold meminfo_request.
  rewrite request_unfold. cbv zeta. rewrite Hfirst, Hsecond.
  apply Z.eqb_neq in Hcmd.
  replace (packet_cmd meminfo_request)
    with (cmd_value FU_LOGITECH_HIDPP_BOOTLOADER_CMD_GET_MEMINFO) by reflexivity.
  rewrite Hcmd. rewrite !received_nth by lia.
  rewrite Hhigh, Z.eqb_refl. cbn [negb].
  destruct (Z.ltb_spec 28 (guint8 (nth 3 meminfo 0))) as [Hlong | Hshort].
  - eexists. split; [reflexivity |]. split; [lia | intros _; reflexivity].
  - cbn [packet_len].
    destruct (Z.eqb_spec (guint8 (nth 3 meminfo 0)) 6) as [Hsix | _];
      [contradiction |]. cbn [negb].
    eexists. split; [reflexivity |]. split; [intros _; reflexivity | lia].
Qed.

End Request.

(** The values of the commands in fu-logitech-hidpp-struct.h. *)
Definition sample_cmd_value (c : FuLogitechHidppBootloaderCmd) : Z :=
  match c with
  | FU_LOGITECH_HIDPP_BOOTLOADER_CMD_ZERO => 0x00
  | FU_LOGITECH_HIDPP_BOOTLOADER_CMD_REBOOT => 0x70
  | FU_LOGITECH_HIDPP_BOOTLOADER_CMD_GET_MEMINFO => 0x80
  | FU_LOGITECH_HIDPP_BOOTLOADER_CMD_GET_BL_VERSION => 0x90
  | FU_LOGITECH_HIDPP_BOOTLOADER_CMD_WRITE_RAM_BUFFER => 0xc0
  | FU_LOGITECH_HIDPP_BOOTLOADER_CMD_WRITE_SIGNATURE => 0xe0
  end.

(** A receiver that takes the report and answers the memory-information
    request with six bytes: flash from 0x0400 to 0x6bff in blocks of 0x80. *)
Definition sample_receiver : HidBus :=
  mkHidBus (fun n => match n with
                     | 1%nat => HidDone [0x80; 0x00; 0x00; 0x06;
                                         0x04; 0x00; 0x6b; 0xff; 0x00; 0x80]
                     | _ => HidDone []
                     end)
           0 [].

Definition sample_meminfo : Packet :=
  packet_of sample_cmd_value
    (mkRequest FU_LOGITECH_HIDPP_BOOTLOADER_CMD_GET_MEMINFO 0 0 (repeat 0 28)).

Definition sample_meminfo_answer : Packet :=
  mkPacket 0x80 0 6 ([0x04; 0x00; 0x6b; 0xff; 0x00; 0x80] ++ repeat 0 22).

Example sample_meminfo_request :
  fst (fu_logitech_hidpp_bootloader_request sample_cmd_value
         (sample_meminfo, sample_receiver)) = Ok tt /\
  fst (snd (fu_logitech_hidpp_bootloader_request sample_cmd_value
              (sample_meminfo, sample_receiver))) = sample_meminfo_answer.
Proof. vm_compute. split; reflexivity. Qed.

Lemma request_reads_response_witness :
  packet_cmd sample_meminfo
  <> sample_cmd_value FU_LOGITECH_HIDPP_BOOTLOADER_CMD_REBOOT /\
  fst (fu_logitech_hidpp_bootloader_request sample_cmd_value
         (sample_meminfo, sample_receiver)) = Ok tt /\
  Z.land (packet_cmd sample_meminfo_answer) 0xf0 = packet_cmd sample_meminfo /\
  packet_len sample_meminfo_answer <= 28 /\
  length (packet_data sample_meminfo_answer) = 28%nat.
Proof.
  assert (Hcmd : packet_cmd sample_meminfo
                 <> sample_cmd_value FU_LOGITECH_HIDPP_BOOTLOADER_CMD_REBOOT)
    by (vm_compute; discriminate).
  destruct (fu_logitech_hidpp_bootloader_request sample_cmd_value
              (sample_meminfo, sample_receiver)) as [r [req' bus']] eqn:Hrun.
  assert (Hout : r = Ok tt /\ req' = sample_meminfo_answer).
  { vm_compute in Hrun. injection Hrun as <- <- _. split; reflexivity. }
  destruct Hout as [-> ->].
  destruct (request_reads_response sample_cmd_value sample_meminfo
              sample_meminfo_answer sample_receiver bus' Hcmd Hrun)
    as (response & _ & _ & _ & _ & Hhigh & _ & _ & Hlen & Hdata & _).
  repeat split; assumption.
Defined.

(** A receiver that answers the memory-information request with a length of
    0x20. *)
Definition overlong_receiver : HidBus :=
  mkHidBus (fun _ => HidDone [0x80; 0x00; 0x00; 0x20]) 0 [].

Lemma request_sends_one_report_witness :
  hid_reports (snd (snd (fu_logitech_hidpp_bootloader_request sample_cmd_value
                           (sample_meminfo, overlong_receiver))))
  = [report_of sample_meminfo] /\
  packet_data (fst (snd (fu_logitech_hidpp_bootloader_request sample_cmd_value
                           (sample_meminfo, overlong_receiver))))
  = packet_data sample_meminfo /\
  packet_len (fst (snd (fu_logitech_hidpp_bootloader_request sample_cmd_value
                          (sample_meminfo, overlong_receiver)))) = 0x20.
Proof.
  destruct (fu_logitech_hidpp_bootloader_request sample_cmd_value
              (sample_meminfo, overlong_receiver)) as [r [req' bus']] eqn:Hrun.
  destruct (request_sends_one_report sample_cmd_value sample_meminfo req'
              overlong_receiver bus' r Hrun) as (Hreports & _ & _ & Hfailed).
  assert (Hout : r = Failed (fwupd_error FWUPD_ERROR_INVALID_DATA
                               "invalid data size of 20")
                 /\ packet_len req' = 0x20).
  { vm_compute in Hrun. injection Hrun as <- <- _. split; reflexivity. }
  destruct Hout as [Hr Hlen].
  destruct (Hfailed _ Hr) as [Hdata _].
  cbn [fst snd]. repeat split; assumption.
Defined.

(** ["%s%02x.%02x_B%04x"] *)
Definition sample_format_version (name : string) (major minor build : Z)
  : option string :=
  Some (name ++ fmt_0x 2 major ++ "." ++ fmt_0x 2 minor ++ "_B" ++ fmt_0x 4 build)%string.

(** A receiver with flash from 0x0400 to 0x6bff in blocks of 0x80 whose
    bootloader is BOT03.02_B0015. *)
Definition signed_receiver : HidBus :=
  mkHidBus (fun n => match n with
                     | 1%nat => HidDone [0x80; 0x00; 0x00; 0x06;
                                         0x04; 0x00; 0x6b; 0xff; 0x00; 0x80]
                     | 3%nat => HidDone [0x90; 0x00; 0x00; 0x0e;
                                         0x42; 0x4f; 0x54; 0x30; 0x33; 0x2e; 0x30;
                                         0x32; 0x5f; 0x42; 0x30; 0x30; 0x31; 0x35]
                     | _ => HidDone []
                     end)
           0 [].

Definition sample_bootloader_setup (bus : HidBus)
  : Returned * (FuLogitechHidppBootloader * HidBus) :=
  fu_logitech_hidpp_bootloader_setup sample_cmd_value (Ok tt) sample_read_uint8
    sample_format_version
    (mkBootloader 0 0 0 0 false None [] "Unifying Receiver" 30000, bus).

Example sample_bootloader_setup_result :
  fst (sample_bootloader_setup signed_receiver) = ReturnedTrue /\
  fst (snd (sample_bootloader_setup signed_receiver))
  = mkBootloader 0x0400 0x6bff 0x0080 0 true (Some "BOT03.02_B0015"%string)
                 ["com.logitech.unifyingsigned"%string] "Unifying Receiver" 30000.
Proof. vm_compute. split; reflexivity. Qed.

Lemma setup_reads_memory_map_witness :
  fst (sample_bootloader_setup signed_receiver) = ReturnedTrue /\
  exists meminfo,
    hid_replies signed_receiver 1 = HidDone meminfo /\
    flash_addr_lo (fst (snd (sample_bootloader_setup signed_receiver)))
    = guint8 (nth 4 meminfo 0) * 256 + guint8 (nth 5 meminfo 0) /\
    flash_addr_hi (fst (snd (sample_bootloader_setup signed_receiver)))
    = guint8 (nth 6 meminfo 0) * 256 + guint8 (nth 7 meminfo 0) /\
    flash_blocksize (fst (snd (sample_bootloader_setup signed_receiver)))
    = guint8 (nth 8 meminfo 0) * 256 + guint8 (nth 9 meminfo 0).
Proof.
  destruct (sample_bootloader_setup signed_receiver) as [r [self' bus']] eqn:Hrun.
  assert (Hr : r = ReturnedTrue).
  { vm_compute in Hrun. injection Hrun as <- _ _. reflexivity. }
  split; [exact Hr |]. subst r. unfold sample_bootloader_setup in Hrun.
  assert (Hcmd : sample_cmd_value FU_LOGITECH_HIDPP_BOOTLOADER_CMD_GET_MEMINFO
                 <> sample_cmd_value FU_LOGITECH_HIDPP_BOOTLOADER_CMD_REBOOT)
    by (vm_compute; discriminate).
  destruct (setup_reads_memory_map sample_cmd_value (Ok tt) sample_read_uint8
              sample_format_version _ self' signed_receiver bus' Hcmd Hrun)
    as (meminfo & Hreply & _ & Hlo & Hhi & Hbs & _).
  exists meminfo. cbn [fst snd]. repeat split; assumption.
Defined.

Lemma setup_rejects_meminfo_size_witness :
  exists e,
    sample_bootloader_setup overlong_receiver
    = (ReturnedFalse (Some e),
       (mkBootloader 0 0 0 0 false None [] "Unifying Receiver" 30000,
        mkHidBus (hid_replies overlong_receiver) 2
                 [report_of (meminfo_request sample_cmd_value)])) /\
    e = fwupd_error FWUPD_ERROR_INVALID_DATA
          "failed to get meminfo: invalid data size of 20".
Proof.
  assert (Hcmd : sample_cmd_value FU_LOGITECH_HIDPP_BOOTLOADER_CMD_GET_MEMINFO
                 <> sample_cmd_value FU_LOGITECH_HIDPP_BOOTLOADER_CMD_REBOOT)
    by (vm_compute; discriminate).
  assert (Hlen : guint8 (nth 3 [0x80; 0x00; 0x00; 0x20] 0) <> 6)
    by (vm_compute; discriminate).
  destruct (setup_rejects_meminfo_size sample_cmd_value (Ok tt) sample_read_uint8
              sample_format_version
              (mkBootloader 0 0 0 0 false None [] "Unifying Receiver" 30000)
              overlong_receiver [0x80; 0x00; 0x00; 0x20] [0x80; 0x00; 0x00; 0x20]
              eq_refl Hcmd eq_refl eq_refl eq_refl Hlen)
    as (e & Hrun & _ & Hlong).
  exists e. split; [exact Hrun |].
  apply Hlong. vm_compute. reflexivity.
Defined.

End FuLogitechHidpp.

(* ------------------------------------------------------------------------- *)
(** * What the two command-line front ends share                              *)
(* ------------------------------------------------------------------------- *)

Module FuUtilCommon.
Import Fwupd.

(** [EXIT_SUCCESS] and [EXIT_FAILURE] of the C library. *)
Definition EXIT_SUCCESS : Z := 0.
Definition EXIT_FAILURE : Z := 1.

(** Modelled from the spec: the further exit codes are declared in
    fu-util-common.h, which is not among the sources; the values are those of
    the CLI surface: 2 nothing-to-do, 3 not-reachable, 4 not-found. *)
Definition EXIT_NOTHING_TO_DO : Z := 2.
Definition EXIT_NOT_REACHABLE : Z := 3.
Definition EXIT_NOT_FOUND : Z := 4.

(** The fields of a [FwupdDevice] that the front ends read.  A [const gchar *]
    that may be [NULL] is an [option]. *)
Record FwupdDevice : Type := mkFwupdDevice {
  device_id : string;
  device_name : string;
  device_version : string;
  device_version_format : Z;
  device_branch : option string;
  device_flags : Z;
  device_update_error : option string
}.

(** The fields of a [FwupdRelease] that the front ends read. *)
Record FwupdRelease : Type := mkFwupdRelease {
  release_version : string;
  release_branch : option string;
  release_flags : Z;
  release_remote_id : option string;
  release_locations : list string
}.

Inductive FwupdRemoteKind : Type :=
| FWUPD_REMOTE_KIND_UNKNOWN
| FWUPD_REMOTE_KIND_DOWNLOAD
| FWUPD_REMOTE_KIND_LOCAL
| FWUPD_REMOTE_KIND_DIRECTORY.

Record FwupdRemote : Type := mkFwupdRemote {
  remote_kind : FwupdRemoteKind;
  remote_filename_cache : string;
  remote_automatic_reports : bool
}.

Inductive FuUtilOperation : Type :=
| FU_UTIL_OPERATION_UNKNOWN
| FU_UTIL_OPERATION_UPDATE
| FU_UTIL_OPERATION_DOWNGRADE
| FU_UTIL_OPERATION_INSTALL
| FU_UTIL_OPERATION_READ.

(** One hand-over of a release to the installer, with the install flags in
    force at that moment. *)
Record InstallCall : Type := mkInstallCall {
  install_device : FwupdDevice;
  install_release : FwupdRelease;
  install_flags : Z
}.

(** [fwupd_device_has_flag (dev, flag)] *)
Definition fwupd_device_has_flag (dev : FwupdDevice) (f : FwupdDeviceFlag) : bool :=
  mask_has (device_flags dev) (FwupdDeviceFlags_of f).

(** [g_strcmp0 (a, b) == 0]: two [NULL]s are equal, [NULL] differs from every
    string. *)
Definition g_str_equal0 (a b : option string) : bool :=
  match a, b with
  | None, None => true
  | Some x, Some y => String.eqb x y
  | _, _ => false
  end.

Lemma g_str_equal0_eq (a b : option string) :
  g_str_equal0 a b = true <-> a = b.
Proof.
  destruct a as [x |], b as [y |]; simpl; split; intro H;
    try reflexivity; try discriminate H.
  - apply String.eqb_eq in H. now subst.
  - injection H as ->. apply String.eqb_refl.
Qed.

(** [g_strv_length (values)] *)
Definition g_strv_length (values : list string) : Z := Z.of_nat (length values).

(** The first element of a pointer array for which [p] holds, as the loops
    [for (j = 0; j < rels->len; j++) if (p) { rel = ...; break; }] find it. *)
Definition first_match {A : Type} (p : A -> bool) (l : list A) : option A :=
  find p l.

(** How a fallible command ended: [ret] is [TRUE], or it is [FALSE] and
    [error] is set, or, against the convention, left [NULL]. *)
Inductive CommandResult : Type :=
| CommandOk
| CommandFailed (error : option GError).

(** [fu_util_print_error (self, error)], the same in both front ends: with
    [as_json] the error is handed to [fu_util_print_error_as_json]; without,
    [error->message] is printed, which reads through the pointer, so that the
    call has no result ([None]) when [error] is [NULL].

    Modelled from the spec: [fu_util_print_error_as_json] is part of
    fu-util-common.c, which is not among the sources; it prints a set error
    and returns, and [json_null_error] stands for what it does with a [NULL]
    one ([Some tt] when it returns). *)
Definition fu_util_print_error (json_null_error : option unit) (as_json : bool)
    (error : option GError) : option unit :=
  if as_json
  then match error with
       | Some _ => Some tt
       | None => json_null_error
       end
  else match error with
       | Some _ => Some tt
       | None => None
       end.

(** [g_error_matches (error, FWUPD_ERROR, code)] on an error that may be
    [NULL]: [FALSE] for [NULL]. *)
Definition g_error_matches0 (error : option GError) (code : FwupdError) : bool :=
  match error with
  | Some e => g_error_matches e code
  | None => false
  end.

(** The tail of both [main] functions, after [fu_util_cmd_array_run]. The
    check of [error == NULL] is compiled only with [SUPPORTED_BUILD]; without
    it an unset error goes to [fu_util_print_error]. [None] is a run in which
    [main] returns no exit code. *)
Definition exit_after_command (SUPPORTED_BUILD : bool)
    (json_null_error : option unit) (as_json : bool) (ret : CommandResult) :
    option Z :=
  match ret with
  | CommandOk => Some EXIT_SUCCESS
  | CommandFailed error =>
      if SUPPORTED_BUILD && match error with None => true | Some _ => false end
      then Some EXIT_FAILURE
      else
        match fu_util_print_error json_null_error as_json error with
        | None => None
        | Some _ =>
            Some
              (if negb as_json && g_error_matches0 error FWUPD_ERROR_INVALID_ARGS
               then EXIT_FAILURE
               else if g_error_matches0 error FWUPD_ERROR_NOTHING_TO_DO
               then EXIT_NOTHING_TO_DO
               else if g_error_matches0 error FWUPD_ERROR_NOT_REACHABLE
               then EXIT_NOT_REACHABLE
               else if g_error_matches0 error FWUPD_ERROR_NOT_FOUND
               then EXIT_NOT_FOUND
               else EXIT_FAILURE)
        end
  end.

(** ** The outcome of an invocation, and the exit code the CLI surface
       assigns to it *)

Inductive Outcome : Type :=
| Succeeded
| SetupFailed (error : GError)
| CommandError (error : option GError).


Definition outcome_of_command (ret : CommandResult) : Outcome :=
  match ret with
  | CommandOk => Succeeded
  | CommandFailed error => CommandError error
  end.



(** Without the check an unset error is read when it is printed as text. *)
Lemma exit_after_command_null (json_null_error : option unit) :
  exit_after_command false json_null_error false (CommandFailed None) = None.
Proof. reflexivity. Qed.

(** ** Reading a run backwards *)

Lemma bind_inv {S A B : Type} (m : Run S A) (k : A -> Run S B) (s s' : S)
    (r : Result B) :
  bind m k s = (r, s') ->
  (exists a s1, m s = (Ok a, s1) /\ k a s1 = (r, s')) \/
  (exists e, m s = (Failed e, s') /\ r = Failed e).
Proof.
  unfold bind. destruct (m s) as [[a | e] s1]; intro H.
  - left. exists a, s1. auto.
  - right. exists e. injection H as <- <-. auto.
Qed.

Lemma lift_result_inv {S A : Type} (x : Result A) (s s' : S) (r : Result A) :
  lift_result x s = (r, s') -> r = x /\ s' = s.
Proof. unfold lift_result. intro H. injection H as <- <-. auto. Qed.

Lemma modify_inv {S : Type} (f : S -> S) (s s' : S) (r : Result unit) :
  modify f s = (r, s') -> r = Ok tt /\ s' = f s.
Proof. unfold modify. intro H. injection H as <- <-. auto. Qed.

Lemma get_inv {S : Type} (s s' : S) (r : Result S) :
  get s = (r, s') -> r = Ok s /\ s' = s.
Proof. unfold get. intro H. injection H as <- <-. auto. Qed.

Lemma fail_inv {S A : Type} (e : GError) (s s' : S) (r : Result A) :
  fail e s = (r, s') -> r = Failed e /\ s' = s.
Proof. unfold fail. intro H. injection H as <- <-. auto. Qed.

Lemma ret_any_inv {S A : Type} (a : A) (s s' : S) (r : Result A) :
  ret a s = (r, s') -> r = Ok a /\ s' = s.
Proof. unfold ret. intro H. injection H as <- <-. auto. Qed.

Lemma with_prefix_inv {S A : Type} (prefix : string) (m : Run S A) (s s' : S)
    (r : Result A) :
  with_prefix prefix m s = (r, s') ->
  (exists a, m s = (Ok a, s') /\ r = Ok a) \/
  (exists e, m s = (Failed e, s') /\ r = Failed (g_prefix_error prefix e)).
Proof.
  unfold with_prefix. destruct (m s) as [[a | e] s1]; intro H;
    injection H as <- <-; eauto.
Qed.

End FuUtilCommon.

(* ------------------------------------------------------------------------- *)
(** * src/fu-tool.c (fwupdtool)                                               *)
(* ------------------------------------------------------------------------- *)

Module FuTool.
Import Fwupd FuUtilCommon.
Local Open Scope run_scope.

(** Modelled from the spec: the [FU_ENGINE_LOAD_FLAG_*] constants are declared
    in fu-engine.h, which is not among the sources.  Each is one bit of the
    mask; they are numbered here in the order in which fu-tool.c first uses
    them. *)
Inductive FuEngineLoadFlag : Type :=
| FU_ENGINE_LOAD_FLAG_NO_IDLE_SOURCES
| FU_ENGINE_LOAD_FLAG_BUILTIN_PLUGINS
| FU_ENGINE_LOAD_FLAG_EXTERNAL_PLUGINS
| FU_ENGINE_LOAD_FLAG_HWINFO
| FU_ENGINE_LOAD_FLAG_COLDPLUG
| FU_ENGINE_LOAD_FLAG_DEVICE_HOTPLUG
| FU_ENGINE_LOAD_FLAG_REMOTES.

Definition engine_load_flag_bit (f : FuEngineLoadFlag) : Z :=
  match f with
  | FU_ENGINE_LOAD_FLAG_NO_IDLE_SOURCES => 0
  | FU_ENGINE_LOAD_FLAG_BUILTIN_PLUGINS => 1
  | FU_ENGINE_LOAD_FLAG_EXTERNAL_PLUGINS => 2
  | FU_ENGINE_LOAD_FLAG_HWINFO => 3
  | FU_ENGINE_LOAD_FLAG_COLDPLUG => 4
  | FU_ENGINE_LOAD_FLAG_DEVICE_HOTPLUG => 5
  | FU_ENGINE_LOAD_FLAG_REMOTES => 6
  end.

Definition FuEngineLoadFlags_of (f : FuEngineLoadFlag) : Z :=
  bit_mask (engine_load_flag_bit f).

(** What fwupdtool finds on the machine it runs on: the build options, the
    process identity, the file system and its locks, and the engine.  The
    functions are those that fu-tool.c calls and that are defined elsewhere;
    each returns what the call returns. *)
Record Host : Type := mkHost {
  HAVE_WRLCK : bool;
  HAVE_GETUID : bool;
  getuid : Z;
  geteuid : Z;
  fu_util_get_user_cache_path : string -> string;
  fu_path_from_kind_lockdir : string;
  fu_path_mkdir_parent : string -> Result unit;
  (** [g_open (filename, O_RDWR | O_CREAT, S_IRWXU)]: a descriptor, or a
      negative number *)
  g_open : string -> Z;
  (** [fcntl (fd, F_OFD_SETLK, &lockp)], or [F_SETLK] without [HAVE_OFD]:
      negative when the write lock is not granted *)
  fcntl_setlk : Z -> Z;
  fu_engine_load : Z -> Result unit;
  fu_util_get_device : string -> Result FwupdDevice;
  fu_engine_get_releases_for_device : FwupdDevice -> Result (list FwupdRelease);
  fu_engine_get_remote_by_id : string -> Result FwupdRemote;
  fu_util_is_url : string -> bool;
  g_path_get_dirname : string -> string;
  fwupd_remote_build_firmware_uri : FwupdRemote -> string -> Result string;
  (** [fu_util_install (self, argv, error)] with [self->flags] as they are
      when it is called *)
  fu_util_install : list string -> Z -> Result unit;
  fu_util_prompt_complete : Result unit;
  (** [_ (msgid)], that is [gettext (msgid)]: the message in the language of
      the process *)
  gettext : string -> string
}.

(** The fields of [struct FuUtil] that the embedded functions use, the state
    of the engine it owns, and the installs handed over so far (newest
    first). *)
Record FuUtil : Type := mkFuUtil {
  as_json : bool;
  no_reboot_check : bool;
  flags : Z;
  lock_fd : Z;
  current_operation : FuUtilOperation;
  filter_release_include : Z;
  filter_release_exclude : Z;
  engine_loaded : bool;
  installs : list InstallCall
}.

Definition set_flags (v : Z) (self : FuUtil) : FuUtil :=
  mkFuUtil (as_json self) (no_reboot_check self) v (lock_fd self)
           (current_operation self) (filter_release_include self)
           (filter_release_exclude self) (engine_loaded self) (installs self).

Definition set_lock_fd (v : Z) (self : FuUtil) : FuUtil :=
  mkFuUtil (as_json self) (no_reboot_check self) (flags self) v
           (current_operation self) (filter_release_include self)
           (filter_release_exclude self) (engine_loaded self) (installs self).

Definition set_current_operation (v : FuUtilOperation) (self : FuUtil) : FuUtil :=
  mkFuUtil (as_json self) (no_reboot_check self) (flags self) (lock_fd self)
           v (filter_release_include self)
           (filter_release_exclude self) (engine_loaded self) (installs self).

Definition set_engine_loaded (v : bool) (self : FuUtil) : FuUtil :=
  mkFuUtil (as_json self) (no_reboot_check self) (flags self) (lock_fd self)
           (current_operation self) (filter_release_include self)
           (filter_release_exclude self) v (installs self).

Definition log_install (c : InstallCall) (self : FuUtil) : FuUtil :=
  mkFuUtil (as_json self) (no_reboot_check self) (flags self) (lock_fd self)
           (current_operation self) (filter_release_include self)
           (filter_release_exclude self) (engine_loaded self)
           (c :: installs self).

(** [g_build_filename (dir, name, NULL)] for a directory written without a
    trailing separator. *)
Definition g_build_filename (dir name : string) : string :=
  String.append dir (String.append "/" name).

(** The local [lockfn] of [fu_util_lock]: the per-user cache path unless the
    process is root. *)
Definition lockfn (h : Host) : string :=
  let use_user :=
    HAVE_GETUID h && (negb (getuid h =? 0) || negb (geteuid h =? 0)) in
  if use_user then fu_util_get_user_cache_path h "fwupdtool"
  else g_build_filename (fu_path_from_kind_lockdir h) "fwupdtool".

Definition fu_util_lock (h : Host) : Run FuUtil unit :=
  if HAVE_WRLCK h then
    lift_result (fu_path_mkdir_parent h (lockfn h)) ;;;
    modify (set_lock_fd (g_open h (lockfn h))) ;;;
    self <- get ;;
    if lock_fd self <? 0 then
      fail (fwupd_error FWUPD_ERROR_NOT_SUPPORTED
              (String.append "failed to open " (lockfn h)))
    else if fcntl_setlk h (lock_fd self) <? 0 then
      fail (fwupd_error FWUPD_ERROR_NOT_SUPPORTED
              (String.append "another instance has locked " (lockfn h)))
    else ret tt
  else ret tt.

(** The attempt to stop the daemon under [HAVE_SYSTEMD] cannot fail the
    function and is left out, as are the warnings printed after the load and
    the properties copied to the client. *)
Definition fu_util_start_engine (h : Host) (load_flags : Z) : Run FuUtil unit :=
  self <- get ;;
  if engine_loaded self then ret tt
  else
    with_prefix (String.append (gettext h "Failed to lock") ": ")
                (fu_util_lock h) ;;;
    let load_flags :=
      mask_add (mask_add (mask_add load_flags
        (FuEngineLoadFlags_of FU_ENGINE_LOAD_FLAG_NO_IDLE_SOURCES))
        (FuEngineLoadFlags_of FU_ENGINE_LOAD_FLAG_BUILTIN_PLUGINS))
        (FuEngineLoadFlags_of FU_ENGINE_LOAD_FLAG_EXTERNAL_PLUGINS) in
    lift_result (fu_engine_load h load_flags) ;;;
    modify (set_engine_loaded true).

(** [uri_tmp + 7] *)
Definition skip7 (s : string) : string :=
  String.substring 7 (String.length s - 7) s.

Definition fu_util_install_release (h : Host) (dev : FwupdDevice)
    (rel : FwupdRelease) : Run FuUtil unit :=
  if negb (fwupd_device_has_flag dev FWUPD_DEVICE_FLAG_UPDATABLE) then
    fail (fwupd_error FWUPD_ERROR_NOTHING_TO_DO
            (String.append (device_name dev)
               (String.append " is not currently updatable: "
                  (match device_update_error dev with
                   | Some s => s
                   | None => "(null)"
                   end))))
  else
    match release_locations rel with
    | [] => fail (fwupd_error FWUPD_ERROR_INVALID_FILE "release missing URI")
    | uri_tmp :: _ =>
        match release_remote_id rel with
        | None =>
            fail (fwupd_error FWUPD_ERROR_INVALID_FILE
                    (String.append "failed to find remote for " uri_tmp))
        | Some remote_id =>
            remote <- lift_result (fu_engine_get_remote_by_id h remote_id) ;;
            let argv :=
              match remote_kind remote with
              | FWUPD_REMOTE_KIND_LOCAL =>
                  if negb (fu_util_is_url h uri_tmp) then
                    [g_build_filename
                       (g_path_get_dirname h (remote_filename_cache remote))
                       uri_tmp]
                  else
                    match fwupd_remote_build_firmware_uri h remote uri_tmp with
                    | Ok uri => [uri]
                    | Failed _ => []
                    end
              | FWUPD_REMOTE_KIND_DIRECTORY => [skip7 uri_tmp]
              | _ =>
                  match fwupd_remote_build_firmware_uri h remote uri_tmp with
                  | Ok uri => [uri]
                  | Failed _ => []
                  end
              end in
            self <- get ;;
            modify (log_install (mkInstallCall dev rel (flags self))) ;;;
            lift_result (fu_util_install h argv (flags self))
        end
    end.

Section Reinstall.

(** [fu_version_compare] (libfwupdplugin) and [fwupd_release_match_flags]
    (libfwupd) are defined outside the sources. *)
Variable fu_version_compare : string -> string -> Z -> Z.
Variable fwupd_release_match_flags : FwupdRelease -> Z -> Z -> bool.

(** The test of the release loop of [fu_util_reinstall]. *)
Definition same_version (self : FuUtil) (dev : FwupdDevice) (rel_tmp : FwupdRelease)
  : bool :=
  fwupd_release_match_flags rel_tmp (filter_release_include self)
                            (filter_release_exclude self)
  && (fu_version_compare (release_version rel_tmp) (device_version dev)
                         (device_version_format dev) =? 0).

Definition fu_util_reinstall (h : Host) (values : list string) : Run FuUtil unit :=
  match values with
  | [id] =>
      fu_util_start_engine h
        (mask_add (mask_add (mask_add
           (FuEngineLoadFlags_of FU_ENGINE_LOAD_FLAG_COLDPLUG)
           (FuEngineLoadFlags_of FU_ENGINE_LOAD_FLAG_DEVICE_HOTPLUG))
           (FuEngineLoadFlags_of FU_ENGINE_LOAD_FLAG_REMOTES))
           (FuEngineLoadFlags_of FU_ENGINE_LOAD_FLAG_HWINFO)) ;;;
      dev <- lift_result (fu_util_get_device h id) ;;
      rels <- lift_result (fu_engine_get_releases_for_device h dev) ;;
      self <- get ;;
      match first_match (same_version self dev) rels with
      | None =>
          fail (fwupd_error FWUPD_ERROR_NOT_SUPPORTED
                  (String.append "Unable to locate release for "
                     (String.append (device_name dev)
                        (String.append " version " (device_version dev)))))
      | Some rel =>
          modify (set_current_operation FU_UTIL_OPERATION_INSTALL) ;;;
          modify (fun self =>
                    set_flags (mask_add (flags self)
                      (FwupdInstallFlags_of FWUPD_INSTALL_FLAG_ALLOW_REINSTALL))
                      self) ;;;
          fu_util_install_release h dev rel ;;;
          self <- get ;;
          if no_reboot_check self then ret tt
          else lift_result (fu_util_prompt_complete h)
      end
  | _ => fail (fwupd_error FWUPD_ERROR_INVALID_ARGS "Invalid arguments")
  end.

End Reinstall.

(** ** [main] *)

(** What the stages of [main] meet in one invocation: whether the program was
    built with [SUPPORTED_BUILD], the outcome of parsing the options (which
    also sets [as_json]), of parsing [--filter] and [--filter-release] when
    given, whether [--version] was given and how [fu_util_version] ended, and
    how the command ended. [fu_util_print_error_as_json_null] is what
    [fu_util_print_error_as_json] does with a [NULL] error, see
    [fu_util_print_error]. *)
Record Invocation : Type := mkInvocation {
  SUPPORTED_BUILD : bool;
  fu_util_print_error_as_json_null : option unit;
  g_option_context_parse : Result unit;
  invoked_as_json : bool;
  filter_device : option (Result unit);
  filter_release : option (Result unit);
  version : bool;
  fu_util_version : Result unit;
  fu_util_cmd_array_run : CommandResult
}.

(** The exit code of [main], [None] when the run returns none. *)
Definition main (inv : Invocation) : option Z :=
  match g_option_context_parse inv with
  | Failed _ => Some EXIT_FAILURE
  | Ok _ =>
    match filter_device inv with
    | Some (Failed _) => Some EXIT_FAILURE
    | _ =>
      match filter_release inv with
      | Some (Failed _) => Some EXIT_FAILURE
      | _ =>
        if version inv then
          match fu_util_version inv with
          | Failed _ => Some EXIT_FAILURE
          | Ok _ => Some EXIT_SUCCESS
          end
        else exit_after_command (SUPPORTED_BUILD inv)
               (fu_util_print_error_as_json_null inv)
               (invoked_as_json inv) (fu_util_cmd_array_run inv)
      end
    end
  end.

(** What happened in the invocation, stage by stage. *)
Definition outcome (inv : Invocation) : Outcome :=
  match g_option_context_parse inv with
  | Failed e => SetupFailed e
  | Ok _ =>
    match filter_device inv with
    | Some (Failed e) => SetupFailed e
    | _ =>
      match filter_release inv with
      | Some (Failed e) => SetupFailed e
      | _ =>
        if version inv then
          match fu_util_version inv with
          | Failed e => SetupFailed e
          | Ok _ => Succeeded
          end
        else outcome_of_command (fu_util_cmd_array_run inv)
      end
    end
  end.

(** ** Starting the engine while the lock is held *)

(** The lock file can be opened but the write lock on it is refused. *)
Definition lock_held (h : Host) : Prop :=
  HAVE_WRLCK h = true /\
  is_ok (fu_path_mkdir_parent h (lockfn h)) = true /\
  0 <= g_open h (lockfn h) /\
  fcntl_setlk h (g_open h (lockfn h)) < 0.

Lemma fu_util_lock_held (h : Host) (self : FuUtil) :
  lock_held h ->
  fu_util_lock h self
  = (Failed (fwupd_error FWUPD_ERROR_NOT_SUPPORTED
               (String.append "another instance has locked " (lockfn h))),
     set_lock_fd (g_open h (lockfn h)) self).
Proof.
  intros (Hw & Hmk & Hfd & Hlk). unfold fu_util_lock. rewrite Hw.
  unfold bind at 1. unfold lift_result at 1.
  destruct (fu_path_mkdir_parent h (lockfn h)) as [[] | e]; [| discriminate Hmk].
  unfold bind, modify, get. cbn [lock_fd set_lock_fd].
  destruct (Z.ltb_spec (g_open h (lockfn h)) 0) as [Hneg | _]; [lia |].
  destruct (Z.ltb_spec (fcntl_setlk h (g_open h (lockfn h))) 0) as [_ | Hpos];
    [reflexivity | lia].
Qed.

(** C8 (as the sources have it): when the write lock on the lock file is
    refused, [fu_util_lock] fails with a NotSupported error, 'another instance
    has locked <file>', and the start of an engine that is not loaded yet
    fails with that error, under the translated prefix: its code is still
    [FWUPD_ERROR_NOT_SUPPORTED] and no other, and the engine is not loaded. *)
Theorem start_engine_fails_when_locked (h : Host) (load_flags : Z) (self : FuUtil) :
  lock_held h ->
  engine_loaded self = false ->
  let locked :=
    fwupd_error FWUPD_ERROR_NOT_SUPPORTED
      (String.append "another instance has locked " (lockfn h)) in
  let failed :=
    g_prefix_error (String.append (gettext h "Failed to lock") ": ") locked in
  fu_util_lock h self = (Failed locked, set_lock_fd (g_open h (lockfn h)) self) /\
  fu_util_start_engine h load_flags self
  = (Failed failed, set_lock_fd (g_open h (lockfn h)) self) /\
  error_code failed = InFwupdDomain FWUPD_ERROR_NOT_SUPPORTED /\
  (forall code, g_error_matches failed code = true ->
                code = FWUPD_ERROR_NOT_SUPPORTED) /\
  engine_loaded (set_lock_fd (g_open h (lockfn h)) self) = false.
Proof.
  intros Hheld Hnot locked failed.
  split; [exact (fu_util_lock_held h self Hheld) |].
  split; [| split; [reflexivity | split; [| exact Hnot]]].
  - unfold fu_util_start_engine. unfold bind at 1. unfold get at 1.
    rewrite Hnot. unfold bind at 1. unfold with_prefix.
    rewrite (fu_util_lock_held h self Hheld). reflexivity.
  - intros code Hcode. apply g_error_matches_spec in Hcode.
    cbn in Hcode. now injection Hcode as <-.
Qed.

(** ** What a re-install hands to the installer *)

(** Two states of the tool that agree on the request: the install flags, the
    release filter and the installs made. *)
Definition same_request (a b : FuUtil) : Prop :=
  flags a = flags b /\
  installs a = installs b /\
  filter_release_include a = filter_release_include b /\
  filter_release_exclude a = filter_release_exclude b.

Lemma same_request_refl (a : FuUtil) : same_request a a.
Proof. repeat split. Qed.

Lemma same_request_trans (a b c : FuUtil) :
  same_request a b -> same_request b c -> same_request a c.
Proof.
  intros (H1 & H2 & H3 & H4) (K1 & K2 & K3 & K4).
  repeat split; congruence.
Qed.

Lemma fu_util_lock_frame (h : Host) (self self' : FuUtil) (r : Result unit) :
  fu_util_lock h self = (r, self') -> same_request self self'.
Proof.
  unfold fu_util_lock. destruct (HAVE_WRLCK h).
  - unfold bind, lift_result, modify, get, fail, ret.
    destruct (fu_path_mkdir_parent h (lockfn h)) as [[] | e].
    + cbn [lock_fd set_lock_fd].
      destruct (g_open h (lockfn h) <? 0);
        [| destruct (fcntl_setlk h (g_open h (lockfn h)) <? 0)];
        intro H; injection H as <- <-; repeat split.
    + intro H; injection H as <- <-; repeat split.
  - intro H. apply ret_any_inv in H. destruct H as [_ ->]. apply same_request_refl.
Qed.

Lemma fu_util_start_engine_frame (h : Host) (load_flags : Z)
    (self self' : FuUtil) (r : Result unit) :
  fu_util_start_engine h load_flags self = (r, self') -> same_request self self'.
Proof.
  unfold fu_util_start_engine. intro H.
  apply bind_inv in H. destruct H as [(s0 & s1 & Hget & H) | (e & Hget & _)];
    [| apply get_inv in Hget; destruct Hget as [Hget _]; discriminate Hget].
  apply get_inv in Hget. destruct Hget as [Hs0 ->]. injection Hs0 as ->.
  destruct (engine_loaded self).
  - apply ret_any_inv in H. destruct H as [_ ->]. apply same_request_refl.
  - apply bind_inv in H. destruct H as [([] & s2 & Hlock & H) | (e & Hlock & _)].
    + apply with_prefix_inv in Hlock.
      destruct Hlock as [(a & Hlock & _) | (e & Hlock & Hr)]; [| discriminate Hr].
      apply fu_util_lock_frame in Hlock.
      apply bind_inv in H. destruct H as [([] & s3 & Hload & H) | (e & Hload & _)].
      * apply lift_result_inv in Hload. destruct Hload as [_ ->].
        apply modify_inv in H. destruct H as [_ ->].
        eapply same_request_trans; [exact Hlock |]. repeat split.
      * apply lift_result_inv in Hload. destruct Hload as [_ ->]. exact Hlock.
    + apply with_prefix_inv in Hlock.
      destruct Hlock as [(a & Hlock & Hr) | (e' & Hlock & _)]; [discriminate Hr |].
      apply fu_util_lock_frame in Hlock. exact Hlock.
Qed.



(** ** Starting the engine *)

(** The load flags that [fu_util_start_engine] adds to those of its
    caller. *)
Definition engine_load_flags (load_flags : Z) : Z :=
  mask_add (mask_add (mask_add load_flags
    (FuEngineLoadFlags_of FU_ENGINE_LOAD_FLAG_NO_IDLE_SOURCES))
    (FuEngineLoadFlags_of FU_ENGINE_LOAD_FLAG_BUILTIN_PLUGINS))
    (FuEngineLoadFlags_of FU_ENGINE_LOAD_FLAG_EXTERNAL_PLUGINS).

Lemma fu_util_lock_ok (h : Host) (self self' : FuUtil) :
  fu_util_lock h self = (Ok tt, self') ->
  engine_loaded self' = engine_loaded self /\
  current_operation self' = current_operation self /\
  (HAVE_WRLCK h = true ->
   lock_fd self' = g_open h (lockfn h) /\
   0 <= lock_fd self' /\ 0 <= fcntl_setlk h (lock_fd self')).
Proof.
  unfold fu_util_lock. destruct (HAVE_WRLCK h).
  - unfold bind, lift_result, modify, get, fail, ret.
    destruct (fu_path_mkdir_parent h (lockfn h)) as [[] | e]; [| discriminate].
    cbn [lock_fd set_lock_fd].
    destruct (Z.ltb_spec (g_open h (lockfn h)) 0) as [| Hfd]; [discriminate |].
    destruct (Z.ltb_spec (fcntl_setlk h (g_open h (lockfn h))) 0) as [| Hlk];
      [discriminate |].
    intro H. injection H as <-. cbn. auto.
  - intro H. apply ret_any_inv in H. destruct H as [_ ->].
    repeat split; discriminate.
Qed.

Lemma fu_util_lock_failed (h : Host) (self self' : FuUtil) (e : GError) :
  fu_util_lock h self = (Failed e, self') ->
  engine_loaded self' = engine_loaded self.
Proof.
  unfold fu_util_lock. destruct (HAVE_WRLCK h).
  - unfold bind, lift_result, modify, get, fail, ret.
    destruct (fu_path_mkdir_parent h (lockfn h)) as [[] | e'].
    + cbn [lock_fd set_lock_fd].
      destruct (g_open h (lockfn h) <? 0);
        [| destruct (fcntl_setlk h (g_open h (lockfn h)) <? 0)];
        intro H; injection H as _ <-; reflexivity.
    + intro H. injection H as _ <-. reflexivity.
  - intro H. apply ret_any_inv in H. destruct H as [H _]. discriminate H.
Qed.

(** A start that succeeds leaves the engine loaded. *)
Lemma fu_util_start_engine_ok (h : Host) (load_flags : Z) (self self' : FuUtil) :
  fu_util_start_engine h load_flags self = (Ok tt, self') ->
  engine_loaded self' = true /\ current_operation self' = current_operation self.
Proof.
  unfold fu_util_start_engine. unfold bind at 1. unfold get at 1.
  destruct (engine_loaded self) eqn:Hloaded.
  - intro H. apply ret_any_inv in H. destruct H as [_ ->]. auto.
  - unfold bind at 1. unfold with_prefix.
    destruct (fu_util_lock h self) as [[[] | e] s1] eqn:Hlock; [| discriminate].
    apply fu_util_lock_ok in Hlock. destruct Hlock as (_ & Hop & _).
    unfold bind, lift_result, modify.
    destruct (fu_engine_load h _) as [[] | e]; [| discriminate].
    intro H. injection H as <-. cbn. auto.
Qed.

(** The engine is loaded at most once.  With the engine loaded, a start does
    nothing: no lock is asked for and nothing is loaded.  Otherwise a start
    that succeeds has got the write lock, if the build has one, and has
    loaded the engine with the flags of the caller and three more; after it
    every further start is a success that changes nothing.  A start that
    fails leaves the engine unloaded. *)
Theorem start_engine_loads_once (h : Host) (load_flags : Z) (self self' : FuUtil)
    (r : Result unit) :
  fu_util_start_engine h load_flags self = (r, self') ->
  (engine_loaded self = true -> r = Ok tt /\ self' = self) /\
  (engine_loaded self = false -> r = Ok tt ->
   fu_engine_load h (engine_load_flags load_flags) = Ok tt /\
   (HAVE_WRLCK h = true ->
    lock_fd self' = g_open h (lockfn h) /\
    0 <= lock_fd self' /\ 0 <= fcntl_setlk h (lock_fd self'))) /\
  (r = Ok tt ->
   engine_loaded self' = true /\
   forall again, fu_util_start_engine h again self' = (Ok tt, self')) /\
  (forall e, r = Failed e ->
   engine_loaded self = false /\ engine_loaded self' = false).
Proof.
  intro H.
  assert (Hagain : forall s, engine_loaded s = true ->
            forall again, fu_util_start_engine h again s = (Ok tt, s)).
  { intros s Hs again. unfold fu_util_start_engine, bind, get.
    rewrite Hs. reflexivity. }
  split; [| split; [| split]].
  - intro Hloaded. rewrite (Hagain self Hloaded) in H.
    injection H as <- <-. auto.
  - intros Hloaded Hr. subst r. revert H.
    unfold fu_util_start_engine. unfold bind at 1. unfold get at 1.
    rewrite Hloaded. unfold bind at 1. unfold with_prefix.
    destruct (fu_util_lock h self) as [[[] | e] s1] eqn:Hlock; [| discriminate].
    apply fu_util_lock_ok in Hlock. destruct Hlock as (_ & _ & Hlock).
    unfold bind, lift_result, modify. fold (engine_load_flags load_flags).
    destruct (fu_engine_load h (engine_load_flags load_flags)) as [[] | e];
      [| discriminate].
    intro H. injection H as <-. split; [reflexivity |]. exact Hlock.
  - intro Hr. subst r. apply fu_util_start_engine_ok in H.
    destruct H as [Hloaded _]. split; [exact Hloaded |].
    apply Hagain, Hloaded.
  - intros e Hr. subst r. revert H.
    unfold fu_util_start_engine. unfold bind at 1. unfold get at 1.
    destruct (engine_loaded self) eqn:Hloaded.
    { intro H. apply ret_any_inv in H. destruct H as [H _]. discriminate H. }
    unfold bind at 1. unfold with_prefix.
    destruct (fu_util_lock h self) as [[[] | e'] s1] eqn:Hlock.
    + apply fu_util_lock_ok in Hlock. destruct Hlock as (Hkeep & _).
      unfold bind, lift_result, modify.
      destruct (fu_engine_load h _) as [[] | e'']; [discriminate |].
      intro H. injection H as _ <-. split; [reflexivity | congruence].
    + apply fu_util_lock_failed in Hlock.
      intro H. injection H as _ <-. split; [reflexivity | congruence].
Qed.

(** ** Handing a release to the installer *)

(** The file name or URI that [fu_util_install_release] passes on. *)
Definition install_argv (h : Host) (remote : FwupdRemote) (uri_tmp : string)
  : list string :=
  match remote_kind remote with
  | FWUPD_REMOTE_KIND_LOCAL =>
      if negb (fu_util_is_url h uri_tmp) then
        [g_build_filename (g_path_get_dirname h (remote_filename_cache remote))
                          uri_tmp]
      else
        match fwupd_remote_build_firmware_uri h remote uri_tmp with
        | Ok uri => [uri]
        | Failed _ => []
        end
  | FWUPD_REMOTE_KIND_DIRECTORY => [skip7 uri_tmp]
  | _ =>
      match fwupd_remote_build_firmware_uri h remote uri_tmp with
      | Ok uri => [uri]
      | Failed _ => []
      end
  end.

Lemma fu_util_install_release_state (h : Host) (dev : FwupdDevice)
    (rel : FwupdRelease) (self self' : FuUtil) (r : Result unit) :
  fu_util_install_release h dev rel self = (r, self') ->
  (self' = self /\ exists e, r = Failed e) \/
  (self' = log_install (mkInstallCall dev rel (flags self)) self /\
   fwupd_device_has_flag dev FWUPD_DEVICE_FLAG_UPDATABLE = true /\
   exists uri_tmp rest remote_id remote,
     release_locations rel = uri_tmp :: rest /\
     release_remote_id rel = Some remote_id /\
     fu_engine_get_remote_by_id h remote_id = Ok remote /\
     r = fu_util_install h (install_argv h remote uri_tmp) (flags self)).
Proof.
  unfold fu_util_install_release.
  destruct (fwupd_device_has_flag dev FWUPD_DEVICE_FLAG_UPDATABLE) eqn:Hupd;
    cbn [negb].
  2: { intro H. apply fail_inv in H. destruct H as [-> ->]. left. eauto. }
  destruct (release_locations rel) as [| uri_tmp rest].
  { intro H. apply fail_inv in H. destruct H as [-> ->]. left. eauto. }
  destruct (release_remote_id rel) as [remote_id |].
  2: { intro H. apply fail_inv in H. destruct H as [-> ->]. left. eauto. }
  unfold bind at 1. unfold lift_result at 1.
  destruct (fu_engine_get_remote_by_id h remote_id) as [remote | e] eqn:Hrem.
  2: { intro H. injection H as <- <-. left. eauto. }
  cbv zeta. fold (install_argv h remote uri_tmp).
  unfold bind, get, modify, lift_result.
  intro H. injection H as <- <-. right.
  split; [reflexivity |]. split; [reflexivity |].
  exists uri_tmp, rest, remote_id, remote. auto.
Qed.



Section ReinstallFacts.

Variable fu_version_compare : string -> string -> Z -> Z.
Variable fwupd_release_match_flags : FwupdRelease -> Z -> Z -> bool.


(** The load flags with which a re-install starts the engine. *)
Definition reinstall_load_flags : Z :=
  mask_add (mask_add (mask_add
    (FuEngineLoadFlags_of FU_ENGINE_LOAD_FLAG_COLDPLUG)
    (FuEngineLoadFlags_of FU_ENGINE_LOAD_FLAG_DEVICE_HOTPLUG))
    (FuEngineLoadFlags_of FU_ENGINE_LOAD_FLAG_REMOTES))
    (FuEngineLoadFlags_of FU_ENGINE_LOAD_FLAG_HWINFO).

(** A re-install wants exactly one argument: with any other number it fails
    with "invalid arguments" before the engine is started.  When it succeeds
    the engine is loaded, the operation is an install and one release more
    has been handed over, with allow-reinstall set.  When no release of the
    device passes the release filter with a version equal to the device's,
    it fails with "not supported" and names the device and its version;
    nothing is handed over. *)
Theorem reinstall_outcome (h : Host) (values : list string)
    (self self' : FuUtil) (r : Result unit) :
  fu_util_reinstall fu_version_compare fwupd_release_match_flags h values self
  = (r, self') ->
  (length values <> 1%nat ->
   r = Failed (fwupd_error FWUPD_ERROR_INVALID_ARGS "Invalid arguments") /\
   self' = self) /\
  (r = Ok tt ->
   engine_loaded self' = true /\
   current_operation self' = FU_UTIL_OPERATION_INSTALL /\
   exists dev rel,
     installs self'
     = mkInstallCall dev rel
         (mask_add (flags self)
            (FwupdInstallFlags_of FWUPD_INSTALL_FLAG_ALLOW_REINSTALL))
       :: installs self) /\
  (forall id dev rels started,
     values = [id] ->
     fu_util_start_engine h reinstall_load_flags self = (Ok tt, started) ->
     fu_util_get_device h id = Ok dev ->
     fu_engine_get_releases_for_device h dev = Ok rels ->
     Forall (fun rel => same_version fu_version_compare fwupd_release_match_flags
                          self dev rel = false) rels ->
     r = Failed (fwupd_error FWUPD_ERROR_NOT_SUPPORTED
                   (String.append "Unable to locate release for "
                      (String.append (device_name dev)
                         (String.append " version " (device_version dev))))) /\
     self' = started).
Proof.
  unfold fu_util_reinstall.
  destruct values as [| id [| extra values]].
  1, 3: intro H; apply fail_inv in H; destruct H as [-> ->];
        (split; [auto | split; [discriminate | intros; discriminate]]).
  fold reinstall_load_flags. unfold bind at 1.
  destruct (fu_util_start_engine h reinstall_load_flags self)
    as [[[] | e] s1] eqn:Hstart.
  2: { intro H. injection H as <- <-.
       split; [intro Hlen; contradiction Hlen; reflexivity |].
       split; [discriminate |]. intros; discriminate. }
  pose proof (fu_util_start_engine_frame _ _ _ _ _ Hstart)
    as (Hfl & Hin & Hfi & Hfe).
  pose proof (fu_util_start_engine_ok _ _ _ _ Hstart) as [Hloaded _].
  unfold bind at 1. unfold lift_result at 1.
  destruct (fu_util_get_device h id) as [dev | e] eqn:Hdev.
  2: { intro H. injection H as <- <-.
       split; [intro Hlen; contradiction Hlen; reflexivity |].
       split; [discriminate |].
       intros id' dev' rels' started Hid _ Hdev' _ _.
       injection Hid as <-. rewrite Hdev in Hdev'. discriminate Hdev'. }
  unfold bind at 1. unfold lift_result at 1.
  destruct (fu_engine_get_releases_for_device h dev) as [rels | e] eqn:Hrels.
  2: { intro H. injection H as <- <-.
       split; [intro Hlen; contradiction Hlen; reflexivity |].
       split; [discriminate |].
       intros id' dev' rels' started Hid _ Hdev' Hrels'.
       injection Hid as <-. rewrite Hdev in Hdev'. injection Hdev' as <-.
       rewrite Hrels in Hrels'. discriminate Hrels'. }
  unfold bind at 1. unfold get at 1.
  assert (Hsame : forall rel,
            same_version fu_version_compare fwupd_release_match_flags s1 dev rel
            = same_version fu_version_compare fwupd_release_match_flags self dev rel).
  { intro rel. unfold same_version. rewrite Hfi, Hfe. reflexivity. }
  destruct (first_match (same_version fu_version_compare
                           fwupd_release_match_flags s1 dev) rels)
    as [rel |] eqn:Hfind.
  2: { intro H. apply fail_inv in H. destruct H as [-> ->].
       split; [intro Hlen; contradiction Hlen; reflexivity |].
       split; [discriminate |].
       intros id' dev' rels' started Hid Hstarted Hdev' Hrels' _.
       injection Hid as <-. rewrite Hdev in Hdev'. injection Hdev' as <-.
       injection Hstarted as <-. auto. }
  apply find_some in Hfind. destruct Hfind as [Hin_rels Hrel].
  assert (Hthird : forall id' dev' rels' started,
            [id] = [id'] ->
            fu_util_start_engine h reinstall_load_flags self = (Ok tt, started) ->
            fu_util_get_device h id' = Ok dev' ->
            fu_engine_get_releases_for_device h dev' = Ok rels' ->
            Forall (fun rel => same_version fu_version_compare
                                 fwupd_release_match_flags self dev' rel = false)
                   rels' ->
            False).
  { intros id' dev' rels' started Hid _ Hdev' Hrels' Hnone.
    injection Hid as <-. rewrite Hdev in Hdev'. injection Hdev' as <-.
    rewrite Hrels in Hrels'. injection Hrels' as <-.
    rewrite Forall_forall in Hnone. specialize (Hnone rel Hin_rels).
    rewrite <- Hsame, Hrel in Hnone. discriminate Hnone. }
  unfold bind at 1. unfold modify at 1.
  unfold bind at 1. unfold modify at 1.
  unfold bind at 1.
  destruct (fu_util_install_release h dev rel _) as [[[] | e] s2] eqn:Hinstall.
  2: { intro H. injection H as <- <-.
       split; [intro Hlen; contradiction Hlen; reflexivity |].
       split; [discriminate |].
       intros id' dev' rels' started Hid Hst Hdev' Hrels' Hnone. exfalso.
       exact (Hthird id' dev' rels' s1 Hid Hstart Hdev' Hrels' Hnone). }
  apply fu_util_install_release_state in Hinstall.
  destruct Hinstall as [[_ [e He]] | [Hs2 _]]; [discriminate He |].
  cbn [flags set_flags set_current_operation] in Hs2.
  unfold bind, get. intro H.
  assert (Hend : self' = s2).
  { destruct (no_reboot_check s2).
    - apply ret_any_inv in H. destruct H as [_ ->]. reflexivity.
    - apply lift_result_inv in H. destruct H as [_ ->]. reflexivity. }
  subst self' s2.
  split; [intro Hlen; contradiction Hlen; reflexivity |].
  split.
  - intros _. cbn [engine_loaded current_operation installs log_install set_flags
                   set_current_operation].
    split; [exact Hloaded |]. split; [reflexivity |].
    exists dev, rel. rewrite <- Hfl, <- Hin. reflexivity.
  - intros id' dev' rels' started Hid Hst Hdev' Hrels' Hnone. exfalso.
    exact (Hthird id' dev' rels' s1 Hid Hstart Hdev' Hrels' Hnone).
Qed.

End ReinstallFacts.

(** ** The exit code of fwupdtool *)


(** ** A sample machine *)

Definition sample_device : FwupdDevice :=
  mkFwupdDevice "dev1" "Fresco PD" "1.2.3" 1 None
                (FwupdDeviceFlags_of FWUPD_DEVICE_FLAG_UPDATABLE) None.

Definition sample_release (v : string) : FwupdRelease :=
  mkFwupdRelease v None 0 (Some "lvfs"%string) [String.append v ".cab"].

Definition sample_remote : FwupdRemote :=
  mkFwupdRemote FWUPD_REMOTE_KIND_DOWNLOAD "/var/lib/fwupd/lvfs/metadata.xml.gz"
                false.

(** Versions compared as strings, and the filter that asks for every flag of
    [include] and none of [exclude]. *)
Definition sample_version_compare (a b : string) (fmt : Z) : Z :=
  match String.compare a b with
  | Eq => 0
  | Lt => -1
  | Gt => 1
  end.

Definition sample_match_flags (rel : FwupdRelease) (include exclude : Z) : bool :=
  (Z.land (release_flags rel) include =? include)
  && (Z.land (release_flags rel) exclude =? 0).

(** A machine on which fwupdtool runs as root; [lock_reply] is what [fcntl]
    answers to the request for the write lock. *)
Definition sample_host (lock_reply : Z) : Host :=
  mkHost true true 0 0
         (fun name => String.append "/root/.cache/" name)
         "/run/lock"
         (fun _ => Ok tt)
         (fun _ => 3)
         (fun _ => lock_reply)
         (fun _ => Ok tt)
         (fun id => if String.eqb id "dev1" then Ok sample_device
                    else Failed (fwupd_error FWUPD_ERROR_NOT_FOUND "no such device"))
         (fun _ => Ok [sample_release "1.2.4"; sample_release "1.2.3";
                       sample_release "1.2.2"])
         (fun _ => Ok sample_remote)
         (fun _ => false)
         (fun path => path)
         (fun _ uri => Ok (String.append "https://cdn.example.org/" uri))
         (fun _ _ => Ok tt)
         (Ok tt)
         (fun msgid => msgid).

Definition fresh_tool : FuUtil :=
  mkFuUtil false true 0 (-1) FU_UTIL_OPERATION_UNKNOWN 0 0 false [].

Lemma sample_host_lock_held : lock_held (sample_host (-1)).
Proof. unfold lock_held; cbn; repeat split; lia. Qed.

Lemma start_engine_fails_when_locked_witness :
  fu_util_start_engine (sample_host (-1)) 0 fresh_tool
  = (Failed (fwupd_error FWUPD_ERROR_NOT_SUPPORTED
       "Failed to lock: another instance has locked /run/lock/fwupdtool"),
     set_lock_fd 3 fresh_tool).
Proof.
  exact (proj1 (proj2 (start_engine_fails_when_locked
                         (sample_host (-1)) 0 fresh_tool
                         sample_host_lock_held eq_refl))).
Defined.

(** C8 (as the specification has it): a second instance, started while the
    write lock is held, does fail to start, but with the error that
    [fu_util_lock] set: its code is [FWUPD_ERROR_NOT_SUPPORTED], the code of
    the NotSupported kind, which is also what a lock file that cannot be
    opened gives; the failure has no kind of its own. *)
Lemma second_instance_error_kind :
  lock_held (sample_host (-1)) /\
  engine_loaded fresh_tool = false /\
  exists e,
    fu_util_start_engine (sample_host (-1)) 0 fresh_tool
    = (Failed e, set_lock_fd 3 fresh_tool) /\
    error_code e = InFwupdDomain FWUPD_ERROR_NOT_SUPPORTED /\
    (forall code, g_error_matches e code = true ->
                  code = FWUPD_ERROR_NOT_SUPPORTED) /\
    exists e_open,
      fu_util_start_engine
        (mkHost true true 0 0 (fun name => name) "/run/lock"
           (fun _ => Ok tt) (fun _ => -1) (fun _ => 0) (fun _ => Ok tt)
           (fu_util_get_device (sample_host 0))
           (fu_engine_get_releases_for_device (sample_host 0))
           (fu_engine_get_remote_by_id (sample_host 0))
           (fun _ => false) (fun path => path)
           (fwupd_remote_build_firmware_uri (sample_host 0))
           (fun _ _ => Ok tt) (Ok tt) (fun msgid => msgid))
        0 fresh_tool
      = (Failed e_open, set_lock_fd (-1) fresh_tool) /\
      error_code e_open = error_code e.
Proof.
  split; [exact sample_host_lock_held |]. split; [reflexivity |].
  eexists. split; [reflexivity |]. split; [reflexivity |]. split.
  - intros code Hcode. apply g_error_matches_spec in Hcode.
    cbn in Hcode. now injection Hcode as <-.
  - eexists. split; reflexivity.
Qed.

(** With the lock free the same start loads the engine. *)
Example first_instance_starts :
  fu_util_start_engine (sample_host 0) 0 fresh_tool
  = (Ok tt, set_engine_loaded true (set_lock_fd 3 fresh_tool)).
Proof. reflexivity. Qed.

(** The re-install of [sample_device], which is at version 1.2.3. *)
Example sample_reinstall :
  fu_util_reinstall sample_version_compare sample_match_flags (sample_host 0)
                    ["dev1"%string] fresh_tool
  = (Ok tt,
     mkFuUtil false true
       (FwupdInstallFlags_of FWUPD_INSTALL_FLAG_ALLOW_REINSTALL) 3
       FU_UTIL_OPERATION_INSTALL 0 0 true
       [mkInstallCall sample_device (sample_release "1.2.3")
          (FwupdInstallFlags_of FWUPD_INSTALL_FLAG_ALLOW_REINSTALL)]).
Proof. reflexivity. Qed.

Lemma start_engine_loads_once_witness :
  fu_util_start_engine (sample_host 0) 0 fresh_tool
  = (Ok tt, set_engine_loaded true (set_lock_fd 3 fresh_tool)) /\
  forall again,
    fu_util_start_engine (sample_host 0) again
      (set_engine_loaded true (set_lock_fd 3 fresh_tool))
    = (Ok tt, set_engine_loaded true (set_lock_fd 3 fresh_tool)).
Proof.
  assert (Hrun : fu_util_start_engine (sample_host 0) 0 fresh_tool
                 = (Ok tt, set_engine_loaded true (set_lock_fd 3 fresh_tool)))
    by reflexivity.
  split; [exact Hrun |].
  destruct (start_engine_loads_once (sample_host 0) 0 fresh_tool _ _ Hrun)
    as (_ & _ & Honce & _).
  exact (proj2 (Honce eq_refl)).
Defined.



Lemma reinstall_outcome_witness :
  engine_loaded
    (snd (fu_util_reinstall sample_version_compare sample_match_flags
            (sample_host 0) ["dev1"%string] fresh_tool)) = true /\
  exists dev rel,
    installs
      (snd (fu_util_reinstall sample_version_compare sample_match_flags
              (sample_host 0) ["dev1"%string] fresh_tool))
    = mkInstallCall dev rel
        (mask_add (flags fresh_tool)
           (FwupdInstallFlags_of FWUPD_INSTALL_FLAG_ALLOW_REINSTALL))
      :: installs fresh_tool.
Proof.
  destruct (fu_util_reinstall sample_version_compare sample_match_flags
              (sample_host 0) ["dev1"%string] fresh_tool) as [r self'] eqn:Hrun.
  assert (Hr : r = Ok tt).
  { vm_compute in Hrun. injection Hrun as <- _. reflexivity. }
  destruct (reinstall_outcome sample_version_compare sample_match_flags
              (sample_host 0) ["dev1"%string] fresh_tool self' r Hrun)
    as (_ & Hok & _).
  destruct (Hok Hr) as (Hloaded & _ & Hinstalls).
  cbn [snd]. split; [exact Hloaded | exact Hinstalls].
Defined.

(** An invocation of a build without [SUPPORTED_BUILD] whose command ends
    with the given result. *)
Definition sample_invocation (ret : CommandResult) : Invocation :=
  mkInvocation false None (Ok tt) false None None false (Ok tt) ret.

Example exit_codes_of_fwupdtool :
  map (fun code => main (sample_invocation
                           (CommandFailed (Some (fwupd_error code "failed")))))
      [FWUPD_ERROR_NOTHING_TO_DO; FWUPD_ERROR_NOT_REACHABLE;
       FWUPD_ERROR_NOT_FOUND; FWUPD_ERROR_INVALID_ARGS; FWUPD_ERROR_INTERNAL]
  = [Some 2; Some 3; Some 4; Some 1; Some 1]
  /\ main (sample_invocation CommandOk) = Some 0.
Proof. split; reflexivity. Qed.

End FuTool.

(* ------------------------------------------------------------------------- *)
(** * Re-installing the version a device already runs                         *)
(* ------------------------------------------------------------------------- *)

Module Reinstall.
Import Fwupd FuProgress FuUtilCommon FuFrescoPd.





End Reinstall.

(* ------------------------------------------------------------------------- *)
(** * src/fu-util.c (fwupdmgr)                                                *)
(* ------------------------------------------------------------------------- *)

Module FuUtil.
Import Fwupd FuUtilCommon.
Local Open Scope run_scope.

(** The daemon as fwupdmgr reaches it through [self->client]: what each call
    of libfwupd returns. *)
Record FwupdClient : Type := mkFwupdClient {
  fwupd_client_get_devices : Result (list FwupdDevice);
  fwupd_client_get_devices_by_guid : string -> Result (list FwupdDevice);
  fwupd_client_get_device_by_id : string -> Result FwupdDevice;
  fwupd_client_get_releases : string -> Result (list FwupdRelease);
  fwupd_client_get_remote_by_id : string -> Result FwupdRemote;
  fwupd_client_get_host_product : string;
  (** [fwupd_client_install_release (client, dev, rel, install_flags,
      download_flags, ...)] *)
  fwupd_client_install_release :
    FwupdDevice -> FwupdRelease -> Z -> Z -> Result unit
}.

(** The questions put to the user before and after an install, with the
    answer each one gets: [Ok] to go on, an error when the user declines. *)
Record Prompts : Type := mkPrompts {
  fu_util_prompt_warning : FwupdDevice -> FwupdRelease -> string -> Result unit;
  fu_util_prompt_warning_fde : FwupdDevice -> Result unit;
  fu_util_prompt_warning_composite : FwupdDevice -> FwupdRelease -> Result unit;
  fu_util_prompt_warning_bkc : FwupdDevice -> FwupdRelease -> Result unit;
  fu_util_switch_branch_warning :
    FwupdDevice -> FwupdRelease -> bool -> Result unit;
  fu_util_prompt_complete : Z -> Result unit
}.

(** The fields of [struct FuUtil] that the embedded functions use, the numbers
    the user is going to type at the console, and the installs requested from
    the daemon so far (newest first). *)
Record FuUtil : Type := mkFuUtil {
  flags : Z;
  download_flags : Z;
  no_reboot_check : bool;
  no_safety_check : bool;
  no_device_prompt : bool;
  assume_yes : bool;
  as_json : bool;
  current_operation : FuUtilOperation;
  completion_flags : Z;
  filter_device_include : Z;
  filter_device_exclude : Z;
  filter_release_include : Z;
  filter_release_exclude : Z;
  console_input : list Z;
  installs : list InstallCall
}.

Definition set_flags (v : Z) (self : FuUtil) : FuUtil :=
  mkFuUtil v (download_flags self) (no_reboot_check self) (no_safety_check self)
           (no_device_prompt self) (assume_yes self) (as_json self)
           (current_operation self) (completion_flags self)
           (filter_device_include self) (filter_device_exclude self)
           (filter_release_include self) (filter_release_exclude self)
           (console_input self) (installs self).

Definition set_current_operation (v : FuUtilOperation) (self : FuUtil) : FuUtil :=
  mkFuUtil (flags self) (download_flags self) (no_reboot_check self)
           (no_safety_check self) (no_device_prompt self) (assume_yes self)
           (as_json self) v (completion_flags self)
           (filter_device_include self) (filter_device_exclude self)
           (filter_release_include self) (filter_release_exclude self)
           (console_input self) (installs self).

Definition set_filter_device_include (v : Z) (self : FuUtil) : FuUtil :=
  mkFuUtil (flags self) (download_flags self) (no_reboot_check self)
           (no_safety_check self) (no_device_prompt self) (assume_yes self)
           (as_json self) (current_operation self) (completion_flags self)
           v (filter_device_exclude self)
           (filter_release_include self) (filter_release_exclude self)
           (console_input self) (installs self).

Definition set_console_input (v : list Z) (self : FuUtil) : FuUtil :=
  mkFuUtil (flags self) (download_flags self) (no_reboot_check self)
           (no_safety_check self) (no_device_prompt self) (assume_yes self)
           (as_json self) (current_operation self) (completion_flags self)
           (filter_device_include self) (filter_device_exclude self)
           (filter_release_include self) (filter_release_exclude self)
           v (installs self).

Definition log_install (c : InstallCall) (self : FuUtil) : FuUtil :=
  mkFuUtil (flags self) (download_flags self) (no_reboot_check self)
           (no_safety_check self) (no_device_prompt self) (assume_yes self)
           (as_json self) (current_operation self) (completion_flags self)
           (filter_device_include self) (filter_device_exclude self)
           (filter_release_include self) (filter_release_exclude self)
           (console_input self) (c :: installs self).

(** Modelled from the spec: [fu_console_input_uint (console, maxnum, ...)] is
    libfwupdplugin code outside the sources.  It asks until the user types a
    number between 0 and [maxnum]; a console with nothing more to read
    answers 0, which every caller takes as a cancellation. *)
Fixpoint next_answer (maxnum : Z) (answers : list Z) : Z * list Z :=
  match answers with
  | [] => (0, [])
  | a :: rest =>
      if (0 <=? a) && (a <=? maxnum) then (a, rest) else next_answer maxnum rest
  end.

Definition fu_console_input_uint (maxnum : Z) : Run FuUtil Z :=
  fun self =>
    let (idx, rest) := next_answer maxnum (console_input self) in
    (Ok idx, set_console_input rest self).

(** [for (i = 0; id[i] != 0; i++) if (id[i] == '-') ...] *)
Fixpoint has_dash (id : string) : bool :=
  match id with
  | EmptyString => false
  | String c rest => Ascii.eqb c "-" || has_dash rest
  end.

Section Commands.

Variable client : FwupdClient.
Variable console : Prompts.

(** libfwupd and fu-util-common.c functions outside the sources. *)
Variable fwupd_guid_is_valid : string -> bool.
Variable fwupd_device_array_filter_flags :
  list FwupdDevice -> Z -> Z -> Result (list FwupdDevice).
Variable fwupd_release_match_flags : FwupdRelease -> Z -> Z -> bool.
Variable fu_util_branch_for_display : option string -> string.

(** [g_ptr_array_index (array, idx - 1)] after a prompt; the prompt returns
    no number above the length, so the last case is never taken. *)
Definition chosen {A : Type} (array : list A) (idx : Z) : Run FuUtil A :=
  match nth_error array (Z.to_nat (idx - 1)) with
  | Some a => ret a
  | None => fail (fwupd_error FWUPD_ERROR_INTERNAL "index out of range")
  end.

Definition fu_util_prompt_for_device (devices : list FwupdDevice)
  : Run FuUtil FwupdDevice :=
  self <- get ;;
  devices_filtered <-
    lift_result (fwupd_device_array_filter_flags devices
                   (filter_device_include self) (filter_device_exclude self)) ;;
  match devices_filtered with
  | [dev] => ret dev
  | _ =>
      if no_device_prompt self then
        fail (fwupd_error FWUPD_ERROR_NOT_FOUND "can't prompt for devices")
      else
        idx <- fu_console_input_uint (Z.of_nat (length devices_filtered)) ;;
        if idx =? 0 then
          fail (fwupd_error FWUPD_ERROR_NOTHING_TO_DO "Request canceled")
        else chosen devices_filtered idx
  end.

Definition fu_util_get_device_by_id (id : string) : Run FuUtil FwupdDevice :=
  if fwupd_guid_is_valid id then
    devices <- lift_result (fwupd_client_get_devices_by_guid client id) ;;
    fu_util_prompt_for_device devices
  else if has_dash id then
    fail (fwupd_error FWUPD_ERROR_INVALID_ARGS "Invalid arguments")
  else lift_result (fwupd_client_get_device_by_id client id).

Definition fu_util_get_device_or_prompt (values : list string)
  : Run FuUtil FwupdDevice :=
  match values with
  | id :: _ => fu_util_get_device_by_id id
  | [] =>
      self <- get ;;
      if as_json self then
        fail (fwupd_error FWUPD_ERROR_INVALID_ARGS "device ID required")
      else
        devices <- lift_result (fwupd_client_get_devices client) ;;
        fu_util_prompt_for_device devices
  end.

Definition fu_util_update_device_with_release (dev : FwupdDevice)
    (rel : FwupdRelease) : Run FuUtil unit :=
  if negb (fwupd_device_has_flag dev FWUPD_DEVICE_FLAG_UPDATABLE) then
    fail (fwupd_error FWUPD_ERROR_NOTHING_TO_DO
            (String.append (device_name dev)
               (String.append " is not currently updatable: "
                  (match device_update_error dev with
                   | Some s => s
                   | None => "(null)"
                   end))))
  else
    self <- get ;;
    (if negb (as_json self) && negb (no_safety_check self)
        && negb (assume_yes self)
     then
       lift_result (fu_util_prompt_warning console dev rel
                      (fwupd_client_get_host_product client)) ;;;
       lift_result (fu_util_prompt_warning_fde console dev) ;;;
       lift_result (fu_util_prompt_warning_composite console dev rel) ;;;
       lift_result (fu_util_prompt_warning_bkc console dev rel)
     else ret tt) ;;;
    modify (log_install (mkInstallCall dev rel (flags self))) ;;;
    lift_result (fwupd_client_install_release client dev rel (flags self)
                   (download_flags self)).

(** The history report that an automatic-reports remote asks for may fail
    without failing the function; only the lookup of the remote can. *)
Definition fu_util_maybe_send_reports (rel : FwupdRelease) : Result unit :=
  match release_remote_id rel with
  | None => Ok tt
  | Some remote_id =>
      match fwupd_client_get_remote_by_id client remote_id with
      | Failed e => Failed e
      | Ok _ => Ok tt
      end
  end.

(** The loop over [rels] that collects the branches of the releases passing
    the release filter, each once, in the order met. *)
Definition unique_branches (self : FuUtil) (rels : list FwupdRelease)
  : list (option string) :=
  fold_left
    (fun branches rel_tmp =>
       if negb (fwupd_release_match_flags rel_tmp (filter_release_include self)
                                          (filter_release_exclude self))
       then branches
       else if existsb (fun b => g_str_equal0 b (release_branch rel_tmp)) branches
       then branches
       else branches ++ [release_branch rel_tmp])
    rels [].

(** The branch to switch to: the second argument if there is one, else the
    only branch on offer, else the one picked at the prompt. *)
Definition choose_branch (values : list string) (branches : list (option string))
  : Run FuUtil (option string) :=
  match values with
  | _ :: branch :: _ => ret (Some branch)
  | _ =>
      match branches with
      | [branch] => ret branch
      | _ =>
          idx <- fu_console_input_uint (Z.of_nat (length branches)) ;;
          if idx =? 0 then
            fail (fwupd_error FWUPD_ERROR_NOTHING_TO_DO "Request canceled")
          else chosen branches idx
      end
  end.

Definition fu_util_switch_branch (values : list string) : Run FuUtil unit :=
  modify (fun self =>
            set_filter_device_include
              (mask_add
                 (mask_add (filter_device_include self)
                    (FwupdDeviceFlags_of FWUPD_DEVICE_FLAG_HAS_MULTIPLE_BRANCHES))
                 (FwupdDeviceFlags_of FWUPD_DEVICE_FLAG_UPDATABLE))
              self) ;;;
  dev <- fu_util_get_device_or_prompt values ;;
  rels <- lift_result (fwupd_client_get_releases client (device_id dev)) ;;
  self <- get ;;
  branch <- choose_branch values (unique_branches self rels) ;;
  if g_str_equal0 branch (device_branch dev) then
    fail (fwupd_error FWUPD_ERROR_NOT_SUPPORTED
            (String.append "Device "
               (String.append (device_name dev)
                  (String.append " is already on branch "
                     (fu_util_branch_for_display branch)))))
  else
    match first_match (fun rel_tmp => g_str_equal0 (release_branch rel_tmp) branch)
                      rels with
    | None =>
        fail (fwupd_error FWUPD_ERROR_NOT_SUPPORTED
                (String.append "No releases for branch "
                   (fu_util_branch_for_display branch)))
    | Some rel =>
        self <- get ;;
        lift_result (fu_util_switch_branch_warning console dev rel
                       (assume_yes self)) ;;;
        modify (set_current_operation FU_UTIL_OPERATION_INSTALL) ;;;
        modify (fun self =>
                  set_flags (mask_add (flags self)
                    (FwupdInstallFlags_of FWUPD_INSTALL_FLAG_ALLOW_REINSTALL))
                    self) ;;;
        modify (fun self =>
                  set_flags (mask_add (flags self)
                    (FwupdInstallFlags_of FWUPD_INSTALL_FLAG_ALLOW_BRANCH_SWITCH))
                    self) ;;;
        fun self =>
          let (ret, self) := fu_util_update_device_with_release dev rel self in
          match ret, fu_util_maybe_send_reports rel with
          | Ok _, Failed error_report => (Failed error_report, self)
          | Failed e, _ => (Failed e, self)
          | Ok _, Ok _ =>
              if no_reboot_check self then (Ok tt, self)
              else (fu_util_prompt_complete console (completion_flags self), self)
          end
    end.

End Commands.

(** ** [main] *)

(** What the stages of [main] meet in one invocation; the first two fields
    are those of fwupdtool's [FuTool.Invocation]. *)
Record Invocation : Type := mkInvocation {
  SUPPORTED_BUILD : bool;
  fu_util_print_error_as_json_null : option unit;
  g_option_context_parse : Result unit;
  invoked_as_json : bool;
  filter_device : option (Result unit);
  filter_release : option (Result unit);
  fwupd_client_connect : Result unit;
  version : bool;
  fu_util_version : Result unit;
  (** [self->flags & FWUPD_INSTALL_FLAG_FORCE], set by [--force] *)
  force : bool;
  fu_util_check_daemon_version : Result unit;
  fu_util_check_polkit_actions : Result unit;
  fwupd_client_set_feature_flags : Result unit;
  fu_util_cmd_array_run : CommandResult
}.

(** The exit code of [main], [None] when the run returns none. *)
Definition main (inv : Invocation) : option Z :=
  match g_option_context_parse inv with
  | Failed _ => Some EXIT_FAILURE
  | Ok _ =>
  match filter_device inv with
  | Some (Failed _) => Some EXIT_FAILURE
  | _ =>
  match filter_release inv with
  | Some (Failed _) => Some EXIT_FAILURE
  | _ =>
  match fwupd_client_connect inv with
  | Failed _ => Some EXIT_FAILURE
  | Ok _ =>
    if version inv then
      match fu_util_version inv with
      | Failed _ => Some EXIT_FAILURE
      | Ok _ => Some EXIT_SUCCESS
      end
    else if negb (force inv) && negb (is_ok (fu_util_check_daemon_version inv))
    then Some EXIT_FAILURE
    else if negb (is_ok (fu_util_check_polkit_actions inv)) then Some EXIT_FAILURE
    else if negb (is_ok (fwupd_client_set_feature_flags inv)) then Some EXIT_FAILURE
    else exit_after_command (SUPPORTED_BUILD inv)
           (fu_util_print_error_as_json_null inv)
           (invoked_as_json inv) (fu_util_cmd_array_run inv)
  end end end end.

(** The error a failed stage left behind. *)
Definition setup_failure (r : Result unit) : option GError :=
  match r with
  | Ok _ => None
  | Failed e => Some e
  end.

(** What happened in the invocation, stage by stage: the first stage of the
    set-up that fails decides, else the command does. *)
Definition outcome (inv : Invocation) : Outcome :=
  let stages :=
    [setup_failure (g_option_context_parse inv);
     match filter_device inv with Some r => setup_failure r | None => None end;
     match filter_release inv with Some r => setup_failure r | None => None end;
     setup_failure (fwupd_client_connect inv)] in
  let later :=
    [if force inv then None else setup_failure (fu_util_check_daemon_version inv);
     setup_failure (fu_util_check_polkit_actions inv);
     setup_failure (fwupd_client_set_feature_flags inv)] in
  let first_failure (l : list (option GError)) :=
    find (fun o => match o with Some _ => true | None => false end) l in
  match first_failure stages with
  | Some (Some e) => SetupFailed e
  | _ =>
      if version inv then
        match fu_util_version inv with
        | Failed e => SetupFailed e
        | Ok _ => Succeeded
        end
      else
        match first_failure later with
        | Some (Some e) => SetupFailed e
        | _ => outcome_of_command (fu_util_cmd_array_run inv)
        end
  end.

(** ** The exit code of fwupdmgr *)


(** ** What the commands leave of the request *)

(** A step that neither changes the install flags nor installs anything. *)
Definition keeps {A : Type} (m : Run FuUtil A) : Prop :=
  forall self r self',
    m self = (r, self') ->
    flags self' = flags self /\ installs self' = installs self.

Lemma keeps_ret {A : Type} (a : A) : keeps (ret a).
Proof. intros self r self' H. apply ret_any_inv in H. destruct H as [_ ->]. auto. Qed.

Lemma keeps_fail {A : Type} (e : GError) : keeps (@fail FuUtil A e).
Proof. intros self r self' H. apply fail_inv in H. destruct H as [_ ->]. auto. Qed.

Lemma keeps_lift_result {A : Type} (x : Result A) : keeps (@lift_result FuUtil A x).
Proof.
  intros self r self' H. apply lift_result_inv in H. destruct H as [_ ->]. auto.
Qed.

Lemma keeps_get : keeps (@get FuUtil).
Proof. intros self r self' H. apply get_inv in H. destruct H as [_ ->]. auto. Qed.

Lemma keeps_bind {A B : Type} (m : Run FuUtil A) (k : A -> Run FuUtil B) :
  keeps m -> (forall a, keeps (k a)) -> keeps (bind m k).
Proof.
  intros Hm Hk self r self' H. apply bind_inv in H.
  destruct H as [(a & s1 & H1 & H2) | (e & H1 & _)].
  - destruct (Hm _ _ _ H1) as [Hf Hi]. destruct (Hk a _ _ _ H2) as [Hf' Hi'].
    split; congruence.
  - exact (Hm _ _ _ H1).
Qed.

Lemma keeps_input_uint (maxnum : Z) : keeps (fu_console_input_uint maxnum).
Proof.
  intros self r self' H. unfold fu_console_input_uint in H.
  destruct (next_answer maxnum (console_input self)) as [idx rest].
  injection H as _ <-. auto.
Qed.

Lemma keeps_chosen {A : Type} (array : list A) (idx : Z) : keeps (chosen array idx).
Proof.
  unfold chosen. destruct (nth_error array (Z.to_nat (idx - 1)));
    [apply keeps_ret | apply keeps_fail].
Qed.

Create HintDb keeps.
#[local] Hint Resolve keeps_ret keeps_fail keeps_lift_result keeps_get
  keeps_input_uint keeps_chosen : keeps.

Section CommandFacts.

Variable client : FwupdClient.
Variable console : Prompts.
Variable fwupd_guid_is_valid : string -> bool.
Variable fwupd_device_array_filter_flags :
  list FwupdDevice -> Z -> Z -> Result (list FwupdDevice).
Variable fwupd_release_match_flags : FwupdRelease -> Z -> Z -> bool.
Variable fu_util_branch_for_display : option string -> string.

Lemma keeps_prompt_for_device (devices : list FwupdDevice) :
  keeps (fu_util_prompt_for_device fwupd_device_array_filter_flags devices).
Proof.
  unfold fu_util_prompt_for_device.
  apply keeps_bind; [auto with keeps | intro self].
  apply keeps_bind; [auto with keeps | intro filtered].
  assert (Hprompt : keeps
    (if no_device_prompt self
     then fail (fwupd_error FWUPD_ERROR_NOT_FOUND "can't prompt for devices")
     else idx <- fu_console_input_uint (Z.of_nat (length filtered)) ;;
          if idx =? 0
          then fail (fwupd_error FWUPD_ERROR_NOTHING_TO_DO "Request canceled")
          else chosen filtered idx)).
  { destruct (no_device_prompt self); [auto with keeps |].
    apply keeps_bind; [auto with keeps | intro idx].
    destruct (idx =? 0); auto with keeps. }
  destruct filtered as [| dev [| dev' filtered]];
    [exact Hprompt | auto with keeps | exact Hprompt].
Qed.

Lemma keeps_get_device_or_prompt (values : list string) :
  keeps (fu_util_get_device_or_prompt client fwupd_guid_is_valid
           fwupd_device_array_filter_flags values).
Proof.
  unfold fu_util_get_device_or_prompt, fu_util_get_device_by_id.
  destruct values as [| id values].
  - apply keeps_bind; [auto with keeps | intro self].
    destruct (as_json self); [auto with keeps |].
    apply keeps_bind; [auto with keeps | intro devices].
    apply keeps_prompt_for_device.
  - destruct (fwupd_guid_is_valid id).
    + apply keeps_bind; [auto with keeps | intro devices].
      apply keeps_prompt_for_device.
    + destruct (has_dash id); auto with keeps.
Qed.

Lemma keeps_choose_branch (values : list string) (branches : list (option string)) :
  keeps (choose_branch values branches).
Proof.
  unfold choose_branch.
  assert (Hpick : keeps
    (match branches with
     | [branch] => ret branch
     | _ => idx <- fu_console_input_uint (Z.of_nat (length branches)) ;;
            if idx =? 0
            then fail (fwupd_error FWUPD_ERROR_NOTHING_TO_DO "Request canceled")
            else chosen branches idx
     end)).
  { assert (Hprompt : keeps
      (idx <- fu_console_input_uint (Z.of_nat (length branches)) ;;
       if idx =? 0
       then fail (fwupd_error FWUPD_ERROR_NOTHING_TO_DO "Request canceled")
       else chosen branches idx)).
    { apply keeps_bind; [auto with keeps | intro idx].
      destruct (idx =? 0); auto with keeps. }
    destruct branches as [| b [| b' branches]];
      [exact Hprompt | auto with keeps | exact Hprompt]. }
  destruct values as [| id [| branch values]];
    [exact Hpick | exact Hpick | auto with keeps].
Qed.

(** [fu_util_update_device_with_release] asks the daemon for at most one
    install, of an updatable device, with the flags the front end holds. *)
Lemma fu_util_update_device_with_release_log (dev : FwupdDevice)
    (rel : FwupdRelease) (self self' : FuUtil) (r : Result unit) :
  fu_util_update_device_with_release client console dev rel self = (r, self') ->
  flags self' = flags self /\
  (installs self' = installs self \/
   (fwupd_device_has_flag dev FWUPD_DEVICE_FLAG_UPDATABLE = true /\
    installs self' = mkInstallCall dev rel (flags self) :: installs self)).
Proof.
  unfold fu_util_update_device_with_release.
  destruct (fwupd_device_has_flag dev FWUPD_DEVICE_FLAG_UPDATABLE) eqn:Hupd;
    cbn [negb].
  2: { intro H. apply fail_inv in H. destruct H as [_ ->]. auto. }
  intro H.
  apply bind_inv in H. destruct H as [(s0 & s1 & Hget & H) | (e & Hget & _)];
    [| apply get_inv in Hget; destruct Hget as [Hget _]; discriminate Hget].
  apply get_inv in Hget. destruct Hget as [Hs0 ->]. injection Hs0 as ->.
  apply bind_inv in H. destruct H as [([] & s2 & Hask & H) | (e & Hask & _)].
  - assert (Hkeep : flags s2 = flags self /\ installs s2 = installs self).
    { revert Hask.
      generalize (negb (as_json self) && negb (no_safety_check self)
                  && negb (assume_yes self)).
      intros [|] Hask.
      - revert Hask. apply keeps_bind; [auto with keeps | intros _].
        apply keeps_bind; [auto with keeps | intros _].
        apply keeps_bind; [auto with keeps | intros _]. auto with keeps.
      - revert Hask. apply keeps_ret. }
    destruct Hkeep as [Hf Hi].
    apply bind_inv in H. destruct H as [([] & s3 & Hlog & H) | (e & Hlog & _)];
      [| apply modify_inv in Hlog; destruct Hlog as [Hlog _]; discriminate Hlog].
    apply modify_inv in Hlog. destruct Hlog as [_ ->].
    apply lift_result_inv in H. destruct H as [_ ->].
    cbn [flags installs log_install]. rewrite Hf, Hi. auto.
  - assert (Hkeep : flags self' = flags self /\ installs self' = installs self).
    { revert Hask.
      generalize (negb (as_json self) && negb (no_safety_check self)
                  && negb (assume_yes self)).
      intros [|] Hask.
      - revert Hask. apply keeps_bind; [auto with keeps | intros _].
        apply keeps_bind; [auto with keeps | intros _].
        apply keeps_bind; [auto with keeps | intros _]. auto with keeps.
      - revert Hask. apply keeps_ret. }
    destruct Hkeep as [Hf Hi]. auto.
Qed.

(** Whatever the arguments and the answers at the prompts, a switch of
    branch asks the daemon for at most one install.  The device is updatable,
    its branch is not the branch of the release, and the install flags are
    those the front end held with allow-reinstall and allow-branch-switch
    added. *)
Lemma fu_util_switch_branch_installs (values : list string)
    (self self' : FuUtil) (r : Result unit) :
  fu_util_switch_branch client console fwupd_guid_is_valid
    fwupd_device_array_filter_flags fwupd_release_match_flags
    fu_util_branch_for_display values self = (r, self') ->
  installs self' = installs self \/
  exists dev rel,
    installs self'
    = mkInstallCall dev rel
        (mask_add
           (mask_add (flags self)
              (FwupdInstallFlags_of FWUPD_INSTALL_FLAG_ALLOW_REINSTALL))
           (FwupdInstallFlags_of FWUPD_INSTALL_FLAG_ALLOW_BRANCH_SWITCH))
      :: installs self /\
    release_branch rel <> device_branch dev /\
    fwupd_device_has_flag dev FWUPD_DEVICE_FLAG_UPDATABLE = true.
Proof.
  unfold fu_util_switch_branch. intro H.
  apply bind_inv in H. destruct H as [([] & s1 & Hinc & H) | (e & Hinc & _)];
    [| apply modify_inv in Hinc; destruct Hinc as [Hinc _]; discriminate Hinc].
  apply modify_inv in Hinc. destruct Hinc as [_ ->].
  apply bind_inv in H. destruct H as [(dev & s2 & Hdev & H) | (e & Hdev & _)].
  2: { apply keeps_get_device_or_prompt in Hdev. destruct Hdev as [_ Hi].
       left. exact Hi. }
  apply keeps_get_device_or_prompt in Hdev.
  cbn [flags installs set_filter_device_include] in Hdev.
  destruct Hdev as [Hf2 Hi2].
  apply bind_inv in H. destruct H as [(rels & s3 & Hrels & H) | (e & Hrels & _)].
  2: { apply lift_result_inv in Hrels. destruct Hrels as [_ ->]. auto. }
  apply lift_result_inv in Hrels. destruct Hrels as [_ ->].
  apply bind_inv in H. destruct H as [(s0 & s4 & Hget & H) | (e & Hget & _)];
    [| apply get_inv in Hget; destruct Hget as [Hget _]; discriminate Hget].
  apply get_inv in Hget. destruct Hget as [Hs0 ->]. injection Hs0 as ->.
  apply bind_inv in H. destruct H as [(branch & s5 & Hbr & H) | (e & Hbr & _)].
  2: { apply keeps_choose_branch in Hbr. destruct Hbr as [_ Hi].
       left. congruence. }
  apply keeps_choose_branch in Hbr. destruct Hbr as [Hf5 Hi5].
  destruct (g_str_equal0 branch (device_branch dev)) eqn:Hsame.
  { apply fail_inv in H. destruct H as [_ ->]. left. congruence. }
  destruct (first_match (fun rel_tmp => g_str_equal0 (release_branch rel_tmp) branch)
                        rels) as [rel |] eqn:Hfind.
  2: { apply fail_inv in H. destruct H as [_ ->]. left. congruence. }
  apply find_some in Hfind. destruct Hfind as [_ Hrel].
  apply g_str_equal0_eq in Hrel.
  assert (Hdiff : release_branch rel <> device_branch dev).
  { rewrite Hrel. intro Heq. apply g_str_equal0_eq in Heq.
    rewrite Heq in Hsame. discriminate Hsame. }
  apply bind_inv in H. destruct H as [(s0 & s6 & Hget & H) | (e & Hget & _)];
    [| apply get_inv in Hget; destruct Hget as [Hget _]; discriminate Hget].
  apply get_inv in Hget. destruct Hget as [Hs0 ->]. injection Hs0 as ->.
  apply bind_inv in H. destruct H as [([] & s7 & Hwarn & H) | (e & Hwarn & _)].
  2: { apply lift_result_inv in Hwarn. destruct Hwarn as [_ ->].
       left. congruence. }
  apply lift_result_inv in Hwarn. destruct Hwarn as [_ ->].
  apply bind_inv in H. destruct H as [([] & s8 & Hop & H) | (e & Hop & _)];
    [| apply modify_inv in Hop; destruct Hop as [Hop _]; discriminate Hop].
  apply modify_inv in Hop. destruct Hop as [_ ->].
  apply bind_inv in H. destruct H as [([] & s9 & Hre & H) | (e & Hre & _)];
    [| apply modify_inv in Hre; destruct Hre as [Hre _]; discriminate Hre].
  apply modify_inv in Hre. destruct Hre as [_ ->].
  apply bind_inv in H. destruct H as [([] & s10 & Hsw & H) | (e & Hsw & _)];
    [| apply modify_inv in Hsw; destruct Hsw as [Hsw _]; discriminate Hsw].
  apply modify_inv in Hsw. destruct Hsw as [_ ->].
  destruct (fu_util_update_device_with_release client console dev rel _)
    as [ret s11] eqn:Hupdate.
  apply fu_util_update_device_with_release_log in Hupdate.
  cbn [flags installs set_flags set_current_operation] in Hupdate.
  rewrite Hf5, Hf2, Hi5, Hi2 in Hupdate.
  assert (Hend : self' = s11).
  { destruct ret as [[] | e];
      destruct (fu_util_maybe_send_reports client rel) as [[] | e'];
      try (injection H as _ <-; reflexivity).
    destruct (no_reboot_check s11); injection H as _ <-; reflexivity. }
  subst s11. destruct Hupdate as [_ [Hnone | [Hupd Hnew]]].
  - left. exact Hnone.
  - right. exists dev, rel. auto.
Qed.

End CommandFacts.

(** ** Downgrade and re-install *)

Section Releases.

Variable client : FwupdClient.
Variable console : Prompts.

(** libfwupd and libfwupdplugin functions outside the sources. *)
Variable fwupd_guid_is_valid : string -> bool.
Variable fwupd_device_array_filter_flags :
  list FwupdDevice -> Z -> Z -> Result (list FwupdDevice).
Variable fwupd_release_array_filter_flags :
  list FwupdRelease -> Z -> Z -> Result (list FwupdRelease).
Variable fwupd_client_get_downgrades : string -> Result (list FwupdRelease).
Variable fu_version_compare : string -> string -> Z -> Z.

Definition fu_util_get_release_for_device_version (device : FwupdDevice)
    (version : string) : Result FwupdRelease :=
  match fwupd_client_get_releases client (device_id device) with
  | Failed e => Failed e
  | Ok releases =>
      match first_match
              (fun release =>
                 fu_version_compare (release_version release) version
                                    (device_version_format device) =? 0)
              releases with
      | Some release => Ok release
      | None =>
          Failed (fwupd_error FWUPD_ERROR_NOT_SUPPORTED
                    (String.append "Unable to locate release "
                       (String.append version
                          (String.append " for " (device_name device)))))
      end
  end.

Definition fu_util_prompt_for_release (rels_unfiltered : list FwupdRelease)
  : Run FuUtil FwupdRelease :=
  self <- get ;;
  rels <-
    lift_result (fwupd_release_array_filter_flags rels_unfiltered
                   (filter_release_include self) (filter_release_exclude self)) ;;
  match rels with
  | [rel] => ret rel
  | _ =>
      idx <- fu_console_input_uint (Z.of_nat (length rels)) ;;
      if idx =? 0 then
        fail (fwupd_error FWUPD_ERROR_NOTHING_TO_DO "Request canceled")
      else chosen rels idx
  end.

(** The steps from the install to the end, which [fu_util_downgrade] and
    [fu_util_reinstall] share word for word: the install, the reports, and
    the question about the reboot. *)
Definition install_and_report (dev : FwupdDevice) (rel : FwupdRelease)
  : Run FuUtil unit :=
  fun self =>
    let (ret, self) := fu_util_update_device_with_release client console dev rel self in
    match ret, fu_util_maybe_send_reports client rel with
    | Ok _, Failed error_report => (Failed error_report, self)
    | Failed e, _ => (Failed e, self)
    | Ok _, Ok _ =>
        if no_reboot_check self then (Ok tt, self)
        else (fu_util_prompt_complete console (completion_flags self), self)
    end.

Definition fu_util_downgrade (values : list string) : Run FuUtil unit :=
  self <- get ;;
  if negb (Z.land (flags self)
                  (FwupdInstallFlags_of FWUPD_INSTALL_FLAG_ALLOW_REINSTALL) =? 0)
  then
    fail (fwupd_error FWUPD_ERROR_INVALID_ARGS
            "--allow-reinstall is not supported for this command")
  else
    modify (fun self =>
              set_filter_device_include
                (mask_add (filter_device_include self)
                   (FwupdDeviceFlags_of FWUPD_DEVICE_FLAG_SUPPORTED))
                self) ;;;
    dev <- fu_util_get_device_or_prompt client fwupd_guid_is_valid
             fwupd_device_array_filter_flags values ;;
    rels <- with_prefix
              (String.append "No downgrades for "
                 (String.append (device_name dev) ": "))
              (lift_result (fwupd_client_get_downgrades (device_id dev))) ;;
    rel <- fu_util_prompt_for_release rels ;;
    modify (set_current_operation FU_UTIL_OPERATION_DOWNGRADE) ;;;
    modify (fun self =>
              set_flags (mask_add (flags self)
                (FwupdInstallFlags_of FWUPD_INSTALL_FLAG_ALLOW_OLDER))
                self) ;;;
    install_and_report dev rel.

Definition fu_util_reinstall (values : list string) : Run FuUtil unit :=
  modify (fun self =>
            set_filter_device_include
              (mask_add (filter_device_include self)
                 (FwupdDeviceFlags_of FWUPD_DEVICE_FLAG_SUPPORTED))
              self) ;;;
  dev <- fu_util_get_device_or_prompt client fwupd_guid_is_valid
           fwupd_device_array_filter_flags values ;;
  rel <- lift_result
           (fu_util_get_release_for_device_version dev (device_version dev)) ;;
  modify (set_current_operation FU_UTIL_OPERATION_INSTALL) ;;;
  modify (fun self =>
            set_flags (mask_add (flags self)
              (FwupdInstallFlags_of FWUPD_INSTALL_FLAG_ALLOW_REINSTALL))
              self) ;;;
  install_and_report dev rel.

(** *** What the prompts change *)

(** Two states that differ in nothing but the answers left at the console. *)
Definition only_console (self self' : FuUtil) : Prop :=
  self' = set_console_input (console_input self') self.

(** A step that only reads answers. *)
Definition asks {A : Type} (m : Run FuUtil A) : Prop :=
  forall self r self', m self = (r, self') -> only_console self self'.

Lemma only_console_refl (self : FuUtil) : only_console self self.
Proof. destruct self; reflexivity. Qed.

Lemma only_console_trans (a b c : FuUtil) :
  only_console a b -> only_console b c -> only_console a c.
Proof.
  unfold only_console. intros Hab Hbc. rewrite Hbc, Hab. reflexivity.
Qed.

Lemma asks_ret {A : Type} (a : A) : asks (ret a).
Proof.
  intros self r self' H. apply ret_any_inv in H. destruct H as [_ ->].
  apply only_console_refl.
Qed.

Lemma asks_fail {A : Type} (e : GError) : asks (@fail FuUtil A e).
Proof.
  intros self r self' H. apply fail_inv in H. destruct H as [_ ->].
  apply only_console_refl.
Qed.

Lemma asks_lift_result {A : Type} (x : Result A) : asks (@lift_result FuUtil A x).
Proof.
  intros self r self' H. apply lift_result_inv in H. destruct H as [_ ->].
  apply only_console_refl.
Qed.

Lemma asks_bind {A B : Type} (m : Run FuUtil A) (k : A -> Run FuUtil B) :
  asks m -> (forall a, asks (k a)) -> asks (bind m k).
Proof.
  intros Hm Hk self r self' H. apply bind_inv in H.
  destruct H as [(a & s1 & H1 & H2) | (e & H1 & _)].
  - eapply only_console_trans; [eapply Hm, H1 | eapply Hk, H2].
  - eapply Hm, H1.
Qed.

Lemma asks_get_bind {B : Type} (k : FuUtil -> Run FuUtil B) :
  (forall s, asks (k s)) -> asks (bind get k).
Proof.
  intros Hk self r self' H. unfold bind, get in H. eapply Hk, H.
Qed.

Lemma asks_input_uint (maxnum : Z) : asks (fu_console_input_uint maxnum).
Proof.
  intros self r self'. unfold fu_console_input_uint.
  destruct (next_answer maxnum (console_input self)) as [idx rest].
  intro H. injection H as _ <-. reflexivity.
Qed.

Lemma asks_chosen {A : Type} (array : list A) (idx : Z) : asks (chosen array idx).
Proof.
  unfold chosen. destruct (nth_error array (Z.to_nat (idx - 1)));
    [apply asks_ret | apply asks_fail].
Qed.

Lemma asks_pick {A : Type} (array : list A) :
  asks (idx <- fu_console_input_uint (Z.of_nat (length array)) ;;
        if idx =? 0 then
          fail (fwupd_error FWUPD_ERROR_NOTHING_TO_DO "Request canceled")
        else chosen array idx).
Proof.
  apply asks_bind; [apply asks_input_uint | intro idx].
  destruct (idx =? 0); [apply asks_fail | apply asks_chosen].
Qed.

Lemma asks_prompt_for_device (devices : list FwupdDevice) :
  asks (fu_util_prompt_for_device fwupd_device_array_filter_flags devices).
Proof.
  unfold fu_util_prompt_for_device. apply asks_get_bind. intro s.
  apply asks_bind; [apply asks_lift_result | intro filtered].
  destruct filtered as [| dev [| dev' filtered]]; try apply asks_ret;
    (destruct (no_device_prompt s); [apply asks_fail | apply asks_pick]).
Qed.

Lemma asks_get_device_or_prompt (values : list string) :
  asks (fu_util_get_device_or_prompt client fwupd_guid_is_valid
          fwupd_device_array_filter_flags values).
Proof.
  unfold fu_util_get_device_or_prompt, fu_util_get_device_by_id.
  destruct values as [| id rest].
  - apply asks_get_bind. intro s. destruct (as_json s); [apply asks_fail |].
    apply asks_bind; [apply asks_lift_result | intro devices].
    apply asks_prompt_for_device.
  - destruct (fwupd_guid_is_valid id).
    + apply asks_bind; [apply asks_lift_result | intro devices].
      apply asks_prompt_for_device.
    + destruct (has_dash id); [apply asks_fail | apply asks_lift_result].
Qed.

Lemma asks_prompt_for_release (rels : list FwupdRelease) :
  asks (fu_util_prompt_for_release rels).
Proof.
  unfold fu_util_prompt_for_release. apply asks_get_bind. intro s.
  apply asks_bind; [apply asks_lift_result | intro filtered].
  destruct filtered as [| rel [| rel' filtered]]; try apply asks_ret;
    apply asks_pick.
Qed.

Lemma chosen_In {A : Type} (array : list A) (idx : Z) (a : A) (self self' : FuUtil) :
  chosen array idx self = (Ok a, self') -> In a array.
Proof.
  unfold chosen. destruct (nth_error array (Z.to_nat (idx - 1))) as [x |] eqn:E.
  - intro H. apply ret_inv in H. destruct H as [<- _].
    eapply nth_error_In, E.
  - intro H. apply fail_inv in H. destruct H as [H _]. discriminate H.
Qed.

Lemma pick_In {A : Type} (array : list A) (a : A) (self self' : FuUtil) :
  (idx <- fu_console_input_uint (Z.of_nat (length array)) ;;
   if idx =? 0 then
     fail (fwupd_error FWUPD_ERROR_NOTHING_TO_DO "Request canceled")
   else chosen array idx) self = (Ok a, self') ->
  In a array /\ console_input self <> [].
Proof.
  intro H. apply bind_inv in H.
  destruct H as [(idx & s1 & Hin & H) | (e & _ & H)]; [| discriminate H].
  destruct (idx =? 0) eqn:Hidx.
  { apply fail_inv in H. destruct H as [H _]. discriminate H. }
  split; [eapply chosen_In, H |].
  intro Hempty. unfold fu_console_input_uint in Hin. rewrite Hempty in Hin.
  cbn [next_answer] in Hin. injection Hin as <- _. discriminate Hidx.
Qed.

(** The device that [fu_util_prompt_for_device] returns is one of those
    that pass the device filter of the front end.  It is the only one, or
    the user has picked it: with [no_device_prompt] set, or with nothing
    typed at the console, no device is returned unless exactly one passes
    the filter, and then nothing is read from the console. *)
Theorem prompt_for_device_choice (devices : list FwupdDevice) (dev : FwupdDevice)
    (self self' : FuUtil) :
  fu_util_prompt_for_device fwupd_device_array_filter_flags devices self
  = (Ok dev, self') ->
  exists filtered,
    fwupd_device_array_filter_flags devices (filter_device_include self)
                                    (filter_device_exclude self) = Ok filtered /\
    In dev filtered /\
    only_console self self' /\
    (filtered = [dev] /\ self' = self \/
     length filtered <> 1%nat /\ no_device_prompt self = false /\
     console_input self <> []).
Proof.
  intro H. pose proof (asks_prompt_for_device devices _ _ _ H) as Hframe.
  revert H. unfold fu_util_prompt_for_device.
  unfold bind at 1. unfold get at 1. unfold bind at 1. unfold lift_result at 1.
  destruct (fwupd_device_array_filter_flags devices _ _) as [filtered | e];
    [| discriminate].
  intro H. exists filtered. split; [reflexivity |].
  assert (Hpick : forall l : list FwupdDevice,
            length l <> 1%nat ->
            (if no_device_prompt self
             then fail (fwupd_error FWUPD_ERROR_NOT_FOUND "can't prompt for devices")
             else
               idx <- fu_console_input_uint (Z.of_nat (length l)) ;;
               if idx =? 0 then
                 fail (fwupd_error FWUPD_ERROR_NOTHING_TO_DO "Request canceled")
               else chosen l idx) self = (Ok dev, self') ->
            In dev l /\ only_console self self' /\
            (l = [dev] /\ self' = self \/
             length l <> 1%nat /\ no_device_prompt self = false /\
             console_input self <> [])).
  { intros l Hl Hrun. destruct (no_device_prompt self) eqn:Hno.
    - apply fail_inv in Hrun. destruct Hrun as [Hrun _]. discriminate Hrun.
    - apply pick_In in Hrun. destruct Hrun as [Hin Hinput]. auto 6. }
  destruct filtered as [| d [| d' filtered]].
  - apply Hpick; [discriminate | exact H].
  - apply ret_inv in H. destruct H as [-> ->].
    split; [left; reflexivity |]. split; [exact Hframe |]. left. auto.
  - apply Hpick; [discriminate | exact H].
Qed.

Lemma prompt_for_release_choice (rels : list FwupdRelease) (rel : FwupdRelease)
    (self self' : FuUtil) :
  fu_util_prompt_for_release rels self = (Ok rel, self') ->
  exists filtered,
    fwupd_release_array_filter_flags rels (filter_release_include self)
                                     (filter_release_exclude self) = Ok filtered /\
    In rel filtered.
Proof.
  unfold fu_util_prompt_for_release.
  unfold bind at 1. unfold get at 1. unfold bind at 1. unfold lift_result at 1.
  destruct (fwupd_release_array_filter_flags rels _ _) as [filtered | e];
    [| discriminate].
  intro H. exists filtered. split; [reflexivity |].
  destruct filtered as [| d [| d' filtered]].
  - apply pick_In in H. exact (proj1 H).
  - apply ret_inv in H. destruct H as [-> _]. left. reflexivity.
  - apply pick_In in H. exact (proj1 H).
Qed.

(** *** The install and the reports *)

Lemma update_device_with_release_state (dev : FwupdDevice) (rel : FwupdRelease)
    (self self' : FuUtil) (r : Result unit) :
  fu_util_update_device_with_release client console dev rel self = (r, self') ->
  (self' = self /\ exists e, r = Failed e) \/
  (fwupd_device_has_flag dev FWUPD_DEVICE_FLAG_UPDATABLE = true /\
   self' = log_install (mkInstallCall dev rel (flags self)) self /\
   r = fwupd_client_install_release client dev rel (flags self)
         (download_flags self)).
Proof.
  unfold fu_util_update_device_with_release.
  destruct (fwupd_device_has_flag dev FWUPD_DEVICE_FLAG_UPDATABLE) eqn:Hupd;
    cbn [negb].
  2: { intro H. apply fail_inv in H. destruct H as [-> ->]. left. eauto. }
  unfold bind at 1. unfold get at 1.
  destruct (negb (as_json self) && negb (no_safety_check self)
            && negb (assume_yes self)).
  - unfold bind, lift_result, modify.
    destruct (fu_util_prompt_warning console dev rel _) as [[] | e];
      [| intro H; injection H as <- <-; left; eauto].
    destruct (fu_util_prompt_warning_fde console dev) as [[] | e];
      [| intro H; injection H as <- <-; left; eauto].
    destruct (fu_util_prompt_warning_composite console dev rel) as [[] | e];
      [| intro H; injection H as <- <-; left; eauto].
    destruct (fu_util_prompt_warning_bkc console dev rel) as [[] | e];
      [| intro H; injection H as <- <-; left; eauto].
    intro H. injection H as <- <-. right. auto.
  - unfold bind, ret, lift_result, modify.
    intro H. injection H as <- <-. right. auto.
Qed.

(** How [install_and_report] ends once the daemon has been asked. *)
Definition reported (rel : FwupdRelease) (self : FuUtil) (installed : Result unit)
  : Result unit :=
  match installed, fu_util_maybe_send_reports client rel with
  | Ok _, Failed error_report => Failed error_report
  | Failed e, _ => Failed e
  | Ok _, Ok _ =>
      if no_reboot_check self then Ok tt
      else fu_util_prompt_complete console (completion_flags self)
  end.

Lemma install_and_report_state (dev : FwupdDevice) (rel : FwupdRelease)
    (self self' : FuUtil) (r : Result unit) :
  install_and_report dev rel self = (r, self') ->
  (self' = self /\ exists e, r = Failed e) \/
  (fwupd_device_has_flag dev FWUPD_DEVICE_FLAG_UPDATABLE = true /\
   self' = log_install (mkInstallCall dev rel (flags self)) self /\
   r = reported rel self
         (fwupd_client_install_release client dev rel (flags self)
            (download_flags self))).
Proof.
  unfold install_and_report.
  destruct (fu_util_update_device_with_release client console dev rel self)
    as [ret s1] eqn:Hupdate.
  apply update_device_with_release_state in Hupdate.
  destruct Hupdate as [[-> [e ->]] | (Hupd & -> & ->)].
  - intro H. injection H as <- <-. left. eauto.
  - intro H. right. split; [exact Hupd |].
    unfold reported.
    destruct (fwupd_client_install_release client dev rel (flags self)
                (download_flags self)) as [[] | e];
      destruct (fu_util_maybe_send_reports client rel) as [[] | e'];
      cbn [no_reboot_check completion_flags log_install] in H;
      try (injection H as <- <-; auto).
    destruct (no_reboot_check self); injection H as <- <-; auto.
Qed.

Lemma reported_ok (rel : FwupdRelease) (self : FuUtil) (installed : Result unit) :
  reported rel self installed = Ok tt ->
  installed = Ok tt /\ fu_util_maybe_send_reports client rel = Ok tt.
Proof.
  unfold reported. destruct installed as [[] | e]; [| discriminate].
  destruct (fu_util_maybe_send_reports client rel) as [[] | e]; [| discriminate].
  auto.
Qed.

Lemma reported_same (rel : FwupdRelease) (a b : FuUtil) (installed : Result unit) :
  no_reboot_check a = no_reboot_check b ->
  completion_flags a = completion_flags b ->
  reported rel a installed = reported rel b installed.
Proof. unfold reported. intros -> ->. reflexivity. Qed.

Ltac explicit_console H :=
  match type of H with
  | only_console _ ?b =>
      unfold only_console in H;
      let answers := fresh "answers" in
      let E := fresh "E" in
      remember (console_input b) as answers eqn:E in H; clear E; subst b
  end.

(** A downgrade is refused with "invalid arguments", before anything else
    is done, when allow-reinstall is among the install flags.  Otherwise it
    asks the daemon for at most one install: of an updatable device, of a
    release that the daemon offers as a downgrade and that passes the release
    filter, with allow-older added to the flags.  The command then ends as
    the install does, except that it fails, although the install was made,
    when the remote of the release cannot be looked up for the reports. *)
Theorem downgrade_installs (values : list string) (self self' : FuUtil)
    (r : Result unit) :
  fu_util_downgrade values self = (r, self') ->
  (Z.land (flags self) (FwupdInstallFlags_of FWUPD_INSTALL_FLAG_ALLOW_REINSTALL) <> 0 ->
   r = Failed (fwupd_error FWUPD_ERROR_INVALID_ARGS
                 "--allow-reinstall is not supported for this command") /\
   self' = self) /\
  ((installs self' = installs self /\ exists e, r = Failed e) \/
   exists dev rel rels filtered,
     Z.land (flags self) (FwupdInstallFlags_of FWUPD_INSTALL_FLAG_ALLOW_REINSTALL) = 0 /\
     fwupd_client_get_downgrades (device_id dev) = Ok rels /\
     fwupd_release_array_filter_flags rels (filter_release_include self)
                                      (filter_release_exclude self) = Ok filtered /\
     In rel filtered /\
     fwupd_device_has_flag dev FWUPD_DEVICE_FLAG_UPDATABLE = true /\
     installs self'
     = mkInstallCall dev rel
         (mask_add (flags self) (FwupdInstallFlags_of FWUPD_INSTALL_FLAG_ALLOW_OLDER))
       :: installs self /\
     current_operation self' = FU_UTIL_OPERATION_DOWNGRADE /\
     r = reported rel self
           (fwupd_client_install_release client dev rel
              (mask_add (flags self)
                 (FwupdInstallFlags_of FWUPD_INSTALL_FLAG_ALLOW_OLDER))
              (download_flags self))).
Proof.
  unfold fu_util_downgrade. unfold bind at 1. unfold get at 1.
  destruct (Z.land (flags self)
              (FwupdInstallFlags_of FWUPD_INSTALL_FLAG_ALLOW_REINSTALL) =? 0)
    eqn:Hre; cbn [negb].
  2: { apply Z.eqb_neq in Hre. intro H. apply fail_inv in H.
       destruct H as [-> ->]. split; [auto |]. left. eauto. }
  apply Z.eqb_eq in Hre. intro H.
  split; [intro Hset; contradiction |].
  apply bind_inv in H. destruct H as [([] & s1 & Hinc & H) | (e & Hinc & _)];
    [| apply modify_inv in Hinc; destruct Hinc as [Hinc _]; discriminate Hinc].
  apply modify_inv in Hinc. destruct Hinc as [_ ->].
  apply bind_inv in H. destruct H as [(dev & s2 & Hdev & H) | (e & Hdev & ->)].
  2: { apply asks_get_device_or_prompt in Hdev. explicit_console Hdev.
       left. eauto. }
  apply asks_get_device_or_prompt in Hdev. explicit_console Hdev.
  apply bind_inv in H. destruct H as [(rels & s3 & Hrels & H) | (e & Hrels & ->)].
  2: { apply with_prefix_inv in Hrels.
       destruct Hrels as [(a & _ & Hr) | (e' & Hrels & _)]; [discriminate Hr |].
       apply lift_result_inv in Hrels. destruct Hrels as [_ ->]. left. eauto. }
  apply with_prefix_inv in Hrels.
  destruct Hrels as [(a & Hrels & Ha) | (e' & _ & Hr)]; [| discriminate Hr].
  injection Ha as <-.
  apply lift_result_inv in Hrels. destruct Hrels as [Hrels ->].
  apply bind_inv in H. destruct H as [(rel & s4 & Hrel & H) | (e & Hrel & ->)].
  2: { apply asks_prompt_for_release in Hrel. explicit_console Hrel.
       left. eauto. }
  pose proof (asks_prompt_for_release _ _ _ _ Hrel) as Hframe.
  apply prompt_for_release_choice in Hrel.
  destruct Hrel as (filtered & Hfilter & Hin).
  cbn [filter_release_include filter_release_exclude set_console_input
       set_filter_device_include] in Hfilter.
  explicit_console Hframe.
  apply bind_inv in H. destruct H as [([] & s5 & Hop & H) | (e & Hop & _)];
    [| apply modify_inv in Hop; destruct Hop as [Hop _]; discriminate Hop].
  apply modify_inv in Hop. destruct Hop as [_ ->].
  apply bind_inv in H. destruct H as [([] & s6 & Hfl & H) | (e & Hfl & _)];
    [| apply modify_inv in Hfl; destruct Hfl as [Hfl _]; discriminate Hfl].
  apply modify_inv in Hfl. destruct Hfl as [_ ->].
  apply install_and_report_state in H.
  destruct H as [[-> [e ->]] | (Hupd & -> & ->)].
  - left. eauto.
  - right. exists dev, rel, rels, filtered.
    repeat split; try assumption; try reflexivity; symmetry; assumption.
Qed.

(** A re-install asks the daemon for at most one install: of an updatable
    device, of the first release the daemon has for it whose version compares
    equal to the device's own under the device's version format, with
    allow-reinstall added to the flags.  The release filter of the front end
    is not applied.  The command then ends as the install does, except that
    it fails, although the install was made, when the remote of the release
    cannot be looked up for the reports. *)
Theorem fwupdmgr_reinstall_installs (values : list string) (self self' : FuUtil)
    (r : Result unit) :
  fu_util_reinstall values self = (r, self') ->
  (installs self' = installs self /\ exists e, r = Failed e) \/
  exists dev rel before after,
    fwupd_client_get_releases client (device_id dev) = Ok (before ++ rel :: after) /\
    Forall (fun b => fu_version_compare (release_version b) (device_version dev)
                       (device_version_format dev) <> 0) before /\
    fu_version_compare (release_version rel) (device_version dev)
                       (device_version_format dev) = 0 /\
    fwupd_device_has_flag dev FWUPD_DEVICE_FLAG_UPDATABLE = true /\
    installs self'
    = mkInstallCall dev rel
        (mask_add (flags self)
           (FwupdInstallFlags_of FWUPD_INSTALL_FLAG_ALLOW_REINSTALL))
      :: installs self /\
    current_operation self' = FU_UTIL_OPERATION_INSTALL /\
    r = reported rel self
          (fwupd_client_install_release client dev rel
             (mask_add (flags self)
                (FwupdInstallFlags_of FWUPD_INSTALL_FLAG_ALLOW_REINSTALL))
             (download_flags self)).
Proof.
  unfold fu_util_reinstall. intro H.
  apply bind_inv in H. destruct H as [([] & s1 & Hinc & H) | (e & Hinc & _)];
    [| apply modify_inv in Hinc; destruct Hinc as [Hinc _]; discriminate Hinc].
  apply modify_inv in Hinc. destruct Hinc as [_ ->].
  apply bind_inv in H. destruct H as [(dev & s2 & Hdev & H) | (e & Hdev & ->)].
  2: { apply asks_get_device_or_prompt in Hdev. explicit_console Hdev.
       left. eauto. }
  apply asks_get_device_or_prompt in Hdev. explicit_console Hdev.
  apply bind_inv in H. destruct H as [(rel & s3 & Hrel & H) | (e & Hrel & ->)].
  2: { apply lift_result_inv in Hrel. destruct Hrel as [_ ->]. left. eauto. }
  apply lift_result_inv in Hrel. destruct Hrel as [Hrel ->].
  unfold fu_util_get_release_for_device_version in Hrel.
  destruct (fwupd_client_get_releases client (device_id dev)) as [releases | e]
    eqn:Hreleases; [| discriminate Hrel].
  destruct (first_match _ releases) as [found |] eqn:Hfind; [| discriminate Hrel].
  injection Hrel as <-.
  unfold first_match in Hfind.
  assert (Hsplit : exists before after,
            releases = before ++ rel :: after /\
            Forall (fun b => fu_version_compare (release_version b)
                               (device_version dev)
                               (device_version_format dev) <> 0) before /\
            fu_version_compare (release_version rel) (device_version dev)
                               (device_version_format dev) = 0).
  { clear - Hfind. induction releases as [| x releases IH]; [discriminate Hfind |].
    cbn [find] in Hfind.
    destruct (Z.eqb_spec (fu_version_compare (release_version x)
                            (device_version dev) (device_version_format dev)) 0)
      as [Hx | Hx].
    - injection Hfind as ->. exists [], releases. auto.
    - destruct (IH Hfind) as (before & after & -> & Hbefore & Hrel).
      exists (x :: before), after. auto. }
  destruct Hsplit as (before & after & -> & Hbefore & Hsame).
  apply bind_inv in H. destruct H as [([] & s5 & Hop & H) | (e & Hop & _)];
    [| apply modify_inv in Hop; destruct Hop as [Hop _]; discriminate Hop].
  apply modify_inv in Hop. destruct Hop as [_ ->].
  apply bind_inv in H. destruct H as [([] & s6 & Hfl & H) | (e & Hfl & _)];
    [| apply modify_inv in Hfl; destruct Hfl as [Hfl _]; discriminate Hfl].
  apply modify_inv in Hfl. destruct Hfl as [_ ->].
  apply install_and_report_state in H.
  destruct H as [[-> [e ->]] | (Hupd & -> & ->)].
  - left. eauto.
  - right. exists dev, rel, before, after.
    repeat split; try assumption; reflexivity.
Qed.

End Releases.

(** ** Activation *)

Section Activation.

Variable client : FwupdClient.

(** libfwupd functions outside the sources; [fwupd_client_activate] takes
    the device ID. *)
Variable fwupd_guid_is_valid : string -> bool.
Variable fwupd_device_array_filter_flags :
  list FwupdDevice -> Z -> Z -> Result (list FwupdDevice).
Variable fwupd_device_match_flags : FwupdDevice -> Z -> Z -> bool.
Variable fwupd_client_activate : string -> Result unit.

(** The front end together with the IDs of the devices whose activation it
    has asked of the daemon so far, newest first. *)
Definition Session : Type := (FuUtil * list string)%type.

Definition on_util {A : Type} (m : Run FuUtil A) : Run Session A :=
  fun s => let (r, self) := m (fst s) in (r, (self, snd s)).

Definition activate_device (id : string) : Run Session unit :=
  fun s => (fwupd_client_activate id, (fst s, id :: snd s)).

(** The second loop of [fu_util_activate]. *)
Fixpoint activate_devices (devices : list FwupdDevice) : Run Session unit :=
  match devices with
  | [] => ret tt
  | device :: rest =>
      s <- get ;;
      if negb (fwupd_device_match_flags device (filter_device_include (fst s))
                                        (filter_device_exclude (fst s)))
      then activate_devices rest
      else if negb (fwupd_device_has_flag device FWUPD_DEVICE_FLAG_NEEDS_ACTIVATION)
      then activate_devices rest
      else activate_device (device_id device) ;;; activate_devices rest
  end.

Definition fu_util_activate (values : list string) : Run Session unit :=
  found <-
    match values with
    | [] =>
        (* activate anything with _NEEDS_ACTIVATION *)
        devices <- lift_result (fwupd_client_get_devices client) ;;
        ret (devices,
             existsb (fun device =>
                        fwupd_device_has_flag device
                          FWUPD_DEVICE_FLAG_NEEDS_ACTIVATION) devices)
    | [id] =>
        device <- on_util (fu_util_get_device_by_id client fwupd_guid_is_valid
                             fwupd_device_array_filter_flags id) ;;
        ret ([device],
             fwupd_device_has_flag device FWUPD_DEVICE_FLAG_NEEDS_ACTIVATION)
    | _ => fail (fwupd_error FWUPD_ERROR_INVALID_ARGS "Invalid arguments")
    end ;;
  (* nothing to do *)
  if negb (snd found) then
    fail (fwupd_error FWUPD_ERROR_NOTHING_TO_DO "No firmware to activate")
  else activate_devices (fst found).

(** *** Facts *)

(** The devices that the second loop activates: those that pass the device
    filter and need activation. *)
Definition to_activate (self : FuUtil) (devices : list FwupdDevice)
  : list FwupdDevice :=
  filter (fun device =>
            fwupd_device_match_flags device (filter_device_include self)
                                     (filter_device_exclude self)
            && fwupd_device_has_flag device FWUPD_DEVICE_FLAG_NEEDS_ACTIVATION)
         devices.

Lemma activate_devices_log (devices : list FwupdDevice) (self self' : FuUtil)
    (log log' : list string) (r : Result unit) :
  activate_devices devices (self, log) = (r, (self', log')) ->
  self' = self /\
  exists activated rest,
    to_activate self devices = activated ++ rest /\
    log' = rev (map device_id activated) ++ log /\
    Forall (fun device => fwupd_client_activate (device_id device) = Ok tt)
           (removelast activated) /\
    (r = Ok tt ->
     rest = [] /\
     Forall (fun device => fwupd_client_activate (device_id device) = Ok tt)
            activated) /\
    (forall e, r = Failed e ->
     exists device, last activated device = device /\ activated <> [] /\
                    fwupd_client_activate (device_id device) = Failed e).
Proof.
  revert log log' r. induction devices as [| device devices IH]; intros log log' r.
  - intro H. apply ret_any_inv in H. destruct H as [-> H]. injection H as <- <-.
    split; [reflexivity |]. exists [], []. cbn.
    repeat split; auto; discriminate.
  - cbn [activate_devices]. unfold bind at 1. unfold get at 1. cbn [fst].
    unfold to_activate. cbn [filter]. fold (to_activate self devices).
    destruct (fwupd_device_match_flags device _ _); cbn [negb andb];
      [| apply IH].
    destruct (fwupd_device_has_flag device FWUPD_DEVICE_FLAG_NEEDS_ACTIVATION);
      cbn [negb]; [| apply IH].
    unfold bind at 1. unfold activate_device at 1. cbn [fst snd].
    destruct (fwupd_client_activate (device_id device)) as [[] | e] eqn:Hact.
    + intro H. apply IH in H.
      destruct H as (-> & activated & rest & Hsplit & -> & Hinit & Hok & Hfail).
      split; [reflexivity |].
      exists (device :: activated), rest. rewrite Hsplit.
      split; [reflexivity |].
      split; [cbn [map rev]; rewrite <- app_assoc; reflexivity |].
      split; [| split].
      * destruct activated as [| a activated]; [constructor |].
        change (removelast (device :: a :: activated))
          with (device :: removelast (a :: activated)).
        constructor; assumption.
      * intro Hr. destruct (Hok Hr) as [-> Hall]. split; [reflexivity |].
        constructor; assumption.
      * intros e Hr. destruct (Hfail e Hr) as (d & Hlast & Hne & Hd).
        exists d. split; [| split; [discriminate | exact Hd]].
        destruct activated as [| a activated]; [contradiction Hne; reflexivity |].
        exact Hlast.
    + intro H. injection H as <- <- <-.
      split; [reflexivity |].
      exists [device], (to_activate self devices).
      split; [reflexivity |]. split; [reflexivity |].
      split; [constructor |]. split; [discriminate |].
      intros e' He'. injection He' as <-.
      exists device. split; [reflexivity |]. split; [discriminate | exact Hact].
Qed.

Lemma asks_get_device_by_id (id : string) :
  asks (fu_util_get_device_by_id client fwupd_guid_is_valid
          fwupd_device_array_filter_flags id).
Proof.
  unfold fu_util_get_device_by_id.
  destruct (fwupd_guid_is_valid id).
  - apply asks_bind; [apply asks_lift_result | intro devices].
    apply asks_prompt_for_device.
  - destruct (has_dash id); [apply asks_fail | apply asks_lift_result].
Qed.

(** What [fu_util_activate] has asked of the daemon when it returns. *)
Lemma activate_log (values : list string) (self self' : FuUtil)
    (log log' : list string) (r : Result unit) :
  fu_util_activate values (self, log) = (r, (self', log')) ->
  (log' = log /\ exists e, r = Failed e) \/
  exists devices activated rest,
    (values = [] /\ fwupd_client_get_devices client = Ok devices \/
     exists id device,
       values = [id] /\ devices = [device] /\
       fst (fu_util_get_device_by_id client fwupd_guid_is_valid
              fwupd_device_array_filter_flags id self) = Ok device) /\
    existsb (fun device =>
               fwupd_device_has_flag device FWUPD_DEVICE_FLAG_NEEDS_ACTIVATION)
            devices = true /\
    to_activate self devices = activated ++ rest /\
    log' = rev (map device_id activated) ++ log /\
    (r = Ok tt ->
     rest = [] /\
     Forall (fun device => fwupd_client_activate (device_id device) = Ok tt)
            activated) /\
    (forall e, r = Failed e ->
     exists device, last activated device = device /\ activated <> [] /\
                    fwupd_client_activate (device_id device) = Failed e).
Proof.
  unfold fu_util_activate. intro H.
  apply bind_inv in H. destruct H as [([devices pending] & s1 & Hfound & H) | (e & Hfound & ->)].
  2: { left. split; [| eauto].
       destruct values as [| id [| extra values]].
       - apply bind_inv in Hfound.
         destruct Hfound as [(d & s1 & Hd & Hret) | (e' & Hd & _)].
         + apply ret_any_inv in Hret. destruct Hret as [Hret _]. discriminate Hret.
         + apply lift_result_inv in Hd. destruct Hd as [_ Hd].
           injection Hd as _ <-. reflexivity.
       - apply bind_inv in Hfound.
         destruct Hfound as [(d & s1 & Hd & Hret) | (e' & Hd & _)].
         + apply ret_any_inv in Hret. destruct Hret as [Hret _]. discriminate Hret.
         + unfold on_util in Hd. cbn [fst snd] in Hd.
           destruct (fu_util_get_device_by_id _ _ _ id self) as [r0 u0].
           injection Hd as _ _ <-. reflexivity.
       - apply fail_inv in Hfound. destruct Hfound as [_ Hs].
         injection Hs as _ <-. reflexivity. }
  cbn [fst snd] in H.
  assert (Hstate : exists answers,
            s1 = (set_console_input answers self, log) /\
            (values = [] /\ fwupd_client_get_devices client = Ok devices \/
             exists id device,
               values = [id] /\ devices = [device] /\
               fst (fu_util_get_device_by_id client fwupd_guid_is_valid
                      fwupd_device_array_filter_flags id self) = Ok device) /\
            pending = existsb (fun device =>
                                 fwupd_device_has_flag device
                                   FWUPD_DEVICE_FLAG_NEEDS_ACTIVATION) devices).
  { destruct values as [| id [| extra values]].
    - apply bind_inv in Hfound.
      destruct Hfound as [(d & s2 & Hd & Hret) | (e' & _ & He)]; [| discriminate He].
      apply lift_result_inv in Hd. destruct Hd as [Hd ->].
      apply ret_inv in Hret. destruct Hret as [Hret <-].
      injection Hret as <- <-.
      exists (console_input self). split; [destruct self; reflexivity |].
      split; [left; auto | reflexivity].
    - apply bind_inv in Hfound.
      destruct Hfound as [(d & s2 & Hd & Hret) | (e' & _ & He)]; [| discriminate He].
      apply ret_inv in Hret. destruct Hret as [Hret <-].
      injection Hret as <- <-.
      unfold on_util in Hd. cbn [fst snd] in Hd.
      destruct (fu_util_get_device_by_id _ _ _ id self) as [r0 u0] eqn:Hget.
      injection Hd as -> <-.
      pose proof (asks_get_device_by_id _ _ _ _ Hget) as Hframe.
      unfold only_console in Hframe.
      exists (console_input u0). split; [rewrite Hframe at 1; reflexivity |].
      split; [right; exists id, d; rewrite Hget; auto |].
      cbn [existsb]. rewrite orb_false_r. reflexivity.
    - apply fail_inv in Hfound. destruct Hfound as [Hfound _]. discriminate Hfound. }
  destruct Hstate as (answers & -> & Hdevices & ->).
  destruct (existsb _ devices) eqn:Hpending; cbn [negb] in H.
  2: { apply fail_inv in H. destruct H as [-> H]. injection H as _ <-.
       left. eauto. }
  apply activate_devices_log in H.
  destruct H as (_ & activated & rest & Hsplit & Hlog & _ & Hok & Hfail).
  right. exists devices, activated, rest.
  split; [exact Hdevices |]. split; [exact Hpending |].
  split; [exact Hsplit |]. auto.
Qed.

(** The devices that [fu_util_activate] was pointed at: every device of the
    daemon, or the one named. *)
Definition pointed_at (values : list string) (self : FuUtil)
    (devices : list FwupdDevice) : Prop :=
  values = [] /\ fwupd_client_get_devices client = Ok devices \/
  exists id device,
    values = [id] /\ devices = [device] /\
    fst (fu_util_get_device_by_id client fwupd_guid_is_valid
           fwupd_device_array_filter_flags id self) = Ok device.

Lemma activate_nothing_to_do (values : list string) (self : FuUtil)
    (log : list string) (devices : list FwupdDevice) :
  pointed_at values self devices ->
  existsb (fun device =>
             fwupd_device_has_flag device FWUPD_DEVICE_FLAG_NEEDS_ACTIVATION)
          devices = false ->
  fst (fu_util_activate values (self, log))
  = Failed (fwupd_error FWUPD_ERROR_NOTHING_TO_DO "No firmware to activate") /\
  snd (snd (fu_util_activate values (self, log))) = log.
Proof.
  intros [[-> Hget] | (id & device & -> & -> & Hget)] Hnone.
  - unfold fu_util_activate, bind, lift_result, ret. rewrite Hget.
    cbn [fst snd]. rewrite Hnone. cbn [negb]. split; reflexivity.
  - unfold fu_util_activate, bind, on_util, ret. cbn [fst snd].
    destruct (fu_util_get_device_by_id client fwupd_guid_is_valid
                fwupd_device_array_filter_flags id self) as [r0 u0].
    cbn [fst] in Hget. subst r0. cbn [fst snd].
    cbn [existsb] in Hnone. rewrite orb_false_r in Hnone. rewrite Hnone.
    cbn [negb]. split; reflexivity.
Qed.

(** [fu_util_activate] asks the daemon to activate devices only among those
    it was pointed at (every device of the daemon, or the one named), and of
    these exactly the ones that pass the device filter and need activation,
    in order, until one fails.  When none of the devices it was pointed at
    needs activation it fails with the NothingToDo error 'No firmware to
    activate' and asks for nothing; this test leaves the device filter aside,
    so the command can succeed without having asked for any activation.
    With two values or more it fails with 'Invalid arguments'. *)
Theorem activate_only_pending (values : list string) (self self' : FuUtil)
    (log log' : list string) (r : Result unit) :
  fu_util_activate values (self, log) = (r, (self', log')) ->
  ((log' = log /\ exists e, r = Failed e) \/
  exists devices activated rest,
    (values = [] /\ fwupd_client_get_devices client = Ok devices \/
     exists id device,
       values = [id] /\ devices = [device] /\
       fst (fu_util_get_device_by_id client fwupd_guid_is_valid
              fwupd_device_array_filter_flags id self) = Ok device) /\
    existsb (fun device =>
               fwupd_device_has_flag device FWUPD_DEVICE_FLAG_NEEDS_ACTIVATION)
            devices = true /\
    to_activate self devices = activated ++ rest /\
    log' = rev (map device_id activated) ++ log /\
    (r = Ok tt ->
     rest = [] /\
     Forall (fun device => fwupd_client_activate (device_id device) = Ok tt)
            activated) /\
    (forall e, r = Failed e ->
     exists device, last activated device = device /\ activated <> [] /\
                    fwupd_client_activate (device_id device) = Failed e)) /\
  (forall devices,
     (values = [] /\ fwupd_client_get_devices client = Ok devices \/
      exists id device,
        values = [id] /\ devices = [device] /\
        fst (fu_util_get_device_by_id client fwupd_guid_is_valid
               fwupd_device_array_filter_flags id self) = Ok device) ->
     existsb (fun device =>
                fwupd_device_has_flag device FWUPD_DEVICE_FLAG_NEEDS_ACTIVATION)
             devices = false ->
     r = Failed (fwupd_error FWUPD_ERROR_NOTHING_TO_DO "No firmware to activate") /\
     log' = log) /\
  ((2 <= length values)%nat ->
   r = Failed (fwupd_error FWUPD_ERROR_INVALID_ARGS "Invalid arguments") /\
   log' = log).
Proof.
  intro H. split; [exact (activate_log _ _ _ _ _ _ H) |]. split.
  - intros devices Hdevices Hnone.
    destruct (activate_nothing_to_do values self log devices Hdevices Hnone)
      as [Hr Hlog].
    rewrite H in Hr, Hlog. cbn [fst snd] in Hr, Hlog. split; assumption.
  - intro Hlen. destruct values as [| id [| extra values]];
      [cbn in Hlen; lia | cbn in Hlen; lia |].
    unfold fu_util_activate, bind, fail in H.
    injection H as <- _ <-. split; reflexivity.
Qed.

End Activation.

(** ** A device named by its ID *)

(** For an ID that is neither a GUID nor dashed, the device is the one the
    daemon returns: the device filter of the front end is not consulted. *)
Lemma fu_util_get_device_by_id_unfiltered (client : FwupdClient)
    (fwupd_guid_is_valid : string -> bool)
    (fwupd_device_array_filter_flags :
       list FwupdDevice -> Z -> Z -> Result (list FwupdDevice))
    (id : string) (rest : list string) (self : FuUtil) :
  fwupd_guid_is_valid id = false ->
  has_dash id = false ->
  fu_util_get_device_or_prompt client fwupd_guid_is_valid
    fwupd_device_array_filter_flags (id :: rest) self
  = (fwupd_client_get_device_by_id client id, self).
Proof.
  intros Hguid Hdash.
  unfold fu_util_get_device_or_prompt, fu_util_get_device_by_id.
  rewrite Hguid, Hdash. reflexivity.
Qed.

(** A dock on the default branch that is updatable but does not carry
    has-multiple-branches, and the one release the daemon has for it, on the
    branch [alt]. *)
Definition dock : FwupdDevice :=
  mkFwupdDevice "dev1" "Dock" "1.0" 1 None
                (FwupdDeviceFlags_of FWUPD_DEVICE_FLAG_UPDATABLE) None.

Definition alt_release : FwupdRelease :=
  mkFwupdRelease "1.1" (Some "alt"%string) 0 None [].

(** A second dock, which has several branches and is on the branch [alt]. *)
Definition alt_dock : FwupdDevice :=
  mkFwupdDevice "dev2" "Dock II" "1.1" 1 (Some "alt"%string)
                (Z.lor (FwupdDeviceFlags_of FWUPD_DEVICE_FLAG_HAS_MULTIPLE_BRANCHES)
                       (FwupdDeviceFlags_of FWUPD_DEVICE_FLAG_UPDATABLE))
                None.

Definition sample_client : FwupdClient :=
  mkFwupdClient
    (Ok [dock])
    (fun _ => Ok [dock])
    (fun id => if String.eqb id "dev1" then Ok dock
               else if String.eqb id "dev2" then Ok alt_dock
               else Failed (fwupd_error FWUPD_ERROR_NOT_FOUND "no such device"))
    (fun _ => Ok [alt_release])
    (fun _ => Failed (fwupd_error FWUPD_ERROR_NOT_FOUND "no such remote"))
    "Laptop"
    (fun _ _ _ _ => Ok tt).

(** A user who agrees to everything. *)
Definition agreeing : Prompts :=
  mkPrompts (fun _ _ _ => Ok tt) (fun _ => Ok tt) (fun _ _ => Ok tt)
            (fun _ _ => Ok tt) (fun _ _ _ => Ok tt) (fun _ => Ok tt).

(** A GUID is 36 characters long. *)
Definition sample_guid_is_valid (id : string) : bool :=
  Nat.eqb (String.length id) 36.

(** The devices with every flag of [include] and none of [exclude]; an error
    when there is none. *)
Definition sample_filter_flags (devices : list FwupdDevice) (include exclude : Z)
  : Result (list FwupdDevice) :=
  match filter (fun dev => (Z.land (device_flags dev) include =? include)
                           && (Z.land (device_flags dev) exclude =? 0))
               devices with
  | [] => Failed (fwupd_error FWUPD_ERROR_NOTHING_TO_DO "no devices")
  | l => Ok l
  end.

Definition sample_match_flags (rel : FwupdRelease) (include exclude : Z) : bool :=
  (Z.land (release_flags rel) include =? include)
  && (Z.land (release_flags rel) exclude =? 0).

Definition sample_branch_for_display (branch : option string) : string :=
  match branch with
  | Some b => b
  | None => "default"
  end.

Definition fresh_util : FuUtil :=
  mkFuUtil 0 0 true false false false false FU_UTIL_OPERATION_UNKNOWN 0 0 0 0 0
           [] [].

Definition sample_switch_branch (values : list string) : Result unit * FuUtil :=
  fu_util_switch_branch sample_client agreeing sample_guid_is_valid
    sample_filter_flags sample_match_flags sample_branch_for_display
    values fresh_util.

(** C5: with the device named by its ID, [fu_util_switch_branch] installs a
    release of another branch, with allow-branch-switch set, on a device that
    does not carry has-multiple-branches; the device filter that the function
    sets up for this check is only applied when the device is found by GUID
    or at the prompt, where the same device is turned down. *)
Theorem switch_branch_by_id_skips_branch_check :
  fwupd_device_has_flag dock FWUPD_DEVICE_FLAG_HAS_MULTIPLE_BRANCHES = false /\
  fst (sample_switch_branch ["dev1"; "alt"]%string) = Ok tt /\
  installs (snd (sample_switch_branch ["dev1"; "alt"]%string))
  = [mkInstallCall dock alt_release
       (mask_add (FwupdInstallFlags_of FWUPD_INSTALL_FLAG_ALLOW_REINSTALL)
                 (FwupdInstallFlags_of FWUPD_INSTALL_FLAG_ALLOW_BRANCH_SWITCH))] /\
  fst (sample_switch_branch [])
  = Failed (fwupd_error FWUPD_ERROR_NOTHING_TO_DO "no devices") /\
  installs (snd (sample_switch_branch [])) = [].
Proof.
  assert (Hid : sample_switch_branch ["dev1"; "alt"]%string
    = (Ok tt,
       mkFuUtil 6 0 true false false false false FU_UTIL_OPERATION_INSTALL 0
         (Z.lor (FwupdDeviceFlags_of FWUPD_DEVICE_FLAG_HAS_MULTIPLE_BRANCHES)
                (FwupdDeviceFlags_of FWUPD_DEVICE_FLAG_UPDATABLE))
         0 0 0 []
         [mkInstallCall dock alt_release 6])) by (vm_compute; reflexivity).
  assert (Hprompt : sample_switch_branch []
    = (Failed (fwupd_error FWUPD_ERROR_NOTHING_TO_DO "no devices"),
       set_filter_device_include
         (Z.lor (FwupdDeviceFlags_of FWUPD_DEVICE_FLAG_HAS_MULTIPLE_BRANCHES)
                (FwupdDeviceFlags_of FWUPD_DEVICE_FLAG_UPDATABLE))
         fresh_util)) by (vm_compute; reflexivity).
  rewrite Hid, Hprompt. cbn [fst snd installs set_filter_device_include].
  repeat split.
Qed.

(** On every path, a switch to the branch the device is on is refused with a
    NotSupported error before anything is asked of the daemon. *)
Example switch_to_current_branch_refused :
  sample_switch_branch ["dev2"; "alt"]%string
  = (Failed (fwupd_error FWUPD_ERROR_NOT_SUPPORTED
               "Device Dock II is already on branch alt"),
     set_filter_device_include
       (Z.lor (FwupdDeviceFlags_of FWUPD_DEVICE_FLAG_HAS_MULTIPLE_BRANCHES)
              (FwupdDeviceFlags_of FWUPD_DEVICE_FLAG_UPDATABLE))
       fresh_util).
Proof. vm_compute. reflexivity. Qed.


(** An invocation of fwupdmgr, of a build without [SUPPORTED_BUILD], that gets
    as far as the command. *)
Definition sample_invocation (ret : CommandResult) : Invocation :=
  mkInvocation false None (Ok tt) false None None (Ok tt) false (Ok tt) false
               (Ok tt) (Ok tt) (Ok tt) ret.



Example exit_codes_of_fwupdmgr :
  map (fun code => main (sample_invocation
                           (CommandFailed (Some (fwupd_error code "failed")))))
      [FWUPD_ERROR_NOTHING_TO_DO; FWUPD_ERROR_NOT_REACHABLE;
       FWUPD_ERROR_NOT_FOUND; FWUPD_ERROR_INVALID_ARGS; FWUPD_ERROR_INTERNAL]
  = [Some 2; Some 3; Some 4; Some 1; Some 1]
  /\ main (sample_invocation CommandOk) = Some 0.
Proof. split; reflexivity. Qed.

(** A daemon that cannot be reached fails the set-up, not the command: the
    exit code is 1 whatever the kind of the error. *)
Example unreachable_daemon_exit_code :
  main (mkInvocation false None (Ok tt) false None None
          (Failed (fwupd_error FWUPD_ERROR_NOT_REACHABLE
                     "Failed to connect to daemon"))
          false (Ok tt) false (Ok tt) (Ok tt) (Ok tt) CommandOk)
  = Some 1.
Proof. reflexivity. Qed.

(** ** Sample runs of the install commands *)

Lemma fu_util_switch_branch_installs_witness :
  installs (snd (sample_switch_branch ["dev1"; "alt"]%string)) = installs fresh_util \/
  exists dev rel,
    installs (snd (sample_switch_branch ["dev1"; "alt"]%string))
    = mkInstallCall dev rel
        (mask_add
           (mask_add (flags fresh_util)
              (FwupdInstallFlags_of FWUPD_INSTALL_FLAG_ALLOW_REINSTALL))
           (FwupdInstallFlags_of FWUPD_INSTALL_FLAG_ALLOW_BRANCH_SWITCH))
      :: installs fresh_util /\
    release_branch rel <> device_branch dev /\
    fwupd_device_has_flag dev FWUPD_DEVICE_FLAG_UPDATABLE = true.
Proof.
  destruct (sample_switch_branch ["dev1"; "alt"]%string) as [r self'] eqn:Hrun.
  unfold sample_switch_branch in Hrun. cbn [snd].
  exact (fu_util_switch_branch_installs sample_client agreeing
           sample_guid_is_valid sample_filter_flags sample_match_flags
           sample_branch_for_display ["dev1"; "alt"]%string fresh_util self' r Hrun).
Defined.

(** A user who types 2 at the first prompt. *)
Definition picking_second : FuUtil :=
  set_console_input [2] fresh_util.

Lemma prompt_for_device_choice_witness :
  fu_util_prompt_for_device sample_filter_flags [dock; alt_dock] picking_second
  = (Ok alt_dock, fresh_util) /\
  exists filtered,
    sample_filter_flags [dock; alt_dock] (filter_device_include picking_second)
                        (filter_device_exclude picking_second) = Ok filtered /\
    In alt_dock filtered.
Proof.
  assert (Hrun : fu_util_prompt_for_device sample_filter_flags [dock; alt_dock]
                   picking_second = (Ok alt_dock, fresh_util))
    by (vm_compute; reflexivity).
  split; [exact Hrun |].
  destruct (prompt_for_device_choice sample_filter_flags [dock; alt_dock]
              alt_dock picking_second fresh_util Hrun)
    as (filtered & Hfilter & Hin & _).
  exists filtered. split; assumption.
Defined.

(** An older release of the dock, from a remote that the daemon does not
    know. *)
Definition old_release : FwupdRelease :=
  mkFwupdRelease "0.9" None 0 (Some "lvfs"%string) ["dock-0.9.cab"%string].

Definition sample_release_filter (rels : list FwupdRelease) (include exclude : Z)
  : Result (list FwupdRelease) :=
  match filter (fun rel => sample_match_flags rel include exclude) rels with
  | [] => Failed (fwupd_error FWUPD_ERROR_NOTHING_TO_DO "no releases")
  | l => Ok l
  end.

Definition sample_downgrade (values : list string) (self : FuUtil)
  : Result unit * FuUtil :=
  fu_util_downgrade sample_client agreeing sample_guid_is_valid
    sample_filter_flags sample_release_filter (fun _ => Ok [old_release])
    values self.

(** The downgrade is asked of the daemon, and the command still fails: the
    remote of the release cannot be looked up. *)
Example sample_downgrade_result :
  sample_downgrade ["dev1"%string] fresh_util
  = (Failed (fwupd_error FWUPD_ERROR_NOT_FOUND "no such remote"),
     mkFuUtil (FwupdInstallFlags_of FWUPD_INSTALL_FLAG_ALLOW_OLDER)
       0 true false false false false FU_UTIL_OPERATION_DOWNGRADE 0
       (FwupdDeviceFlags_of FWUPD_DEVICE_FLAG_SUPPORTED) 0 0 0 []
       [mkInstallCall dock old_release
          (FwupdInstallFlags_of FWUPD_INSTALL_FLAG_ALLOW_OLDER)]).
Proof. vm_compute. reflexivity. Qed.

(** With allow-reinstall among the flags nothing is asked. *)
Example downgrade_with_allow_reinstall :
  sample_downgrade ["dev1"%string]
    (set_flags (FwupdInstallFlags_of FWUPD_INSTALL_FLAG_ALLOW_REINSTALL) fresh_util)
  = (Failed (fwupd_error FWUPD_ERROR_INVALID_ARGS
               "--allow-reinstall is not supported for this command"),
     set_flags (FwupdInstallFlags_of FWUPD_INSTALL_FLAG_ALLOW_REINSTALL) fresh_util).
Proof. vm_compute. reflexivity. Qed.

Lemma downgrade_installs_witness :
  fst (sample_downgrade ["dev1"%string] fresh_util)
  = Failed (fwupd_error FWUPD_ERROR_NOT_FOUND "no such remote") /\
  ((installs (snd (sample_downgrade ["dev1"%string] fresh_util))
    = installs fresh_util /\
    exists e, fst (sample_downgrade ["dev1"%string] fresh_util) = Failed e) \/
   exists dev rel,
     fwupd_device_has_flag dev FWUPD_DEVICE_FLAG_UPDATABLE = true /\
     installs (snd (sample_downgrade ["dev1"%string] fresh_util))
     = mkInstallCall dev rel
         (mask_add (flags fresh_util)
            (FwupdInstallFlags_of FWUPD_INSTALL_FLAG_ALLOW_OLDER))
       :: installs fresh_util).
Proof.
  destruct (sample_downgrade ["dev1"%string] fresh_util) as [r self'] eqn:Hrun.
  assert (Hr : r = Failed (fwupd_error FWUPD_ERROR_NOT_FOUND "no such remote")).
  { rewrite sample_downgrade_result in Hrun. injection Hrun as <- _. reflexivity. }
  split; [exact Hr |].
  unfold sample_downgrade in Hrun. cbn [fst snd].
  destruct (downgrade_installs sample_client agreeing sample_guid_is_valid
              sample_filter_flags sample_release_filter
              (fun _ => Ok [old_release]) ["dev1"%string] fresh_util self' r Hrun)
    as [_ [Hnone | (dev & rel & rels & filtered & _ & _ & _ & _ & Hupd & Hinst & _)]].
  - left. exact Hnone.
  - right. exists dev, rel. split; assumption.
Defined.

Definition sample_reinstall (values : list string) : Result unit * FuUtil :=
  fu_util_reinstall sample_client agreeing sample_guid_is_valid
    sample_filter_flags FuTool.sample_version_compare values fresh_util.

(** The second dock is at version 1.1, which the daemon has a release of. *)
Example sample_reinstall_result :
  sample_reinstall ["dev2"%string]
  = (Ok tt,
     mkFuUtil (FwupdInstallFlags_of FWUPD_INSTALL_FLAG_ALLOW_REINSTALL)
       0 true false false false false FU_UTIL_OPERATION_INSTALL 0
       (FwupdDeviceFlags_of FWUPD_DEVICE_FLAG_SUPPORTED) 0 0 0 []
       [mkInstallCall alt_dock alt_release
          (FwupdInstallFlags_of FWUPD_INSTALL_FLAG_ALLOW_REINSTALL)]).
Proof. vm_compute. reflexivity. Qed.

(** The first dock is at version 1.0, which the daemon has no release of. *)
Example reinstall_without_release :
  sample_reinstall ["dev1"%string]
  = (Failed (fwupd_error FWUPD_ERROR_NOT_SUPPORTED
               "Unable to locate release 1.0 for Dock"),
     set_filter_device_include
       (FwupdDeviceFlags_of FWUPD_DEVICE_FLAG_SUPPORTED) fresh_util).
Proof. vm_compute. reflexivity. Qed.

Lemma fwupdmgr_reinstall_installs_witness :
  fst (sample_reinstall ["dev2"%string]) = Ok tt /\
  ((installs (snd (sample_reinstall ["dev2"%string])) = installs fresh_util /\
    exists e, fst (sample_reinstall ["dev2"%string]) = Failed e) \/
   exists dev rel,
     FuTool.sample_version_compare (release_version rel) (device_version dev)
       (device_version_format dev) = 0 /\
     installs (snd (sample_reinstall ["dev2"%string]))
     = mkInstallCall dev rel
         (mask_add (flags fresh_util)
            (FwupdInstallFlags_of FWUPD_INSTALL_FLAG_ALLOW_REINSTALL))
       :: installs fresh_util).
Proof.
  destruct (sample_reinstall ["dev2"%string]) as [r self'] eqn:Hrun.
  assert (Hr : r = Ok tt).
  { rewrite sample_reinstall_result in Hrun. injection Hrun as <- _. reflexivity. }
  split; [exact Hr |].
  unfold sample_reinstall in Hrun. cbn [fst snd].
  destruct (fwupdmgr_reinstall_installs sample_client agreeing
              sample_guid_is_valid sample_filter_flags
              FuTool.sample_version_compare ["dev2"%string] fresh_util self' r Hrun)
    as [Hnone | (dev & rel & before & after & _ & _ & Hsame & _ & Hinst & _)].
  - left. exact Hnone.
  - right. exists dev, rel. split; assumption.
Defined.

(** A dock with a staged update, and a daemon that has it and the first
    dock. *)
Definition staged_dock : FwupdDevice :=
  mkFwupdDevice "dev4" "Staged dock" "2.0" 1 None
                (Z.lor (FwupdDeviceFlags_of FWUPD_DEVICE_FLAG_UPDATABLE)
                       (FwupdDeviceFlags_of FWUPD_DEVICE_FLAG_NEEDS_ACTIVATION))
                None.

Definition staging_client : FwupdClient :=
  mkFwupdClient
    (Ok [dock; staged_dock])
    (fun _ => Ok [staged_dock])
    (fun _ => Ok staged_dock)
    (fun _ => Ok [])
    (fun _ => Failed (fwupd_error FWUPD_ERROR_NOT_FOUND "no such remote"))
    "Laptop"
    (fun _ _ _ _ => Ok tt).

Definition sample_device_match_flags (dev : FwupdDevice) (include exclude : Z)
  : bool :=
  (Z.land (device_flags dev) include =? include)
  && (Z.land (device_flags dev) exclude =? 0).

Definition sample_activate (self : FuUtil) : Result unit * Session :=
  fu_util_activate staging_client sample_guid_is_valid sample_filter_flags
    sample_device_match_flags (fun _ => Ok tt) [] (self, []).

Example sample_activate_result :
  sample_activate fresh_util = (Ok tt, (fresh_util, ["dev4"%string])).
Proof. vm_compute. reflexivity. Qed.

(** With a device filter that the staged dock does not pass, the command
    succeeds and no activation is asked for. *)
Example activate_filtered_out :
  sample_activate
    (set_filter_device_include
       (FwupdDeviceFlags_of FWUPD_DEVICE_FLAG_SUPPORTED) fresh_util)
  = (Ok tt,
     (set_filter_device_include
        (FwupdDeviceFlags_of FWUPD_DEVICE_FLAG_SUPPORTED) fresh_util, [])).
Proof. vm_compute. reflexivity. Qed.

(** A daemon whose only device has no staged update. *)
Definition idle_client : FwupdClient :=
  mkFwupdClient
    (Ok [dock])
    (fun _ => Ok [dock])
    (fun _ => Ok dock)
    (fun _ => Ok [])
    (fun _ => Failed (fwupd_error FWUPD_ERROR_NOT_FOUND "no such remote"))
    "Laptop"
    (fun _ _ _ _ => Ok tt).

Example activate_nothing_staged :
  fu_util_activate idle_client sample_guid_is_valid sample_filter_flags
    sample_device_match_flags (fun _ => Ok tt) [] (fresh_util, [])
  = (Failed (fwupd_error FWUPD_ERROR_NOTHING_TO_DO "No firmware to activate"),
     (fresh_util, [])).
Proof. vm_compute. reflexivity. Qed.

Lemma activate_only_pending_witness :
  fst (sample_activate fresh_util) = Ok tt /\
  ((snd (snd (sample_activate fresh_util)) = [] /\
    exists e, fst (sample_activate fresh_util) = Failed e) \/
   exists activated,
     to_activate sample_device_match_flags fresh_util [dock; staged_dock]
     = activated /\
     snd (snd (sample_activate fresh_util)) = rev (map device_id activated) ++ []).
Proof.
  destruct (sample_activate fresh_util) as [r [self' log']] eqn:Hrun.
  assert (Hr : r = Ok tt).
  { rewrite sample_activate_result in Hrun. injection Hrun as <- _ _. reflexivity. }
  split; [exact Hr |]. unfold sample_activate in Hrun. cbn [fst snd].
  destruct (activate_only_pending staging_client sample_guid_is_valid
              sample_filter_flags sample_device_match_flags (fun _ => Ok tt)
              [] fresh_util self' [] log' r Hrun)
    as [[Hnone | (devices & activated & rest & Hdevices & _ & Hsplit & Hlog & Hok & _)]
        _].
  - left. exact Hnone.
  - right. exists activated. split; [| exact Hlog].
    destruct (Hok Hr) as [-> _]. rewrite app_nil_r in Hsplit.
    destruct Hdevices as [[_ Hget] | (id & device & Hvalues & _)];
      [| discriminate Hvalues].
    cbn [fwupd_client_get_devices staging_client] in Hget.
    injection Hget as <-. exact Hsplit.
Defined.

End FuUtil.
